(** * Gateway template synchronisation: token codec, backoff driver,
      agent resolver, provisioning renderer and sync orchestrator.

    A shallow embedding of
      backend/app/core/agent_tokens.py
      backend/app/services/agent_provisioning.py
      backend/app/services/template_sync.py
    together with the properties stated about them.

    Conventions.
    - Python [str] is a list of characters ([str := list ascii]): the code
      points below 256, on which [lower], [strip], [splitlines] and [int]
      act as Python does.
    - Python [bytes] is [list byte].
    - A call that may raise returns an [outcome]; code that also touches the
      clock, the random source, the gateway or the database lives in the
      monad [M].
    - Event-loop time is a rational number of seconds. *)

From Stdlib Require Import String Ascii Strings.Byte DecimalString.
From Stdlib Require Import List Bool Arith NArith ZArith QArith.
From Stdlib Require Import Qminmax Qround Lia Lqa Permutation Sorted.
Import ListNotations.

Set Implicit Arguments.
Unset Strict Implicit.

Local Open Scope list_scope.

(* ================================================================== *)
(** ** Python strings *)
(* ================================================================== *)

Module Py.

Definition str := list ascii.
Definition bytes := list byte.

(** String literals are written [lit "..."]. *)
Definition lit (s : string) : str := list_ascii_of_string s.

Definition chr (n : nat) : ascii := ascii_of_nat n.
Definition ord (c : ascii) : nat := nat_of_ascii c.

Definition in_range (lo hi : nat) (c : ascii) : bool :=
  (lo <=? ord c)%nat && (ord c <=? hi)%nat.

Definition is_upper (c : ascii) : bool := in_range 65 90 c.
Definition is_lower (c : ascii) : bool := in_range 97 122 c.
Definition is_digit (c : ascii) : bool := in_range 48 57 c.

(** [str.lower()]: A-Z, and the capital letters U+00C0 to U+00DE (U+00D7,
    the multiplication sign, is none). *)
Definition lower_char (c : ascii) : ascii :=
  if is_upper c || (in_range 192 222 c && negb (ord c =? 215)%nat)
  then chr (ord c + 32) else c.
Definition lower (s : str) : str := map lower_char s.

(** Characters removed by [str.strip()] with no argument: those for which
    [str.isspace()] holds, among them U+0085 and U+00A0. *)
Definition is_space (c : ascii) : bool :=
  in_range 9 13 c || in_range 28 32 c
  || (ord c =? 133)%nat || (ord c =? 160)%nat.

Fixpoint str_eqb (a b : str) : bool :=
  match a, b with
  | [], [] => true
  | x :: a', y :: b' => Ascii.eqb x y && str_eqb a' b'
  | _, _ => false
  end.

Fixpoint lstrip_by (p : ascii -> bool) (s : str) : str :=
  match s with
  | [] => []
  | c :: rest => if p c then lstrip_by p rest else s
  end.

Definition rstrip_by (p : ascii -> bool) (s : str) : str :=
  rev (lstrip_by p (rev s)).

Definition strip_by (p : ascii -> bool) (s : str) : str :=
  rstrip_by p (lstrip_by p s).

(** [s.strip()], [s.strip(ch)], [s.rstrip(ch)] *)
Definition strip (s : str) : str := strip_by is_space s.
Definition strip_char (ch : ascii) (s : str) : str := strip_by (Ascii.eqb ch) s.
Definition rstrip_char (ch : ascii) (s : str) : str := rstrip_by (Ascii.eqb ch) s.

(** [s.startswith(prefix)] *)
Fixpoint startswith (prefix s : str) : bool :=
  match prefix, s with
  | [], _ => true
  | p :: prefix', c :: s' => Ascii.eqb p c && startswith prefix' s'
  | _ :: _, [] => false
  end.

(** [needle in hay] *)
Fixpoint contains (needle hay : str) : bool :=
  startswith needle hay ||
  match hay with
  | [] => false
  | _ :: hay' => contains needle hay'
  end.

(** [s.split(sep)] for a one-character separator: never empty. *)
Fixpoint split (sep : ascii) (s : str) : list str :=
  match s with
  | [] => [[]]
  | c :: rest =>
      if Ascii.eqb c sep then [] :: split sep rest
      else match split sep rest with
           | [] => [[c]]
           | w :: ws => (c :: w) :: ws
           end
  end.

(** Line boundaries recognised by [str.splitlines()]: LF, VT, FF, CR, FS,
    GS, RS and U+0085. *)
Definition is_linebreak (c : ascii) : bool :=
  in_range 10 13 c || in_range 28 30 c || (ord c =? 133)%nat.

(** [s.splitlines()]: "\r\n" counts as one boundary and a final boundary
    does not open an empty last line. [cur] is the line being read,
    newest character first. *)
Fixpoint splitlines_acc (cur : str) (s : str) : list str :=
  match s with
  | [] => match cur with [] => [] | _ => [rev cur] end
  | c :: rest =>
      if is_linebreak c then
        match rest with
        | c' :: rest' =>
            if Ascii.eqb c (chr 13) && Ascii.eqb c' (chr 10)
            then rev cur :: splitlines_acc [] rest'
            else rev cur :: splitlines_acc [] rest
        | [] => [rev cur]
        end
      else splitlines_acc (c :: cur) rest
  end.
Definition splitlines (s : str) : list str := splitlines_acc [] s.

(** [ch * n] *)
Definition times (ch : ascii) (n : nat) : str := repeat ch n.

(** [str(n)] for an integer. *)
Definition str_of_Z (z : Z) : str :=
  lit (NilZero.string_of_int (Z.to_int z)).

(** Whitespace of the C locale, which [int()] skips around the number. *)
Definition is_c_space (c : ascii) : bool :=
  in_range 9 13 c || Ascii.eqb c " ".

(** What [int()] makes of a character before it reads the number: one from
    U+007F on becomes a blank if [str.isspace()] holds of it, and else "?",
    which no number admits. *)
Definition to_ascii_space (c : ascii) : ascii :=
  if (ord c <? 127)%nat then c
  else if is_space c then " "%char else "?"%char.

(** [sys.get_int_max_str_digits()], by default. *)
Definition MAX_STR_DIGITS : nat := 4300.

(** [int(s)]: surrounding whitespace, an optional sign, then decimal digits
    where single underscores may separate digits, at most [MAX_STR_DIGITS]
    of them. [None] stands for [ValueError]. *)
Definition digit_val (c : ascii) : Z := Z.of_nat (ord c - 48).

Fixpoint digits_acc (acc : Z) (prev_digit : bool) (s : str) : option Z :=
  match s with
  | [] => if prev_digit then Some acc else None
  | c :: rest =>
      if is_digit c then digits_acc (10 * acc + digit_val c) true rest
      else if Ascii.eqb c "_" && prev_digit then digits_acc acc false rest
      else None
  end.

Definition int_digits (body : str) : option Z :=
  if (MAX_STR_DIGITS <? List.length (filter is_digit body))%nat then None
  else digits_acc 0 false body.

Definition int (s : str) : option Z :=
  let t := strip_by is_c_space (map to_ascii_space s) in
  match t with
  | "-"%char :: body => option_map Z.opp (int_digits body)
  | "+"%char :: body => int_digits body
  | _ => int_digits t
  end.

(** [s or default] for strings, and truthiness of an optional string. *)
Definition or_else (s default : str) : str :=
  match s with [] => default | _ => s end.
Definition opt_or (s : option str) (default : str) : str :=
  match s with Some (c :: r) => c :: r | _ => default end.
Definition nonempty (s : str) : bool :=
  match s with [] => false | _ => true end.

End Py.
Import Py.

(* ================================================================== *)
(** ** Exceptions and fallible results *)
(* ================================================================== *)

(** The exception classes that the code raises or catches. *)
Inductive exn : Type :=
| OpenClawGatewayError (msg : str)
| TimeoutError (msg : str)
| OSError (msg : str)
| RuntimeError (msg : str)
| ValueError (msg : str)
| OverflowError (msg : str)
| OtherError (msg : str).

(** [str(exc)] *)
Definition str_of_exn (e : exn) : str :=
  match e with
  | OpenClawGatewayError m | TimeoutError m | OSError m | RuntimeError m
  | ValueError m | OverflowError m | OtherError m => m
  end.

(** [isinstance(e, OSError)]: the builtin [TimeoutError] derives from
    [OSError]. *)
Definition is_OSError (e : exn) : bool :=
  match e with TimeoutError _ | OSError _ => true | _ => false end.

(** Modelled from the spec: the declaration of [OpenClawGatewayError]
    (app.integrations.openclaw_gateway) is not among the sources; section 4.5
    step (e) says an adapter-level error raised while provisioning is caught
    by the per-agent handler, which catches [OSError], [RuntimeError] and
    [ValueError]: the adapter error is a [RuntimeError]. *)
Definition is_RuntimeError (e : exn) : bool :=
  match e with RuntimeError _ | OpenClawGatewayError _ => true | _ => false end.

Definition is_ValueError (e : exn) : bool :=
  match e with ValueError _ => true | _ => false end.

Inductive outcome (A : Type) : Type :=
| Ret (a : A)
| Raise (e : exn).
Arguments Ret {A} a.
Arguments Raise {A} e.

Definition obind {A B} (x : outcome A) (f : A -> outcome B) : outcome B :=
  match x with
  | Ret a => f a
  | Raise e => Raise e
  end.

Declare Scope outcome_scope.
Delimit Scope outcome_scope with outcome.
Notation "'try!' x <- c ; k" := (obind c (fun x => k))
  (at level 10, x name, c at level 100, k at level 200) : outcome_scope.

(* ================================================================== *)
(** ** Data model *)
(* ================================================================== *)

Definition UUID := N.

(** JSON-like payloads exchanged with the gateway. *)
#[warnings="-register-all"]
Inductive json : Type :=
| JNull
| JBool (b : bool)
| JNum (z : Z)
| JStr (s : str)
| JList (items : list json)
| JDict (fields : list (str * json)).

(** [payload.get(key)] on a dict. *)
Fixpoint dict_get (key : str) (fields : list (str * json)) : option json :=
  match fields with
  | [] => None
  | (k, v) :: rest => if str_eqb k key then Some v else dict_get key rest
  end.

Record Agent : Type := mkAgent {
  agent_id : UUID;
  agent_name : str;
  agent_board_id : option UUID;
  openclaw_session_id : option str;
  agent_token_hash : option str;
  agent_created_at : Z;
  agent_updated_at : Z
}.

Record Board : Type := mkBoard {
  board_id : UUID;
  board_gateway_id : option UUID
}.

Record BoardMemory : Type := mkBoardMemory {
  memory_board_id : UUID;
  memory_content : option str;
  memory_is_chat : bool;
  memory_created_at : Z
}.

Record Gateway : Type := mkGateway {
  gateway_id : UUID;
  gateway_url : option str;
  gateway_token : option str;
  main_session_key : option str
}.

Record GatewayClientConfig : Type := mkGatewayClientConfig {
  config_url : str;
  config_token : option str
}.

Record GatewayTemplatesSyncError : Type := mkSyncError {
  error_agent_id : option UUID;
  error_agent_name : option str;
  error_board_id : option UUID;
  error_message : str
}.

Record GatewayTemplatesSyncResult : Type := mkSyncResult {
  result_gateway_id : UUID;
  result_include_main : bool;
  result_reset_sessions : bool;
  agents_updated : nat;
  agents_skipped : nat;
  main_updated : bool;
  errors : list GatewayTemplatesSyncError
}.

(** The arguments of one provisioning request. [pc_board] is [None] for the
    gateway's main agent. *)
Record ProvisionCall : Type := mkProvisionCall {
  pc_agent : Agent;
  pc_board : option Board;
  pc_gateway : Gateway;
  pc_auth_token : str;
  pc_user : option UUID;
  pc_force_bootstrap : bool;
  pc_reset_session : bool
}.

(** What the gateway has been asked, newest first. *)
Inductive GatewayRequest : Type :=
| ReqCall (method : str) (params : option json)
| ReqProvision (call : ProvisionCall).

(* ================================================================== *)
(** ** Environment, world and the effect monad *)
(* ================================================================== *)

(** Everything the code obtains from outside, indexed by the number of
    interactions that have already taken place: a reply with the time it
    took, random draws, the overshoot of a sleep. *)
Record Env : Type := mkEnv {
  gateway_reply :
    nat -> GatewayClientConfig -> str -> option json -> outcome json * Q;
  provision_reply : nat -> ProvisionCall -> outcome unit * Q;
  random_random : nat -> Q;            (* random.random(), in [0,1) *)
  sleep_lag : nat -> Q;                (* asyncio.sleep never wakes early *)
  secrets_token_bytes : nat -> nat -> bytes;
  uuid4_hex : nat -> str;
  utcnow_at : nat -> Z;
  template_file : str -> option str    (* templates directory *)
}.

Record World : Type := mkWorld {
  clock : Q;                           (* loop.time() *)
  tick : nat;
  requests : list GatewayRequest
}.

(** An operation against the outside world. *)
Definition Op (A : Type) : Type := World -> World * outcome A.

Record _GatewayBackoff : Type := mkBackoff {
  _timeout_s : Q;
  _base_delay_s : Q;
  _max_delay_s : Q;
  _jitter : Q;
  _delay_s : Q
}.

Record Database : Type := mkDatabase {
  agents_tbl : list Agent;
  boards_tbl : list Board;
  board_memory_tbl : list BoardMemory
}.

(** The state of one run. [slept] (the arguments of [asyncio.sleep], newest
    first) and [deadline_hits] (each [TimeoutError] raised by the backoff
    driver, with the world at that instant) only record what happened. *)
Record State : Type := mkState {
  world : World;
  db : Database;
  backoff : _GatewayBackoff;
  slept : list Q;
  deadline_hits : list (str * World)
}.

Inductive res (A : Type) : Type :=
| Val (a : A)
| Exn (e : exn)
| OutOfFuel.
Arguments Val {A} a.
Arguments Exn {A} e.
Arguments OutOfFuel {A}.

Definition M (A : Type) : Type := State -> State * res A.

Definition ret {A} (a : A) : M A := fun st => (st, Val a).
Definition raise {A} (e : exn) : M A := fun st => (st, Exn e).
Definition bind {A B} (c : M A) (k : A -> M B) : M B :=
  fun st =>
    match c st with
    | (st', Val a) => k a st'
    | (st', Exn e) => (st', Exn e)
    | (st', OutOfFuel) => (st', OutOfFuel)
    end.

(** [try: c except ...: h]: [h e] is [None] when no clause matches [e]. *)
Definition catch {A} (c : M A) (h : exn -> option (M A)) : M A :=
  fun st =>
    match c st with
    | (st', Exn e) =>
        match h e with
        | Some handler => handler st'
        | None => (st', Exn e)
        end
    | other => other
    end.

Declare Scope monad_scope.
Delimit Scope monad_scope with monad.
Notation "x <- c ;; k" := (bind c (fun x => k))
  (at level 61, c at next level, right associativity) : monad_scope.
Notation "' pat <- c ;; k" :=
  (bind c (fun x => match x with pat => k end))
  (at level 61, pat pattern, c at next level, right associativity) : monad_scope.
Notation "c ;; k" := (bind c (fun _ => k))
  (at level 61, right associativity) : monad_scope.

Definition set_world (st : State) (w : World) : State :=
  mkState w (db st) (backoff st) (slept st) (deadline_hits st).
Definition set_db (st : State) (d : Database) : State :=
  mkState (world st) d (backoff st) (slept st) (deadline_hits st).
Definition set_backoff (st : State) (b : _GatewayBackoff) : State :=
  mkState (world st) (db st) b (slept st) (deadline_hits st).

(** Run an operation of the outside world inside [M]. *)
Definition perform {A} (op : Op A) : M A :=
  fun st =>
    match op (world st) with
    | (w, Ret a) => (set_world st w, Val a)
    | (w, Raise e) => (set_world st w, Exn e)
    end.

Definition lift {A} (x : outcome A) : M A :=
  match x with Ret a => ret a | Raise e => raise e end.

Section WithEnv.

Variable env : Env.

(** [openclaw_call(method, params, config=config)] *)
Definition openclaw_call (method : str) (params : option json)
    (config : GatewayClientConfig) : Op json :=
  fun w =>
    let '(reply, took) := gateway_reply env (tick w) config method params in
    (mkWorld (clock w + took) (S (tick w))
             (ReqCall method params :: requests w), reply).

(** Modelled from the spec: [provision_agent] and [provision_main_agent]
    (app.services.agent_provisioning) are not among the sources. Section 6
    describes provisioning as an opaque capability exercised against the
    gateway, so the request is handed to the environment, which answers with
    success or with the exception the call raised. *)
Definition provision_agent (call : ProvisionCall) : Op unit :=
  fun w =>
    let '(reply, took) := provision_reply env (tick w) call in
    (mkWorld (clock w + took) (S (tick w))
             (ReqProvision call :: requests w), reply).

(** [random.uniform(a, b)] is [a + (b - a) * random.random()]. *)
Definition random_uniform (a b : Q) : Op Q :=
  fun w =>
    (mkWorld (clock w) (S (tick w)) (requests w),
     Ret (a + (b - a) * random_random env (tick w))).

(** [asyncio.sleep(seconds)] *)
Definition asyncio_sleep (seconds : Q) : Op unit :=
  fun w =>
    (mkWorld (clock w + seconds + sleep_lag env (tick w)) (S (tick w))
             (requests w), Ret tt).

(** [secrets.token_bytes(n)], [uuid4().hex], [utcnow()] *)
Definition token_bytes (n : nat) : Op bytes :=
  fun w =>
    (mkWorld (clock w) (S (tick w)) (requests w),
     Ret (secrets_token_bytes env (tick w) n)).

Definition uuid4 : Op str :=
  fun w => (mkWorld (clock w) (S (tick w)) (requests w),
            Ret (uuid4_hex env (tick w))).

Definition utcnow : Op Z :=
  fun w => (w, Ret (utcnow_at env (tick w))).

End WithEnv.

(* ================================================================== *)
(** ** Base64 (Python's [base64] and [binascii]) *)
(* ================================================================== *)

Module Base64.

Definition alphabet : str :=
  lit "ABCDEFGHIJKLMNOPQRSTUVWXYZabcdefghijklmnopqrstuvwxyz0123456789+/".

Definition PAD : ascii := "="%char.

(** [table_b2a_base64] and [table_a2b_base64] *)
Definition b2a_char (sextet : N) : ascii := nth (N.to_nat sextet) alphabet PAD.

Fixpoint index_of (c : ascii) (l : str) (i : N) : option N :=
  match l with
  | [] => None
  | x :: l' => if Ascii.eqb x c then Some i else index_of c l' (N.succ i)
  end.
Definition a2b_char (c : ascii) : option N := index_of c alphabet 0%N.

Definition byte_of_N (n : N) : byte :=
  match Byte.of_N (n mod 256) with Some b => b | None => x00 end.

(** The four sextets of a group of three bytes. *)
Definition sextet0 (b0 : byte) : N := N.shiftr (Byte.to_N b0) 2.
Definition sextet1 (b0 b1 : byte) : N :=
  N.lor (N.shiftl (N.land (Byte.to_N b0) 3) 4) (N.shiftr (Byte.to_N b1) 4).
Definition sextet2 (b1 b2 : byte) : N :=
  N.lor (N.shiftl (N.land (Byte.to_N b1) 15) 2) (N.shiftr (Byte.to_N b2) 6).
Definition sextet3 (b2 : byte) : N := N.land (Byte.to_N b2) 63.

(** [binascii.b2a_base64(data, newline=False)] *)
Fixpoint b2a_base64 (data : bytes) : str :=
  match data with
  | [] => []
  | [b0] =>
      [b2a_char (sextet0 b0); b2a_char (sextet1 b0 x00); PAD; PAD]
  | [b0; b1] =>
      [b2a_char (sextet0 b0); b2a_char (sextet1 b0 b1);
       b2a_char (sextet2 b1 x00); PAD]
  | b0 :: b1 :: b2 :: rest =>
      b2a_char (sextet0 b0) :: b2a_char (sextet1 b0 b1) ::
      b2a_char (sextet2 b1 b2) :: b2a_char (sextet3 b2) :: b2a_base64 rest
  end.

Definition emit (b : N) (tail : outcome bytes) : outcome bytes :=
  match tail with
  | Ret bs => Ret (byte_of_N b :: bs)
  | Raise e => Raise e
  end.

(** The text of [binascii.Error] for one data character too many, with the
    number of data characters read: four for every three bytes written, and
    the one left over. *)
Definition excess_data_message (written : nat) : str :=
  lit "Invalid base64-encoded string: number of data characters ("
  ++ str_of_Z (Z.of_nat (written / 3 * 4 + 1))
  ++ lit ") cannot be 1 more than a multiple of 4".

(** [binascii.a2b_base64(data)] with [strict_mode=False]: characters outside
    the alphabet are skipped, a complete pad sequence ends the input, and an
    unfinished quad is an error ([binascii.Error] is a [ValueError]).
    [written] counts the bytes written so far. *)
Fixpoint a2b_loop (s : str) (quad_pos : nat) (leftchar : N) (pads : nat)
    (written : nat) : outcome bytes :=
  match s with
  | [] =>
      match quad_pos with
      | O => Ret []
      | S O => Raise (ValueError (excess_data_message written))
      | _ => Raise (ValueError (lit "Incorrect padding"))
      end
  | this_ch :: rest =>
      if Ascii.eqb this_ch PAD then
        if (2 <=? quad_pos)%nat then
          if (4 <=? quad_pos + S pads)%nat then Ret []
          else a2b_loop rest quad_pos leftchar (S pads) written
        else a2b_loop rest quad_pos leftchar pads written
      else
        match a2b_char this_ch with
        | None => a2b_loop rest quad_pos leftchar pads written
        | Some v =>
            match quad_pos with
            | 0%nat => a2b_loop rest 1 v 0 written
            | 1%nat =>
                emit (N.lor (N.shiftl leftchar 2) (N.shiftr v 4))
                     (a2b_loop rest 2 (N.land v 15) 0 (S written))
            | 2%nat =>
                emit (N.lor (N.shiftl leftchar 4) (N.shiftr v 2))
                     (a2b_loop rest 3 (N.land v 3) 0 (S written))
            | _ =>
                emit (N.lor (N.shiftl leftchar 6) v)
                     (a2b_loop rest 0 0%N 0 (S written))
            end
        end
  end.
Definition a2b_base64 (s : str) : outcome bytes := a2b_loop s 0 0%N 0 0.

(** The URL-safe alphabet swaps "+" and "/" for "-" and "_". *)
Definition urlsafe_encode_char (c : ascii) : ascii :=
  if Ascii.eqb c "+" then "-"%char
  else if Ascii.eqb c "/" then "_"%char else c.
Definition urlsafe_decode_char (c : ascii) : ascii :=
  if Ascii.eqb c "-" then "+"%char
  else if Ascii.eqb c "_" then "/"%char else c.

(** [base64.urlsafe_b64encode(data)], as text. *)
Definition urlsafe_b64encode (data : bytes) : str :=
  map urlsafe_encode_char (b2a_base64 data).

(** [base64.urlsafe_b64decode(s)] for a [str] argument: the text must be
    ASCII, else [ValueError]. *)
Definition urlsafe_b64decode (s : str) : outcome bytes :=
  if forallb (fun c => (ord c <? 128)%nat) s
  then a2b_base64 (map urlsafe_decode_char s)
  else Raise (ValueError (lit "string argument should contain only ASCII characters")).

End Base64.

(* ================================================================== *)
(** ** Token codec (app/core/agent_tokens.py) *)
(* ================================================================== *)

Definition ITERATIONS : Z := 200000.
Definition SALT_BYTES : nat := 16.

(** [s.encode("utf-8")] for code points below 256. *)
Definition encode_utf8 (s : str) : bytes :=
  flat_map (fun c =>
    let n := N_of_ascii c in
    if (n <? 128)%N then [Base64.byte_of_N n]
    else [Base64.byte_of_N (N.lor 192 (N.shiftr n 6));
          Base64.byte_of_N (N.lor 128 (N.land n 63))]) s.

Fixpoint bytes_eqb (a b : bytes) : bool :=
  match a, b with
  | [], [] => true
  | x :: a', y :: b' => Byte.eqb x y && bytes_eqb a' b'
  | _, _ => false
  end.

(** [hmac.compare_digest(a, b)] *)
Definition compare_digest (a b : bytes) : bool := bytes_eqb a b.

Definition _b64encode (value : bytes) : str :=
  rstrip_char "=" (Base64.urlsafe_b64encode value).

Definition _b64decode (value : str) : outcome bytes :=
  let padding :=
    times "=" (Z.to_nat ((- Z.of_nat (List.length value)) mod 4)) in
  Base64.urlsafe_b64decode (value ++ padding).

Section TokenCodec.

(** PBKDF2-HMAC as a function of hash name, password, salt and iteration
    count; nothing is assumed about its value. *)
Variable pbkdf2 : str -> bytes -> bytes -> Z -> bytes.

(** [hashlib.pbkdf2_hmac(name, password, salt, iterations)]: the iteration
    count is read as a C long (64 bits), and must then be positive and fit a
    C int. *)
Definition pbkdf2_hmac (name : str) (password salt : bytes) (iterations : Z)
    : outcome bytes :=
  if (iterations <? - 2 ^ 63)%Z || (2 ^ 63 - 1 <? iterations)%Z then
    Raise (OverflowError (lit "Python int too large to convert to C long"))
  else if (iterations <? 1)%Z then
    Raise (ValueError (lit "iteration value must be greater than 0."))
  else if (2147483647 <? iterations)%Z then
    Raise (OverflowError (lit "iteration value is too great."))
  else Ret (pbkdf2 name password salt iterations).

Variable env : Env.

Local Open Scope monad_scope.

Definition generate_agent_token : M str :=
  raw <- perform (token_bytes env 32) ;;
  ret (rstrip_char "=" (Base64.urlsafe_b64encode raw)).

Definition hash_agent_token (token : str) : M str :=
  salt <- perform (token_bytes env SALT_BYTES) ;;
  digest <- lift (pbkdf2_hmac (lit "sha256") (encode_utf8 token) salt ITERATIONS) ;;
  ret (lit "pbkdf2_sha256$" ++ str_of_Z ITERATIONS ++ lit "$"
       ++ _b64encode salt ++ lit "$" ++ _b64encode digest).

Local Open Scope outcome_scope.

Definition verify_agent_token (token stored_hash : str) : outcome bool :=
  match split "$" stored_hash with
  | [algorithm; iterations; salt_b64; digest_b64] =>
      if negb (str_eqb algorithm (lit "pbkdf2_sha256")) then Ret false
      else
        match Py.int iterations with
        | None => Ret false
        | Some iterations_int =>
            try! salt <- _b64decode salt_b64 ;
            try! expected_digest <- _b64decode digest_b64 ;
            try! candidate <-
              pbkdf2_hmac (lit "sha256") (encode_utf8 token) salt iterations_int ;
            Ret (compare_digest candidate expected_digest)
        end
  | _ => Ret false
  end.

End TokenCodec.

(* ================================================================== *)
(** ** Error classification and backoff driver (template_sync.py) *)
(* ================================================================== *)

Definition SESSION_KEY_PARTS_MIN : nat := 2.

Definition _NON_TRANSIENT_GATEWAY_ERROR_MARKERS : list str :=
  [lit "unsupported file"].

Definition _TRANSIENT_GATEWAY_ERROR_MARKERS : list str :=
  [lit "connect call failed";
   lit "connection refused";
   lit "errno 111";
   lit "econnrefused";
   lit "did not receive a valid http response";
   lit "no route to host";
   lit "network is unreachable";
   lit "host is down";
   lit "name or service not known";
   lit "received 1012";
   lit "service restart";
   lit "http 503";
   lit "http 502";
   lit "http 504";
   lit "temporar";
   lit "timeout";
   lit "timed out";
   lit "connection closed";
   lit "connection reset"].

(** [any(marker in message for marker in markers)] *)
Definition any_marker_in (markers : list str) (message : str) : bool :=
  existsb (fun marker => contains marker message) markers.

Definition _is_transient_gateway_error (exc : exn) : bool :=
  match exc with
  | OpenClawGatewayError _ =>
      let message := lower (str_of_exn exc) in
      if negb (nonempty message) then false
      else if any_marker_in _NON_TRANSIENT_GATEWAY_ERROR_MARKERS message
      then false
      else (contains (lit "503") message && contains (lit "websocket") message)
           || any_marker_in _TRANSIENT_GATEWAY_ERROR_MARKERS message
  | _ => false
  end.



Definition _gateway_timeout_message (exc : exn) : str :=
  lit "Gateway unreachable after 10 minutes (template sync timeout). Last error: "
  ++ str_of_exn exc.

(** [min(a, b)] and [max(a, b)]: the first argument wins a tie. *)
Definition py_min (a b : Q) : Q := if Qlt_le_dec b a then b else a.
Definition py_max (a b : Q) : Q := if Qlt_le_dec a b then b else a.

(** [_GatewayBackoff(timeout_s=..., ...)] with the defaults of [__init__]. *)
Definition new_backoff (timeout_s base_delay_s max_delay_s jitter : Q)
    : _GatewayBackoff :=
  mkBackoff timeout_s base_delay_s max_delay_s jitter base_delay_s.

Definition default_backoff (timeout_s : Q) : _GatewayBackoff :=
  new_backoff timeout_s (3 # 4) 30 (1 # 5).

Definition set_delay (self : _GatewayBackoff) (d : Q) : _GatewayBackoff :=
  mkBackoff (_timeout_s self) (_base_delay_s self) (_max_delay_s self)
            (_jitter self) d.

(** One retry of [_GatewayBackoff.run], as pure arithmetic: the time to sleep
    given the current delay, the time remaining and the draw [u] of
    [random.uniform(-jitter, jitter)]; and the delay after the retry. *)
Definition retry_sleep_s (self : _GatewayBackoff) (remaining u : Q) : Q :=
  let sleep_s := py_min (_delay_s self) remaining in
  let sleep_s :=
    if Qeq_bool (_jitter self) 0 then sleep_s else sleep_s * (1 + u) in
  py_max 0 (py_min sleep_s remaining).

Definition next_delay_s (self : _GatewayBackoff) : Q :=
  py_min (_delay_s self * 2) (_max_delay_s self).

Section Backoff.

Variable env : Env.

Local Open Scope monad_scope.

Definition get_backoff : M _GatewayBackoff := fun st => (st, Val (backoff st)).
Definition put_backoff (b : _GatewayBackoff) : M unit :=
  fun st => (set_backoff st b, Val tt).

(** [asyncio.get_running_loop().time()] *)
Definition loop_time : M Q := fun st => (st, Val (clock (world st))).

(** [self.reset()] *)
Definition reset : M unit :=
  self <- get_backoff ;;
  put_backoff (set_delay self (_base_delay_s self)).

(** [await asyncio.sleep(sleep_s)], noting the request in [slept]. *)
Definition sleep (sleep_s : Q) : M unit :=
  fun st =>
    perform (asyncio_sleep env sleep_s)
      (mkState (world st) (db st) (backoff st) (sleep_s :: slept st)
               (deadline_hits st)).

(** [raise TimeoutError(_gateway_timeout_message(exc)) from exc], noting the
    instant in [deadline_hits]. *)
Definition raise_timeout {A} (exc : exn) : M A :=
  fun st =>
    let msg := _gateway_timeout_message exc in
    (mkState (world st) (db st) (backoff st) (slept st)
             ((msg, world st) :: deadline_hits st),
     Exn (TimeoutError msg)).

(** The [while True] loop of [run]; [fuel] bounds the number of attempts. *)
Fixpoint run_loop {A} (fuel : nat) (fn : Op A) (deadline_s : Q) : M A :=
  match fuel with
  | O => fun st => (st, OutOfFuel)
  | S fuel' =>
      catch
        (value <- perform fn ;;
         reset ;;
         ret value)
        (fun exc =>
           match exc with
           | OpenClawGatewayError _ =>
               Some
                 (if negb (_is_transient_gateway_error exc) then raise exc
                  else
                    now <- loop_time ;;
                    let remaining := deadline_s - now in
                    if Qle_bool remaining 0 then raise_timeout exc
                    else
                      self <- get_backoff ;;
                      u <- (if Qeq_bool (_jitter self) 0 then ret 0
                            else perform (random_uniform env (- _jitter self)
                                                         (_jitter self))) ;;
                      sleep (retry_sleep_s self remaining u) ;;
                      put_backoff (set_delay self (next_delay_s self)) ;;
                      run_loop fuel' fn deadline_s)
           | _ => None
           end)
  end.

(** [_GatewayBackoff.run(fn)] on the backoff object of the state. *)
Definition run {A} (fuel : nat) (fn : Op A) : M A :=
  self <- get_backoff ;;
  now <- loop_time ;;
  run_loop fuel fn (now + _timeout_s self).

Definition _with_gateway_retry {A} (fuel : nat) (fn : Op A) : M A :=
  run fuel fn.

End Backoff.

(* ================================================================== *)
(** ** Agent resolver (template_sync.py) *)
(* ================================================================== *)

(** [re.sub(r"[^a-z0-9]+", "-", s)]: every maximal run of characters outside
    [a-z0-9] becomes one hyphen. [in_run] tells whether the previous
    character already belonged to such a run. *)
Definition is_slug_char (c : ascii) : bool := is_lower c || is_digit c.

Fixpoint collapse_runs (in_run : bool) (s : str) : str :=
  match s with
  | [] => []
  | c :: rest =>
      if is_slug_char c then c :: collapse_runs false rest
      else if in_run then collapse_runs true rest
      else "-"%char :: collapse_runs true rest
  end.

Definition slug_of (value : str) : str :=
  strip_char "-" (collapse_runs false (lower value)).

Section Resolver.

Variable env : Env.

Local Open Scope monad_scope.

(** [_slugify]: the slug, or [uuid4().hex] when the slug is empty. *)
Definition _slugify (value : str) : M str :=
  let slug := slug_of value in
  if nonempty slug then ret slug else perform (uuid4 env).

Definition _agent_id_from_session_key (session_key : option str) : option str :=
  let value := strip (opt_or session_key []) in
  if negb (nonempty value) then None
  else if negb (startswith (lit "agent:") value) then None
  else
    let parts := split ":" value in
    if (List.length parts <? SESSION_KEY_PARTS_MIN)%nat then None
    else
      let agent_id := strip (nth 1 parts []) in
      if nonempty agent_id then Some agent_id else None.

(** [isinstance(x, str) and x.strip()], returning the stripped text. *)
Definition stripped_text (x : option json) : option str :=
  match x with
  | Some (JStr s) => if nonempty (strip s) then Some (strip s) else None
  | _ => None
  end.

Fixpoint first_some {A B} (f : A -> option B) (l : list A) : option B :=
  match l with
  | [] => None
  | x :: l' => match f x with Some y => Some y | None => first_some f l' end
  end.

Definition _from_list (items : option json) : option str :=
  match items with
  | Some (JList l) =>
      first_some
        (fun item =>
           match item with
           | JStr _ => stripped_text (Some item)
           | JDict fields =>
               first_some (fun key => stripped_text (dict_get key fields))
                          [lit "id"; lit "agentId"; lit "agent_id"]
           | _ => None
           end) l
  | _ => None
  end.

Definition _extract_agent_id (payload : json) : option str :=
  match payload with
  | JList _ => _from_list (Some payload)
  | JDict fields =>
      match first_some (fun key => stripped_text (dict_get key fields))
              [lit "defaultId"; lit "default_id"; lit "defaultAgentId";
               lit "default_agent_id"] with
      | Some raw => Some raw
      | None =>
          first_some (fun key => _from_list (dict_get key fields))
                     [lit "agents"; lit "items"; lit "list"; lit "data"]
      end
  | _ => None
  end.

Definition _gateway_agent_id (agent : Agent) : M str :=
  let session_key := opt_or (openclaw_session_id agent) [] in
  let parts := split ":" session_key in
  if startswith (lit "agent:") session_key
     && (SESSION_KEY_PARTS_MIN <=? List.length parts)%nat
     && nonempty (nth 1 parts [])
  then ret (nth 1 parts [])
  else _slugify (agent_name agent).

(** [_TOOLS_KV_RE.match(line)]: a non-empty key of characters A-Z, 0-9 and
    underscore, an equals sign, and the rest of the line as the value. *)
Definition is_key_char (c : ascii) : bool :=
  is_upper c || is_digit c || Ascii.eqb c "_".

Fixpoint span (p : ascii -> bool) (s : str) : str * str :=
  match s with
  | [] => ([], [])
  | c :: rest =>
      if p c then let '(a, b) := span p rest in (c :: a, b) else ([], s)
  end.

Definition _TOOLS_KV_RE_match (line : str) : option (str * str) :=
  match span is_key_char line with
  | ((_ :: _) as key, "="%char :: value) => Some (key, value)
  | _ => None
  end.

(** [values[key] = value] and [values.get(key)] on a [dict[str, str]]. *)
Fixpoint values_set (key value : str) (values : list (str * str))
    : list (str * str) :=
  match values with
  | [] => [(key, value)]
  | (k, v) :: rest =>
      if str_eqb k key then (k, value) :: rest
      else (k, v) :: values_set key value rest
  end.

Fixpoint values_get (key : str) (values : list (str * str)) : option str :=
  match values with
  | [] => None
  | (k, v) :: rest => if str_eqb k key then Some v else values_get key rest
  end.

Definition _parse_tools_md (content : str) : list (str * str) :=
  fold_left
    (fun values raw =>
       let line := strip raw in
       if negb (nonempty line) || startswith (lit "#") line then values
       else
         match _TOOLS_KV_RE_match line with
         | None => values
         | Some (key, value) => values_set key (strip value) values
         end)
    (splitlines content) [].

(** The file content carried by a reply of [agents.files.get]. *)
Definition file_content_of (payload : json) : option str :=
  match payload with
  | JStr s => Some s
  | JDict fields =>
      match dict_get (lit "content") fields with
      | Some (JStr content) => Some content
      | _ =>
          match dict_get (lit "file") fields with
          | Some (JDict file_obj) =>
              match dict_get (lit "content") file_obj with
              | Some (JStr nested) => Some nested
              | _ => None
              end
          | _ => None
          end
      end
  | _ => None
  end.

Definition _get_agent_file (fuel : nat) (agent_gateway_id name : str)
    (config : GatewayClientConfig) (with_backoff : bool) : M (option str) :=
  let _do_get :=
    openclaw_call env (lit "agents.files.get")
      (Some (JDict [(lit "agentId", JStr agent_gateway_id);
                    (lit "name", JStr name)]))
      config in
  catch
    (payload <- (if with_backoff then run env fuel _do_get
                 else perform _do_get) ;;
     ret (file_content_of payload))
    (fun exc =>
       match exc with
       | OpenClawGatewayError _ => Some (ret None)
       | _ => None
       end).

(** The [AUTH_TOKEN] entry of a TOOLS.md document, if it is usable. *)
Definition auth_token_of (tools : option str) : option str :=
  match tools with
  | Some ((_ :: _) as tools) =>
      match values_get (lit "AUTH_TOKEN") (_parse_tools_md tools) with
      | Some ((_ :: _) as token) =>
          if nonempty (strip token) then Some (strip token) else None
      | _ => None
      end
  | _ => None
  end.

Definition _get_existing_auth_token (fuel : nat) (agent_gateway_id : str)
    (config : GatewayClientConfig) (with_backoff : bool) : M (option str) :=
  tools <- _get_agent_file fuel agent_gateway_id (lit "TOOLS.md") config
             with_backoff ;;
  ret (auth_token_of tools).

Definition _gateway_default_agent_id (fuel : nat) (config : GatewayClientConfig)
    (fallback_session_key : option str) (with_backoff : bool)
    : M (option str) :=
  let _do_list := openclaw_call env (lit "agents.list") None config in
  found <-
    catch
      (payload <- (if with_backoff then run env fuel _do_list
                   else perform _do_list) ;;
       ret (_extract_agent_id payload))
      (fun exc =>
         match exc with
         | OpenClawGatewayError _ => Some (ret None)
         | _ => None
         end) ;;
  match found with
  | Some agent_id => ret (Some agent_id)
  | None => ret (_agent_id_from_session_key fallback_session_key)
  end.

End Resolver.

(* ================================================================== *)
(** ** Provisioning template renderer (agent_provisioning.py) *)
(* ================================================================== *)

Definition nl : str := [chr 10].

Record Settings : Type := mkSettings {
  openclaw_workspace_root : str;
  base_url : str;
  openclaw_main_session_key : str
}.

Definition TEMPLATE_FILES : list str :=
  [lit "AGENTS.md"; lit "BOOT.md"; lit "BOOTSTRAP.md"; lit "HEARTBEAT.md";
   lit "IDENTITY.md"; lit "SOUL.md"; lit "TOOLS.md"; lit "USER.md"].

Definition _render_file_block (name content : str) : str :=
  let body :=
    if nonempty content then content
    else lit "# " ++ name ++ nl ++ nl ++ lit "TODO: add content" ++ nl in
  nl ++ name ++ nl ++ lit "```md" ++ nl ++ body ++ nl ++ lit "```" ++ nl.

Section Renderer.

Variable env : Env.
Variable settings : Settings.

Local Open Scope monad_scope.

(** [_read_templates]: the stripped text of each template file that exists,
    the empty string for one that does not. *)
Definition _read_templates : list (str * str) :=
  fold_left
    (fun templates name =>
       match template_file env name with
       | Some text => values_set name (strip text) templates
       | None => values_set name [] templates
       end)
    TEMPLATE_FILES [].

(** [templates.get(name, "")] *)
Definition templates_get (templates : list (str * str)) (name : str) : str :=
  match values_get name templates with Some text => text | None => [] end.

Definition _workspace_path (agent_name : str) : M str :=
  let root :=
    or_else (openclaw_workspace_root settings) (lit "~/.openclaw/workspaces") in
  let root := rstrip_char "/" root in
  slug <- _slugify env agent_name ;;
  ret (root ++ lit "/" ++ slug).

Definition build_provisioning_message (agent : Agent) : M str :=
  let templates := _read_templates in
  agent_id <- _slugify env (agent_name agent) ;;
  workspace_path <- _workspace_path (agent_name agent) ;;
  let session_key := opt_or (openclaw_session_id agent) [] in
  let base_url := base_url settings in
  let file_blocks :=
    concat (map (fun name => _render_file_block name (templates_get templates name))
                TEMPLATE_FILES) in
  ret (lit "Provision a new OpenClaw agent workspace." ++ nl ++ nl
       ++ lit "Agent name: " ++ agent_name agent ++ nl
       ++ lit "Agent id: " ++ agent_id ++ nl
       ++ lit "Session key: " ++ session_key ++ nl
       ++ lit "Workspace path: " ++ workspace_path ++ nl ++ nl
       ++ lit "Base URL: " ++ or_else base_url (lit "UNSET") ++ nl ++ nl
       ++ lit "Steps:" ++ nl
       ++ lit "1) Create the workspace directory." ++ nl
       ++ lit "2) Write the files below with the exact contents." ++ nl
       ++ lit "3) Set BASE_URL to " ++ or_else base_url (lit "{{BASE_URL}}")
       ++ lit " for the agent runtime." ++ nl
       ++ lit "4) Replace placeholders like {{AGENT_NAME}}, {{AGENT_ID}}, {{BASE_URL}}, {{AUTH_TOKEN}}." ++ nl
       ++ lit "5) Leave BOOTSTRAP.md in place; the agent should run it on first start and delete it." ++ nl
       ++ lit "6) Register agent id in OpenClaw so it uses this workspace path." ++ nl ++ nl
       ++ lit "Files:" ++ file_blocks).

End Renderer.

(* ================================================================== *)
(** ** Pause state of boards (template_sync.py) *)
(* ================================================================== *)

(** SQL [trim]: blanks only. SQL [lower] agrees with [lower] on ASCII. *)
Definition sql_trim (s : str) : str := strip_char " " s.

Definition commands : list str := [lit "/pause"; lit "/resume"].

Definition mem_str (s : str) (l : list str) : bool := existsb (str_eqb s) l.
Definition mem_uuid (x : UUID) (l : list UUID) : bool := existsb (N.eqb x) l.

(** The WHERE clauses of the statement; a NULL content matches nothing. *)
Definition is_command_row (board_ids : list UUID) (row : BoardMemory) : bool :=
  mem_uuid (memory_board_id row) board_ids
  && memory_is_chat row
  && match memory_content row with
     | Some content => mem_str (lower (sql_trim content)) commands
     | None => false
     end.

(** ORDER BY board_id, created_at DESC *)
Definition row_before (a b : BoardMemory) : bool :=
  (memory_board_id a <? memory_board_id b)%N
  || ((memory_board_id a =? memory_board_id b)%N
      && (memory_created_at b <=? memory_created_at a)%Z).

Fixpoint insert_row (r : BoardMemory) (rows : list BoardMemory)
    : list BoardMemory :=
  match rows with
  | [] => [r]
  | x :: rows' =>
      if row_before r x then r :: rows else x :: insert_row r rows'
  end.

Definition order_rows (rows : list BoardMemory) : list BoardMemory :=
  fold_right insert_row [] rows.

(** DISTINCT ON (board_id): the first row of each board in the ordering. *)
Fixpoint distinct_on_board (prev : option UUID) (rows : list BoardMemory)
    : list BoardMemory :=
  match rows with
  | [] => []
  | r :: rows' =>
      let tail := distinct_on_board (Some (memory_board_id r)) rows' in
      match prev with
      | Some b => if (b =? memory_board_id r)%N then tail else r :: tail
      | None => r :: tail
      end
  end.

(** [paused.add(board_id)] *)
Definition set_add (x : UUID) (s : list UUID) : list UUID :=
  if mem_uuid x s then s else s ++ [x].

Definition latest_commands (rows : list BoardMemory) (board_ids : list UUID)
    : list BoardMemory :=
  distinct_on_board None (order_rows (filter (is_command_row board_ids) rows)).

Definition paused_of (rows : list BoardMemory) (board_ids : list UUID)
    : list UUID :=
  match board_ids with
  | [] => []
  | _ =>
      fold_left
        (fun paused row =>
           let cmd := lower (strip (opt_or (memory_content row) [])) in
           if str_eqb cmd (lit "/pause")
           then set_add (memory_board_id row) paused else paused)
        (latest_commands rows board_ids) []
  end.

Definition get_db : M Database := fun st => (st, Val (db st)).

Definition _paused_board_ids (board_ids : list UUID) : M (list UUID) :=
  bind get_db (fun d => ret (paused_of (board_memory_tbl d) board_ids)).

(* ================================================================== *)
(** ** Sync orchestrator (template_sync.py) *)
(* ================================================================== *)

Definition add_error (r : GatewayTemplatesSyncResult)
    (e : GatewayTemplatesSyncError) : GatewayTemplatesSyncResult :=
  mkSyncResult (result_gateway_id r) (result_include_main r)
    (result_reset_sessions r) (agents_updated r) (agents_skipped r)
    (main_updated r) (errors r ++ [e]).

Definition count_skipped (r : GatewayTemplatesSyncResult)
    : GatewayTemplatesSyncResult :=
  mkSyncResult (result_gateway_id r) (result_include_main r)
    (result_reset_sessions r) (agents_updated r) (agents_skipped r + 1)
    (main_updated r) (errors r).

Definition count_updated (r : GatewayTemplatesSyncResult)
    : GatewayTemplatesSyncResult :=
  mkSyncResult (result_gateway_id r) (result_include_main r)
    (result_reset_sessions r) (agents_updated r + 1) (agents_skipped r)
    (main_updated r) (errors r).

Definition set_main_updated (r : GatewayTemplatesSyncResult)
    : GatewayTemplatesSyncResult :=
  mkSyncResult (result_gateway_id r) (result_include_main r)
    (result_reset_sessions r) (agents_updated r) (agents_skipped r)
    true (errors r).

(** How the body of the [for agent in agents] loop ends: it goes on to the
    next agent, or the function returns. *)
Inductive flow : Type :=
| Continue (result : GatewayTemplatesSyncResult)
| Return (result : GatewayTemplatesSyncResult).

(** [boards_by_id]: a dict from board id to board. *)
Fixpoint boards_set (k : UUID) (b : Board) (d : list (UUID * Board))
    : list (UUID * Board) :=
  match d with
  | [] => [(k, b)]
  | (k', b') :: rest =>
      if (k' =? k)%N then (k', b) :: rest else (k', b') :: boards_set k b rest
  end.

Fixpoint boards_get (k : UUID) (d : list (UUID * Board)) : option Board :=
  match d with
  | [] => None
  | (k', b') :: rest => if (k' =? k)%N then Some b' else boards_get k rest
  end.

Definition boards_keys (d : list (UUID * Board)) : list UUID := map fst d.

(** [board.id], for places where [board_id] names an argument. *)
Definition board_ident (b : Board) : UUID := board_id b.

Definition opt_uuid_eqb (a b : option UUID) : bool :=
  match a, b with
  | Some x, Some y => (x =? y)%N
  | None, None => true
  | _, _ => false
  end.

Definition opt_str_eqb (a b : option str) : bool :=
  match a, b with
  | Some x, Some y => str_eqb x y
  | None, None => true
  | _, _ => false
  end.

(** ORDER BY created_at ASC, rows of equal time in table order. *)
Fixpoint insert_agent (a : Agent) (l : list Agent) : list Agent :=
  match l with
  | [] => [a]
  | x :: l' =>
      if (agent_created_at a <=? agent_created_at x)%Z then a :: l
      else x :: insert_agent a l'
  end.

Definition order_agents (l : list Agent) : list Agent :=
  fold_right insert_agent [] l.

(** [Board.objects.filter_by(gateway_id=...)], the agents of a set of boards
    oldest first, and the first agent with a given session key. *)
Definition boards_of_gateway (d : Database) (gw : UUID) : list Board :=
  filter (fun b => opt_uuid_eqb (board_gateway_id b) (Some gw)) (boards_tbl d).

Definition agents_of_boards (d : Database) (board_ids : list UUID)
    : list Agent :=
  order_agents
    (filter (fun a =>
               match agent_board_id a with
               | Some b => mem_uuid b board_ids
               | None => false
               end) (agents_tbl d)).

Definition agent_with_session_key (d : Database) (key : option str)
    : option Agent :=
  find (fun a => opt_str_eqb (openclaw_session_id a) key) (agents_tbl d).

(** [session.add(agent); await session.commit(); await session.refresh(agent)] *)
Definition commit_agent (a : Agent) : M Agent :=
  fun st =>
    let d := db st in
    (set_db st
       (mkDatabase
          (map (fun x => if (agent_id x =? agent_id a)%N then a else x)
               (agents_tbl d))
          (boards_tbl d) (board_memory_tbl d)),
     Val a).

Definition set_token_hash (a : Agent) (h : str) (now : Z) : Agent :=
  mkAgent (agent_id a) (agent_name a) (agent_board_id a)
    (openclaw_session_id a) (Some h) (agent_created_at a) now.

(** Truthiness of an optional string: [None] and the empty string are
    false. *)
Definition truthy (s : option str) : option str :=
  match s with
  | Some ((_ :: _) as t) => Some t
  | _ => None
  end.

Definition truthy_hash (a : Agent) : option str := truthy (agent_token_hash a).

Section Sync.

Variable pbkdf2 : str -> bytes -> bytes -> Z -> bytes.
Variable env : Env.
Variable fuel : nat.
Variable gateway : Gateway.
Variable user : option UUID.
Variables include_main reset_sessions rotate_tokens force_bootstrap : bool.

Local Open Scope monad_scope.

(** The six statements that re-key an agent, which the source repeats at each
    of its four rotation sites: a fresh token, its hash stored and committed,
    and the fresh token used from then on. *)
Definition rekey (agent : Agent) : M (Agent * str) :=
  raw_token <- generate_agent_token env ;;
  token_hash <- hash_agent_token pbkdf2 env raw_token ;;
  now <- perform (utcnow env) ;;
  agent' <- commit_agent (set_token_hash agent token_hash now) ;;
  ret (agent', raw_token).

Definition agent_error (agent : Agent) (board : option UUID) (message : str)
    : GatewayTemplatesSyncError :=
  mkSyncError (Some (agent_id agent)) (Some (agent_name agent)) board message.

Definition global_error (message : str) : GatewayTemplatesSyncError :=
  mkSyncError None None None message.

(** [except TimeoutError as exc] around a computation: the message of the
    timeout on the left, the value on the right. *)
Definition on_timeout {A} (c : M A) : M (str + A) :=
  catch (x <- c ;; ret (inr x))
    (fun exc =>
       match exc with
       | TimeoutError _ => Some (ret (inl (str_of_exn exc)))
       | _ => None
       end).

(** Token drift: the stored hash exists and the token does not verify. *)
Definition token_drifted (agent : Agent) (auth_token : str) : M bool :=
  match truthy_hash agent with
  | Some h =>
      ok <- lift (verify_agent_token pbkdf2 auth_token h) ;;
      ret (negb ok)
  | None => ret false
  end.

(** The body of [for agent in agents]. *)
Definition sync_one_agent (client_config : GatewayClientConfig)
    (boards_by_id : list (UUID * Board)) (paused_board_ids : list UUID)
    (agent : Agent) (result : GatewayTemplatesSyncResult) : M flow :=
  let board :=
    match agent_board_id agent with
    | Some b => boards_get b boards_by_id
    | None => None
    end in
  match board with
  | None =>
      ret (Continue
             (add_error (count_skipped result)
                (agent_error agent (agent_board_id agent)
                   (lit "Skipping agent: board not found for agent."))))
  | Some board =>
      if mem_uuid (board_id board) paused_board_ids
      then ret (Continue (count_skipped result))
      else
        agent_gateway_id <- _gateway_agent_id env agent ;;
        fetched <- on_timeout
          (_get_existing_auth_token env fuel agent_gateway_id client_config true) ;;
        match fetched with
        | inl message =>
            ret (Return (add_error result
                           (agent_error agent (Some (board_id board)) message)))
        | inr auth_token =>
            match truthy auth_token, rotate_tokens with
            | None, false =>
                ret (Continue
                       (add_error (count_skipped result)
                          (agent_error agent (Some (board_id board))
                             (lit "Skipping agent: unable to read AUTH_TOKEN from TOOLS.md (run with rotate_tokens=true to re-key)."))))
            | _, _ =>
                '(agent, auth_token) <-
                  match truthy auth_token with
                  | None => rekey agent
                  | Some t => ret (agent, t)
                  end ;;
                drifted <- token_drifted agent auth_token ;;
                '(agent, auth_token, result) <-
                  (if drifted then
                     if rotate_tokens then
                       '(agent', raw_token) <- rekey agent ;;
                       ret (agent', raw_token, result)
                     else
                       ret (agent, auth_token,
                            add_error result
                              (agent_error agent (Some (board_id board))
                                 (lit "Warning: AUTH_TOKEN in TOOLS.md does not match backend token hash (agent auth may be broken).")))
                   else ret (agent, auth_token, result)) ;;
                let _do_provision :=
                  provision_agent env
                    (mkProvisionCall agent (Some board) gateway auth_token user
                       force_bootstrap reset_sessions) in
                catch
                  (_with_gateway_retry env fuel _do_provision ;;
                   ret (Continue (count_updated result)))
                  (fun exc =>
                     match exc with
                     | TimeoutError _ =>
                         Some (ret (Return
                                 (add_error (count_skipped result)
                                    (agent_error agent (Some (board_id board))
                                       (str_of_exn exc)))))
                     | _ =>
                         if is_OSError exc || is_RuntimeError exc
                            || is_ValueError exc
                         then
                           Some (ret (Continue
                                   (add_error (count_skipped result)
                                      (agent_error agent (Some (board_id board))
                                         (lit "Failed to sync templates: "
                                          ++ str_of_exn exc)))))
                         else None
                     end)
            end
        end
  end.

(** [for agent in agents: ...] *)
Fixpoint sync_agents (client_config : GatewayClientConfig)
    (boards_by_id : list (UUID * Board)) (paused_board_ids : list UUID)
    (agents : list Agent) (result : GatewayTemplatesSyncResult) : M flow :=
  match agents with
  | [] => ret (Continue result)
  | agent :: rest =>
      step <- sync_one_agent client_config boards_by_id paused_board_ids
                agent result ;;
      match step with
      | Continue result' =>
          sync_agents client_config boards_by_id paused_board_ids rest result'
      | Return result' => ret (Return result')
      end
  end.

(** The [if include_main:] block. *)
Definition sync_main_agent (client_config : GatewayClientConfig)
    (result : GatewayTemplatesSyncResult) : M GatewayTemplatesSyncResult :=
  d <- get_db ;;
  match agent_with_session_key d (main_session_key gateway) with
  | None =>
      ret (add_error result
             (global_error (lit "Gateway main agent record not found; skipping main agent template sync.")))
  | Some main_agent =>
      resolved <- on_timeout
        (_gateway_default_agent_id env fuel client_config
           (main_session_key gateway) true) ;;
      match resolved with
      | inl message =>
          ret (add_error result (agent_error main_agent None message))
      | inr main_gateway_agent_id =>
          match truthy main_gateway_agent_id with
          | None =>
              ret (add_error result
                     (agent_error main_agent None
                        (lit "Unable to resolve gateway default agent id for main agent.")))
          | Some main_gateway_agent_id =>
              fetched <- on_timeout
                (_get_existing_auth_token env fuel main_gateway_agent_id
                   client_config true) ;;
              match fetched with
              | inl message =>
                  ret (add_error result (agent_error main_agent None message))
              | inr main_token =>
                  match truthy main_token, rotate_tokens with
                  | None, false =>
                      ret (add_error result
                             (agent_error main_agent None
                                (lit "Skipping main agent: unable to read AUTH_TOKEN from TOOLS.md.")))
                  | _, _ =>
                      '(main_agent, main_token) <-
                        match truthy main_token with
                        | None => rekey main_agent
                        | Some t => ret (main_agent, t)
                        end ;;
                      drifted <- token_drifted main_agent main_token ;;
                      '(main_agent, main_token, result) <-
                        (if drifted then
                           if rotate_tokens then
                             '(agent', raw_token) <- rekey main_agent ;;
                             ret (agent', raw_token, result)
                           else
                             ret (main_agent, main_token,
                                  add_error result
                                    (agent_error main_agent None
                                       (lit "Warning: AUTH_TOKEN in TOOLS.md does not match backend token hash (main agent auth may be broken).")))
                         else ret (main_agent, main_token, result)) ;;
                      let _do_provision_main :=
                        provision_agent env
                          (mkProvisionCall main_agent None gateway main_token
                             user force_bootstrap reset_sessions) in
                      catch
                        (_with_gateway_retry env fuel _do_provision_main ;;
                         ret (set_main_updated result))
                        (fun exc =>
                           match exc with
                           | TimeoutError _ =>
                               Some (ret (add_error result
                                            (agent_error main_agent None
                                               (str_of_exn exc))))
                           | _ =>
                               if is_OSError exc || is_RuntimeError exc
                                  || is_ValueError exc
                               then
                                 Some (ret (add_error result
                                              (agent_error main_agent None
                                                 (lit "Failed to sync main agent templates: "
                                                  ++ str_of_exn exc))))
                               else None
                           end)
                  end
              end
          end
      end
  end.

(** The reachability probe: [None] when the gateway answered, the message of
    the error otherwise. *)
Definition probe (client_config : GatewayClientConfig) : M (option str) :=
  let _do_ping := openclaw_call env (lit "agents.list") None client_config in
  catch
    (run env fuel _do_ping ;; ret None)
    (fun exc =>
       match exc with
       | TimeoutError _ => Some (ret (Some (str_of_exn exc)))
       | OpenClawGatewayError _ => Some (ret (Some (str_of_exn exc)))
       | _ => None
       end).

Definition sync_gateway_templates (board_id : option UUID)
    : M GatewayTemplatesSyncResult :=
  let result :=
    mkSyncResult (gateway_id gateway) include_main reset_sessions 0 0 false [] in
  match truthy (gateway_url gateway) with
  | None =>
      ret (add_error result
             (global_error (lit "Gateway URL is not configured for this gateway.")))
  | Some url =>
      let client_config := mkGatewayClientConfig url (gateway_token gateway) in
      put_backoff (default_backoff 600) ;;
      unreachable <- probe client_config ;;
      match unreachable with
      | Some message => ret (add_error result (global_error message))
      | None =>
          d <- get_db ;;
          let boards := boards_of_gateway d (gateway_id gateway) in
          let boards_by_id :=
            fold_left (fun acc b => boards_set (board_ident b) b acc)
                      boards [] in
          let narrowed :=
            match board_id with
            | None => Some boards_by_id
            | Some wanted =>
                match boards_get wanted boards_by_id with
                | None => None
                | Some board => Some [(wanted, board)]
                end
            end in
          match narrowed with
          | None =>
              ret (add_error result
                     (mkSyncError None None board_id
                        (lit "Board does not belong to this gateway.")))
          | Some boards_by_id =>
              paused_board_ids <- _paused_board_ids (boards_keys boards_by_id) ;;
              d <- get_db ;;
              let agents :=
                match boards_by_id with
                | [] => []
                | _ => agents_of_boards d (boards_keys boards_by_id)
                end in
              step <- sync_agents client_config boards_by_id paused_board_ids
                        agents result ;;
              match step with
              | Return result => ret result
              | Continue result =>
                  if include_main then sync_main_agent client_config result
                  else ret result
              end
          end
      end
  end.

End Sync.

(* ================================================================== *)
(** ** Vocabulary of the properties *)
(* ================================================================== *)

(** [session_key.split(":")[1]] *)
Definition second_segment (session_key : str) : str :=
  nth 1 (split ":" session_key) [].

(** The shape of a slug: only a-z, 0-9 and hyphens, no hyphen at either end
    and no two hyphens in a row. *)
Definition slug_shaped (s : str) : Prop :=
  Forall (fun c => is_slug_char c = true \/ c = "-"%char) s
  /\ startswith (lit "-") s = false
  /\ (forall front, s <> front ++ lit "-")
  /\ contains (lit "--") s = false.

(** An environment in which the gateway answers every call at once with an
    empty payload, and a state at time zero with an empty database. *)
Definition quiet_env : Env :=
  mkEnv (fun _ _ _ _ => (Ret JNull, 0)) (fun _ _ => (Ret tt, 0))
        (fun _ => 0) (fun _ => 0) (fun _ n => repeat x00 n)
        (fun _ => lit "00000000000000000000000000000000") (fun _ => 0%Z)
        (fun _ => None).

Definition idle_state : State :=
  mkState (mkWorld 0 0 []) (mkDatabase [] [] []) (default_backoff 600) [] [].

(** The stub written for a template without content, the body rendered for a
    template name, a file block, and the workspace root. *)
Definition stub_body (name : str) : str :=
  lit "# " ++ name ++ nl ++ nl ++ lit "TODO: add content" ++ nl.

Definition template_body (env : Env) (name : str) : str :=
  match template_file env name with
  | Some text => if nonempty (strip text) then strip text else stub_body name
  | None => stub_body name
  end.

Definition file_block (name body : str) : str :=
  nl ++ name ++ nl ++ lit "```md" ++ nl ++ body ++ nl ++ lit "```" ++ nl.

Definition configured_root (settings : Settings) : str :=
  or_else (openclaw_workspace_root settings) (lit "~/.openclaw/workspaces").

(** The lines of the provisioning message before and after its
    "Workspace path:" line, up to the list of files. *)
Definition message_head (agent : Agent) (agent_id : str) : str :=
  lit "Provision a new OpenClaw agent workspace." ++ nl ++ nl
  ++ lit "Agent name: " ++ agent_name agent ++ nl
  ++ lit "Agent id: " ++ agent_id ++ nl
  ++ lit "Session key: " ++ opt_or (openclaw_session_id agent) [] ++ nl.

Definition message_steps (settings : Settings) : str :=
  nl ++ lit "Base URL: " ++ or_else (base_url settings) (lit "UNSET") ++ nl ++ nl
  ++ lit "Steps:" ++ nl
  ++ lit "1) Create the workspace directory." ++ nl
  ++ lit "2) Write the files below with the exact contents." ++ nl
  ++ lit "3) Set BASE_URL to " ++ or_else (base_url settings) (lit "{{BASE_URL}}")
  ++ lit " for the agent runtime." ++ nl
  ++ lit "4) Replace placeholders like {{AGENT_NAME}}, {{AGENT_ID}}, {{BASE_URL}}, {{AUTH_TOKEN}}." ++ nl
  ++ lit "5) Leave BOOTSTRAP.md in place; the agent should run it on first start and delete it." ++ nl
  ++ lit "6) Register agent id in OpenClaw so it uses this workspace path." ++ nl ++ nl.

(** Every byte, in increasing order. *)
Definition all_bytes : list byte :=
  map (fun k => Base64.byte_of_N (N.of_nat k)) (seq 0 256).

(** What decoding relies on, for the sextets made from two neighbouring
    bytes: each is below 64, and the shifts of the decoder put the bytes back
    together. *)
Definition group_check (x y : byte) : bool :=
  let s0 := Base64.sextet0 x in
  let s1 := Base64.sextet1 x y in
  let s2 := Base64.sextet2 x y in
  let s3 := Base64.sextet3 y in
  (s0 <? 64)%N && (s1 <? 64)%N && (s2 <? 64)%N && (s3 <? 64)%N
  && Byte.eqb (Base64.byte_of_N (N.lor (N.shiftl s0 2) (N.shiftr s1 4))) x
  && (N.land s1 15 =? N.shiftr (Byte.to_N y) 4)%N
  && Byte.eqb (Base64.byte_of_N
                 (N.lor (N.shiftl (N.shiftr (Byte.to_N x) 4) 4) (N.shiftr s2 2))) x
  && Byte.eqb (Base64.byte_of_N (N.lor (N.shiftl (N.land s2 3) 6) s3)) y.

(** What decoding relies on, for the character of a sextet: it is an ASCII
    character other than the pad and the dollar sign, also in its URL-safe
    form, and both tables are inverse to each other on it. *)
Definition sextet_check (s : N) : bool :=
  let c := Base64.b2a_char s in
  let u := Base64.urlsafe_encode_char c in
  negb (Ascii.eqb c Base64.PAD)
  && negb (Ascii.eqb u Base64.PAD)
  && negb (Ascii.eqb u "$")
  && (ord u <? 128)%nat
  && Ascii.eqb (Base64.urlsafe_decode_char u) c
  && match Base64.a2b_char c with
     | Some s' => (s' =? s)%N
     | None => false
     end.

(** A character of URL-safe base64 text: the pad or the image of a sextet. *)
Definition b64_text_char (ch : ascii) : Prop :=
  ch = Base64.PAD
  \/ exists s, (s < 64)%N
       /\ ch = Base64.urlsafe_encode_char (Base64.b2a_char s).


(** The settings of a backoff object, as opposed to its current delay. *)
Definition same_config (a b : _GatewayBackoff) : Prop :=
  _timeout_s a = _timeout_s b /\ _base_delay_s a = _base_delay_s b
  /\ _max_delay_s a = _max_delay_s b /\ _jitter a = _jitter b.

(** The state in which [run] starts its next attempt after a transient
    failure that left the world at [w1] before the deadline: the jitter has
    been drawn, the sleep is over and the delay has been doubled. *)
Definition retry_state (env : Env) (st : State) (w1 : World) (deadline_s : Q)
    : State :=
  let self := backoff st in
  let remaining := deadline_s - clock w1 in
  let '(w2, u) :=
    if Qeq_bool (_jitter self) 0 then (w1, 0)
    else (mkWorld (clock w1) (S (tick w1)) (requests w1),
          - _jitter self
          + (_jitter self - - _jitter self) * random_random env (tick w1)) in
  let sleep_s := retry_sleep_s self remaining u in
  mkState (mkWorld (clock w2 + sleep_s + sleep_lag env (tick w2)) (S (tick w2))
                   (requests w2))
          (db st) (set_delay self (next_delay_s self)) (sleep_s :: slept st)
          (deadline_hits st).

(** An environment whose gateway refuses every connection, each attempt
    taking one second, and a client configuration to call it with. *)
Definition refusing_env : Env :=
  mkEnv (fun _ _ _ _ =>
           (Raise (OpenClawGatewayError
                     (lit "[Errno 111] Connection refused")), 1))
        (fun _ _ => (Raise (OpenClawGatewayError
                              (lit "[Errno 111] Connection refused")), 1))
        (fun _ => 1 # 2) (fun _ => 0) (fun _ n => repeat x00 n)
        (fun _ => lit "00000000000000000000000000000000") (fun _ => 0%Z)
        (fun _ => None).

Definition example_config : GatewayClientConfig :=
  mkGatewayClientConfig (lit "ws://gateway.example:18789") None.

(** The chat command a board-memory row carries, as the statement reads it:
    [lower(trim(content))]. *)
Definition command_of (row : BoardMemory) : str :=
  lower (sql_trim (opt_or (memory_content row) [])).

(** The test of the loop over the rows returned by the statement. *)
Definition reads_as_pause (row : BoardMemory) : bool :=
  str_eqb (lower (strip (opt_or (memory_content row) []))) (lit "/pause").

(** A chat row of board memory. *)
Definition chat_row (board : UUID) (content : string) (created_at : Z)
    : BoardMemory :=
  mkBoardMemory board (Some (lit content)) true created_at.
Arguments chat_row board%_N content%_string created_at%_Z.

(** A computation that leaves the database as it found it. *)
Definition keeps_db {A} (c : M A) : Prop :=
  forall st, db (fst (c st)) = db st.

(** A small database: board 10 of gateway 7 with one agent, and the gateway's
    main agent. *)
Definition example_gateway : Gateway :=
  mkGateway 7%N (Some (lit "ws://gateway.example:18789")) None
            (Some (lit "agent:main:main")).

Definition example_board : Board := mkBoard 10%N (Some 7%N).

Definition example_agent (id : N) (name : string) : Agent :=
  mkAgent id (lit name) (Some 10%N) None None (Z.of_N id) 0%Z.
Arguments example_agent id%_N name%_string.

Definition example_main_agent : Agent :=
  mkAgent 99%N (lit "Main") None (Some (lit "agent:main:main")) None 0%Z 0%Z.

Definition example_db (agents : list Agent) : Database :=
  mkDatabase (agents ++ [example_main_agent]) [example_board] [].

(** A stand-in for the key-derivation function in examples. *)
Definition toy_pbkdf2 (name : str) (password salt : bytes) (iterations : Z)
    : bytes :=
  salt ++ password.

(** A computation during which the backoff driver raises no timeout. *)
Definition quiet {A} (c : M A) : Prop :=
  forall st, deadline_hits (fst (c st)) = deadline_hits st.

(** A computation during which the backoff driver raises at most one
    timeout, after which nothing more happens to the world and the outcome
    satisfies [Q] for the message of the timeout. *)
Definition careful {A} (Q : str -> res A -> Prop) (c : M A) : Prop :=
  forall st,
    deadline_hits (fst (c st)) = deadline_hits st
    \/ exists m,
         deadline_hits (fst (c st))
         = (m, world (fst (c st))) :: deadline_hits st
         /\ Q m (snd (c st)).

(** Outcomes after a timeout: the TimeoutError itself; its message caught by
    [on_timeout]; the loop body returning a result whose last error entry
    carries the message; the function returning such a result. *)
Definition timed_out {A} (m : str) (r : res A) : Prop :=
  r = Exn (TimeoutError m).

Definition caught_timeout {A} (m : str) (r : res (str + A)) : Prop :=
  r = Val (inl m).

Definition ends_with_message (m : str) (result : GatewayTemplatesSyncResult)
    : Prop :=
  exists earlier e, errors result = earlier ++ [e] /\ error_message e = m.

Definition returned_with_timeout (m : str) (r : res flow) : Prop :=
  exists result, r = Val (Return result) /\ ends_with_message m result.

Definition ended_with_timeout (m : str) (r : res GatewayTemplatesSyncResult)
    : Prop :=
  exists result, r = Val result /\ ends_with_message m result.

(** A gateway that lists its agents and serves a TOOLS.md with a token for
    each, against which [provision] decides how provisioning goes. *)
Definition scripted_env (provision : ProvisionCall -> outcome unit * Q) : Env :=
  mkEnv
    (fun _ _ method _ =>
       if str_eqb method (lit "agents.list")
       then (Ret (JDict [(lit "agents", JList [JDict [(lit "id", JStr (lit "main"))]])]),
             1 # 10)
       else (Ret (JDict [(lit "file",
                          JDict [(lit "name", JStr (lit "TOOLS.md"));
                                 (lit "content",
                                  JStr (lit "# tools" ++ nl
                                        ++ lit "BASE_URL=http://localhost:8000" ++ nl
                                        ++ lit "AUTH_TOKEN= s3cr3t-token " ++ nl))])]),
             1 # 10))
    (fun _ call => provision call)
    (fun _ => 1 # 2) (fun _ => 0) (fun _ n => repeat x00 n)
    (fun _ => lit "00000000000000000000000000000000") (fun _ => 0%Z)
    (fun _ => None).

(** Provisioning that fails for the agent with id 2 - with a fatal adapter
    error, or with a transient one on every attempt - and works for all
    others. *)
Definition fatal_for_agent_2 (call : ProvisionCall) : outcome unit * Q :=
  if (agent_id (pc_agent call) =? 2)%N
  then (Raise (OpenClawGatewayError (lit "unsupported file type: .bin")), 1 # 10)
  else (Ret tt, 1 # 10).

Definition unreachable_for_agent_2 (call : ProvisionCall) : outcome unit * Q :=
  if (agent_id (pc_agent call) =? 2)%N
  then (Raise (OpenClawGatewayError (lit "HTTP 503 from gateway")), 100)
  else (Ret tt, 1 # 10).

(** The names of the agents a list of requests provisions, newest first. *)
Definition provisioned_names (reqs : list GatewayRequest) : list string :=
  flat_map (fun q =>
              match q with
              | ReqProvision call =>
                  [string_of_list_ascii (agent_name (pc_agent call))]
              | ReqCall _ _ => []
              end) reqs.

(** The fetched token passes the drift check: there is no stored hash, or
    the token verifies against it. *)
Definition token_accepted (pbkdf2 : str -> bytes -> bytes -> Z -> bytes)
    (agent : Agent) (token : str) : Prop :=
  match truthy_hash agent with
  | None => True
  | Some h => verify_agent_token pbkdf2 token h = Ret true
  end.

(** What the loop body makes of the outcome of the provisioning call. *)
Definition provision_outcome (agent : Agent) (board : Board)
    (result : GatewayTemplatesSyncResult) (r : res unit) : res flow :=
  match r with
  | Val _ => Val (Continue (count_updated result))
  | Exn (TimeoutError m) =>
      Val (Return (add_error (count_skipped result)
                     (agent_error agent (Some (board_id board)) m)))
  | Exn exc =>
      if is_OSError exc || is_RuntimeError exc || is_ValueError exc
      then Val (Continue
                  (add_error (count_skipped result)
                     (agent_error agent (Some (board_id board))
                        (lit "Failed to sync templates: " ++ str_of_exn exc))))
      else Exn exc
  | OutOfFuel => OutOfFuel
  end.

(** The gateway identity of an agent when no random identifier is needed. *)
Definition gateway_id_of (agent : Agent) : option str :=
  let session_key := opt_or (openclaw_session_id agent) [] in
  if startswith (lit "agent:") session_key
     && (SESSION_KEY_PARTS_MIN <=? List.length (split ":" session_key))%nat
     && nonempty (second_segment session_key)
  then Some (second_segment session_key)
  else if nonempty (slug_of (agent_name agent))
       then Some (slug_of (agent_name agent))
       else None.

(** What the gateway does, at whatever moment it is asked: it serves a
    TOOLS.md with a given token for an agent; it lists its agents with a
    given default; a provisioning request succeeds; a provisioning request
    fails with a fatal (non-transient) adapter error. *)
Definition gateway_serves_token (env : Env) (config : GatewayClientConfig)
    (gid token : str) : Prop :=
  forall t, exists payload took,
    gateway_reply env t config (lit "agents.files.get")
      (Some (JDict [(lit "agentId", JStr gid);
                    (lit "name", JStr (lit "TOOLS.md"))]))
    = (Ret payload, took)
    /\ auth_token_of (file_content_of payload) = Some token.



Definition provisioning_fails_fatally (env : Env) (call : ProvisionCall)
    (msg : str) : Prop :=
  _is_transient_gateway_error (OpenClawGatewayError msg) = false
  /\ forall t, exists took,
       provision_reply env t call = (Raise (OpenClawGatewayError msg), took).

(** An agent that reaches the provisioning step: its board is in scope and
    not paused, its gateway identity is known, the gateway serves its token
    and the token passes the drift check. *)
Definition ready_agent (pbkdf2 : str -> bytes -> bytes -> Z -> bytes)
    (env : Env) (config : GatewayClientConfig)
    (boards_by_id : list (UUID * Board)) (paused : list UUID)
    (agent : Agent) (board : Board) (token : str) : Prop :=
  exists b gid,
    agent_board_id agent = Some b
    /\ boards_get b boards_by_id = Some board
    /\ mem_uuid (board_id board) paused = false
    /\ gateway_id_of agent = Some gid
    /\ gateway_serves_token env config gid token
    /\ token_accepted pbkdf2 agent token.

(** A computation that, started on database [D], gives [v] and leaves [D]
    in place. *)
Definition yields {A} (D : Database) (c : M A) (v : A) : Prop :=
  forall st, db st = D -> exists st', c st = (st', Val v) /\ db st' = D.

(** [boards_by_id] as the sync builds it. *)
Definition boards_by_id_of (d : Database) (gateway : Gateway)
    : list (UUID * Board) :=
  fold_left (fun acc b => boards_set (board_ident b) b acc)
            (boards_of_gateway d (gateway_id gateway)) [].


(* ================================================================== *)
(** * The code around the sync: session keys, authentication,
      notifications and the schema migration

    The definitions below embed the rest of the modules above and
      backend/app/api/agents.py (session keys of new agents)
      backend/app/core/agent_auth.py
      backend/app/integrations/notify.py
      backend/alembic/versions/d3e4f5a6b7c8_add_agent_token_hash.py
    and give the vocabulary in which their properties are stated. *)
(* ================================================================== *)

(** ** Further vocabulary: tokens and identifiers *)

(** A character of the URL-safe base64 alphabet. *)
Definition is_urlsafe_char (c : ascii) : bool :=
  is_upper c || is_lower c || is_digit c
  || Ascii.eqb c "-" || Ascii.eqb c "_".

(** The image of a sextet in URL-safe form. *)
Definition urlsafe_sextet_check (s : N) : bool :=
  is_urlsafe_char (Base64.urlsafe_encode_char (Base64.b2a_char s)).

(** A character that [str.strip()] keeps and [str.splitlines()] does not
    break at. *)
Definition is_plain_char (c : ascii) : bool :=
  negb (is_space c) && negb (is_linebreak c).

(** An entry of the dict returned by [_parse_tools_md]: a key as the pattern
    admits it and a value without blanks around it. *)
Definition wellformed_entry (entry : str * str) : Prop :=
  fst entry <> []
  /\ forallb is_key_char (fst entry) = true
  /\ strip (snd entry) = snd entry.

(* ================================================================== *)
(** ** Session keys of new agents (app/api/agents.py) *)
(* ================================================================== *)

Definition AGENT_SESSION_PREFIX : str := lit "agent".

Section SessionKeys.

Variable env : Env.

(** The configuration [openclaw_call] works with when the caller passes
    none. *)
Variable default_config : GatewayClientConfig.

Local Open Scope monad_scope.

(** [_build_session_key]; [_slugify] is defined in this module with the
    text it has in template_sync.py. *)
Definition _build_session_key (agent_name : str) : M str :=
  slug <- _slugify env agent_name ;;
  ret (AGENT_SESSION_PREFIX ++ lit ":" ++ slug ++ lit ":main").

(** [_ensure_gateway_session]: the session key, and the text of the gateway
    error if the session could not be patched. *)
Definition _ensure_gateway_session (agent_name : str)
    : M (str * option str) :=
  session_key <- _build_session_key agent_name ;;
  catch
    (perform (openclaw_call env (lit "sessions.patch")
                (Some (JDict [(lit "key", JStr session_key);
                              (lit "label", JStr agent_name)]))
                default_config) ;;
     ret (session_key, None))
    (fun exc =>
       match exc with
       | OpenClawGatewayError _ => Some (ret (session_key, Some (str_of_exn exc)))
       | _ => None
       end).

End SessionKeys.

(* ================================================================== *)
(** ** Further vocabulary: outcomes of computations *)
(* ================================================================== *)

(** [isinstance(e, OpenClawGatewayError)] and [isinstance(e, TimeoutError)]. *)
Definition is_gateway_error (e : exn) : bool :=
  match e with OpenClawGatewayError _ => true | _ => false end.

Definition is_timeout (e : exn) : bool :=
  match e with TimeoutError _ => true | _ => false end.

(** A condition on how a computation ends: [V] on the value it returns, [F]
    on the exception it raises; running out of fuel is no outcome of the
    program and is left alone. *)
Definition outcome_is {A} (F : exn -> Prop) (V : A -> Prop) (r : res A)
    : Prop :=
  match r with
  | Val a => V a
  | Exn e => F e
  | OutOfFuel => True
  end.

(** A computation that ends as [F] and [V] say, from every state. *)
Definition ensures {A} (F : exn -> Prop) (V : A -> Prop) (c : M A) : Prop :=
  forall st, outcome_is F V (snd (c st)).

Definition any_value {A} (a : A) : Prop := True.
Definition any_exn (e : exn) : Prop := True.

(** Exceptions outside a class. *)
Definition not_in (class : exn -> bool) (e : exn) : Prop := class e = false.

(** Neither a gateway error nor a timeout. *)
Definition handled_elsewhere (e : exn) : Prop :=
  is_gateway_error e = false /\ is_timeout e = false.

(* ================================================================== *)
(** ** Further vocabulary: the result of a sync *)
(* ================================================================== *)

(** The agents a result accounts for. *)
Definition counted (r : GatewayTemplatesSyncResult) : nat :=
  (agents_updated r + agents_skipped r)%nat.

(** [after] continues [before]: [n] more agents are accounted for, no
    counter has gone down, error entries have only been added, and the
    fields set at the start are the same. *)
Definition grown_by (n : nat) (before after : GatewayTemplatesSyncResult)
    : Prop :=
  counted after = (counted before + n)%nat
  /\ (agents_updated before <= agents_updated after)%nat
  /\ (agents_skipped before <= agents_skipped after)%nat
  /\ (exists new, errors after = errors before ++ new)
  /\ result_gateway_id after = result_gateway_id before
  /\ result_include_main after = result_include_main before
  /\ result_reset_sessions after = result_reset_sessions before
  /\ main_updated after = main_updated before.

(** The result after the loop has dealt with at most [n] agents: with all
    of them if the loop went through; with some of them, and with an error
    entry, if the function returned from inside. *)
Definition loop_counted (n : nat) (before : GatewayTemplatesSyncResult)
    (f : flow) : Prop :=
  match f with
  | Continue after => grown_by n before after
  | Return after =>
      (exists k, (k <= n)%nat /\ grown_by k before after)
      /\ errors after <> []
  end.

(** The result after the main-agent block: the counters of the loop are
    as they were. *)
Definition main_counted (before after : GatewayTemplatesSyncResult) : Prop :=
  agents_updated after = agents_updated before
  /\ agents_skipped after = agents_skipped before
  /\ (exists new, errors after = errors before ++ new)
  /\ result_gateway_id after = result_gateway_id before
  /\ result_include_main after = result_include_main before
  /\ result_reset_sessions after = result_reset_sessions before.

(** The result a sync starts from. *)
Definition initial_result (gateway : Gateway)
    (include_main reset_sessions : bool) : GatewayTemplatesSyncResult :=
  mkSyncResult (gateway_id gateway) include_main reset_sessions 0 0 false [].

(** The boards a sync works on - those of the gateway, or the one asked for
    if it belongs to the gateway - and the agents on them, oldest first. *)
Definition boards_in_scope (d : Database) (gateway : Gateway)
    (board_id : option UUID) : option (list (UUID * Board)) :=
  match board_id with
  | None => Some (boards_by_id_of d gateway)
  | Some wanted =>
      match boards_get wanted (boards_by_id_of d gateway) with
      | None => None
      | Some board => Some [(wanted, board)]
      end
  end.

Definition agents_on (d : Database) (boards_by_id : list (UUID * Board))
    : list Agent :=
  match boards_by_id with
  | [] => []
  | _ => agents_of_boards d (boards_keys boards_by_id)
  end.

Definition agents_in_scope (d : Database) (gateway : Gateway)
    (board_id : option UUID) : list Agent :=
  match boards_in_scope d gateway board_id with
  | Some boards_by_id => agents_on d boards_by_id
  | None => []
  end.




(* ================================================================== *)
(** ** Further vocabulary: what a sync asks of the gateway *)
(* ================================================================== *)

(** The provisioning requests among a list of requests. *)
Definition provision_calls (reqs : list GatewayRequest) : list ProvisionCall :=
  flat_map (fun q =>
              match q with
              | ReqProvision call => [call]
              | ReqCall _ _ => []
              end) reqs.

(** A computation that only adds requests, whose provisioning requests all
    satisfy [ok], and whose value, if it returns one, satisfies [V]. *)
Definition provisions_only {A} (ok : ProvisionCall -> Prop) (V : A -> Prop)
    (c : M A) : Prop :=
  forall st,
    (exists new,
        requests (world (fst (c st))) = new ++ requests (world st)
        /\ Forall ok (provision_calls new))
    /\ match snd (c st) with Val a => V a | _ => True end.

(** An operation that only adds requests, whose provisioning requests all
    satisfy [ok]. *)
Definition op_requests {A : Type} (ok : ProvisionCall -> Prop) (op : Op A)
    : Prop :=
  forall w, exists new,
    requests (fst (op w)) = new ++ requests w
    /\ Forall ok (provision_calls new).

(** The same record up to the token hash and the update time, which
    re-keying sets. *)
Definition same_identity (a b : Agent) : Prop :=
  agent_id b = agent_id a
  /\ agent_name b = agent_name a
  /\ agent_board_id b = agent_board_id a
  /\ openclaw_session_id b = openclaw_session_id a
  /\ agent_created_at b = agent_created_at a.

Section Scope.

Variable gateway : Gateway.
Variable user : option UUID.
Variables include_main reset_sessions force_bootstrap : bool.

(** A provisioning request made on behalf of this sync. *)
Definition call_of_this_sync (call : ProvisionCall) : Prop :=
  pc_gateway call = gateway
  /\ pc_user call = user
  /\ pc_force_bootstrap call = force_bootstrap
  /\ pc_reset_session call = reset_sessions.

(** A provisioning request for [agent] on [board]. *)
Definition call_for (agent : Agent) (board : Board) (call : ProvisionCall)
    : Prop :=
  call_of_this_sync call
  /\ pc_board call = Some board
  /\ same_identity agent (pc_agent call).

(** A provisioning request for one of [agents], on its board in
    [boards_by_id], which is not among [paused]. *)
Definition call_in_loop (boards_by_id : list (UUID * Board))
    (paused : list UUID) (agents : list Agent) (call : ProvisionCall) : Prop :=
  exists agent b board,
    In agent agents
    /\ agent_board_id agent = Some b
    /\ boards_get b boards_by_id = Some board
    /\ mem_uuid (board_ident board) paused = false
    /\ call_for agent board call.

(** A provisioning request for the main agent of the gateway. *)
Definition call_for_main (call : ProvisionCall) : Prop :=
  call_of_this_sync call
  /\ pc_board call = None
  /\ opt_str_eqb (openclaw_session_id (pc_agent call))
                 (main_session_key gateway) = true.

(** What a sync started on database [d] may provision: an agent in scope,
    on a board of the gateway - the board asked for, if one was - that the
    board memory does not show as paused; or, if the main agent is
    included, the agent with the gateway's main session key. *)
Definition call_in_scope (d : Database) (board_id : option UUID)
    (call : ProvisionCall) : Prop :=
  call_of_this_sync call
  /\ match pc_board call with
     | Some board =>
         (exists agent,
             In agent (agents_in_scope d gateway board_id)
             /\ agent_board_id agent = Some (board_ident board)
             /\ same_identity agent (pc_agent call))
         /\ In board (boards_tbl d)
         /\ board_gateway_id board = Some (gateway_id gateway)
         /\ (forall wanted, board_id = Some wanted -> board_ident board = wanted)
         /\ (forall boards_by_id,
               boards_in_scope d gateway board_id = Some boards_by_id ->
               mem_uuid (board_ident board)
                 (paused_of (board_memory_tbl d) (boards_keys boards_by_id))
               = false)
     | None =>
         include_main = true
         /\ opt_str_eqb (openclaw_session_id (pc_agent call))
                        (main_session_key gateway) = true
     end.

End Scope.

(* ================================================================== *)
(** ** Agent authentication (app/core/agent_auth.py) *)
(* ================================================================== *)

(** How a request dependency ends: with a value, with an [HTTPException] of
    some status code, or with another exception that nothing catches. *)
Inductive response (A : Type) : Type :=
| Returned (a : A)
| HTTPException (status_code : nat)
| Uncaught (e : exn).
Arguments Returned {A} a.
Arguments HTTPException {A} status_code.
Arguments Uncaught {A} e.

Definition HTTP_401_UNAUTHORIZED : nat := 401.

Module AgentAuth.

Record AgentAuthContext : Type := mkAgentAuthContext {
  actor_type : str;
  agent : Agent
}.

Section WithHash.

Variable pbkdf2 : str -> bytes -> bytes -> Z -> bytes.

(** [select(Agent).where(col(Agent.agent_token_hash).is_not(None))], the rows
    in table order. *)
Definition agents_with_hash (d : Database) : list Agent :=
  filter (fun a => match agent_token_hash a with
                   | Some _ => true
                   | None => false
                   end) (agents_tbl d).

(** The loop of [_find_agent_for_token]. *)
Fixpoint first_verified (token : str) (agents : list Agent)
    : outcome (option Agent) :=
  match agents with
  | [] => Ret None
  | candidate :: rest =>
      match truthy_hash candidate with
      | None => first_verified token rest
      | Some h =>
          match verify_agent_token pbkdf2 token h with
          | Ret true => Ret (Some candidate)
          | Ret false => first_verified token rest
          | Raise e => Raise e
          end
      end
  end.

Definition _find_agent_for_token (d : Database) (token : str)
    : outcome (option Agent) :=
  first_verified token (agents_with_hash d).

Definition get_agent_auth_context (agent_token : option str) (d : Database)
    : response AgentAuthContext :=
  match truthy agent_token with
  | None => HTTPException HTTP_401_UNAUTHORIZED
  | Some token =>
      match _find_agent_for_token d token with
      | Raise e => Uncaught e
      | Ret None => HTTPException HTTP_401_UNAUTHORIZED
      | Ret (Some found) =>
          Returned (mkAgentAuthContext (lit "agent") found)
      end
  end.

Definition get_agent_auth_context_optional (agent_token : option str)
    (d : Database) : response (option AgentAuthContext) :=
  match truthy agent_token with
  | None => Returned None
  | Some token =>
      match _find_agent_for_token d token with
      | Raise e => Uncaught e
      | Ret None => HTTPException HTTP_401_UNAUTHORIZED
      | Ret (Some found) =>
          Returned (Some (mkAgentAuthContext (lit "agent") found))
      end
  end.

End WithHash.

End AgentAuth.

(** A stored hash on which verification answers for every token. *)
Definition hash_is_readable (pbkdf2 : str -> bytes -> bytes -> Z -> bytes)
    (h : str) : Prop :=
  forall token, exists ok, verify_agent_token pbkdf2 token h = Ret ok.

(** An agent row whose stored hash accepts the token, and one whose stored
    hash makes verification raise. *)
Definition row_accepts (pbkdf2 : str -> bytes -> bytes -> Z -> bytes)
    (token : str) (a : Agent) : Prop :=
  exists h, truthy_hash a = Some h
            /\ verify_agent_token pbkdf2 token h = Ret true.

Definition row_breaks (pbkdf2 : str -> bytes -> bytes -> Z -> bytes)
    (token : str) (a : Agent) (e : exn) : Prop :=
  exists h, truthy_hash a = Some h
            /\ verify_agent_token pbkdf2 token h = Raise e.

(* ================================================================== *)
(** ** Task notifications (app/integrations/notify.py) *)
(* ================================================================== *)

Module Notify.

(** The models this module reads are declared elsewhere; the records below
    hold the attributes that the code of the module reads, with the types
    its tests on them show: identifiers tested for truth or for [None] are
    optional integers, texts combined with [or ""] are optional strings. *)
Module Employee.
Record t : Type := mk {
  id : option Z;
  employee_type : str;
  (** [getattr(e, "notify_enabled", True)]: the outer [None] is an object
      without the attribute. *)
  notify_enabled : option (option bool);
  openclaw_session_key : option str
}.
End Employee.

Module ProjectMember.
Record t : Type := mk {
  project_id : Z;
  employee_id : Z;
  role : option str
}.
End ProjectMember.

Module Task.
Record t : Type := mk {
  id : option Z;
  title : str;
  description : option str;
  status : option str;
  project_id : Z;
  assignee_employee_id : option Z;
  reviewer_employee_id : option Z
}.
End Task.

Module TaskComment.
Record t : Type := mk {
  author_employee_id : option Z;
  body : option str
}.
End TaskComment.

Record NotifyContext : Type := mkNotifyContext {
  event : str;
  actor_employee_id : Z;
  task : Task.t;
  comment : option TaskComment.t
}.

(** The two tables the session is asked for. *)
Record Tables : Type := mkTables {
  employees : list Employee.t;
  project_members : list ProjectMember.t
}.

(** A [set[int]]: a list without repetition, in order of insertion. *)
Definition iset := list Z.

Definition iset_mem (x : Z) (s : iset) : bool := existsb (Z.eqb x) s.
Definition iset_add (x : Z) (s : iset) : iset :=
  if iset_mem x s then s else s ++ [x].
Definition iset_discard (x : Z) (s : iset) : iset :=
  filter (fun y => negb (Z.eqb y x)) s.
(** [s |= t] *)
Definition iset_union (s t : iset) : iset :=
  fold_left (fun acc x => iset_add x acc) t s.

(** Truth of an optional integer: [None] and 0 are false. *)
Definition truthy_id (x : option Z) : option Z :=
  match x with
  | Some z => if (z =? 0)%Z then None else Some z
  | None => None
  end.

(** [sorted({i for i in employee_ids if i is not None})] *)
Fixpoint insert_sorted (x : Z) (l : list Z) : list Z :=
  match l with
  | [] => [x]
  | y :: l' =>
      if (x <? y)%Z then x :: l
      else if (x =? y)%Z then l
      else y :: insert_sorted x l'
  end.

Definition sorted_ids (employee_ids : list (option Z)) : list Z :=
  fold_left (fun acc i => match i with
                          | Some z => insert_sorted z acc
                          | None => acc
                          end) employee_ids [].

Definition attr_enabled (e : Employee.t) : bool :=
  match Employee.notify_enabled e with
  | None => true
  | Some None => false
  | Some (Some b) => b
  end.

Definition _employees_with_session_keys (tables : Tables)
    (employee_ids : list (option Z)) : list Employee.t :=
  let ids := sorted_ids employee_ids in
  match ids with
  | [] => []
  | _ =>
      let emps :=
        filter (fun e => match Employee.id e with
                         | Some z => iset_mem z ids
                         | None => false
                         end) (employees tables) in
      filter (fun e =>
                attr_enabled e
                && match truthy (Employee.openclaw_session_key e) with
                   | Some _ => true
                   | None => false
                   end) emps
  end.

Definition pm_roles : list str :=
  [lit "pm"; lit "product"; lit "product_manager"; lit "manager"].

Definition _project_pm_employee_ids (tables : Tables) (project_id : Z) : iset :=
  fold_left
    (fun pm_ids m =>
       let role := lower (opt_or (ProjectMember.role m) []) in
       if mem_str role pm_roles
       then iset_add (ProjectMember.employee_id m) pm_ids else pm_ids)
    (filter (fun m => (ProjectMember.project_id m =? project_id)%Z)
            (project_members tables))
    [].

(** [if x: recipients.add(x)] *)
Definition add_if_set (x : option Z) (recipients : iset) : iset :=
  match truthy_id x with
  | Some z => iset_add z recipients
  | None => recipients
  end.

Definition resolve_recipients (tables : Tables) (ctx : NotifyContext) : iset :=
  let t := task ctx in
  let pms := _project_pm_employee_ids tables (Task.project_id t) in
  let recipients :=
    if str_eqb (event ctx) (lit "task.created") then
      iset_union (add_if_set (Task.assignee_employee_id t) []) pms
    else if str_eqb (event ctx) (lit "task.assigned") then
      iset_union (add_if_set (Task.assignee_employee_id t) []) pms
    else if str_eqb (event ctx) (lit "comment.created") then
      let recipients := add_if_set (Task.assignee_employee_id t) [] in
      let recipients := add_if_set (Task.reviewer_employee_id t) recipients in
      let recipients := iset_union recipients pms in
      match comment ctx with
      | Some c =>
          match truthy_id (TaskComment.author_employee_id c) with
          | Some author => iset_discard author recipients
          | None => recipients
          end
      | None => recipients
      end
    else if str_eqb (event ctx) (lit "status.changed") then
      let new_status := lower (opt_or (Task.status t) []) in
      let recipients :=
        if mem_str new_status [lit "review"; lit "ready_for_review"]
        then add_if_set (Task.reviewer_employee_id t) []
        else [] in
      iset_union recipients pms
    else if str_eqb (event ctx) (lit "task.updated") then
      iset_union [] pms
    else [] in
  iset_discard (actor_employee_id ctx) recipients.

(** [f"{x}"] for an optional integer and an optional string. *)
Definition fmt_int (x : option Z) : str :=
  match x with Some z => str_of_Z z | None => lit "None" end.
Definition fmt_str (x : option str) : str :=
  match x with Some s => s | None => lit "None" end.

(** The arrow U+2192 of the message texts, as its three UTF-8 bytes. *)
Definition arrow : str := [chr 226; chr 134; chr 146].

(** [s.replace("\n", " ")] *)
Definition newlines_to_blanks (s : str) : str :=
  map (fun c => if Ascii.eqb c (chr 10) then " "%char else c) s.

(** [s if len(s) <= limit else s[:limit - 3] + "..."] *)
Definition shorten (limit : nat) (s : str) : str :=
  if (limit <? List.length s)%nat
  then firstn (limit - 3) s ++ lit "..." else s.

Definition base_of (t : Task.t) : str :=
  match Task.id t with
  | Some _ => lit "Task #" ++ fmt_int (Task.id t) ++ lit ": " ++ Task.title t
  | None => lit "Task: " ++ Task.title t
  end.

Definition desc_block_of (t : Task.t) : str :=
  let desc := strip (opt_or (Task.description t) []) in
  let desc := shorten 500 desc in
  if nonempty desc then nl ++ nl ++ lit "Description:" ++ nl ++ desc else [].

Definition snippet_of (ctx : NotifyContext) : str :=
  match comment ctx with
  | Some c =>
      match truthy (TaskComment.body c) with
      | Some body =>
          let snippet := newlines_to_blanks (strip body) in
          let snippet := shorten 180 snippet in
          nl ++ lit "Comment: " ++ snippet
      | None => []
      end
  | None => []
  end.

Definition build_message (ctx : NotifyContext) (recipient : Employee.t) : str :=
  let t := task ctx in
  let base := base_of t in
  if (str_eqb (event ctx) (lit "task.created")
      || str_eqb (event ctx) (lit "task.assigned"))
     && str_eqb (Employee.employee_type recipient) (lit "agent")
  then
    base ++ nl ++ nl
    ++ lit "You are the assignee. Start NOW:" ++ nl
    ++ lit "1) PATCH /tasks/" ++ fmt_int (Task.id t) ++ lit " " ++ arrow
    ++ lit " status=in_progress (use X-Actor-Employee-Id: "
    ++ fmt_int (Employee.id recipient) ++ lit ")" ++ nl
    ++ lit "2) POST /task-comments " ++ arrow ++ lit " task_id="
    ++ fmt_int (Task.id t) ++ lit " with a 1-2 line plan + next action" ++ nl
    ++ lit "3) Do the work" ++ nl
    ++ lit "4) POST /task-comments " ++ arrow ++ lit " progress updates" ++ nl
    ++ lit "5) When complete: PATCH /tasks/" ++ fmt_int (Task.id t) ++ lit " "
    ++ arrow ++ lit " status=done and post a final summary comment"
    ++ desc_block_of t
  else if str_eqb (event ctx) (lit "task.assigned") then
    lit "Assigned: " ++ base ++ lit "." ++ nl
    ++ lit "Work ONE task only; update Mission Control with a comment when you make progress."
  else if str_eqb (event ctx) (lit "comment.created") then
    lit "New comment on " ++ base ++ lit "." ++ snippet_of ctx ++ nl
    ++ lit "Work ONE task only; reply/update in Mission Control."
  else if str_eqb (event ctx) (lit "status.changed") then
    lit "Status changed on " ++ base ++ lit " " ++ arrow ++ lit " "
    ++ fmt_str (Task.status t) ++ lit "." ++ nl
    ++ lit "Work ONE task only; update Mission Control with next step."
  else if str_eqb (event ctx) (lit "task.created") then
    lit "New task created: " ++ base ++ lit "." ++ nl
    ++ lit "Work ONE task only; add acceptance criteria / next step in Mission Control."
  else
    lit "Update on " ++ base ++ lit "." ++ nl
    ++ lit "Work ONE task only; update Mission Control.".

(** One call of [client.tools_invoke(tool, args, timeout_s=...)]. *)
Record Invocation : Type := mkInvocation {
  tool : str;
  args : json;
  timeout_s : Q
}.

(** The client of [OpenClawClient.from_env()]: what it answers to its n-th
    invocation. *)
Definition Client := nat -> Invocation -> outcome json.

(** [client.tools_invoke(...)], with the invocations made so far, oldest
    first. *)
Definition tools_invoke (client : Client) (inv : Invocation)
    (made : list Invocation) : list Invocation * outcome json :=
  (made ++ [inv], client (List.length made) inv).

Definition sessions_send (sk message : str) : Invocation :=
  mkInvocation (lit "sessions_send")
    (JDict [(lit "sessionKey", JStr sk); (lit "message", JStr message)])
    3.

(** The loop over the recipients: [except Exception: continue]. *)
Fixpoint notify_each (client : Client) (ctx : NotifyContext)
    (recipients : list Employee.t) (made : list Invocation)
    : list Invocation * outcome unit :=
  match recipients with
  | [] => (made, Ret tt)
  | e :: rest =>
      match truthy (Employee.openclaw_session_key e) with
      | None => notify_each client ctx rest made
      | Some sk =>
          let message := build_message ctx e in
          match tools_invoke client (sessions_send sk message) made with
          | (made', Ret _) => notify_each client ctx rest made'
          | (made', Raise _) => notify_each client ctx rest made'
          end
      end
  end.

Definition notify_openclaw (client : option Client) (tables : Tables)
    (ctx : NotifyContext) (made : list Invocation)
    : list Invocation * outcome unit :=
  match client with
  | None => (made, Ret tt)
  | Some client =>
      let recipient_ids := resolve_recipients tables ctx in
      let recipients :=
        _employees_with_session_keys tables (map Some recipient_ids) in
      match recipients with
      | [] => (made, Ret tt)
      | _ => notify_each client ctx recipients made
      end
  end.

End Notify.

(** The invocation that notifies one employee of an event. *)
Definition notification_for (ctx : Notify.NotifyContext)
    (e : Notify.Employee.t) : Notify.Invocation :=
  Notify.sessions_send (opt_or (Notify.Employee.openclaw_session_key e) [])
                       (Notify.build_message ctx e).

(* ================================================================== *)
(** ** Schema migration d3e4f5a6b7c8 (alembic/versions) *)
(* ================================================================== *)

Module Migration.

(** The part of a database schema that the migration touches: the columns
    of the tables and the indexes. *)
Record Column : Type := mkColumn {
  column_name : str;
  column_type : str;
  nullable : bool
}.

Record Table : Type := mkTable {
  table_name : str;
  table_columns : list Column
}.

Record Index : Type := mkIndex {
  index_name : str;
  index_table : str;
  index_columns : list str;
  unique : bool
}.

Record Schema : Type := mkSchema {
  tables : list Table;
  indexes : list Index
}.

Definition has_table (s : Schema) (table : str) : bool :=
  existsb (fun t => str_eqb (table_name t) table) (tables s).

Definition has_column (s : Schema) (table column : str) : bool :=
  existsb (fun t => str_eqb (table_name t) table
                    && existsb (fun c => str_eqb (column_name c) column)
                               (table_columns t)) (tables s).

Definition has_index (s : Schema) (name : str) : bool :=
  existsb (fun i => str_eqb (index_name i) name) (indexes s).

(** The error with which the database refuses a statement. *)
Definition refused {A} (message : str) : outcome A :=
  Raise (OtherError message).

(** [op.add_column(table, column)]: ALTER TABLE ... ADD COLUMN. *)
Definition add_column (table : str) (column : Column) (s : Schema)
    : outcome Schema :=
  if negb (has_table s table) then refused (lit "relation does not exist")
  else if has_column s table (column_name column)
  then refused (lit "column already exists")
  else
    Ret (mkSchema
           (map (fun t => if str_eqb (table_name t) table
                          then mkTable (table_name t)
                                       (table_columns t ++ [column])
                          else t) (tables s))
           (indexes s)).

(** [op.create_index(name, table, columns, unique=...)]: CREATE INDEX. *)
Definition create_index (name table : str) (columns : list str)
    (unique : bool) (s : Schema) : outcome Schema :=
  if has_index s name then refused (lit "relation already exists")
  else if negb (forallb (has_column s table) columns)
  then refused (lit "column does not exist")
  else Ret (mkSchema (tables s)
                     (indexes s ++ [mkIndex name table columns unique])).

(** [op.drop_index(name, table_name=...)]: DROP INDEX. *)
Definition drop_index (name table : str) (s : Schema) : outcome Schema :=
  if negb (has_index s name) then refused (lit "index does not exist")
  else Ret (mkSchema (tables s)
                     (filter (fun i => negb (str_eqb (index_name i) name))
                             (indexes s))).

(** [op.drop_column(table, column)]: ALTER TABLE ... DROP COLUMN, which also
    drops the indexes that involve the column. *)
Definition drop_column (table column : str) (s : Schema) : outcome Schema :=
  if negb (has_column s table column)
  then refused (lit "column does not exist")
  else
    Ret (mkSchema
           (map (fun t => if str_eqb (table_name t) table
                          then mkTable (table_name t)
                                 (filter (fun c => negb (str_eqb (column_name c)
                                                                 column))
                                         (table_columns t))
                          else t) (tables s))
           (filter (fun i => negb (str_eqb (index_table i) table
                                   && mem_str column (index_columns i)))
                   (indexes s))).

Definition revision : str := lit "d3e4f5a6b7c8".
Definition down_revision : str := lit "c7f0a2b1d4e3".

(** [op.f(name)] marks a name as final; the name is unchanged. *)
Definition f (name : str) : str := name.

Local Open Scope outcome_scope.

Definition upgrade (s : Schema) : outcome Schema :=
  try! s <- add_column (lit "agents")
              (mkColumn (lit "agent_token_hash") (lit "AutoString") true) s ;
  create_index (f (lit "ix_agents_agent_token_hash")) (lit "agents")
               [lit "agent_token_hash"] false s.

Definition downgrade (s : Schema) : outcome Schema :=
  try! s <- drop_index (f (lit "ix_agents_agent_token_hash")) (lit "agents") s ;
  drop_column (lit "agents") (lit "agent_token_hash") s.

End Migration.

(* ================================================================== *)
(** * Properties *)
(* ================================================================== *)

(** ** Strings *)


Lemma ascii_eqb_refl (c : ascii) : Ascii.eqb c c = true.
Proof. apply Ascii.eqb_eq. reflexivity. Qed.

Lemma startswith_iff (prefix s : str) :
  startswith prefix s = true <-> exists rest, s = prefix ++ rest.
Proof.
  revert s. induction prefix as [|p prefix IH]; intros s; simpl.
  - split; [intros _; exists s; reflexivity | reflexivity].
  - destruct s as [|c s].
    + split; [discriminate | intros [rest H]; discriminate].
    + rewrite andb_true_iff, Ascii.eqb_eq, IH. split.
      * intros [-> [rest ->]]. exists rest. reflexivity.
      * intros [rest H]. injection H as -> ->. split; [reflexivity|].
        exists rest. reflexivity.
Qed.

Lemma contains_iff (needle hay : str) :
  contains needle hay = true <-> exists pre post, hay = pre ++ needle ++ post.
Proof.
  induction hay as [|c hay IH].
  - simpl. rewrite orb_false_r, startswith_iff. split.
    + intros [rest H]. exists [], rest. exact H.
    + intros [pre [post H]]. destruct pre; [exists post; exact H|discriminate].
  - cbn [contains]. rewrite orb_true_iff, startswith_iff, IH. split.
    + intros [[rest H] | [pre [post H]]].
      * exists [], rest. exact H.
      * exists (c :: pre), post. simpl. rewrite H. reflexivity.
    + intros [pre [post H]]. destruct pre as [|x pre].
      * left. exists post. exact H.
      * right. injection H as _ H. exists pre, post. exact H.
Qed.




(** ** Transient classification *)





Lemma str_eqb_eq (a b : str) : str_eqb a b = true <-> a = b.
Proof.
  revert b. induction a as [|x a IH]; intros [|y b]; simpl;
    try (split; [discriminate | discriminate]); try tauto.
  rewrite andb_true_iff, Ascii.eqb_eq, IH. split.
  - intros [-> ->]. reflexivity.
  - intros H. injection H as -> ->. split; reflexivity.
Qed.

Lemma str_eqb_refl (a : str) : str_eqb a a = true.
Proof. apply str_eqb_eq. reflexivity. Qed.

(** ** Stripping *)

Lemma lstrip_by_suffix (p : ascii -> bool) (s : str) :
  exists dropped, s = dropped ++ lstrip_by p s.
Proof.
  induction s as [|c s [d IH]]; simpl.
  - exists []. reflexivity.
  - destruct (p c).
    + exists (c :: d). simpl. rewrite <- IH. reflexivity.
    + exists []. reflexivity.
Qed.

Lemma lstrip_by_head (p : ascii -> bool) (s : str) c rest :
  lstrip_by p s = c :: rest -> p c = false.
Proof.
  induction s as [|x s IH]; simpl; [discriminate|].
  destruct (p x) eqn:E; [exact IH|].
  intros H. injection H as <- _. exact E.
Qed.

Lemma rstrip_by_prefix (p : ascii -> bool) (s : str) :
  exists dropped, s = rstrip_by p s ++ dropped.
Proof.
  unfold rstrip_by. destruct (lstrip_by_suffix p (rev s)) as [d H].
  exists (rev d). rewrite <- rev_app_distr, <- H, rev_involutive. reflexivity.
Qed.

Lemma rstrip_by_last (p : ascii -> bool) (s : str) front c :
  rstrip_by p s = front ++ [c] -> p c = false.
Proof.
  unfold rstrip_by. intros H.
  apply (f_equal (@rev ascii)) in H.
  rewrite rev_involutive, rev_app_distr in H. simpl in H.
  exact (lstrip_by_head H).
Qed.

Lemma strip_by_infix (p : ascii -> bool) (s : str) :
  exists a b, s = a ++ strip_by p s ++ b.
Proof.
  unfold strip_by. destruct (lstrip_by_suffix p s) as [a Ha].
  destruct (rstrip_by_prefix p (lstrip_by p s)) as [b Hb].
  exists a, b. rewrite <- Hb. exact Ha.
Qed.

Lemma strip_by_head (p : ascii -> bool) (s : str) c rest :
  strip_by p s = c :: rest -> p c = false.
Proof.
  unfold strip_by. intros H.
  destruct (rstrip_by_prefix p (lstrip_by p s)) as [d Hd].
  rewrite H in Hd. simpl in Hd. exact (lstrip_by_head Hd).
Qed.

Lemma strip_by_last (p : ascii -> bool) (s : str) front c :
  strip_by p s = front ++ [c] -> p c = false.
Proof. unfold strip_by. apply rstrip_by_last. Qed.

Lemma contains_in_infix (needle a s b : str) :
  contains needle s = true -> contains needle (a ++ s ++ b) = true.
Proof.
  rewrite !contains_iff. intros [pre [post ->]].
  exists (a ++ pre), (post ++ b). rewrite <- !app_assoc. reflexivity.
Qed.

(** ** Slugs *)

Lemma collapse_runs_chars (in_run : bool) (s : str) :
  Forall (fun c => is_slug_char c = true \/ c = "-"%char)
         (collapse_runs in_run s).
Proof.
  revert in_run. induction s as [|c s IH]; intros in_run; simpl.
  - constructor.
  - destruct (is_slug_char c) eqn:E.
    + constructor; [left; exact E | apply IH].
    + destruct in_run; [apply IH|]. constructor; [right; reflexivity | apply IH].
Qed.

Lemma starts_hyphen_cons (c : ascii) (r : str) :
  startswith (lit "-") (c :: r) = Ascii.eqb "-" c.
Proof. cbn. apply andb_true_r. Qed.

Lemma double_hyphen_cons (c : ascii) (r : str) :
  contains (lit "--") (c :: r)
  = (Ascii.eqb "-" c && startswith (lit "-") r) || contains (lit "--") r.
Proof.
  reflexivity.
Qed.

Lemma collapse_runs_hyphens (s : str) :
  contains (lit "--") (collapse_runs false s) = false
  /\ contains (lit "--") (collapse_runs true s) = false
  /\ startswith (lit "-") (collapse_runs true s) = false.
Proof.
  induction s as [|c s [IHf [IHt IHs]]]; [repeat split|].
  cbn [collapse_runs]. destruct (is_slug_char c) eqn:E.
  - assert (Hc : Ascii.eqb "-" c = false).
    { destruct (Ascii.eqb "-" c) eqn:Ec; [|reflexivity].
      apply Ascii.eqb_eq in Ec. subst c. discriminate E. }
    rewrite double_hyphen_cons, starts_hyphen_cons, Hc, IHf.
    repeat split.
  - rewrite double_hyphen_cons, IHs, IHt. repeat split.
Qed.

Lemma slug_of_shaped (value : str) : slug_shaped (slug_of value).
Proof.
  unfold slug_of, strip_char.
  set (full := collapse_runs false (lower value)).
  destruct (strip_by_infix (Ascii.eqb "-") full) as [a [b Hfull]].
  repeat split.
  - pose proof (collapse_runs_chars false (lower value)) as H.
    fold full in H. rewrite Hfull in H.
    apply Forall_app in H. destruct H as [_ H].
    apply Forall_app in H. exact (proj1 H).
  - destruct (strip_by (Ascii.eqb "-") full) as [|c r] eqn:E; [reflexivity|].
    rewrite starts_hyphen_cons. exact (strip_by_head E).
  - intros front H. apply strip_by_last in H. discriminate H.
  - destruct (contains (lit "--") (strip_by (Ascii.eqb "-") full)) eqn:E;
      [|reflexivity].
    apply (@contains_in_infix _ a _ b) in E. rewrite <- Hfull in E.
    unfold full in E.
    rewrite (proj1 (collapse_runs_hyphens (lower value))) in E. discriminate.
Qed.

Lemma split_nonempty (sep : ascii) (s : str) : split sep s <> [].
Proof.
  destruct s as [|c s]; simpl; [discriminate|].
  destruct (Ascii.eqb c sep); [discriminate|].
  destruct (split sep s); discriminate.
Qed.

Lemma agent_prefix_has_two_segments (key : str) :
  startswith (lit "agent:") key = true ->
  (SESSION_KEY_PARTS_MIN <=? List.length (split ":" key))%nat = true.
Proof.
  intros H. apply startswith_iff in H. destruct H as [rest ->].
  cbn. pose proof (@split_nonempty ":" rest) as Hn.
  destruct (split ":" rest); [contradiction|reflexivity].
Qed.




(** ** Provisioning message *)

Lemma lstrip_by_dropped (p : ascii -> bool) (s : str) :
  exists dropped, s = dropped ++ lstrip_by p s /\ forallb p dropped = true.
Proof.
  induction s as [|c s [d [IH Hd]]]; simpl.
  - exists []. split; reflexivity.
  - destruct (p c) eqn:E.
    + exists (c :: d). simpl. rewrite <- IH, E, Hd. split; reflexivity.
    + exists []. split; reflexivity.
Qed.

Lemma rstrip_by_dropped (p : ascii -> bool) (s : str) :
  exists dropped, s = rstrip_by p s ++ dropped /\ forallb p dropped = true.
Proof.
  unfold rstrip_by. destruct (lstrip_by_dropped p (rev s)) as [d [H Hd]].
  exists (rev d). split.
  - rewrite <- rev_app_distr, <- H, rev_involutive. reflexivity.
  - rewrite forallb_forall in Hd |- *. intros x Hx. apply Hd.
    apply in_rev. exact Hx.
Qed.

Lemma values_get_set (k v k' : str) (d : list (str * str)) :
  values_get k' (values_set k v d)
  = if str_eqb k k' then Some v else values_get k' d.
Proof.
  induction d as [|[k0 v0] d IH]; simpl.
  - destruct (str_eqb k k'); reflexivity.
  - destruct (str_eqb k0 k) eqn:E0; simpl.
    + apply str_eqb_eq in E0. subst k0.
      destruct (str_eqb k k'); reflexivity.
    + rewrite IH. destruct (str_eqb k0 k') eqn:E1; [|reflexivity].
      apply str_eqb_eq in E1. subst k'.
      destruct (str_eqb k k0) eqn:E2; [|reflexivity].
      apply str_eqb_eq in E2. subst k0. rewrite str_eqb_refl in E0.
      discriminate.
Qed.

Lemma read_templates_fold (env : Env) (names : list str)
    (init : list (str * str)) (k : str) :
  values_get k
    (fold_left
       (fun templates name =>
          match template_file env name with
          | Some text => values_set name (strip text) templates
          | None => values_set name [] templates
          end) names init)
  = if mem_str k names
    then Some (match template_file env k with
               | Some text => strip text
               | None => []
               end)
    else values_get k init.
Proof.
  revert init. induction names as [|n names IH]; intros init; [reflexivity|].
  cbn [fold_left]. rewrite IH.
  change (mem_str k (n :: names)) with (str_eqb k n || mem_str k names).
  assert (Hset : values_get k
            match template_file env n with
            | Some text => values_set n (strip text) init
            | None => values_set n [] init
            end
          = if str_eqb n k
            then Some match template_file env n with
                      | Some text => strip text
                      | None => []
                      end
            else values_get k init).
  { destruct (template_file env n); apply values_get_set. }
  rewrite Hset.
  destruct (mem_str k names); [rewrite orb_true_r; reflexivity|].
  rewrite orb_false_r. destruct (str_eqb k n) eqn:E.
  - apply str_eqb_eq in E. subst n. rewrite str_eqb_refl. reflexivity.
  - destruct (str_eqb n k) eqn:E'; [|reflexivity].
    apply str_eqb_eq in E'. subst n. rewrite str_eqb_refl in E.
    discriminate.
Qed.

Lemma render_file_block_template (env : Env) (name : str) :
  In name TEMPLATE_FILES ->
  _render_file_block name (templates_get (_read_templates env) name)
  = file_block name (template_body env name).
Proof.
  intros Hin. unfold templates_get, _read_templates.
  rewrite read_templates_fold.
  assert (Hmem : mem_str name TEMPLATE_FILES = true).
  { apply existsb_exists. exists name. split; [exact Hin|apply str_eqb_refl]. }
  rewrite Hmem. unfold _render_file_block, file_block, template_body, stub_body.
  destruct (template_file env name) as [text|]; [|reflexivity].
  destruct (strip text); reflexivity.
Qed.

(** C9. The provisioning message ends with "Files:" followed by one block for
    each of the eight template names, in their fixed order and with none left
    out; the block of a template that is absent or empty carries the stub
    "# <name>" with the TODO marker instead of content. The message also
    carries the line "Workspace path: <root>/<slug>", where the root is the
    configured one (default ~/.openclaw/workspaces) with its trailing slashes
    removed and the slug is that of the agent name (a fresh random identifier
    when the slug is empty). *)
Theorem provisioning_message_blocks (env : Env) (settings : Settings)
    (agent : Agent) (st : State) :
  exists st' agent_id root slug slashes,
    build_provisioning_message env settings agent st
    = (st',
       Val (message_head agent agent_id
            ++ (lit "Workspace path: " ++ root ++ lit "/" ++ slug ++ nl)
            ++ message_steps settings
            ++ lit "Files:"
            ++ concat (map (fun name => file_block name (template_body env name))
                           TEMPLATE_FILES)))
    /\ (forall name, In name TEMPLATE_FILES ->
          template_body env name
          = match template_file env name with
            | Some ((_ :: _) as text) =>
                if nonempty (strip text) then strip text else stub_body name
            | _ => stub_body name
            end)
    /\ configured_root settings = root ++ slashes
    /\ forallb (Ascii.eqb "/") slashes = true
    /\ (forall front, root <> front ++ lit "/")
    /\ (openclaw_workspace_root settings = [] ->
        root = lit "~/.openclaw/workspaces")
    /\ slug = (if nonempty (slug_of (agent_name agent))
               then slug_of (agent_name agent)
               else uuid4_hex env (S (tick (world st)))).
Proof.
  destruct (rstrip_by_dropped (Ascii.eqb "/") (configured_root settings))
    as [slashes [Hroot Hslashes]].
  set (root := rstrip_by (Ascii.eqb "/") (configured_root settings)) in *.
  assert (Hblocks :
    map (fun name =>
           _render_file_block name (templates_get (_read_templates env) name))
        TEMPLATE_FILES
    = map (fun name => file_block name (template_body env name))
          TEMPLATE_FILES).
  { apply map_ext_in. intros name Hin. apply render_file_block_template.
    exact Hin. }
  assert (Hbody : forall name, In name TEMPLATE_FILES ->
            template_body env name
            = match template_file env name with
              | Some ((_ :: _) as text) =>
                  if nonempty (strip text) then strip text else stub_body name
              | _ => stub_body name
              end).
  { intros name _. unfold template_body.
    destruct (template_file env name) as [[|c text]|]; reflexivity. }
  assert (Hend : forall front, root <> front ++ lit "/").
  { intros front H. apply rstrip_by_last in H. discriminate H. }
  assert (Hdefault : openclaw_workspace_root settings = [] ->
                     root = lit "~/.openclaw/workspaces").
  { intros H. unfold root, configured_root. rewrite H. reflexivity. }
  unfold build_provisioning_message, _workspace_path, _slugify, bind, ret,
    perform, uuid4.
  fold (configured_root settings). unfold rstrip_char. fold root.
  rewrite Hblocks.
  set (blocks := concat (map (fun name => file_block name (template_body env name))
                             TEMPLATE_FILES)).
  unfold message_head, message_steps.
  destruct (nonempty (slug_of (agent_name agent))) eqn:Eslug;
    cbn [world set_world tick].
  - exists st, (slug_of (agent_name agent)), root, (slug_of (agent_name agent)),
      slashes.
    split; [|repeat split; assumption].
    f_equal. f_equal. repeat rewrite <- app_assoc. reflexivity.
  - eexists _, (uuid4_hex env (tick (world st))), root,
      (uuid4_hex env (S (tick (world st)))), slashes.
    split; [|repeat split; assumption].
    f_equal. f_equal. repeat rewrite <- app_assoc. reflexivity.
Qed.

(** ** Base64 round trip *)

Lemma byte_of_N_to_N (b : byte) : Base64.byte_of_N (Byte.to_N b) = b.
Proof.
  unfold Base64.byte_of_N. pose proof (Byte.to_N_bounded b) as Hb.
  rewrite N.mod_small by lia. rewrite Byte.of_to_N. reflexivity.
Qed.

Lemma in_all_bytes (b : byte) : In b all_bytes.
Proof.
  unfold all_bytes. apply in_map_iff. exists (N.to_nat (Byte.to_N b)). split.
  - rewrite N2Nat.id. apply byte_of_N_to_N.
  - pose proof (Byte.to_N_bounded b). apply in_seq. lia.
Qed.

Lemma group_check_all :
  forallb (fun x => forallb (group_check x) all_bytes) all_bytes = true.
Proof. vm_compute. reflexivity. Qed.

Lemma group_check_ok (x y : byte) : group_check x y = true.
Proof.
  pose proof group_check_all as H. rewrite forallb_forall in H.
  specialize (H x (in_all_bytes x)). rewrite forallb_forall in H.
  exact (H y (in_all_bytes y)).
Qed.

Lemma sextet_check_all :
  forallb sextet_check (map N.of_nat (seq 0 64)) = true.
Proof. vm_compute. reflexivity. Qed.

Lemma sextet_check_ok (s : N) : (s < 64)%N -> sextet_check s = true.
Proof.
  intros Hs. pose proof sextet_check_all as H. rewrite forallb_forall in H.
  apply H. apply in_map_iff. exists (N.to_nat s). split.
  - apply N2Nat.id.
  - apply in_seq. lia.
Qed.

Lemma group_facts (x y : byte) :
  let s0 := Base64.sextet0 x in
  let s1 := Base64.sextet1 x y in
  let s2 := Base64.sextet2 x y in
  let s3 := Base64.sextet3 y in
  ((s0 < 64)%N /\ (s1 < 64)%N /\ (s2 < 64)%N /\ (s3 < 64)%N)
  /\ Base64.byte_of_N (N.lor (N.shiftl s0 2) (N.shiftr s1 4)) = x
  /\ N.land s1 15 = N.shiftr (Byte.to_N y) 4
  /\ Base64.byte_of_N
       (N.lor (N.shiftl (N.shiftr (Byte.to_N x) 4) 4) (N.shiftr s2 2)) = x
  /\ Base64.byte_of_N (N.lor (N.shiftl (N.land s2 3) 6) s3) = y.
Proof.
  pose proof (group_check_ok x y) as H. unfold group_check in H.
  repeat (apply andb_true_iff in H; destruct H as [H ?]).
  repeat match goal with
         | H : (_ <? _)%N = true |- _ => apply N.ltb_lt in H
         | H : (_ =? _)%N = true |- _ => apply N.eqb_eq in H
         | H : Byte.eqb _ _ = true |- _ => apply Byte.byte_dec_bl in H
         end.
  cbv zeta. repeat split; assumption.
Qed.

Lemma sextet_facts (s : N) :
  (s < 64)%N ->
  let c := Base64.b2a_char s in
  let u := Base64.urlsafe_encode_char c in
  Ascii.eqb c Base64.PAD = false
  /\ Ascii.eqb u Base64.PAD = false
  /\ Ascii.eqb u "$" = false
  /\ (ord u <? 128)%nat = true
  /\ Base64.urlsafe_decode_char u = c
  /\ Base64.a2b_char c = Some s.
Proof.
  intros Hs. pose proof (sextet_check_ok Hs) as H. unfold sextet_check in H.
  repeat (apply andb_true_iff in H; destruct H as [H ?]).
  repeat match goal with
         | H : negb _ = true |- _ => apply negb_true_iff in H
         | H : Ascii.eqb _ _ = true |- _ => apply Ascii.eqb_eq in H
         end.
  cbv zeta. repeat split; try assumption.
  destruct (Base64.a2b_char (Base64.b2a_char s)) as [s'|]; [|discriminate].
  match goal with H : (_ =? _)%N = true |- _ => apply N.eqb_eq in H; subst s' end.
  reflexivity.
Qed.

(** Reading the character of a sextet moves the decoder one position on. *)
Lemma a2b_loop_sextet (s : N) (rest : str) (quad_pos : nat) (leftchar : N)
    (pads written : nat) :
  (s < 64)%N ->
  Base64.a2b_loop (Base64.b2a_char s :: rest) quad_pos leftchar pads written
  = match quad_pos with
    | 0%nat => Base64.a2b_loop rest 1 s 0 written
    | 1%nat =>
        Base64.emit (N.lor (N.shiftl leftchar 2) (N.shiftr s 4))
                    (Base64.a2b_loop rest 2 (N.land s 15) 0 (S written))
    | 2%nat =>
        Base64.emit (N.lor (N.shiftl leftchar 4) (N.shiftr s 2))
                    (Base64.a2b_loop rest 3 (N.land s 3) 0 (S written))
    | _ =>
        Base64.emit (N.lor (N.shiftl leftchar 6) s)
                    (Base64.a2b_loop rest 0 0%N 0 (S written))
    end.
Proof.
  intros Hs. destruct (sextet_facts Hs) as [Hpad [_ [_ [_ [_ Htab]]]]].
  cbn [Base64.a2b_loop]. rewrite Hpad, Htab. reflexivity.
Qed.

Lemma a2b_loop_group (x y z : byte) (rest : str) (written : nat) :
  Base64.a2b_loop
    (Base64.b2a_char (Base64.sextet0 x) :: Base64.b2a_char (Base64.sextet1 x y)
     :: Base64.b2a_char (Base64.sextet2 y z)
     :: Base64.b2a_char (Base64.sextet3 z) :: rest) 0 0%N 0 written
  = match Base64.a2b_loop rest 0 0%N 0 (S (S (S written))) with
    | Ret bs => Ret (x :: y :: z :: bs)
    | Raise e => Raise e
    end.
Proof.
  destruct (group_facts x y) as [[H0 [H1 _]] [O0 [L1 _]]].
  destruct (group_facts y z) as [[_ [_ [H2 H3]]] [_ [_ [O1 O2]]]].
  rewrite !a2b_loop_sextet by assumption.
  destruct (Base64.a2b_loop rest 0 0%N 0 _); cbn [Base64.emit]; [|reflexivity].
  rewrite O0, L1, O1, O2. reflexivity.
Qed.

Lemma a2b_loop_pads (leftchar : N) (written : nat) :
  Base64.a2b_loop [Base64.PAD; Base64.PAD] 2 leftchar 0 written = Ret []
  /\ Base64.a2b_loop [Base64.PAD] 3 leftchar 0 written = Ret [].
Proof. split; reflexivity. Qed.

Lemma a2b_loop_tail1 (x : byte) (written : nat) :
  Base64.a2b_loop
    [Base64.b2a_char (Base64.sextet0 x);
     Base64.b2a_char (Base64.sextet1 x x00); Base64.PAD; Base64.PAD] 0 0%N 0
    written
  = Ret [x].
Proof.
  destruct (group_facts x x00) as [[H0 [H1 _]] [O0 _]].
  rewrite !a2b_loop_sextet by assumption.
  rewrite (proj1 (a2b_loop_pads _ _)). cbn [Base64.emit].
  rewrite O0. reflexivity.
Qed.

Lemma a2b_loop_tail2 (x y : byte) (written : nat) :
  Base64.a2b_loop
    [Base64.b2a_char (Base64.sextet0 x); Base64.b2a_char (Base64.sextet1 x y);
     Base64.b2a_char (Base64.sextet2 y x00); Base64.PAD] 0 0%N 0 written
  = Ret [x; y].
Proof.
  destruct (group_facts x y) as [[H0 [H1 _]] [O0 [L1 _]]].
  destruct (group_facts y x00) as [[_ [_ [H2 _]]] [_ [_ [O1 _]]]].
  rewrite !a2b_loop_sextet by assumption.
  rewrite (proj2 (a2b_loop_pads _ _)). cbn [Base64.emit].
  rewrite O0, L1, O1. reflexivity.
Qed.

Lemma list_ind3 {A} (P : list A -> Prop) :
  P [] -> (forall a, P [a]) -> (forall a b, P [a; b]) ->
  (forall a b c l, P l -> P (a :: b :: c :: l)) ->
  forall l, P l.
Proof.
  intros H0 H1 H2 H3 l.
  enough (H : P l /\ (forall a, P (a :: l)) /\ (forall a b, P (a :: b :: l)))
    by exact (proj1 H).
  induction l as [|x l [IH0 [IH1 IH2]]].
  - repeat split; auto.
  - repeat split; auto.
Qed.

(** Decoding undoes encoding, padding included. *)
Lemma a2b_b2a (data : bytes) :
  Base64.a2b_base64 (Base64.b2a_base64 data) = Ret data.
Proof.
  unfold Base64.a2b_base64. generalize 0%nat at 3 as written.
  induction data as [|x|x y|x y z rest IH] using list_ind3; intros written.
  - reflexivity.
  - apply a2b_loop_tail1.
  - apply a2b_loop_tail2.
  - cbn [Base64.b2a_base64]. rewrite a2b_loop_group, IH. reflexivity.
Qed.

(** The encoder's output: characters of sextets, then at most two pads, in
    all a multiple of four characters. *)
Lemma b2a_shape (data : bytes) :
  exists body k q,
    Base64.b2a_base64 data = body ++ repeat Base64.PAD k
    /\ Forall (fun ch => exists s, (s < 64)%N /\ ch = Base64.b2a_char s) body
    /\ (List.length body + k = 4 * q)%nat
    /\ (k < 3)%nat.
Proof.
  induction data as [|x|x y|x y z rest IH] using list_ind3.
  - exists [], 0%nat, 0%nat. repeat split; [constructor|lia].
  - destruct (group_facts x x00) as [[H0 [H1 _]] _].
    exists [Base64.b2a_char (Base64.sextet0 x);
            Base64.b2a_char (Base64.sextet1 x x00)], 2%nat, 1%nat.
    repeat split; [|lia]. repeat (constructor; [eexists; eauto|]). constructor.
  - destruct (group_facts x y) as [[H0 [H1 _]] _].
    destruct (group_facts y x00) as [[_ [_ [H2 _]]] _].
    exists [Base64.b2a_char (Base64.sextet0 x);
            Base64.b2a_char (Base64.sextet1 x y);
            Base64.b2a_char (Base64.sextet2 y x00)], 1%nat, 1%nat.
    repeat split; [|lia]. repeat (constructor; [eexists; eauto|]). constructor.
  - destruct IH as [body [k [q [Hb [Hall [Hlen Hk]]]]]].
    destruct (group_facts x y) as [[H0 [H1 _]] _].
    destruct (group_facts y z) as [[_ [_ [H2 H3]]] _].
    exists (Base64.b2a_char (Base64.sextet0 x)
            :: Base64.b2a_char (Base64.sextet1 x y)
            :: Base64.b2a_char (Base64.sextet2 y z)
            :: Base64.b2a_char (Base64.sextet3 z) :: body), k, (S q).
    cbn [Base64.b2a_base64]. rewrite Hb. repeat split.
    + repeat (constructor; [eexists; eauto|]). exact Hall.
    + cbn [List.length]. lia.
    + exact Hk.
Qed.

Lemma rstrip_by_snoc (p : ascii -> bool) (s : str) (c : ascii) :
  p c = true -> rstrip_by p (s ++ [c]) = rstrip_by p s.
Proof.
  intros Hc. unfold rstrip_by. rewrite rev_app_distr. cbn [rev app lstrip_by].
  rewrite Hc. reflexivity.
Qed.

Lemma rstrip_by_none (p : ascii -> bool) (s : str) :
  Forall (fun c => p c = false) s -> rstrip_by p s = s.
Proof.
  intros H. unfold rstrip_by. destruct (rev s) as [|c r] eqn:E.
  - cbn. rewrite <- (rev_involutive s), E. reflexivity.
  - assert (Hc : p c = false).
    { rewrite Forall_forall in H. apply H. apply in_rev. rewrite E.
      left. reflexivity. }
    cbn [lstrip_by]. rewrite Hc, <- E. apply rev_involutive.
Qed.

Lemma rstrip_by_pads (p : ascii -> bool) (body : str) (c : ascii) (k : nat) :
  p c = true -> Forall (fun x => p x = false) body ->
  rstrip_by p (body ++ repeat c k) = body.
Proof.
  intros Hc Hbody. induction k as [|k IH].
  - rewrite app_nil_r. apply rstrip_by_none. exact Hbody.
  - cbn [repeat]. rewrite repeat_cons, app_assoc, rstrip_by_snoc by exact Hc.
    exact IH.
Qed.

Lemma padding_count (n k q : nat) :
  (n + k = 4 * q)%nat -> (k < 3)%nat ->
  Z.to_nat ((- Z.of_nat n) mod 4) = k.
Proof.
  intros H Hk.
  replace (- Z.of_nat n)%Z with (Z.of_nat k + (- Z.of_nat q) * 4)%Z by lia.
  rewrite Z_mod_plus_full, Z.mod_small by lia. apply Nat2Z.id.
Qed.

Lemma urlsafe_pad : Base64.urlsafe_encode_char Base64.PAD = Base64.PAD.
Proof. reflexivity. Qed.

(** [_b64encode] keeps the characters of the sextets and drops the pads;
    its text holds no pad, no dollar sign and only ASCII. *)
Lemma b64encode_shape (data : bytes) :
  exists body k,
    Base64.urlsafe_b64encode data = _b64encode data ++ repeat Base64.PAD k
    /\ Base64.b2a_base64 data = body ++ repeat Base64.PAD k
    /\ _b64encode data = map Base64.urlsafe_encode_char body
    /\ Forall (fun ch => exists s, (s < 64)%N /\ ch = Base64.b2a_char s) body
    /\ Z.to_nat ((- Z.of_nat (List.length (_b64encode data))) mod 4) = k.
Proof.
  destruct (b2a_shape data) as [body [k [q [Hb [Hall [Hlen Hk]]]]]].
  assert (Hstrip : _b64encode data = map Base64.urlsafe_encode_char body).
  { unfold _b64encode, rstrip_char, Base64.urlsafe_b64encode.
    rewrite Hb, map_app, map_repeat, urlsafe_pad.
    apply rstrip_by_pads; [reflexivity|].
    apply Forall_map. apply Forall_impl with (2 := Hall).
    intros ch [s [Hs ->]]. destruct (sextet_facts Hs) as [_ [Hu _]].
    rewrite Ascii.eqb_sym. exact Hu. }
  exists body, k. repeat split; try assumption.
  - rewrite Hstrip. unfold Base64.urlsafe_b64encode.
    rewrite Hb, map_app, map_repeat, urlsafe_pad. reflexivity.
  - rewrite Hstrip, length_map. exact (padding_count Hlen Hk).
Qed.

Lemma b64encode_chars (data : bytes) :
  Forall (fun u => Ascii.eqb u "$" = false /\ (ord u <? 128)%nat = true)
         (_b64encode data).
Proof.
  destruct (b64encode_shape data) as [body [k [_ [_ [-> [Hall _]]]]]].
  apply Forall_map. apply Forall_impl with (2 := Hall).
  intros ch [s [Hs ->]]. destruct (sextet_facts Hs) as [_ [_ [Hd [Ha _]]]].
  split; assumption.
Qed.

(** Decoding an encoded byte string gives it back. *)
Lemma b64_round_trip (data : bytes) : _b64decode (_b64encode data) = Ret data.
Proof.
  destruct (b64encode_shape data) as [body [k [Hu [Hb [Hs [Hall Hk]]]]]].
  unfold _b64decode, times. rewrite Hk. change "="%char with Base64.PAD.
  rewrite <- Hu. unfold Base64.urlsafe_b64decode.
  assert (Hascii : forallb (fun c => (ord c <? 128)%nat)
                     (Base64.urlsafe_b64encode data) = true).
  { rewrite Hu. rewrite forallb_app. apply andb_true_iff. split.
    - apply forallb_forall. intros c Hc.
      pose proof (b64encode_chars data) as Hch. rewrite Forall_forall in Hch.
      exact (proj2 (Hch c Hc)).
    - apply forallb_forall. intros c Hc. apply repeat_spec in Hc. subst c.
      reflexivity. }
  rewrite Hascii.
  assert (Hdec : map Base64.urlsafe_decode_char (Base64.urlsafe_b64encode data)
                 = Base64.b2a_base64 data).
  { unfold Base64.urlsafe_b64encode. rewrite map_map, Hb, map_app, map_repeat.
    f_equal. rewrite <- (map_id body) at 2. apply map_ext_in. intros ch Hch.
    rewrite Forall_forall in Hall. destruct (Hall ch Hch) as [s [Hlt ->]].
    destruct (sextet_facts Hlt) as [_ [_ [_ [_ [Hd _]]]]]. exact Hd. }
  rewrite Hdec. apply a2b_b2a.
Qed.

(** ** Token codec *)

Lemma split_app_sep (sep : ascii) (w rest : str) :
  Forall (fun c => Ascii.eqb c sep = false) w ->
  split sep (w ++ sep :: rest) = w :: split sep rest.
Proof.
  induction 1 as [|c w Hc _ IH]; cbn [app split].
  - rewrite ascii_eqb_refl. reflexivity.
  - rewrite Hc, IH. reflexivity.
Qed.

Lemma split_no_sep (sep : ascii) (w : str) :
  Forall (fun c => Ascii.eqb c sep = false) w -> split sep w = [w].
Proof.
  induction 1 as [|c w Hc _ IH]; cbn [split]; [reflexivity|].
  rewrite Hc, IH. reflexivity.
Qed.

Lemma bytes_eqb_refl (a : bytes) : bytes_eqb a a = true.
Proof.
  induction a as [|x a IH]; [reflexivity|]. cbn [bytes_eqb].
  rewrite IH, (Byte.byte_dec_lb (eq_refl x)). reflexivity.
Qed.

Lemma b64encode_no_dollar (data : bytes) :
  Forall (fun c => Ascii.eqb c "$" = false) (_b64encode data).
Proof.
  apply Forall_impl with (2 := b64encode_chars data). intros c [H _]. exact H.
Qed.

(** The digest string as [hash_agent_token] formats it. *)
Lemma hash_agent_token_value (pbkdf2 : str -> bytes -> bytes -> Z -> bytes)
    (env : Env) (token : str) (st : State) :
  let salt := secrets_token_bytes env (tick (world st)) SALT_BYTES in
  let digest := pbkdf2 (lit "sha256") (encode_utf8 token) salt ITERATIONS in
  hash_agent_token pbkdf2 env token st
  = (set_world st (mkWorld (clock (world st)) (S (tick (world st)))
                           (requests (world st))),
     Val (lit "pbkdf2_sha256" ++ "$"%char
          :: (lit "200000" ++ "$"%char
          :: (_b64encode salt ++ "$"%char :: _b64encode digest)))).
Proof. reflexivity. Qed.

(** Verifying a token against a digest made from it, whatever the salt. *)
Lemma verify_formatted (pbkdf2 : str -> bytes -> bytes -> Z -> bytes)
    (token : str) (salt : bytes) :
  verify_agent_token pbkdf2 token
    (lit "pbkdf2_sha256" ++ "$"%char
     :: (lit "200000" ++ "$"%char
     :: (_b64encode salt ++ "$"%char
     :: _b64encode (pbkdf2 (lit "sha256") (encode_utf8 token) salt ITERATIONS))))
  = Ret true.
Proof.
  unfold verify_agent_token.
  rewrite split_app_sep by (repeat constructor).
  rewrite split_app_sep by (repeat constructor).
  rewrite split_app_sep by apply b64encode_no_dollar.
  rewrite split_no_sep by apply b64encode_no_dollar.
  change (str_eqb (lit "pbkdf2_sha256") (lit "pbkdf2_sha256")) with true.
  change (Py.int (lit "200000")) with (Some ITERATIONS).
  cbn [negb]. rewrite !b64_round_trip. cbn [obind].
  change (pbkdf2_hmac pbkdf2 (lit "sha256") (encode_utf8 token) salt ITERATIONS)
    with (Ret (pbkdf2 (lit "sha256") (encode_utf8 token) salt ITERATIONS)).
  cbn [obind]. unfold compare_digest. rewrite bytes_eqb_refl. reflexivity.
Qed.

(** C3. Hashing a token always succeeds, and the token then verifies against
    the digest produced - for every token (those of [generate_agent_token]
    among them), every salt the random source may deliver and every
    key-derivation function. *)
Theorem token_round_trip (pbkdf2 : str -> bytes -> bytes -> Z -> bytes)
    (env : Env) (token : str) (st : State) :
  exists st' stored_hash,
    hash_agent_token pbkdf2 env token st = (st', Val stored_hash)
    /\ verify_agent_token pbkdf2 token stored_hash = Ret true.
Proof.
  eexists _, _. split.
  - apply hash_agent_token_value.
  - apply verify_formatted.
Qed.

(** What [verify_agent_token] does get right: a stored value with a number of
    fields other than four, an unknown algorithm tag or an iteration count
    that is not a number gives [False] without raising. *)
Lemma verify_fails_closed_on_fields (pbkdf2 : str -> bytes -> bytes -> Z -> bytes)
    (token stored_hash : str) :
  (List.length (split "$" stored_hash) <> 4%nat ->
   verify_agent_token pbkdf2 token stored_hash = Ret false)
  /\ (forall algorithm iterations salt_b64 digest_b64,
        split "$" stored_hash = [algorithm; iterations; salt_b64; digest_b64] ->
        algorithm <> lit "pbkdf2_sha256" \/ Py.int iterations = None ->
        verify_agent_token pbkdf2 token stored_hash = Ret false).
Proof.
  unfold verify_agent_token. split.
  - intros H. destruct (split "$" stored_hash) as [|a [|b [|c [|d [|e l]]]]];
      try reflexivity. exfalso. apply H. reflexivity.
  - intros a i s d -> [H | H].
    + destruct (str_eqb a (lit "pbkdf2_sha256")) eqn:E; [|reflexivity].
      apply str_eqb_eq in E. contradiction.
    + rewrite H. destruct (negb (str_eqb a (lit "pbkdf2_sha256"))); reflexivity.
Qed.

(** C4 fails on the code: with a stored value of four fields, the right
    algorithm tag and a numeric iteration count, but a salt segment that is
    not valid base64, [verify_agent_token] raises [binascii.Error] (a
    [ValueError]) instead of returning [False]; the same happens for a bad
    digest segment. The three malformed digests named by the spec do give
    [False]. *)
Theorem verify_raises_on_malformed_base64
    (pbkdf2 : str -> bytes -> bytes -> Z -> bytes) (token : str) :
  verify_agent_token pbkdf2 token (lit "pbkdf2_sha256$1$a$bb")
  = Raise (ValueError (lit "Invalid base64-encoded string: number of data characters (1) cannot be 1 more than a multiple of 4"))
  /\ verify_agent_token pbkdf2 token (lit "pbkdf2_sha256$1$aa$b")
     = Raise (ValueError (lit "Invalid base64-encoded string: number of data characters (1) cannot be 1 more than a multiple of 4"))
  /\ verify_agent_token pbkdf2 token (lit "garbage") = Ret false
  /\ verify_agent_token pbkdf2 token (lit "unknown$1$aa$bb") = Ret false
  /\ verify_agent_token pbkdf2 token (lit "pbkdf2_sha256$notanint$aa$bb")
     = Ret false.
Proof. repeat split. Qed.

(** ** Backoff driver *)

Unset Implicit Arguments.

(** One turn of the [while True] loop of [run]. *)
Lemma run_loop_S (env : Env) {A : Type} (fuel : nat) (fn : Op A) (deadline_s : Q)
    (st : State) :
  run_loop env (S fuel) fn deadline_s st
  = match fn (world st) with
    | (w1, Ret value) =>
        (set_backoff (set_world st w1)
           (set_delay (backoff st) (_base_delay_s (backoff st))), Val value)
    | (w1, Raise exc) =>
        match exc with
        | OpenClawGatewayError _ =>
            if negb (_is_transient_gateway_error exc)
            then (set_world st w1, Exn exc)
            else if Qle_bool (deadline_s - clock w1) 0
            then raise_timeout exc (set_world st w1)
            else run_loop env fuel fn deadline_s
                   (retry_state env st w1 deadline_s)
        | _ => (set_world st w1, Exn exc)
        end
    end.
Proof.
  cbn [run_loop]. unfold catch, bind, perform at 1.
  destruct (fn (world st)) as [w1 [value|exc]]; [reflexivity|].
  destruct exc as [msg| | | | | |]; try reflexivity.
  destruct (negb (_is_transient_gateway_error (OpenClawGatewayError msg)));
    [reflexivity|].
  unfold loop_time, get_backoff. cbn [world set_world backoff].
  destruct (Qle_bool (deadline_s - clock w1) 0); [reflexivity|].
  unfold retry_state. change (backoff (set_world st w1)) with (backoff st).
  destruct (Qeq_bool (_jitter (backoff st)) 0); reflexivity.
Qed.







Section BackoffProperties.

Variable env : Env.
Variable A : Type.
Variable fn : Op A.

Hypothesis lag_nonneg : forall n, 0 <= sleep_lag env n.
Hypothesis clock_monotone : forall w, clock w <= clock (fst (fn w)).


Hypothesis always_transient :
  forall w, exists msg,
    snd (fn w) = Raise (OpenClawGatewayError msg)
    /\ _is_transient_gateway_error (OpenClawGatewayError msg) = true.


Variable eps : Q.
Hypothesis eps_positive : 0 < eps.
Hypothesis attempt_takes_time : forall w, clock w + eps <= clock (fst (fn w)).



End BackoffProperties.

Lemma run_unfold (env : Env) {A : Type} (fuel : nat) (fn : Op A) (st : State) :
  run env fuel fn st
  = run_loop env fuel fn (clock (world st) + _timeout_s (backoff st)) st.
Proof. reflexivity. Qed.




(** A short run: with three seconds to the deadline and attempts of one
    second, the operation is tried three times, the driver sleeps 0.75 and
    then 0.25 seconds (the time remaining), and the timeout is raised after
    four seconds. *)
Example backoff_run_three_seconds :
  let st := set_backoff idle_state (default_backoff 3) in
  let '(st', r) :=
    run refusing_env 10
        (openclaw_call refusing_env (lit "agents.list") None example_config)
        st in
  r = Exn (TimeoutError
             (_gateway_timeout_message
                (OpenClawGatewayError (lit "[Errno 111] Connection refused"))))
  /\ Qred (clock (world st')) = 4
  /\ map Qred (slept st') = [1 # 4; 3 # 4]
  /\ List.length (requests (world st')) = 3%nat.
Proof. vm_compute. repeat split. Qed.

(** ** Pause state *)






Lemma insert_row_perm (r : BoardMemory) (l : list BoardMemory) :
  Permutation (r :: l) (insert_row r l).
Proof.
  induction l as [|x l IH]; cbn [insert_row]; [apply Permutation_refl|].
  destruct (row_before r x); [apply Permutation_refl|].
  eapply Permutation_trans; [apply perm_swap|].
  apply perm_skip. exact IH.
Qed.


Lemma order_rows_perm (l : list BoardMemory) : Permutation l (order_rows l).
Proof.
  induction l as [|r l IH]; cbn; [constructor|].
  eapply Permutation_trans; [apply perm_skip; exact IH|].
  apply insert_row_perm.
Qed.


(** DISTINCT ON keeps rows of the list. *)
Lemma distinct_on_board_in (prev : option UUID) (l : list BoardMemory)
    (x : BoardMemory) :
  In x (distinct_on_board prev l) -> In x l.
Proof.
  revert prev. induction l as [|r l IH]; intros prev; cbn [distinct_on_board];
    [tauto|].
  assert (Htail : In x (distinct_on_board (Some (memory_board_id r)) l) ->
                  In x (r :: l)) by (intros H; right; exact (IH _ H)).
  destruct prev as [p|]; [destruct (p =? memory_board_id r)%N|];
    try exact Htail; (intros [<- | H]; [left; reflexivity | exact (Htail H)]).
Qed.




Lemma lstrip_by_app_dropped (p : ascii -> bool) (a s : str) :
  forallb p a = true -> lstrip_by p (a ++ s) = lstrip_by p s.
Proof.
  induction a as [|c a IH]; cbn [forallb app lstrip_by]; [reflexivity|].
  intros H. apply andb_true_iff in H. destruct H as [Hc Ha].
  rewrite Hc. exact (IH Ha).
Qed.

Lemma rstrip_by_app_dropped (p : ascii -> bool) (s d : str) :
  forallb p d = true -> rstrip_by p (s ++ d) = rstrip_by p s.
Proof.
  intros H. unfold rstrip_by. rewrite rev_app_distr, lstrip_by_app_dropped;
    [reflexivity|].
  apply forallb_forall. intros x Hx. apply in_rev in Hx.
  rewrite forallb_forall in H. exact (H x Hx).
Qed.

Lemma rstrip_by_keeps (p : ascii -> bool) (s : str) (z : ascii) :
  p z = false -> rstrip_by p (s ++ [z]) = s ++ [z].
Proof.
  intros H. unfold rstrip_by. rewrite rev_app_distr. cbn [rev app lstrip_by].
  rewrite H. cbn [rev]. rewrite rev_involutive. reflexivity.
Qed.

Lemma blanks_are_spaces (d : str) :
  forallb (Ascii.eqb " ") d = true -> forallb is_space d = true.
Proof.
  intros H. apply forallb_forall. intros x Hx.
  rewrite forallb_forall in H. specialize (H x Hx).
  apply Ascii.eqb_eq in H. subst x. reflexivity.
Qed.

(** Where SQL's [trim] leaves text that neither starts nor ends with
    whitespace, Python's [strip] leaves the same. *)
Lemma strip_agrees_with_trim (content : str) (h z : ascii) (mid : str) :
  sql_trim content = h :: mid ++ [z] ->
  is_space h = false -> is_space z = false ->
  strip content = h :: mid ++ [z].
Proof.
  unfold sql_trim, strip, strip_char, strip_by. intros Ht Hh Hz.
  destruct (lstrip_by_dropped (Ascii.eqb " ") content) as [a [Ha Hda]].
  destruct (rstrip_by_dropped (Ascii.eqb " ")
              (lstrip_by (Ascii.eqb " ") content)) as [b [Hb Hdb]].
  rewrite Ht in Hb. rewrite Hb in Ha. rewrite Ha.
  rewrite lstrip_by_app_dropped by exact (blanks_are_spaces a Hda).
  cbn [app lstrip_by]. rewrite Hh.
  change (h :: (mid ++ [z]) ++ b) with ((h :: mid ++ [z]) ++ b).
  rewrite rstrip_by_app_dropped by exact (blanks_are_spaces b Hdb).
  change (h :: mid ++ [z]) with ((h :: mid) ++ [z]).
  apply rstrip_by_keeps. exact Hz.
Qed.

Lemma lower_char_space (c : ascii) :
  is_space c = true -> is_space (lower_char c) = true.
Proof.
  destruct c as [[] [] [] [] [] [] [] []]; vm_compute; intros H;
    first [exact H | reflexivity].
Qed.

Lemma not_space_of_lower (c k : ascii) :
  lower_char c = k -> is_space k = false -> is_space c = false.
Proof.
  intros <- Hk. destruct (is_space c) eqn:E; [|reflexivity].
  rewrite (lower_char_space c E) in Hk. discriminate.
Qed.

(** On a row that the statement recognises as a command, the loop reads the
    command the statement saw. *)
Lemma command_read_by_loop (row : BoardMemory) :
  mem_str (command_of row) commands = true ->
  lower (strip (opt_or (memory_content row) [])) = command_of row.
Proof.
  unfold command_of, mem_str, commands. cbn [existsb].
  set (content := opt_or (memory_content row) []).
  rewrite orb_false_r, orb_true_iff, !str_eqb_eq. intros [H | H].
  - destruct (sql_trim content) as [|c1 [|c2 [|c3 [|c4 [|c5 [|c6 [|c7 t]]]]]]]
      eqn:Et; try discriminate H.
    cbn [lower map] in H. injection H as H1 _ _ _ _ H6.
    rewrite (strip_agrees_with_trim content c1 c6 [c2; c3; c4; c5] Et
               (not_space_of_lower _ _ H1 eq_refl)
               (not_space_of_lower _ _ H6 eq_refl)).
    reflexivity.
  - destruct (sql_trim content)
      as [|c1 [|c2 [|c3 [|c4 [|c5 [|c6 [|c7 [|c8 t]]]]]]]] eqn:Et;
      try discriminate H.
    cbn [lower map] in H. injection H as H1 _ _ _ _ _ H7.
    rewrite (strip_agrees_with_trim content c1 c7 [c2; c3; c4; c5; c6] Et
               (not_space_of_lower _ _ H1 eq_refl)
               (not_space_of_lower _ _ H7 eq_refl)).
    reflexivity.
Qed.

Lemma mem_uuid_app (b : UUID) (s t : list UUID) :
  mem_uuid b (s ++ t) = mem_uuid b s || mem_uuid b t.
Proof. apply existsb_app. Qed.

Lemma mem_uuid_set_add (b x : UUID) (s : list UUID) :
  mem_uuid b (set_add x s) = mem_uuid b s || (b =? x)%N.
Proof.
  unfold set_add. destruct (mem_uuid x s) eqn:E.
  - destruct (N.eqb_spec b x) as [-> | _].
    + rewrite E. reflexivity.
    + rewrite orb_false_r. reflexivity.
  - rewrite mem_uuid_app. cbn. rewrite orb_false_r. reflexivity.
Qed.

Lemma paused_fold (b : UUID) (l : list BoardMemory) (acc : list UUID) :
  mem_uuid b
    (fold_left
       (fun paused row =>
          let cmd := lower (strip (opt_or (memory_content row) [])) in
          if str_eqb cmd (lit "/pause")
          then set_add (memory_board_id row) paused else paused) l acc)
  = mem_uuid b acc
    || existsb (fun row => (b =? memory_board_id row)%N && reads_as_pause row) l.
Proof.
  revert acc. induction l as [|row l IH]; intros acc; cbn [fold_left existsb].
  - rewrite orb_false_r. reflexivity.
  - rewrite IH. cbv zeta. fold (reads_as_pause row).
    destruct (reads_as_pause row).
    + rewrite mem_uuid_set_add, andb_true_r, orb_assoc. reflexivity.
    + rewrite andb_false_r. reflexivity.
Qed.


Section PauseProperties.

Variable pbkdf2 : str -> bytes -> bytes -> Z -> bytes.
Variable env : Env.
Variable fuel : nat.
Variable gateway : Gateway.
Variable user : option UUID.
Variables reset_sessions rotate_tokens force_bootstrap : bool.
Variable client_config : GatewayClientConfig.
Variable boards_by_id : list (UUID * Board).
Variable paused_board_ids : list UUID.





End PauseProperties.

(** The two orders of the spec, with other chat in between and commands
    written with blanks and capitals. *)
Example pause_then_resume_is_not_paused :
  paused_of [chat_row 5 "/pause" 10; chat_row 5 "status?" 20;
             chat_row 5 " /Resume " 30; chat_row 6 "/PAUSE" 5] [5%N; 6%N]
  = [6%N].
Proof. reflexivity. Qed.

Example resume_then_pause_is_paused :
  paused_of [chat_row 5 "/resume" 10; chat_row 5 "/pause" 30;
             chat_row 5 "/pause please" 40] [5%N]
  = [5%N].
Proof. reflexivity. Qed.

(** ** Sync orchestrator: what touches the database *)

Lemma keeps_db_ret {A : Type} (a : A) : keeps_db (ret a).
Proof. intros st. reflexivity. Qed.

Lemma keeps_db_raise {A : Type} (e : exn) : keeps_db (@raise A e).
Proof. intros st. reflexivity. Qed.

Lemma keeps_db_bind {A B : Type} (c : M A) (k : A -> M B) :
  keeps_db c -> (forall a, keeps_db (k a)) -> keeps_db (bind c k).
Proof.
  intros Hc Hk st. unfold bind. specialize (Hc st).
  destruct (c st) as [st' [a|e|]]; cbn [fst] in *; [|exact Hc|exact Hc].
  rewrite <- Hc. apply Hk.
Qed.

Lemma keeps_db_catch {A : Type} (c : M A) (h : exn -> option (M A)) :
  keeps_db c -> (forall e m, h e = Some m -> keeps_db m) ->
  keeps_db (catch c h).
Proof.
  intros Hc Hh st. unfold catch. specialize (Hc st).
  destruct (c st) as [st' [a|e|]]; cbn [fst] in *; try exact Hc.
  destruct (h e) as [m|] eqn:E; [|exact Hc].
  rewrite <- Hc. exact (Hh e m E st').
Qed.

Lemma keeps_db_perform {A : Type} (op : Op A) : keeps_db (perform op).
Proof.
  intros st. unfold perform. destruct (op (world st)) as [w [a|e]]; reflexivity.
Qed.

Lemma keeps_db_lift {A : Type} (x : outcome A) : keeps_db (lift x).
Proof. destruct x; intros st; reflexivity. Qed.

Lemma keeps_db_run_loop (env : Env) {A : Type} (fuel : nat) (fn : Op A)
    (deadline_s : Q) :
  keeps_db (run_loop env fuel fn deadline_s).
Proof.
  induction fuel as [|fuel IH]; intros st; [reflexivity|].
  rewrite run_loop_S. destruct (fn (world st)) as [w1 [value|exc]];
    [reflexivity|].
  destruct exc; try reflexivity.
  destruct (negb _); [reflexivity|].
  destruct (Qle_bool _ _); [reflexivity|].
  rewrite IH. unfold retry_state.
  destruct (Qeq_bool (_jitter (backoff st)) 0); reflexivity.
Qed.

Lemma keeps_db_run (env : Env) {A : Type} (fuel : nat) (fn : Op A) :
  keeps_db (run env fuel fn).
Proof. intros st. rewrite run_unfold. apply keeps_db_run_loop. Qed.

Lemma keeps_db_get_db : keeps_db get_db.
Proof. intros st. reflexivity. Qed.

Lemma keeps_db_put_backoff (b : _GatewayBackoff) : keeps_db (put_backoff b).
Proof. intros st. reflexivity. Qed.

Create HintDb frame.

#[local] Hint Resolve keeps_db_ret keeps_db_raise keeps_db_perform
  keeps_db_lift keeps_db_run keeps_db_run_loop keeps_db_get_db
  keeps_db_put_backoff : frame.

(** Goes through a computation built from the pieces above. *)
Ltac frame :=
  repeat first
    [ progress intros
    | solve [auto with frame]
    | apply keeps_db_bind
    | apply keeps_db_catch
    | match goal with
      | H : Some _ = Some _ |- _ => injection H as <-
      | H : None = Some _ |- _ => discriminate H
      | H : match ?e with _ => _ end = Some _ |- _ => destruct e
      | H : (if ?b then _ else _) = Some _ |- _ => destruct b
      | |- keeps_db (match ?x with _ => _ end) => destruct x
      | |- keeps_db (if ?b then _ else _) => destruct b
      end ].

Section FrameProperties.

Variable pbkdf2 : str -> bytes -> bytes -> Z -> bytes.
Variable env : Env.
Variable fuel : nat.
Variable gateway : Gateway.
Variable user : option UUID.
Variables include_main reset_sessions force_bootstrap : bool.

Lemma keeps_db_gateway_agent_id (agent : Agent) :
  keeps_db (_gateway_agent_id env agent).
Proof. unfold _gateway_agent_id, _slugify. frame. Qed.

Lemma keeps_db_get_existing_auth_token (gid : str)
    (config : GatewayClientConfig) (with_backoff : bool) :
  keeps_db (_get_existing_auth_token env fuel gid config with_backoff).
Proof. unfold _get_existing_auth_token, _get_agent_file. frame. Qed.

Lemma keeps_db_gateway_default_agent_id (config : GatewayClientConfig)
    (key : option str) (with_backoff : bool) :
  keeps_db (_gateway_default_agent_id env fuel config key with_backoff).
Proof. unfold _gateway_default_agent_id. frame. Qed.

Lemma keeps_db_token_drifted (agent : Agent) (token : str) :
  keeps_db (token_drifted pbkdf2 agent token).
Proof. unfold token_drifted. frame. Qed.

Lemma keeps_db_on_timeout {A : Type} (c : M A) :
  keeps_db c -> keeps_db (on_timeout c).
Proof. intros H. unfold on_timeout. frame. Qed.

#[local] Hint Resolve keeps_db_gateway_agent_id
  keeps_db_get_existing_auth_token keeps_db_gateway_default_agent_id
  keeps_db_token_drifted keeps_db_on_timeout : frame.

Lemma keeps_db_sync_one_agent (config : GatewayClientConfig)
    (boards_by_id : list (UUID * Board)) (paused : list UUID) (agent : Agent)
    (result : GatewayTemplatesSyncResult) :
  keeps_db (sync_one_agent pbkdf2 env fuel gateway user reset_sessions false
              force_bootstrap config boards_by_id paused agent result).
Proof. unfold sync_one_agent, _with_gateway_retry. frame. Qed.

Lemma keeps_db_sync_agents (config : GatewayClientConfig)
    (boards_by_id : list (UUID * Board)) (paused : list UUID)
    (agents : list Agent) (result : GatewayTemplatesSyncResult) :
  keeps_db (sync_agents pbkdf2 env fuel gateway user reset_sessions false
              force_bootstrap config boards_by_id paused agents result).
Proof.
  revert result. induction agents as [|agent agents IH]; intros result;
    cbn [sync_agents]; [frame|].
  apply keeps_db_bind; [apply keeps_db_sync_one_agent|].
  intros [r | r]; [apply IH | frame].
Qed.

Lemma keeps_db_sync_main_agent (config : GatewayClientConfig)
    (result : GatewayTemplatesSyncResult) :
  keeps_db (sync_main_agent pbkdf2 env fuel gateway user reset_sessions false
              force_bootstrap config result).
Proof. unfold sync_main_agent, _with_gateway_retry. frame. Qed.

Lemma keeps_db_sync_gateway_templates (board_id : option UUID) :
  keeps_db (sync_gateway_templates pbkdf2 env fuel gateway user include_main
              reset_sessions false force_bootstrap board_id).
Proof.
  unfold sync_gateway_templates, probe, _paused_board_ids.
  pose proof keeps_db_sync_agents. pose proof keeps_db_sync_main_agent.
  frame.
Qed.

End FrameProperties.

(** ** Running computations step by step *)

Lemma bind_val {A B : Type} (c : M A) (k : A -> M B) (st st' : State) (a : A) :
  c st = (st', Val a) -> bind c k st = k a st'.
Proof. intros H. unfold bind. rewrite H. reflexivity. Qed.

Lemma bind_exn {A B : Type} (c : M A) (k : A -> M B) (st st' : State)
    (e : exn) :
  c st = (st', Exn e) -> bind c k st = (st', Exn e).
Proof. intros H. unfold bind. rewrite H. reflexivity. Qed.

Lemma catch_val {A : Type} (c : M A) (h : exn -> option (M A))
    (st st' : State) (a : A) :
  c st = (st', Val a) -> catch c h st = (st', Val a).
Proof. intros H. unfold catch. rewrite H. reflexivity. Qed.

Lemma catch_exn {A : Type} (c : M A) (h : exn -> option (M A))
    (st st' : State) (e : exn) (m : M A) :
  c st = (st', Exn e) -> h e = Some m -> catch c h st = m st'.
Proof. intros H Hh. unfold catch. rewrite H, Hh. reflexivity. Qed.

Lemma on_timeout_val {A : Type} (c : M A) (st st' : State) (a : A) :
  c st = (st', Val a) -> on_timeout c st = (st', Val (inr a)).
Proof.
  intros H. unfold on_timeout.
  apply catch_val. rewrite (bind_val _ _ _ _ _ H). reflexivity.
Qed.

Lemma on_timeout_timeout {A : Type} (c : M A) (st st' : State) (m : str) :
  c st = (st', Exn (TimeoutError m)) -> on_timeout c st = (st', Val (inl m)).
Proof.
  intros H. unfold on_timeout.
  rewrite (catch_exn _ _ st st' (TimeoutError m) (ret (inl m)));
    [reflexivity| |reflexivity].
  apply bind_exn. exact H.
Qed.

Section TokenHandling.

Variable pbkdf2 : str -> bytes -> bytes -> Z -> bytes.
Variable env : Env.
Variable fuel : nat.
Variable gateway : Gateway.
Variable user : option UUID.
Variables reset_sessions force_bootstrap : bool.
Variable config : GatewayClientConfig.

(** Without rotation, an agent whose token cannot be read is skipped with a
    report. *)
Lemma agent_without_token_is_skipped (boards_by_id : list (UUID * Board))
    (paused : list UUID) (agent : Agent) (b : UUID) (board : Board)
    (result : GatewayTemplatesSyncResult) (st st1 st2 : State) (gid : str) :
  agent_board_id agent = Some b ->
  boards_get b boards_by_id = Some board ->
  mem_uuid (board_id board) paused = false ->
  _gateway_agent_id env agent st = (st1, Val gid) ->
  _get_existing_auth_token env fuel gid config true st1 = (st2, Val None) ->
  sync_one_agent pbkdf2 env fuel gateway user reset_sessions false
    force_bootstrap config boards_by_id paused agent result st
  = (st2,
     Val (Continue
            (add_error (count_skipped result)
               (agent_error agent (Some (board_id board))
                  (lit "Skipping agent: unable to read AUTH_TOKEN from TOOLS.md (run with rotate_tokens=true to re-key).")))))
  .
Proof.
  intros Hb Hboard Hpaused Hgid Htok. unfold sync_one_agent.
  rewrite Hb, Hboard, Hpaused.
  rewrite (bind_val _ _ _ _ _ Hgid).
  rewrite (bind_val _ _ _ _ _ (on_timeout_val _ _ _ _ Htok)).
  reflexivity.
Qed.

(** Without rotation, a token that does not verify against the stored hash
    adds a warning and provisioning goes ahead with the agent as it is. *)
Lemma agent_with_drifted_token_is_warned (boards_by_id : list (UUID * Board))
    (paused : list UUID) (agent : Agent) (b : UUID) (board : Board)
    (result : GatewayTemplatesSyncResult) (st st1 st2 st3 : State)
    (gid token h : str) :
  agent_board_id agent = Some b ->
  boards_get b boards_by_id = Some board ->
  mem_uuid (board_id board) paused = false ->
  _gateway_agent_id env agent st = (st1, Val gid) ->
  _get_existing_auth_token env fuel gid config true st1
  = (st2, Val (Some token)) ->
  token <> [] ->
  truthy_hash agent = Some h ->
  verify_agent_token pbkdf2 token h = Ret false ->
  _with_gateway_retry env fuel
    (provision_agent env
       (mkProvisionCall agent (Some board) gateway token user force_bootstrap
          reset_sessions)) st2
  = (st3, Val tt) ->
  sync_one_agent pbkdf2 env fuel gateway user reset_sessions false
    force_bootstrap config boards_by_id paused agent result st
  = (st3,
     Val (Continue
            (count_updated
               (add_error result
                  (agent_error agent (Some (board_id board))
                     (lit "Warning: AUTH_TOKEN in TOOLS.md does not match backend token hash (agent auth may be broken)."))))))
  .
Proof.
  intros Hb Hboard Hpaused Hgid Htok Hne Hhash Hverify Hprov.
  unfold sync_one_agent. rewrite Hb, Hboard, Hpaused.
  rewrite (bind_val _ _ _ _ _ Hgid).
  rewrite (bind_val _ _ _ _ _ (on_timeout_val _ _ _ _ Htok)).
  destruct token as [|c token]; [contradiction|]. cbn [truthy].
  unfold bind at 1. cbn [ret]. unfold token_drifted. rewrite Hhash, Hverify.
  cbn [lift]. unfold bind at 1. unfold bind at 1. cbn [ret negb].
  unfold bind at 1. cbn [ret].
  apply catch_val. rewrite (bind_val _ _ _ _ _ Hprov). reflexivity.
Qed.

(** The same two cases for the gateway's main agent. *)
Lemma main_agent_without_token_is_reported (main_agent : Agent)
    (result : GatewayTemplatesSyncResult) (st st1 st2 : State) (gid : str) :
  agent_with_session_key (db st) (main_session_key gateway) = Some main_agent ->
  _gateway_default_agent_id env fuel config (main_session_key gateway) true st
  = (st1, Val (Some gid)) ->
  gid <> [] ->
  _get_existing_auth_token env fuel gid config true st1 = (st2, Val None) ->
  sync_main_agent pbkdf2 env fuel gateway user reset_sessions false
    force_bootstrap config result st
  = (st2,
     Val (add_error result
            (agent_error main_agent None
               (lit "Skipping main agent: unable to read AUTH_TOKEN from TOOLS.md.")))).
Proof.
  intros Hmain Hgid Hne Htok. unfold sync_main_agent.
  unfold bind at 1. cbn [get_db]. rewrite Hmain.
  rewrite (bind_val _ _ _ _ _ (on_timeout_val _ _ _ _ Hgid)).
  destruct gid as [|c gid]; [contradiction|]. cbn [truthy].
  rewrite (bind_val _ _ _ _ _ (on_timeout_val _ _ _ _ Htok)).
  reflexivity.
Qed.

Lemma main_agent_with_drifted_token_is_warned (main_agent : Agent)
    (result : GatewayTemplatesSyncResult) (st st1 st2 st3 : State)
    (gid token h : str) :
  agent_with_session_key (db st) (main_session_key gateway) = Some main_agent ->
  _gateway_default_agent_id env fuel config (main_session_key gateway) true st
  = (st1, Val (Some gid)) ->
  gid <> [] ->
  _get_existing_auth_token env fuel gid config true st1
  = (st2, Val (Some token)) ->
  token <> [] ->
  truthy_hash main_agent = Some h ->
  verify_agent_token pbkdf2 token h = Ret false ->
  _with_gateway_retry env fuel
    (provision_agent env
       (mkProvisionCall main_agent None gateway token user force_bootstrap
          reset_sessions)) st2
  = (st3, Val tt) ->
  sync_main_agent pbkdf2 env fuel gateway user reset_sessions false
    force_bootstrap config result st
  = (st3,
     Val (set_main_updated
            (add_error result
               (agent_error main_agent None
                  (lit "Warning: AUTH_TOKEN in TOOLS.md does not match backend token hash (main agent auth may be broken)."))))).
Proof.
  intros Hmain Hgid Hne Htok Htne Hhash Hverify Hprov.
  unfold sync_main_agent. unfold bind at 1. cbn [get_db]. rewrite Hmain.
  rewrite (bind_val _ _ _ _ _ (on_timeout_val _ _ _ _ Hgid)).
  destruct gid as [|c gid]; [contradiction|]. cbn [truthy].
  rewrite (bind_val _ _ _ _ _ (on_timeout_val _ _ _ _ Htok)).
  destruct token as [|c' token]; [contradiction|]. cbn [truthy].
  unfold bind at 1. cbn [ret]. unfold token_drifted. rewrite Hhash, Hverify.
  cbn [lift]. unfold bind at 1. unfold bind at 1. cbn [ret negb].
  unfold bind at 1. cbn [ret].
  apply catch_val. rewrite (bind_val _ _ _ _ _ Hprov). reflexivity.
Qed.

End TokenHandling.

(** C10. A run with [rotate_tokens=False] leaves the database, and with it
    every agent's [agent_token_hash], exactly as it was, whatever the gateway
    does and however the run ends; so a run that changes a stored hash has
    [rotate_tokens=True]. Without rotation an agent whose token cannot be
    read from the gateway is skipped and reported, and a token that does not
    verify against the stored hash only adds a warning entry while
    provisioning goes ahead with the agent unchanged - for the agents of the
    boards and for the main agent alike. *)
Theorem sync_without_rotation_keeps_hashes
    (pbkdf2 : str -> bytes -> bytes -> Z -> bytes) (env : Env) (fuel : nat)
    (gateway : Gateway) (user : option UUID)
    (include_main reset_sessions force_bootstrap : bool)
    (board_id : option UUID) (st : State) :
  let sync rotate_tokens :=
    sync_gateway_templates pbkdf2 env fuel gateway user include_main
      reset_sessions rotate_tokens force_bootstrap board_id st in
  db (fst (sync false)) = db st
  /\ map agent_token_hash (agents_tbl (db (fst (sync false))))
     = map agent_token_hash (agents_tbl (db st))
  /\ (forall rotate_tokens,
        map agent_token_hash (agents_tbl (db (fst (sync rotate_tokens))))
        <> map agent_token_hash (agents_tbl (db st)) ->
        rotate_tokens = true)
  /\ (forall config boards_by_id paused agent b board result st0 st1 st2 gid,
        agent_board_id agent = Some b ->
        boards_get b boards_by_id = Some board ->
        mem_uuid (board_ident board) paused = false ->
        _gateway_agent_id env agent st0 = (st1, Val gid) ->
        _get_existing_auth_token env fuel gid config true st1
        = (st2, Val None) ->
        sync_one_agent pbkdf2 env fuel gateway user reset_sessions false
          force_bootstrap config boards_by_id paused agent result st0
        = (st2,
           Val (Continue
                  (add_error (count_skipped result)
                     (agent_error agent (Some (board_ident board))
                        (lit "Skipping agent: unable to read AUTH_TOKEN from TOOLS.md (run with rotate_tokens=true to re-key).")))))
        /\ db st2 = db st0)
  /\ (forall config boards_by_id paused agent b board result st0 st1 st2 st3
             gid token h,
        agent_board_id agent = Some b ->
        boards_get b boards_by_id = Some board ->
        mem_uuid (board_ident board) paused = false ->
        _gateway_agent_id env agent st0 = (st1, Val gid) ->
        _get_existing_auth_token env fuel gid config true st1
        = (st2, Val (Some token)) ->
        token <> [] ->
        truthy_hash agent = Some h ->
        verify_agent_token pbkdf2 token h = Ret false ->
        _with_gateway_retry env fuel
          (provision_agent env
             (mkProvisionCall agent (Some board) gateway token user
                force_bootstrap reset_sessions)) st2
        = (st3, Val tt) ->
        sync_one_agent pbkdf2 env fuel gateway user reset_sessions false
          force_bootstrap config boards_by_id paused agent result st0
        = (st3,
           Val (Continue
                  (count_updated
                     (add_error result
                        (agent_error agent (Some (board_ident board))
                           (lit "Warning: AUTH_TOKEN in TOOLS.md does not match backend token hash (agent auth may be broken)."))))))
        /\ db st3 = db st0)
  /\ (forall config main_agent result st0 st1 st2 gid,
        agent_with_session_key (db st0) (main_session_key gateway)
        = Some main_agent ->
        _gateway_default_agent_id env fuel config (main_session_key gateway)
          true st0
        = (st1, Val (Some gid)) ->
        gid <> [] ->
        _get_existing_auth_token env fuel gid config true st1
        = (st2, Val None) ->
        sync_main_agent pbkdf2 env fuel gateway user reset_sessions false
          force_bootstrap config result st0
        = (st2,
           Val (add_error result
                  (agent_error main_agent None
                     (lit "Skipping main agent: unable to read AUTH_TOKEN from TOOLS.md."))))
        /\ db st2 = db st0)
  /\ (forall config main_agent result st0 st1 st2 st3 gid token h,
        agent_with_session_key (db st0) (main_session_key gateway)
        = Some main_agent ->
        _gateway_default_agent_id env fuel config (main_session_key gateway)
          true st0
        = (st1, Val (Some gid)) ->
        gid <> [] ->
        _get_existing_auth_token env fuel gid config true st1
        = (st2, Val (Some token)) ->
        token <> [] ->
        truthy_hash main_agent = Some h ->
        verify_agent_token pbkdf2 token h = Ret false ->
        _with_gateway_retry env fuel
          (provision_agent env
             (mkProvisionCall main_agent None gateway token user
                force_bootstrap reset_sessions)) st2
        = (st3, Val tt) ->
        sync_main_agent pbkdf2 env fuel gateway user reset_sessions false
          force_bootstrap config result st0
        = (st3,
           Val (set_main_updated
                  (add_error result
                     (agent_error main_agent None
                        (lit "Warning: AUTH_TOKEN in TOOLS.md does not match backend token hash (main agent auth may be broken).")))))
        /\ db st3 = db st0).
Proof.
  intros sync.
  pose proof (keeps_db_sync_gateway_templates pbkdf2 env fuel gateway user
                include_main reset_sessions force_bootstrap board_id st)
    as Hdb.
  change (db (fst (sync false)) = db st) in Hdb.
  split; [exact Hdb|]. split; [rewrite Hdb; reflexivity|].
  split; [|split; [|split; [|split]]].
  - intros [|] H; [reflexivity|]. exfalso. apply H. rewrite Hdb. reflexivity.
  - intros config boards_by_id paused agent b board result st0 st1 st2 gid
      Hb Hboard Hpaused Hgid Htok.
    pose proof (agent_without_token_is_skipped pbkdf2 env fuel gateway user
                  reset_sessions force_bootstrap config boards_by_id paused
                  agent b board result st0 st1 st2 gid Hb Hboard Hpaused Hgid
                  Htok) as Hrun.
    split; [exact Hrun|].
    pose proof (keeps_db_sync_one_agent pbkdf2 env fuel gateway user
                  reset_sessions force_bootstrap config boards_by_id paused
                  agent result st0) as Hk.
    rewrite Hrun in Hk. exact Hk.
  - intros config boards_by_id paused agent b board result st0 st1 st2 st3
      gid token h Hb Hboard Hpaused Hgid Htok Hne Hhash Hverify Hprov.
    pose proof (agent_with_drifted_token_is_warned pbkdf2 env fuel gateway user
                  reset_sessions force_bootstrap config boards_by_id paused
                  agent b board result st0 st1 st2 st3 gid token h Hb Hboard
                  Hpaused Hgid Htok Hne Hhash Hverify Hprov) as Hrun.
    split; [exact Hrun|].
    pose proof (keeps_db_sync_one_agent pbkdf2 env fuel gateway user
                  reset_sessions force_bootstrap config boards_by_id paused
                  agent result st0) as Hk.
    rewrite Hrun in Hk. exact Hk.
  - intros config main_agent result st0 st1 st2 gid Hmain Hgid Hne Htok.
    pose proof (main_agent_without_token_is_reported pbkdf2 env fuel gateway
                  user reset_sessions force_bootstrap config main_agent result
                  st0 st1 st2 gid Hmain Hgid Hne Htok) as Hrun.
    split; [exact Hrun|].
    pose proof (keeps_db_sync_main_agent pbkdf2 env fuel gateway user
                  reset_sessions force_bootstrap config result st0) as Hk.
    rewrite Hrun in Hk. exact Hk.
  - intros config main_agent result st0 st1 st2 st3 gid token h Hmain Hgid Hne
      Htok Htne Hhash Hverify Hprov.
    pose proof (main_agent_with_drifted_token_is_warned pbkdf2 env fuel gateway
                  user reset_sessions force_bootstrap config main_agent result
                  st0 st1 st2 st3 gid token h Hmain Hgid Hne Htok Htne Hhash
                  Hverify Hprov) as Hrun.
    split; [exact Hrun|].
    pose proof (keeps_db_sync_main_agent pbkdf2 env fuel gateway user
                  reset_sessions force_bootstrap config result st0) as Hk.
    rewrite Hrun in Hk. exact Hk.
Qed.

Lemma sync_without_rotation_keeps_hashes_witness :
  let st2 :=
    fst (_get_existing_auth_token quiet_env 1 (lit "ada") example_config true
           idle_state) in
  sync_one_agent toy_pbkdf2 quiet_env 1 example_gateway None false false false
    example_config [(10%N, example_board)] [] (example_agent 1 "Ada")
    (mkSyncResult 7%N true false 0 0 false []) idle_state
  = (st2,
     Val (Continue
            (add_error
               (count_skipped (mkSyncResult 7%N true false 0 0 false []))
               (agent_error (example_agent 1 "Ada") (Some 10%N)
                  (lit "Skipping agent: unable to read AUTH_TOKEN from TOOLS.md (run with rotate_tokens=true to re-key).")))))
  /\ db st2 = db idle_state.
Proof.
  refine (proj1 (proj2 (proj2 (proj2
            (sync_without_rotation_keeps_hashes toy_pbkdf2 quiet_env 1
               example_gateway None true false false None idle_state))))
            example_config [(10%N, example_board)] [] (example_agent 1 "Ada")
            10%N example_board (mkSyncResult 7%N true false 0 0 false [])
            idle_state idle_state _ (lit "ada") _ _ _ _ _);
    reflexivity.
Defined.

(** With [rotate_tokens=True] a hash is written: in a run against a gateway
    that holds no token for the agent, the agent gets a stored hash, and the
    token handed to provisioning verifies against it. Without rotation the
    same run writes nothing and skips the agent. *)
Example rotation_writes_a_hash :
  let st := set_db idle_state (example_db [example_agent 1 "Ada"]) in
  let run rotate_tokens :=
    sync_gateway_templates toy_pbkdf2 quiet_env 3 example_gateway None false
      false rotate_tokens false None st in
  match map agent_token_hash (agents_tbl (db (fst (run true)))),
        requests (world (fst (run true))) with
  | [Some h; None], ReqProvision call :: _ =>
      verify_agent_token toy_pbkdf2 (pc_auth_token call) h = Ret true
      /\ agent_token_hash (pc_agent call) = Some h
  | _, _ => False
  end
  /\ map agent_token_hash (agents_tbl (db (fst (run false)))) = [None; None]
  /\ match run false with
     | (_, Val r) => agents_updated r = 0%nat /\ agents_skipped r = 1%nat
     | _ => False
     end.
Proof. vm_compute. repeat split. Qed.

(** ** Sync orchestrator: what happens after a timeout *)

Lemma quiet_careful {A : Type} (Q : str -> res A -> Prop) (c : M A) :
  quiet c -> careful Q c.
Proof. intros H st. left. apply H. Qed.

Lemma quiet_ret {A : Type} (a : A) : quiet (ret a).
Proof. intros st. reflexivity. Qed.

Lemma quiet_raise {A : Type} (e : exn) : quiet (@raise A e).
Proof. intros st. reflexivity. Qed.

Lemma quiet_perform {A : Type} (op : Op A) : quiet (perform op).
Proof.
  intros st. unfold perform. destruct (op (world st)) as [w [a|e]]; reflexivity.
Qed.

Lemma quiet_lift {A : Type} (x : outcome A) : quiet (lift x).
Proof. destruct x; intros st; reflexivity. Qed.

Lemma quiet_get_db : quiet get_db.
Proof. intros st. reflexivity. Qed.

Lemma quiet_put_backoff (b : _GatewayBackoff) : quiet (put_backoff b).
Proof. intros st. reflexivity. Qed.

Lemma quiet_commit_agent (a : Agent) : quiet (commit_agent a).
Proof. intros st. reflexivity. Qed.

Lemma quiet_bind {A B : Type} (c : M A) (k : A -> M B) :
  quiet c -> (forall a, quiet (k a)) -> quiet (bind c k).
Proof.
  intros Hc Hk st. unfold bind. specialize (Hc st).
  destruct (c st) as [st' [a|e|]]; cbn [fst] in *; [|exact Hc|exact Hc].
  rewrite <- Hc. apply Hk.
Qed.

(** Sequencing: after a timeout in the first part, the second part must leave
    the state alone and produce an outcome fit for the whole. *)
Lemma careful_bind {A B : Type} (Q1 : str -> res A -> Prop)
    (Q2 : str -> res B -> Prop) (c : M A) (k : A -> M B) :
  careful Q1 c ->
  (forall a, careful Q2 (k a)) ->
  (forall m r, Q1 m r ->
     match r with
     | Val a => forall st, fst (k a st) = st /\ Q2 m (snd (k a st))
     | Exn e => Q2 m (Exn e)
     | OutOfFuel => Q2 m OutOfFuel
     end) ->
  careful Q2 (bind c k).
Proof.
  intros Hc Hk Hq st. unfold bind. specialize (Hc st).
  destruct (c st) as [st' r] eqn:E. cbn [fst snd] in Hc.
  destruct Hc as [Hsame | [m [Hhit Hm]]].
  - destruct r as [a|e|]; cbn [fst snd]; [|left; exact Hsame|left; exact Hsame].
    rewrite <- Hsame. apply Hk.
  - right. exists m. specialize (Hq m r Hm).
    destruct r as [a|e|]; cbn [fst snd]; [|split; assumption|split; assumption].
    destruct (Hq st') as [Hst HQ]. rewrite Hst. split; assumption.
Qed.

Lemma careful_after_quiet {A B : Type} (Q : str -> res B -> Prop) (c : M A)
    (k : A -> M B) :
  quiet c -> (forall a, careful Q (k a)) -> careful Q (bind c k).
Proof.
  intros Hc Hk st. unfold bind. specialize (Hc st).
  destruct (c st) as [st' [a|e|]]; cbn [fst snd] in *;
    [|left; exact Hc|left; exact Hc].
  rewrite <- Hc. apply Hk.
Qed.

Lemma propagates_bind {A B : Type} (c : M A) (k : A -> M B) :
  careful timed_out c -> (forall a, careful timed_out (k a)) ->
  careful timed_out (bind c k).
Proof.
  intros Hc Hk. apply careful_bind with (Q1 := timed_out); [exact Hc|exact Hk|].
  intros m r ->. reflexivity.
Qed.

(** [try ... except]: a handler runs in the state the exception left. *)
Lemma careful_catch {A : Type} (Q : str -> res A -> Prop) (c : M A)
    (h : exn -> option (M A)) :
  careful timed_out c ->
  (forall e hm, h e = Some hm -> quiet hm) ->
  (forall m,
     match h (TimeoutError m) with
     | Some hm => forall st, fst (hm st) = st /\ Q m (snd (hm st))
     | None => Q m (Exn (TimeoutError m))
     end) ->
  careful Q (catch c h).
Proof.
  intros Hc Hquiet Hq st. unfold catch. specialize (Hc st).
  destruct (c st) as [st' r] eqn:E. cbn [fst snd] in Hc.
  destruct Hc as [Hsame | [m [Hhit Hm]]].
  - destruct r as [a|e|]; cbn [fst snd]; [left; exact Hsame| |left; exact Hsame].
    destruct (h e) as [hm|] eqn:Eh; [|left; exact Hsame].
    left. rewrite <- Hsame. apply (Hquiet e hm Eh).
  - right. exists m. unfold timed_out in Hm. subst r. specialize (Hq m).
    destruct (h (TimeoutError m)) as [hm|]; [|split; assumption].
    destruct (Hq st') as [Hst HQ]. rewrite Hst. split; assumption.
Qed.

Lemma careful_on_timeout {A : Type} (c : M A) :
  careful timed_out c -> careful caught_timeout (on_timeout c).
Proof.
  intros Hc. unfold on_timeout. apply careful_catch.
  - apply propagates_bind; [exact Hc|].
    intros a. apply quiet_careful. apply quiet_ret.
  - intros e hm He. destruct e; try discriminate He.
    injection He as <-. apply quiet_ret.
  - intros m st. split; reflexivity.
Qed.

Lemma propagates_run_loop (env : Env) {A : Type} (fuel : nat) (fn : Op A)
    (deadline_s : Q) :
  careful timed_out (run_loop env fuel fn deadline_s).
Proof.
  induction fuel as [|fuel IH]; intros st; [left; reflexivity|].
  rewrite run_loop_S. destruct (fn (world st)) as [w1 [value|exc]];
    [left; reflexivity|].
  destruct exc; try (left; reflexivity).
  destruct (negb _); [left; reflexivity|].
  destruct (Qle_bool _ _).
  - right. eexists. split; reflexivity.
  - assert (Hhits : deadline_hits (retry_state env st w1 deadline_s)
                    = deadline_hits st).
    { unfold retry_state.
      destruct (Qeq_bool (_jitter (backoff st)) 0); reflexivity. }
    rewrite <- Hhits. apply IH.
Qed.

Lemma propagates_run (env : Env) {A : Type} (fuel : nat) (fn : Op A) :
  careful timed_out (run env fuel fn).
Proof. intros st. rewrite run_unfold. apply propagates_run_loop. Qed.

Create HintDb hits.

#[local] Hint Resolve quiet_ret quiet_raise quiet_perform quiet_lift
  quiet_get_db quiet_put_backoff quiet_commit_agent : hits.

Ltac quiet_tac :=
  repeat first
    [ progress intros
    | solve [auto with hits]
    | apply quiet_bind
    | match goal with
      | |- quiet (match ?x with _ => _ end) => destruct x
      | |- quiet (if ?b then _ else _) => destruct b
      end ].

Lemma ends_with_added_error (result : GatewayTemplatesSyncResult)
    (e : GatewayTemplatesSyncError) :
  ends_with_message (error_message e) (add_error result e).
Proof. exists (errors result), e. split; reflexivity. Qed.

Section TimeoutProperties.

Variable pbkdf2 : str -> bytes -> bytes -> Z -> bytes.
Variable env : Env.
Variable fuel : nat.
Variable gateway : Gateway.
Variable user : option UUID.
Variables include_main reset_sessions rotate_tokens force_bootstrap : bool.

Lemma quiet_gateway_agent_id (agent : Agent) :
  quiet (_gateway_agent_id env agent).
Proof. unfold _gateway_agent_id, _slugify. quiet_tac. Qed.

Lemma quiet_rekey (agent : Agent) : quiet (rekey pbkdf2 env agent).
Proof.
  unfold rekey, generate_agent_token, hash_agent_token. quiet_tac.
Qed.

Lemma quiet_token_drifted (agent : Agent) (token : str) :
  quiet (token_drifted pbkdf2 agent token).
Proof. unfold token_drifted. quiet_tac. Qed.

Lemma quiet_paused_board_ids (board_ids : list UUID) :
  quiet (_paused_board_ids board_ids).
Proof. unfold _paused_board_ids. quiet_tac. Qed.

#[local] Hint Resolve quiet_gateway_agent_id quiet_rekey quiet_token_drifted
  quiet_paused_board_ids : hits.

Lemma propagates_get_existing_auth_token (gid : str)
    (config : GatewayClientConfig) (with_backoff : bool) :
  careful timed_out
    (_get_existing_auth_token env fuel gid config with_backoff).
Proof.
  unfold _get_existing_auth_token, _get_agent_file.
  apply propagates_bind; [|intros; apply quiet_careful; quiet_tac].
  apply careful_catch.
  - apply propagates_bind; [|intros; apply quiet_careful; quiet_tac].
    destruct with_backoff; [apply propagates_run|].
    apply quiet_careful. quiet_tac.
  - intros e hm He. destruct e; try discriminate He.
    injection He as <-. quiet_tac.
  - intros m. reflexivity.
Qed.

Lemma propagates_gateway_default_agent_id (config : GatewayClientConfig)
    (key : option str) (with_backoff : bool) :
  careful timed_out
    (_gateway_default_agent_id env fuel config key with_backoff).
Proof.
  unfold _gateway_default_agent_id.
  apply propagates_bind; [|intros; apply quiet_careful; quiet_tac].
  apply careful_catch.
  - apply propagates_bind; [|intros; apply quiet_careful; quiet_tac].
    destruct with_backoff; [apply propagates_run|].
    apply quiet_careful. quiet_tac.
  - intros e hm He. destruct e; try discriminate He.
    injection He as <-. quiet_tac.
  - intros m. reflexivity.
Qed.

(** [try: c except TimeoutError: return f except (...): g], the shape of
    both provisioning steps. *)
Lemma careful_except_timeout {A B : Type} (Q : str -> res B -> Prop)
    (c : M A) (done : B) (f g : exn -> B) (caught : exn -> bool) :
  careful timed_out c ->
  (forall m, Q m (Val (f (TimeoutError m)))) ->
  careful Q
    (catch (bind c (fun _ => ret done))
       (fun exc =>
          match exc with
          | TimeoutError _ => Some (ret (f exc))
          | _ => if caught exc then Some (ret (g exc)) else None
          end)).
Proof.
  intros Hc Hq. apply careful_catch.
  - apply propagates_bind; [exact Hc|].
    intros; apply quiet_careful; quiet_tac.
  - intros e hm He.
    destruct e; try (injection He as <-; quiet_tac);
      (destruct (caught _); [injection He as <-; quiet_tac | discriminate He]).
  - intros m st. split; [reflexivity|]. apply Hq.
Qed.

Lemma careful_sync_one_agent (config : GatewayClientConfig)
    (boards_by_id : list (UUID * Board)) (paused : list UUID) (agent : Agent)
    (result : GatewayTemplatesSyncResult) :
  careful returned_with_timeout
    (sync_one_agent pbkdf2 env fuel gateway user reset_sessions rotate_tokens
       force_bootstrap config boards_by_id paused agent result).
Proof.
  unfold sync_one_agent.
  destruct (match agent_board_id agent with
            | Some b => boards_get b boards_by_id
            | None => None
            end) as [board|]; [|apply quiet_careful; quiet_tac].
  destruct (mem_uuid (board_id board) paused);
    [apply quiet_careful; quiet_tac|].
  apply careful_after_quiet; [quiet_tac|]. intros gid.
  apply careful_bind with (Q1 := caught_timeout).
  - apply careful_on_timeout. apply propagates_get_existing_auth_token.
  - intros [message | auth_token]; [apply quiet_careful; quiet_tac|].
    destruct (truthy auth_token) as [t|]; destruct rotate_tokens;
      try (apply quiet_careful; solve [quiet_tac]);
      (apply careful_after_quiet; [quiet_tac|]; intros [agent0 auth_token0];
       apply careful_after_quiet; [quiet_tac|]; intros drifted;
       apply careful_after_quiet; [quiet_tac|];
       intros [[agent1 auth_token1] result1];
       apply careful_except_timeout; [apply propagates_run|];
       intros m; eexists; (split; [reflexivity|]);
       apply (ends_with_added_error (count_skipped result1)
                (agent_error agent1 (Some (board_id board)) m))).
  - intros m r ->. intros st. split; [reflexivity|]. cbn [snd ret].
    eexists. split; [reflexivity|].
    apply (ends_with_added_error result
             (agent_error agent (Some (board_id board)) m)).
Qed.

Lemma careful_sync_agents (config : GatewayClientConfig)
    (boards_by_id : list (UUID * Board)) (paused : list UUID)
    (agents : list Agent) (result : GatewayTemplatesSyncResult) :
  careful returned_with_timeout
    (sync_agents pbkdf2 env fuel gateway user reset_sessions rotate_tokens
       force_bootstrap config boards_by_id paused agents result).
Proof.
  revert result. induction agents as [|agent agents IH]; intros result;
    cbn [sync_agents]; [apply quiet_careful; quiet_tac|].
  apply careful_bind with (Q1 := returned_with_timeout).
  - apply careful_sync_one_agent.
  - intros [r | r]; [apply IH | apply quiet_careful; quiet_tac].
  - intros m r [res [-> Hres]] st. split; [reflexivity|].
    exists res. split; [reflexivity | exact Hres].
Qed.

Lemma careful_sync_main_agent (config : GatewayClientConfig)
    (result : GatewayTemplatesSyncResult) :
  careful ended_with_timeout
    (sync_main_agent pbkdf2 env fuel gateway user reset_sessions rotate_tokens
       force_bootstrap config result).
Proof.
  unfold sync_main_agent.
  apply careful_after_quiet; [quiet_tac|]. intros d.
  destruct (agent_with_session_key d (main_session_key gateway))
    as [main_agent|]; [|apply quiet_careful; quiet_tac].
  apply careful_bind with (Q1 := caught_timeout).
  { apply careful_on_timeout. apply propagates_gateway_default_agent_id. }
  2:{ intros m r ->. intros st. split; [reflexivity|].
      eexists. split; [reflexivity|].
      apply (ends_with_added_error result (agent_error main_agent None m)). }
  intros [message | resolved]; [apply quiet_careful; quiet_tac|].
  destruct (truthy resolved) as [gid|]; [|apply quiet_careful; quiet_tac].
  apply careful_bind with (Q1 := caught_timeout).
  { apply careful_on_timeout. apply propagates_get_existing_auth_token. }
  2:{ intros m r ->. intros st. split; [reflexivity|].
      eexists. split; [reflexivity|].
      apply (ends_with_added_error result (agent_error main_agent None m)). }
  intros [message | main_token]; [apply quiet_careful; quiet_tac|].
  destruct (truthy main_token) as [t|]; destruct rotate_tokens;
    try (apply quiet_careful; solve [quiet_tac]);
    (apply careful_after_quiet; [quiet_tac|]; intros [agent0 token0];
     apply careful_after_quiet; [quiet_tac|]; intros drifted;
     apply careful_after_quiet; [quiet_tac|];
     intros [[agent1 token1] result1];
     apply careful_except_timeout; [apply propagates_run|];
     intros m; eexists; (split; [reflexivity|]);
     apply (ends_with_added_error result1 (agent_error agent1 None m))).
Qed.

Lemma careful_probe (config : GatewayClientConfig) :
  careful (fun m r => r = Val (Some m)) (probe env fuel config).
Proof.
  unfold probe. apply careful_catch.
  - apply propagates_bind; [apply propagates_run|].
    intros; apply quiet_careful; quiet_tac.
  - intros e hm He. destruct e; try discriminate He;
      injection He as <-; quiet_tac.
  - intros m st. split; reflexivity.
Qed.

Lemma careful_sync_gateway_templates (board_id : option UUID) :
  careful ended_with_timeout
    (sync_gateway_templates pbkdf2 env fuel gateway user include_main
       reset_sessions rotate_tokens force_bootstrap board_id).
Proof.
  unfold sync_gateway_templates.
  destruct (truthy (gateway_url gateway)) as [url|];
    [|apply quiet_careful; quiet_tac].
  apply careful_after_quiet; [quiet_tac|]. intros _.
  apply careful_bind with (Q1 := fun m r => r = Val (Some m)).
  { apply careful_probe. }
  2:{ intros m r ->. intros st. split; [reflexivity|].
      eexists. split; [reflexivity|].
      apply (ends_with_added_error _ (global_error m)). }
  intros [message|]; [apply quiet_careful; quiet_tac|].
  apply careful_after_quiet; [quiet_tac|]. intros d.
  match goal with
  | |- careful _ (match ?narrowed with _ => _ end) => destruct narrowed
  end; [|apply quiet_careful; quiet_tac].
  apply careful_after_quiet; [quiet_tac|]. intros paused.
  apply careful_after_quiet; [quiet_tac|]. intros d'.
  apply careful_bind with (Q1 := returned_with_timeout).
  - apply careful_sync_agents.
  - intros [r | r]; [|apply quiet_careful; quiet_tac].
    destruct include_main; [apply careful_sync_main_agent|].
    apply quiet_careful; quiet_tac.
  - intros m r [res [-> Hres]] st. split; [reflexivity|].
    exists res. split; [reflexivity | exact Hres].
Qed.

End TimeoutProperties.

(** ** Sync orchestrator: one agent, step by step *)

Lemma token_drifted_accepted (pbkdf2 : str -> bytes -> bytes -> Z -> bytes)
    (agent : Agent) (token : str) (st : State) :
  token_accepted pbkdf2 agent token ->
  token_drifted pbkdf2 agent token st = (st, Val false).
Proof.
  unfold token_accepted, token_drifted. destruct (truthy_hash agent) as [h|];
    [|reflexivity].
  intros ->. reflexivity.
Qed.

Section OneAgent.

Variable pbkdf2 : str -> bytes -> bytes -> Z -> bytes.
Variable env : Env.
Variable fuel : nat.
Variable gateway : Gateway.
Variable user : option UUID.
Variables reset_sessions rotate_tokens force_bootstrap : bool.
Variable config : GatewayClientConfig.
Variable boards_by_id : list (UUID * Board).
Variable paused : list UUID.

(** A timeout while the token is fetched ends the loop body with a return. *)
Lemma token_timeout_returns (agent : Agent) (b : UUID) (board : Board)
    (result : GatewayTemplatesSyncResult) (st st1 st2 : State) (gid m : str) :
  agent_board_id agent = Some b ->
  boards_get b boards_by_id = Some board ->
  mem_uuid (board_id board) paused = false ->
  _gateway_agent_id env agent st = (st1, Val gid) ->
  _get_existing_auth_token env fuel gid config true st1
  = (st2, Exn (TimeoutError m)) ->
  sync_one_agent pbkdf2 env fuel gateway user reset_sessions rotate_tokens
    force_bootstrap config boards_by_id paused agent result st
  = (st2,
     Val (Return (add_error result
                    (agent_error agent (Some (board_id board)) m)))).
Proof.
  intros Hb Hboard Hpaused Hgid Htok. unfold sync_one_agent.
  rewrite Hb, Hboard, Hpaused.
  rewrite (bind_val _ _ _ _ _ Hgid).
  rewrite (bind_val _ _ _ _ _ (on_timeout_timeout _ _ _ _ Htok)).
  reflexivity.
Qed.

(** With a token that passes the drift check, the loop body ends as the
    provisioning call decides. *)
Lemma provisioning_decides (agent : Agent) (b : UUID) (board : Board)
    (result : GatewayTemplatesSyncResult) (st st1 st2 st3 : State)
    (gid token : str) (r : res unit) :
  agent_board_id agent = Some b ->
  boards_get b boards_by_id = Some board ->
  mem_uuid (board_id board) paused = false ->
  _gateway_agent_id env agent st = (st1, Val gid) ->
  _get_existing_auth_token env fuel gid config true st1
  = (st2, Val (Some token)) ->
  token <> [] ->
  token_accepted pbkdf2 agent token ->
  _with_gateway_retry env fuel
    (provision_agent env
       (mkProvisionCall agent (Some board) gateway token user force_bootstrap
          reset_sessions)) st2
  = (st3, r) ->
  sync_one_agent pbkdf2 env fuel gateway user reset_sessions rotate_tokens
    force_bootstrap config boards_by_id paused agent result st
  = (st3, provision_outcome agent board result r).
Proof.
  intros Hb Hboard Hpaused Hgid Htok Hne Hacc Hprov. unfold sync_one_agent.
  rewrite Hb, Hboard, Hpaused.
  rewrite (bind_val _ _ _ _ _ Hgid).
  rewrite (bind_val _ _ _ _ _ (on_timeout_val _ _ _ _ Htok)).
  destruct token as [|c token]; [contradiction|]. cbn [truthy].
  unfold bind at 1. cbn [ret].
  rewrite (bind_val _ _ _ _ _ (token_drifted_accepted pbkdf2 agent _ st2 Hacc)).
  unfold bind at 1. cbn [ret].
  unfold catch, bind. rewrite Hprov.
  destruct r as [[]|exc|]; [reflexivity| |reflexivity].
  destruct exc; cbn; reflexivity.
Qed.

(** A [Return] from the body ends the loop at once; a [Continue] hands the
    result to the remaining agents. *)
Lemma sync_agents_return (agent : Agent) (rest : list Agent)
    (result result' : GatewayTemplatesSyncResult) (st st' : State) :
  sync_one_agent pbkdf2 env fuel gateway user reset_sessions rotate_tokens
    force_bootstrap config boards_by_id paused agent result st
  = (st', Val (Return result')) ->
  sync_agents pbkdf2 env fuel gateway user reset_sessions rotate_tokens
    force_bootstrap config boards_by_id paused (agent :: rest) result st
  = (st', Val (Return result')).
Proof.
  intros H. cbn [sync_agents]. rewrite (bind_val _ _ _ _ _ H). reflexivity.
Qed.

Lemma sync_agents_continue (agent : Agent) (rest : list Agent)
    (result result' : GatewayTemplatesSyncResult) (st st' : State) :
  sync_one_agent pbkdf2 env fuel gateway user reset_sessions rotate_tokens
    force_bootstrap config boards_by_id paused agent result st
  = (st', Val (Continue result')) ->
  sync_agents pbkdf2 env fuel gateway user reset_sessions rotate_tokens
    force_bootstrap config boards_by_id paused (agent :: rest) result st
  = sync_agents pbkdf2 env fuel gateway user reset_sessions rotate_tokens
      force_bootstrap config boards_by_id paused rest result' st'.
Proof.
  intros H. cbn [sync_agents]. rewrite (bind_val _ _ _ _ _ H). reflexivity.
Qed.

End OneAgent.

(** C2. When the backoff driver gives up - the deadline has passed and the
    gateway still fails with a transient error - while an agent's token is
    fetched or the agent is provisioned, the TimeoutError does not reach the
    caller: the loop body returns the accumulated result with one more error
    entry that carries the message of the timeout (and, for provisioning,
    the agent counted as skipped), the loop ends without looking at the
    remaining agents, and the function returns. In every run, whatever the
    gateway does: at most one timeout is raised by the driver, nothing
    happens to the outside world between that instant and the return (no
    further agent, no main agent), the outcome is a result and not an
    exception, and the last error entry of the result carries the message of
    the timeout. *)
Theorem timeout_aborts_sync
    (pbkdf2 : str -> bytes -> bytes -> Z -> bytes) (env : Env) (fuel : nat)
    (gateway : Gateway) (user : option UUID)
    (include_main reset_sessions rotate_tokens force_bootstrap : bool) :
  (forall config boards_by_id paused agent rest b board result st st1 st2
          gid m,
      agent_board_id agent = Some b ->
      boards_get b boards_by_id = Some board ->
      mem_uuid (board_ident board) paused = false ->
      _gateway_agent_id env agent st = (st1, Val gid) ->
      _get_existing_auth_token env fuel gid config true st1
      = (st2, Exn (TimeoutError m)) ->
      sync_agents pbkdf2 env fuel gateway user reset_sessions rotate_tokens
        force_bootstrap config boards_by_id paused (agent :: rest) result st
      = (st2,
         Val (Return (add_error result
                        (agent_error agent (Some (board_ident board)) m)))))
  /\ (forall config boards_by_id paused agent rest b board result st st1 st2
             st3 gid token m,
        agent_board_id agent = Some b ->
        boards_get b boards_by_id = Some board ->
        mem_uuid (board_ident board) paused = false ->
        _gateway_agent_id env agent st = (st1, Val gid) ->
        _get_existing_auth_token env fuel gid config true st1
        = (st2, Val (Some token)) ->
        token <> [] ->
        token_accepted pbkdf2 agent token ->
        _with_gateway_retry env fuel
          (provision_agent env
             (mkProvisionCall agent (Some board) gateway token user
                force_bootstrap reset_sessions)) st2
        = (st3, Exn (TimeoutError m)) ->
        sync_agents pbkdf2 env fuel gateway user reset_sessions rotate_tokens
          force_bootstrap config boards_by_id paused (agent :: rest) result st
        = (st3,
           Val (Return (add_error (count_skipped result)
                          (agent_error agent (Some (board_ident board)) m)))))
  /\ (forall config boards_by_id paused agents result st,
        let run :=
          sync_agents pbkdf2 env fuel gateway user reset_sessions
            rotate_tokens force_bootstrap config boards_by_id paused agents
            result st in
        deadline_hits (fst run) = deadline_hits st
        \/ exists m,
             deadline_hits (fst run) = (m, world (fst run)) :: deadline_hits st
             /\ returned_with_timeout m (snd run))
  /\ (forall board_id st,
        let run :=
          sync_gateway_templates pbkdf2 env fuel gateway user include_main
            reset_sessions rotate_tokens force_bootstrap board_id st in
        deadline_hits (fst run) = deadline_hits st
        \/ exists m,
             deadline_hits (fst run) = (m, world (fst run)) :: deadline_hits st
             /\ ended_with_timeout m (snd run)).
Proof.
  split; [|split; [|split]].
  - intros config boards_by_id paused agent rest b board result st st1 st2 gid
      m Hb Hboard Hpaused Hgid Htok.
    apply sync_agents_return.
    exact (token_timeout_returns pbkdf2 env fuel gateway user reset_sessions
             rotate_tokens force_bootstrap config boards_by_id paused agent b
             board result st st1 st2 gid m Hb Hboard Hpaused Hgid Htok).
  - intros config boards_by_id paused agent rest b board result st st1 st2 st3
      gid token m Hb Hboard Hpaused Hgid Htok Hne Hacc Hprov.
    apply sync_agents_return.
    exact (provisioning_decides pbkdf2 env fuel gateway user reset_sessions
             rotate_tokens force_bootstrap config boards_by_id paused agent b
             board result st st1 st2 st3 gid token (Exn (TimeoutError m)) Hb
             Hboard Hpaused Hgid Htok Hne Hacc Hprov).
  - intros config boards_by_id paused agents result st.
    exact (careful_sync_agents pbkdf2 env fuel gateway user reset_sessions
             rotate_tokens force_bootstrap config boards_by_id paused agents
             result st).
  - intros board_id st.
    exact (careful_sync_gateway_templates pbkdf2 env fuel gateway user
             include_main reset_sessions rotate_tokens force_bootstrap board_id
             st).
Qed.

(** A run in which the gateway becomes unreachable while the second of three
    agents is provisioned: the first agent is updated, the second is counted
    as skipped with the timeout as the only error entry, and neither the
    third agent nor the main agent is provisioned; the world at the return
    is the world at the timeout. *)
Example timeout_during_second_agent :
  let st :=
    set_db idle_state
      (example_db [example_agent 1 "Ada"; example_agent 2 "Bob";
                   example_agent 3 "Carol"]) in
  match sync_gateway_templates toy_pbkdf2 (scripted_env unreachable_for_agent_2)
          10 example_gateway None true false false false None st with
  | (st', Val result) =>
      agents_updated result = 1%nat
      /\ agents_skipped result = 1%nat
      /\ main_updated result = false
      /\ map (fun e => (error_agent_id e, error_message e)) (errors result)
         = [(Some 2%N,
             _gateway_timeout_message
               (OpenClawGatewayError (lit "HTTP 503 from gateway")))]
      /\ provisioned_names (requests (world st'))
         = ["Bob"; "Bob"; "Bob"; "Bob"; "Bob"; "Bob"; "Ada"]%string
      /\ map fst (deadline_hits st')
         = [_gateway_timeout_message
              (OpenClawGatewayError (lit "HTTP 503 from gateway"))]
      /\ map snd (deadline_hits st') = [world st']
  | _ => False
  end.
Proof. vm_compute. repeat split. Qed.

(** ** Sync orchestrator: a run without retries *)


Lemma yields_bind {A B : Type} (D : Database) (c : M A) (k : A -> M B)
    (a : A) (b : B) :
  yields D c a -> yields D (k a) b -> yields D (bind c k) b.
Proof.
  intros Hc Hk st H. destruct (Hc st H) as [st1 [E1 H1]].
  destruct (Hk st1 H1) as [st2 [E2 H2]]. exists st2.
  rewrite (bind_val _ _ _ _ _ E1). split; assumption.
Qed.

Lemma yields_catch {A : Type} (D : Database) (c : M A)
    (h : exn -> option (M A)) (a : A) :
  yields D c a -> yields D (catch c h) a.
Proof.
  intros Hc st H. destruct (Hc st H) as [st1 [E1 H1]]. exists st1.
  rewrite (catch_val _ _ _ _ _ E1). split; [reflexivity | exact H1].
Qed.

Lemma yields_on_timeout {A : Type} (D : Database) (c : M A) (a : A) :
  yields D c a -> yields D (on_timeout c) (inr a).
Proof.
  intros Hc st H. destruct (Hc st H) as [st1 [E1 H1]]. exists st1.
  rewrite (on_timeout_val _ _ _ _ E1). split; [reflexivity | exact H1].
Qed.



(** An operation that succeeds is not retried; one that fails with a fatal
    gateway error is not retried either. *)
Lemma run_first_value (env : Env) {A : Type} (fuel : nat) (fn : Op A)
    (st : State) (w1 : World) (v : A) :
  fn (world st) = (w1, Ret v) ->
  run env (S fuel) fn st
  = (set_backoff (set_world st w1)
       (set_delay (backoff st) (_base_delay_s (backoff st))), Val v).
Proof. intros H. rewrite run_unfold, run_loop_S, H. reflexivity. Qed.

Lemma run_first_fatal (env : Env) {A : Type} (fuel : nat) (fn : Op A)
    (st : State) (w1 : World) (msg : str) :
  fn (world st) = (w1, Raise (OpenClawGatewayError msg)) ->
  _is_transient_gateway_error (OpenClawGatewayError msg) = false ->
  run env (S fuel) fn st = (set_world st w1, Exn (OpenClawGatewayError msg)).
Proof. intros H Ht. rewrite run_unfold, run_loop_S, H, Ht. reflexivity. Qed.

Lemma yields_run (env : Env) {A : Type} (D : Database) (fuel : nat)
    (fn : Op A) (v : A) :
  (forall w, exists w1, fn w = (w1, Ret v)) ->
  yields D (run env (S fuel) fn) v.
Proof.
  intros Hfn st H. destruct (Hfn (world st)) as [w1 E].
  eexists. rewrite (run_first_value env fuel fn st w1 v E).
  split; [reflexivity | exact H].
Qed.

Lemma gateway_agent_id_known (env : Env) (agent : Agent) (gid : str)
    (st : State) :
  gateway_id_of agent = Some gid ->
  _gateway_agent_id env agent st = (st, Val gid).
Proof.
  unfold gateway_id_of, _gateway_agent_id, second_segment, _slugify.
  destruct (startswith _ _ && _ && _).
  - intros H. injection H as <-. reflexivity.
  - destruct (nonempty (slug_of (agent_name agent))); [|discriminate].
    intros H. injection H as <-. reflexivity.
Qed.

Lemma auth_token_of_nonempty (tools : option str) (token : str) :
  auth_token_of tools = Some token -> token <> [].
Proof.
  unfold auth_token_of. destruct tools as [[|c tools]|]; try discriminate.
  destruct (values_get _ _) as [[|c' t]|]; try discriminate.
  destruct (strip (c' :: t)) as [|x s]; [discriminate|].
  intros H. injection H as <-. discriminate.
Qed.

Section QuietGateway.

Variable pbkdf2 : str -> bytes -> bytes -> Z -> bytes.
Variable env : Env.
Variable fuel : nat.
Variable gateway : Gateway.
Variable user : option UUID.
Variables reset_sessions rotate_tokens force_bootstrap : bool.
Variable config : GatewayClientConfig.
Variable D : Database.

Lemma yields_existing_auth_token (gid token : str) :
  gateway_serves_token env config gid token ->
  yields D (_get_existing_auth_token env (S fuel) gid config true)
         (Some token).
Proof.
  intros Hserve st H. unfold _get_existing_auth_token, _get_agent_file.
  destruct (Hserve (tick (world st))) as [payload [took [Hreply Htok]]].
  match goal with
  | |- context [run env (S fuel) ?op] =>
      assert (Hop : exists w1, op (world st) = (w1, Ret payload))
        by (eexists; unfold openclaw_call; rewrite Hreply; reflexivity);
      destruct Hop as [w1 Hop];
      pose proof (run_first_value env fuel op st w1 payload Hop) as Hrun
  end.
  eexists. split.
  - rewrite (bind_val _ _ _ _ _
               (catch_val _ _ _ _ _ (bind_val _ _ _ _ _ Hrun))).
    cbn [ret]. rewrite Htok. reflexivity.
  - exact H.
Qed.



Variable boards_by_id : list (UUID * Board).
Variable paused : list UUID.


(** An agent whose provisioning fails with a fatal adapter error is counted
    as skipped, with one error entry, and the loop goes on. *)
Lemma yields_agent_failed (agent : Agent) (board : Board) (token msg : str)
    (result : GatewayTemplatesSyncResult) :
  ready_agent pbkdf2 env config boards_by_id paused agent board token ->
  provisioning_fails_fatally env
    (mkProvisionCall agent (Some board) gateway token user force_bootstrap
       reset_sessions) msg ->
  yields D
    (sync_one_agent pbkdf2 env (S fuel) gateway user reset_sessions
       rotate_tokens force_bootstrap config boards_by_id paused agent result)
    (Continue
       (add_error (count_skipped result)
          (agent_error agent (Some (board_id board))
             (lit "Failed to sync templates: " ++ msg)))).
Proof.
  intros [b [gid [Hb [Hboard [Hp [Hgid [Hserve Hacc]]]]]]] [Hfatal Hprov] st H.
  destruct (yields_existing_auth_token gid token Hserve st H)
    as [st2 [Htok H2]].
  destruct (Hprov (tick (world st2))) as [took Hreply].
  eexists. split.
  - apply (provisioning_decides pbkdf2 env (S fuel) gateway user
             reset_sessions rotate_tokens force_bootstrap config boards_by_id
             paused agent b board result st st st2 _ gid token
             (Exn (OpenClawGatewayError msg)) Hb Hboard Hp
             (gateway_agent_id_known env agent gid st Hgid) Htok).
    + destruct (Hserve 0%nat) as [payload [_ [_ Hsome]]].
      exact (auth_token_of_nonempty _ _ Hsome).
    + exact Hacc.
    + apply run_first_fatal; [|exact Hfatal].
      unfold provision_agent. rewrite Hreply. reflexivity.
  - exact H2.
Qed.


End QuietGateway.



(** In any batch, the agents after one whose provisioning failed fatally are
    processed as they would be otherwise, from the result with that one
    error added. *)
Lemma fatal_error_does_not_stop_the_loop
    (pbkdf2 : str -> bytes -> bytes -> Z -> bytes) (env : Env) (fuel : nat)
    (gateway : Gateway) (user : option UUID)
    (reset_sessions rotate_tokens force_bootstrap : bool)
    (config : GatewayClientConfig) (D : Database)
    (boards_by_id : list (UUID * Board)) (paused : list UUID)
    (agent : Agent) (rest : list Agent) (board : Board) (token msg : str)
    (result : GatewayTemplatesSyncResult) (outcome : flow) :
  ready_agent pbkdf2 env config boards_by_id paused agent board token ->
  provisioning_fails_fatally env
    (mkProvisionCall agent (Some board) gateway token user force_bootstrap
       reset_sessions) msg ->
  yields D
    (sync_agents pbkdf2 env (S fuel) gateway user reset_sessions rotate_tokens
       force_bootstrap config boards_by_id paused rest
       (add_error (count_skipped result)
          (agent_error agent (Some (board_id board))
             (lit "Failed to sync templates: " ++ msg))))
    outcome ->
  yields D
    (sync_agents pbkdf2 env (S fuel) gateway user reset_sessions rotate_tokens
       force_bootstrap config boards_by_id paused (agent :: rest) result)
    outcome.
Proof.
  intros Hready Hfail Hrest. cbn [sync_agents].
  eapply yields_bind;
    [exact (yields_agent_failed pbkdf2 env fuel gateway user reset_sessions
              rotate_tokens force_bootstrap config D boards_by_id paused agent
              board token msg result Hready Hfail)
    |exact Hrest].
Qed.


(** The same batch, run: two agents updated, one skipped, one error entry
    for the second agent, the main agent updated, and all four provisioning
    requests made. *)
Example three_agents_second_fails :
  match sync_gateway_templates toy_pbkdf2 (scripted_env fatal_for_agent_2) 1
          example_gateway None true false false false None
          (set_db idle_state
             (example_db [example_agent 1 "Ada"; example_agent 2 "Bob";
                          example_agent 3 "Carol"])) with
  | (st', Val result) =>
      agents_updated result = 2%nat
      /\ agents_skipped result = 1%nat
      /\ main_updated result = true
      /\ map (fun e => (error_agent_id e,
                        string_of_list_ascii (error_message e)))
             (errors result)
         = [(Some 2%N,
             "Failed to sync templates: unsupported file type: .bin"%string)]
      /\ provisioned_names (requests (world st'))
         = ["Main"; "Carol"; "Bob"; "Ada"]%string
  | _ => False
  end.
Proof. vm_compute. repeat split. Qed.

(** ** Pause state: from the board memory to the loop of the sync *)

Lemma keeps_db_probe (env : Env) (fuel : nat) (config : GatewayClientConfig) :
  keeps_db (probe env fuel config).
Proof. unfold probe. frame. Qed.

(** The steps of [sync_gateway_templates] for a gateway with a URL. *)
Lemma sync_gateway_templates_steps
    (pbkdf2 : str -> bytes -> bytes -> Z -> bytes) (env : Env) (fuel : nat)
    (gateway : Gateway) (user : option UUID)
    (include_main reset_sessions rotate_tokens force_bootstrap : bool)
    (board_id : option UUID) (url : str) (st : State) :
  truthy (gateway_url gateway) = Some url ->
  let config := mkGatewayClientConfig url (gateway_token gateway) in
  let result := initial_result gateway include_main reset_sessions in
  sync_gateway_templates pbkdf2 env fuel gateway user include_main
    reset_sessions rotate_tokens force_bootstrap board_id st
  = match probe env fuel config (set_backoff st (default_backoff 600)) with
    | (st2, Val (Some message)) =>
        (st2, Val (add_error result (global_error message)))
    | (st2, Val None) =>
        match boards_in_scope (db st2) gateway board_id with
        | None =>
            (st2, Val (add_error result
                         (mkSyncError None None board_id
                            (lit "Board does not belong to this gateway."))))
        | Some boards_by_id =>
            match sync_agents pbkdf2 env fuel gateway user reset_sessions
                    rotate_tokens force_bootstrap config boards_by_id
                    (paused_of (board_memory_tbl (db st2))
                               (boards_keys boards_by_id))
                    (agents_on (db st2) boards_by_id) result st2 with
            | (st3, Val (Return r)) => (st3, Val r)
            | (st3, Val (Continue r)) =>
                if include_main
                then sync_main_agent pbkdf2 env fuel gateway user
                       reset_sessions rotate_tokens force_bootstrap config r st3
                else (st3, Val r)
            | (st3, Exn e) => (st3, Exn e)
            | (st3, OutOfFuel) => (st3, OutOfFuel)
            end
        end
    | (st2, Exn e) => (st2, Exn e)
    | (st2, OutOfFuel) => (st2, OutOfFuel)
    end.
Proof.
  intros Hurl. cbv zeta. unfold sync_gateway_templates. rewrite Hurl.
  unfold bind at 1. cbn [put_backoff].
  unfold bind at 1.
  destruct (probe env fuel (mkGatewayClientConfig url (gateway_token gateway))
              (set_backoff st (default_backoff 600)))
    as [st2 [[message|]|e|]]; try reflexivity.
  unfold bind at 1. cbn [get_db].
  unfold boards_in_scope, boards_by_id_of.
  destruct board_id as [wanted|].
  - destruct (boards_get wanted _) as [board|]; [|reflexivity].
    unfold _paused_board_ids, bind, get_db, ret, agents_on. cbn [fst snd].
    destruct (sync_agents _ _ _ _ _ _ _ _ _ _ _ _ _ _) as [st3 [[r|r]|e|]];
      try reflexivity.
    destruct include_main; reflexivity.
  - unfold _paused_board_ids, bind, get_db, ret, agents_on. cbn [fst snd].
    destruct (sync_agents _ _ _ _ _ _ _ _ _ _ _ _ _ _) as [st3 [[r|r]|e|]];
      try reflexivity.
    destruct include_main; reflexivity.
Qed.



(* ================================================================== *)
(** * Further properties *)
(* ================================================================== *)

(** ** Token codec: the text of digests and tokens *)

Lemma urlsafe_sextet_check_all :
  forallb urlsafe_sextet_check (map N.of_nat (seq 0 64)) = true.
Proof. vm_compute. reflexivity. Qed.

Lemma urlsafe_sextet_ok (s : N) :
  (s < 64)%N ->
  is_urlsafe_char (Base64.urlsafe_encode_char (Base64.b2a_char s)) = true.
Proof.
  intros Hs. pose proof urlsafe_sextet_check_all as H.
  rewrite forallb_forall in H. apply (H s). apply in_map_iff.
  exists (N.to_nat s). split; [apply N2Nat.id | apply in_seq; lia].
Qed.

(** The encoder's output with its length: the characters of the sextets
    number a third more than the bytes, rounded up. *)
Lemma b2a_body_length (data : bytes) :
  exists body k,
    Base64.b2a_base64 data = body ++ repeat Base64.PAD k
    /\ Forall (fun ch => exists s, (s < 64)%N /\ ch = Base64.b2a_char s) body
    /\ List.length body = ((4 * List.length data + 2) / 3)%nat.
Proof.
  induction data as [|x|x y|x y z rest IH] using list_ind3.
  - exists [], 0%nat. repeat split; constructor.
  - destruct (group_facts x x00) as [[H0 [H1 _]] _].
    exists [Base64.b2a_char (Base64.sextet0 x);
            Base64.b2a_char (Base64.sextet1 x x00)], 2%nat.
    repeat split. repeat (constructor; [eexists; eauto|]). constructor.
  - destruct (group_facts x y) as [[H0 [H1 _]] _].
    destruct (group_facts y x00) as [[_ [_ [H2 _]]] _].
    exists [Base64.b2a_char (Base64.sextet0 x);
            Base64.b2a_char (Base64.sextet1 x y);
            Base64.b2a_char (Base64.sextet2 y x00)], 1%nat.
    repeat split. repeat (constructor; [eexists; eauto|]). constructor.
  - destruct IH as [body [k [Hb [Hall Hlen]]]].
    destruct (group_facts x y) as [[H0 [H1 _]] _].
    destruct (group_facts y z) as [[_ [_ [H2 H3]]] _].
    exists (Base64.b2a_char (Base64.sextet0 x)
            :: Base64.b2a_char (Base64.sextet1 x y)
            :: Base64.b2a_char (Base64.sextet2 y z)
            :: Base64.b2a_char (Base64.sextet3 z) :: body), k.
    cbn [Base64.b2a_base64]. rewrite Hb. repeat split.
    + repeat (constructor; [eexists; eauto|]). exact Hall.
    + cbn [List.length]. rewrite Hlen.
      replace (4 * S (S (S (List.length rest))) + 2)%nat
        with (4 * List.length rest + 2 + 4 * 3)%nat by lia.
      rewrite Nat.div_add by lia. lia.
Qed.

Lemma b64encode_body (data : bytes) :
  exists body,
    _b64encode data = map Base64.urlsafe_encode_char body
    /\ Forall (fun ch => exists s, (s < 64)%N /\ ch = Base64.b2a_char s) body
    /\ List.length body = ((4 * List.length data + 2) / 3)%nat.
Proof.
  destruct (b2a_body_length data) as [body [k [Hb [Hall Hlen]]]].
  exists body. repeat split; try assumption.
  unfold _b64encode, rstrip_char, Base64.urlsafe_b64encode.
  rewrite Hb, map_app, map_repeat, urlsafe_pad.
  apply rstrip_by_pads; [reflexivity|].
  apply Forall_map. apply Forall_impl with (2 := Hall).
  intros ch [s [Hs ->]]. destruct (sextet_facts Hs) as [_ [Hu _]].
  rewrite Ascii.eqb_sym. exact Hu.
Qed.

Lemma b64encode_urlsafe_chars (data : bytes) :
  forallb is_urlsafe_char (_b64encode data) = true.
Proof.
  destruct (b64encode_body data) as [body [-> [Hall _]]].
  apply forallb_forall. intros c Hc. apply in_map_iff in Hc.
  destruct Hc as [ch [<- Hch]]. rewrite Forall_forall in Hall.
  destruct (Hall ch Hch) as [s [Hs ->]]. apply urlsafe_sextet_ok. exact Hs.
Qed.

Lemma b64encode_of_32_bytes (data : bytes) :
  List.length data = 32%nat -> List.length (_b64encode data) = 43%nat.
Proof.
  intros Hlen. destruct (b64encode_body data) as [body [-> [_ Hl]]].
  rewrite length_map, Hl, Hlen. reflexivity.
Qed.

(** X1. The codec of the digest fields is a round trip: [_b64decode] gives
    back every byte string that [_b64encode] has written, the dropped
    padding being restored from the length. So [_b64encode] never writes
    the same text for two byte strings, and writes the empty text for the
    empty byte string only. *)
Theorem b64_codec_round_trip (data : bytes) :
  _b64decode (_b64encode data) = Ret data
  /\ (forall other, _b64encode other = _b64encode data -> other = data)
  /\ (data <> [] -> _b64encode data <> []).
Proof.
  split; [apply b64_round_trip|]. split.
  - intros other H. pose proof (b64_round_trip other) as Hother.
    rewrite H, b64_round_trip in Hother. injection Hother as ->. reflexivity.
  - intros Hne H.
    pose proof (b64_round_trip data) as Hback. rewrite H in Hback.
    vm_compute in Hback. injection Hback as <-. contradiction.
Qed.

(** X2. The text written by [_b64encode] holds only letters, digits, hyphens
    and underscores - no padding - and has one character for every six bits
    of the input, rounded up. *)
Theorem b64encode_is_unpadded_urlsafe (data : bytes) :
  forallb is_urlsafe_char (_b64encode data) = true
  /\ List.length (_b64encode data) = ((4 * List.length data + 2) / 3)%nat.
Proof.
  split; [apply b64encode_urlsafe_chars|].
  destruct (b64encode_body data) as [body [-> [_ Hlen]]].
  rewrite length_map. exact Hlen.
Qed.

(** ** Token codec: what verification accepts and when it raises *)

Lemma bytes_eqb_eq (a b : bytes) : bytes_eqb a b = true <-> a = b.
Proof.
  revert b. induction a as [|x a IH]; intros [|y b]; cbn [bytes_eqb];
    try (split; [discriminate | discriminate]).
  - split; reflexivity.
  - rewrite andb_true_iff, IH. split.
    + intros [Hx ->]. apply Byte.byte_dec_bl in Hx. subst. reflexivity.
    + intros H. injection H as -> ->. split; [|reflexivity].
      apply Byte.byte_dec_lb. reflexivity.
Qed.

(** Verifying any token against a digest string in the format written by
    [hash_agent_token]. *)
Lemma verify_stored (pbkdf2 : str -> bytes -> bytes -> Z -> bytes)
    (candidate : str) (salt digest : bytes) :
  verify_agent_token pbkdf2 candidate
    (lit "pbkdf2_sha256" ++ "$"%char
     :: (lit "200000" ++ "$"%char
     :: (_b64encode salt ++ "$"%char :: _b64encode digest)))
  = Ret (compare_digest
           (pbkdf2 (lit "sha256") (encode_utf8 candidate) salt ITERATIONS)
           digest).
Proof.
  unfold verify_agent_token.
  rewrite split_app_sep by (repeat constructor).
  rewrite split_app_sep by (repeat constructor).
  rewrite split_app_sep by apply b64encode_no_dollar.
  rewrite split_no_sep by apply b64encode_no_dollar.
  change (str_eqb (lit "pbkdf2_sha256") (lit "pbkdf2_sha256")) with true.
  change (Py.int (lit "200000")) with (Some ITERATIONS).
  cbn [negb]. rewrite !b64_round_trip. cbn [obind]. reflexivity.
Qed.

(** X3. Against a digest made by [hash_agent_token] for one token,
    [verify_agent_token] answers for every candidate without raising, and it
    accepts the candidate exactly when the key derived from it - with the
    stored salt and iteration count - equals the stored key. *)
Theorem verify_accepts_exactly_matching_keys
    (pbkdf2 : str -> bytes -> bytes -> Z -> bytes) (env : Env)
    (token candidate : str) (st : State) :
  exists st' stored_hash accepted,
    hash_agent_token pbkdf2 env token st = (st', Val stored_hash)
    /\ verify_agent_token pbkdf2 candidate stored_hash = Ret accepted
    /\ let salt := secrets_token_bytes env (tick (world st)) SALT_BYTES in
       (accepted = true <->
        pbkdf2 (lit "sha256") (encode_utf8 candidate) salt ITERATIONS
        = pbkdf2 (lit "sha256") (encode_utf8 token) salt ITERATIONS).
Proof.
  eexists _, _, _. split; [apply hash_agent_token_value|].
  split; [apply verify_stored|].
  cbv zeta. unfold compare_digest. apply bytes_eqb_eq.
Qed.

(** X4. When [verify_agent_token] raises. It raises only for a stored value
    with four fields, the right algorithm tag and an iteration field that
    [int()] reads, and then only because the salt or the digest field is not
    valid base64 or because the count is below one or above the largest C
    int. Once both fields decode, a count below one raises [ValueError] if
    it fits a C long and [OverflowError] if it does not, a count above
    2147483647 raises [OverflowError], and a count in range gives the
    comparison of the keys. *)
Theorem verify_raises_only_on_base64_or_count
    (pbkdf2 : str -> bytes -> bytes -> Z -> bytes) (token stored_hash : str) :
  (forall e,
      verify_agent_token pbkdf2 token stored_hash = Raise e ->
      exists iterations salt_b64 digest_b64 n,
        split "$" stored_hash
        = [lit "pbkdf2_sha256"; iterations; salt_b64; digest_b64]
        /\ Py.int iterations = Some n
        /\ (_b64decode salt_b64 = Raise e
            \/ _b64decode digest_b64 = Raise e
            \/ (n < 1)%Z \/ (2147483647 < n)%Z))
  /\ (forall iterations salt_b64 digest_b64 n salt digest,
        split "$" stored_hash
        = [lit "pbkdf2_sha256"; iterations; salt_b64; digest_b64] ->
        Py.int iterations = Some n ->
        _b64decode salt_b64 = Ret salt ->
        _b64decode digest_b64 = Ret digest ->
        ((- 2 ^ 63 <= n < 1)%Z ->
         verify_agent_token pbkdf2 token stored_hash
         = Raise (ValueError (lit "iteration value must be greater than 0.")))
        /\ ((n < - 2 ^ 63)%Z \/ (2147483647 < n)%Z ->
            exists m,
              verify_agent_token pbkdf2 token stored_hash
              = Raise (OverflowError m))
        /\ ((1 <= n <= 2147483647)%Z ->
            verify_agent_token pbkdf2 token stored_hash
            = Ret (compare_digest
                     (pbkdf2 (lit "sha256") (encode_utf8 token) salt n)
                     digest))).
Proof.
  assert (E63 : (2 ^ 63 = 9223372036854775808)%Z) by reflexivity.
  assert (Hcount : forall n salt,
    pbkdf2_hmac pbkdf2 (lit "sha256") (encode_utf8 token) salt n
    = if (n <? - 9223372036854775808)%Z || (9223372036854775807 <? n)%Z
      then Raise (OverflowError
                    (lit "Python int too large to convert to C long"))
      else if (n <? 1)%Z
      then Raise (ValueError (lit "iteration value must be greater than 0."))
      else if (2147483647 <? n)%Z
      then Raise (OverflowError (lit "iteration value is too great."))
      else Ret (pbkdf2 (lit "sha256") (encode_utf8 token) salt n))
    by reflexivity.
  unfold verify_agent_token. split.
  - intros e H.
    destruct (split "$" stored_hash) as [|a [|i [|s [|d [|x l]]]]];
      try discriminate.
    destruct (str_eqb a (lit "pbkdf2_sha256")) eqn:Ea; [|discriminate].
    apply str_eqb_eq in Ea. subst a. cbn [negb] in H.
    destruct (Py.int i) as [n|] eqn:Ei; [|discriminate].
    exists i, s, d, n. split; [reflexivity|]. split; [exact Ei|].
    destruct (_b64decode s) as [salt|e1] eqn:Es; cbn [obind] in H;
      [|left; injection H as ->; reflexivity].
    destruct (_b64decode d) as [digest|e2] eqn:Ed; cbn [obind] in H;
      [|right; left; injection H as ->; reflexivity].
    right. right. rewrite Hcount in H.
    destruct (Z.ltb_spec n 1) as [Hlt|Hge]; [left; exact Hlt|].
    destruct (Z.ltb_spec 2147483647 n) as [Hbig|Hsmall]; [right; exact Hbig|].
    destruct (Z.ltb_spec n (- 9223372036854775808)) as [G|G]; [lia|].
    destruct (Z.ltb_spec 9223372036854775807 n) as [G'|G']; [lia|].
    discriminate.
  - intros i s d n salt digest -> Hi Hs Hd.
    change (str_eqb (lit "pbkdf2_sha256") (lit "pbkdf2_sha256")) with true.
    cbn [negb]. rewrite Hi, Hs, Hd. cbn [obind]. rewrite Hcount, E63.
    destruct (Z.ltb_spec n (- 9223372036854775808)) as [G|G];
      destruct (Z.ltb_spec 9223372036854775807 n) as [G'|G'];
      destruct (Z.ltb_spec n 1) as [Hlt|Hge];
      destruct (Z.ltb_spec 2147483647 n) as [Hbig|Hsmall];
      cbn [orb]; (split; [|split]);
      try (intros Hn; lia);
      try (intros [Hn | Hn]; lia);
      try (intros _; reflexivity);
      try (intros _; eexists; reflexivity).
Qed.

(** A count of zero with empty salt and digest fields: the stored value
    passes every guard and the key derivation raises. *)
Example verify_raises_on_zero_iterations
    (pbkdf2 : str -> bytes -> bytes -> Z -> bytes) (token : str) :
  verify_agent_token pbkdf2 token (lit "pbkdf2_sha256$0$$")
  = Raise (ValueError (lit "iteration value must be greater than 0.")).
Proof. reflexivity. Qed.

(** ** Characters, stripping and lines *)

Ltac ascii_cases c :=
  destruct c as [[] [] [] [] [] [] [] []]; vm_compute;
  try reflexivity; try discriminate; try (intros; discriminate);
  try (intros; reflexivity).

Lemma slug_char_plain (c : ascii) :
  is_slug_char c = true \/ c = "-"%char ->
  is_space c = false /\ is_linebreak c = false
  /\ Ascii.eqb c ":" = false.
Proof.
  intros [H | ->]; [|repeat split].
  revert H. ascii_cases c; intros; repeat split.
Qed.

Lemma urlsafe_char_plain (c : ascii) :
  is_urlsafe_char c = true -> is_plain_char c = true.
Proof. ascii_cases c. Qed.

Lemma key_char_not_hash (c : ascii) :
  is_key_char c = true ->
  Ascii.eqb "#" c = false /\ is_space c = false /\ Ascii.eqb c "=" = false.
Proof. ascii_cases c; intros; repeat split. Qed.

Lemma strip_by_clean (p : ascii -> bool) (s : str) :
  (forall c r, s = c :: r -> p c = false) ->
  (forall f z, s = f ++ [z] -> p z = false) ->
  strip_by p s = s.
Proof.
  intros Hhead Hlast. unfold strip_by.
  destruct s as [|c r]; [reflexivity|].
  cbn [lstrip_by]. rewrite (Hhead c r eq_refl).
  destruct (exists_last (l := c :: r)) as [f [z Hz]]; [discriminate|].
  rewrite Hz. apply rstrip_by_keeps. exact (Hlast f z Hz).
Qed.

Lemma strip_by_idem (p : ascii -> bool) (s : str) :
  strip_by p (strip_by p s) = strip_by p s.
Proof.
  apply strip_by_clean.
  - intros c r H. exact (strip_by_head H).
  - intros f z H. exact (strip_by_last H).
Qed.

Lemma strip_by_none (p : ascii -> bool) (s : str) :
  forallb (fun c => negb (p c)) s = true -> strip_by p s = s.
Proof.
  intros H. rewrite forallb_forall in H. apply strip_by_clean.
  - intros c r ->. specialize (H c (or_introl eq_refl)).
    destruct (p c); [discriminate | reflexivity].
  - intros f z ->. specialize (H z).
    rewrite in_app_iff in H. specialize (H (or_intror (or_introl eq_refl))).
    destruct (p z); [discriminate | reflexivity].
Qed.

Lemma lstrip_by_app_kept (p : ascii -> bool) (s b : str) :
  lstrip_by p s <> [] -> lstrip_by p (s ++ b) = lstrip_by p s ++ b.
Proof.
  induction s as [|c s IH]; cbn [lstrip_by app]; [contradiction|].
  destruct (p c); [exact IH | reflexivity].
Qed.

Lemma lstrip_by_all (p : ascii -> bool) (s : str) :
  forallb p s = true -> lstrip_by p s = [].
Proof.
  induction s as [|c s IH]; cbn [forallb lstrip_by]; [reflexivity|].
  destruct (p c); [exact IH | discriminate].
Qed.

Lemma lstrip_by_nil_all (p : ascii -> bool) (s : str) :
  lstrip_by p s = [] -> forallb p s = true.
Proof.
  induction s as [|c s IH]; cbn [forallb lstrip_by]; [reflexivity|].
  destruct (p c); [exact IH | discriminate].
Qed.

(** Blanks around a text do not change what [strip] makes of it. *)
Lemma strip_by_padded (p : ascii -> bool) (a s b : str) :
  forallb p a = true -> forallb p b = true ->
  strip_by p (a ++ s ++ b) = strip_by p s.
Proof.
  intros Ha Hb. unfold strip_by. rewrite lstrip_by_app_dropped by exact Ha.
  destruct (lstrip_by p s) as [|c r] eqn:E.
  - apply lstrip_by_nil_all in E.
    rewrite lstrip_by_all by (rewrite forallb_app, E, Hb; reflexivity).
    reflexivity.
  - rewrite lstrip_by_app_kept by (rewrite E; discriminate).
    rewrite E. apply rstrip_by_app_dropped. exact Hb.
Qed.

Lemma strip_by_rstrip (p : ascii -> bool) (s : str) :
  strip_by p (rstrip_by p s) = strip_by p s.
Proof.
  destruct (rstrip_by_dropped p s) as [d [Hd Hp]].
  rewrite Hd at 2. symmetry.
  apply (strip_by_padded p [] (rstrip_by p s) d); [reflexivity | exact Hp].
Qed.

(** A text that starts with a kept character loses only trailing blanks. *)
Lemma strip_by_kept_head (p : ascii -> bool) (c : ascii) (s : str) :
  p c = false -> strip_by p (c :: s) = c :: rstrip_by p s.
Proof.
  intros Hc. unfold strip_by. cbn [lstrip_by]. rewrite Hc.
  destruct (rstrip_by_dropped p s) as [d [Hd Hp]].
  rewrite Hd at 1. change (c :: rstrip_by p s ++ d)
    with ((c :: rstrip_by p s) ++ d).
  rewrite rstrip_by_app_dropped by exact Hp.
  destruct (exists_last (l := c :: rstrip_by p s)) as [f [z Hz]];
    [discriminate|].
  rewrite Hz. apply rstrip_by_keeps.
  destruct f as [|x f]; cbn in Hz.
  - injection Hz as <- Hnil. exact Hc.
  - injection Hz as _ Hz. exact (rstrip_by_last Hz).
Qed.

Lemma span_app (p : ascii -> bool) (a : str) (c : ascii) (r : str) :
  forallb p a = true -> p c = false -> span p (a ++ c :: r) = (a, c :: r).
Proof.
  intros Ha Hc. induction a as [|x a IH]; cbn [span app forallb] in *.
  - rewrite Hc. reflexivity.
  - apply andb_true_iff in Ha. destruct Ha as [Hx Ha].
    rewrite Hx, (IH Ha). reflexivity.
Qed.

Lemma span_spec (p : ascii -> bool) (s a b : str) :
  span p s = (a, b) -> s = a ++ b /\ forallb p a = true.
Proof.
  revert a b. induction s as [|c s IH]; intros a b; cbn [span].
  - intros H. injection H as <- <-. split; reflexivity.
  - destruct (p c) eqn:Ec.
    + destruct (span p s) as [a' b'] eqn:E. intros H. injection H as <- <-.
      destruct (IH a' b' eq_refl) as [-> Ha]. split; [reflexivity|].
      cbn [forallb]. rewrite Ec, Ha. reflexivity.
    + intros H. injection H as <- <-. split; reflexivity.
Qed.

(** A line without line breaks is one line. *)
Lemma splitlines_acc_line (cur line : str) :
  forallb (fun c => negb (is_linebreak c)) line = true ->
  splitlines_acc cur line
  = match rev cur ++ line with [] => [] | l => [l] end.
Proof.
  revert cur. induction line as [|c line IH]; intros cur H.
  - cbn [splitlines_acc]. rewrite app_nil_r. destruct cur as [|x cur].
    + reflexivity.
    + destruct (rev (x :: cur)) eqn:E; [|reflexivity].
      apply (f_equal (@List.length ascii)) in E. rewrite length_rev in E.
      discriminate.
  - cbn [forallb] in H. apply andb_true_iff in H. destruct H as [Hc H].
    cbn [splitlines_acc]. destruct (is_linebreak c); [discriminate|].
    rewrite (IH (c :: cur) H). cbn [rev]. rewrite <- app_assoc. reflexivity.
Qed.

Lemma splitlines_acc_line_nl (cur line : str) :
  forallb (fun c => negb (is_linebreak c)) line = true ->
  splitlines_acc cur (line ++ [chr 10]) = [rev cur ++ line].
Proof.
  revert cur. induction line as [|c line IH]; intros cur H.
  - cbn. rewrite app_nil_r. reflexivity.
  - cbn [forallb] in H. apply andb_true_iff in H. destruct H as [Hc H].
    cbn [splitlines_acc app]. destruct (is_linebreak c); [discriminate|].
    rewrite (IH (c :: cur) H). cbn [rev]. rewrite <- app_assoc. reflexivity.
Qed.

(** What follows a line feed is split on its own. *)
Lemma splitlines_acc_after_nl (n : nat) :
  forall (s cur body : str),
    (List.length s <= n)%nat ->
    exists pre,
      splitlines_acc cur (s ++ chr 10 :: body)
      = pre ++ splitlines_acc [] body.
Proof.
  induction n as [|n IH]; intros s cur body Hlen.
  - destruct s; [|cbn in Hlen; lia].
    cbn [app splitlines_acc]. change (is_linebreak (chr 10)) with true.
    cbv iota. destruct body as [|c' rest'].
    + exists [rev cur]. reflexivity.
    + change (Ascii.eqb (chr 10) (chr 13)) with false. cbn [andb].
      exists [rev cur]. reflexivity.
  - destruct s as [|c s].
    + apply (IH [] cur body). cbn. lia.
    + cbn [List.length] in Hlen. cbn [app splitlines_acc].
      destruct (is_linebreak c).
      * destruct s as [|c' s].
        -- cbn [app].
           destruct (IH [] [] body) as [pre Hpre]; [cbn; lia|].
           cbn [app] in Hpre.
           destruct (Ascii.eqb c (chr 13) && Ascii.eqb (chr 10) (chr 10)).
           ++ exists [rev cur]. reflexivity.
           ++ exists (rev cur :: pre). rewrite Hpre. reflexivity.
        -- cbn [app]. cbn [List.length] in Hlen.
           destruct (Ascii.eqb c (chr 13) && Ascii.eqb c' (chr 10)).
           ++ destruct (IH s [] body) as [pre Hpre]; [lia|].
              exists (rev cur :: pre). rewrite Hpre. reflexivity.
           ++ destruct (IH (c' :: s) [] body) as [pre Hpre]; [cbn; lia|].
              exists (rev cur :: pre). cbn [app] in Hpre. rewrite Hpre.
              reflexivity.
      * destruct (IH s (c :: cur) body) as [pre Hpre]; [lia|].
        exists pre. exact Hpre.
Qed.

Lemma splitlines_after_nl (s body : str) :
  exists pre, splitlines (s ++ nl ++ body) = pre ++ splitlines body.
Proof.
  unfold splitlines, nl. cbn [app].
  exact (splitlines_acc_after_nl (List.length s) s [] body (le_n _)).
Qed.

(** ** TOOLS.md: what the parser keeps *)

(** The step of the loop of [_parse_tools_md]. *)
Lemma parse_tools_md_fold (content : str) :
  _parse_tools_md content
  = fold_left
      (fun values raw =>
         let line := strip raw in
         if negb (nonempty line) || startswith (lit "#") line then values
         else
           match _TOOLS_KV_RE_match line with
           | None => values
           | Some (key, value) => values_set key (strip value) values
           end)
      (splitlines content) [].
Proof. reflexivity. Qed.

(** What the loop makes of a line [key=value]. *)
Lemma assignment_line (key value : str) :
  key <> [] -> forallb is_key_char key = true ->
  let line := strip (key ++ lit "=" ++ value) in
  (negb (nonempty line) || startswith (lit "#") line) = false
  /\ exists rest, _TOOLS_KV_RE_match line = Some (key, rest)
                  /\ strip rest = strip value.
Proof.
  intros Hne Hkey. destruct key as [|k key]; [contradiction|]. clear Hne.
  cbn [forallb] in Hkey. apply andb_true_iff in Hkey. destruct Hkey as [Hk Hkey].
  destruct (key_char_not_hash k Hk) as [Hhash [Hspace _]].
  cbv zeta. unfold strip. cbn [app].
  rewrite strip_by_kept_head by exact Hspace. split.
  - cbn [nonempty negb orb startswith lit list_ascii_of_string].
    rewrite Hhash. reflexivity.
  - assert (Hr : rstrip_by is_space (key ++ lit "=" ++ value)
                 = key ++ "="%char :: rstrip_by is_space value).
    { destruct (rstrip_by_dropped is_space value) as [d [Hd Hp]].
      rewrite Hd at 1.
      replace (key ++ lit "=" ++ rstrip_by is_space value ++ d)
        with ((key ++ "="%char :: rstrip_by is_space value) ++ d)
        by (rewrite <- app_assoc; reflexivity).
      rewrite rstrip_by_app_dropped by exact Hp.
      destruct (exists_last (l := key ++ "="%char :: rstrip_by is_space value))
        as [f [z Hz]]; [destruct key; discriminate|].
      rewrite Hz. apply rstrip_by_keeps.
      destruct (exists_last (l := "="%char :: rstrip_by is_space value))
        as [f' [z' Hz']]; [discriminate|].
      rewrite Hz', app_assoc in Hz. apply app_inj_tail in Hz.
      destruct Hz as [_ <-].
      destruct f' as [|x f']; cbn in Hz'.
      - injection Hz' as <- _. reflexivity.
      - injection Hz' as _ Hz'. exact (rstrip_by_last Hz'). }
    rewrite Hr. exists (rstrip_by is_space value). split.
    + unfold _TOOLS_KV_RE_match.
      change (k :: key ++ "="%char :: rstrip_by is_space value)
        with ((k :: key) ++ "="%char :: rstrip_by is_space value).
      rewrite span_app; [reflexivity | | reflexivity].
      cbn [forallb]. rewrite Hk, Hkey. reflexivity.
    + apply strip_by_rstrip.
Qed.

Lemma assignment_line_unbroken (key value : str) :
  forallb is_key_char key = true ->
  forallb (fun c => negb (is_linebreak c)) value = true ->
  forallb (fun c => negb (is_linebreak c)) (key ++ lit "=" ++ value) = true.
Proof.
  intros Hkey Hvalue. rewrite !forallb_app. apply andb_true_iff. split;
    [|apply andb_true_iff; split; [reflexivity | exact Hvalue]].
  apply forallb_forall. intros c Hc.
  rewrite forallb_forall in Hkey. specialize (Hkey c Hc).
  revert Hkey. clear. ascii_cases c.
Qed.

(** The fold of [_parse_tools_md] over lines that end with an assignment. *)
Lemma assignment_after_lines (key value : str) (pre : list str) :
  key <> [] ->
  forallb is_key_char key = true ->
  values_get key
    (fold_left
       (fun values raw =>
          let line := strip raw in
          if negb (nonempty line) || startswith (lit "#") line then values
          else
            match _TOOLS_KV_RE_match line with
            | None => values
            | Some (key, value) => values_set key (strip value) values
            end)
       (pre ++ [key ++ lit "=" ++ value]) [])
  = Some (strip value).
Proof.
  intros Hne Hkey.
  destruct (assignment_line key value Hne Hkey) as [Hguard [rest [Hm Hrest]]].
  rewrite fold_left_app. cbn [fold_left]. cbv zeta.
  rewrite Hguard, Hm, Hrest, values_get_set, str_eqb_refl. reflexivity.
Qed.

Lemma last_assignment_closed (content key value : str) :
  key <> [] ->
  forallb is_key_char key = true ->
  forallb (fun c => negb (is_linebreak c)) value = true ->
  values_get key
    (_parse_tools_md (content ++ nl ++ (key ++ lit "=" ++ value) ++ nl))
  = Some (strip value).
Proof.
  intros Hne Hkey Hvalue.
  pose proof (assignment_line_unbroken key value Hkey Hvalue) as Hline.
  pose proof (fun pre => assignment_after_lines key value pre Hne Hkey)
    as Hstep.
  set (line := key ++ lit "=" ++ value) in *. clearbody line.
  rewrite parse_tools_md_fold.
  destruct (splitlines_after_nl content (line ++ nl)) as [pre ->].
  unfold splitlines at 1, nl. rewrite splitlines_acc_line_nl by exact Hline.
  cbn [rev app]. apply Hstep.
Qed.

(** X5. The last assignment of a TOOLS.md document wins: when the document
    ends with a line [KEY=value] (with or without a final line feed), the
    parsed dict maps KEY to the value without the blanks around it, whatever
    the lines before it say. *)
Theorem parse_tools_md_last_assignment_wins (content key value : str) :
  key <> [] ->
  forallb is_key_char key = true ->
  forallb (fun c => negb (is_linebreak c)) value = true ->
  values_get key (_parse_tools_md (content ++ nl ++ key ++ lit "=" ++ value))
  = Some (strip value)
  /\ values_get key
       (_parse_tools_md (content ++ nl ++ (key ++ lit "=" ++ value) ++ nl))
     = Some (strip value).
Proof.
  intros Hne Hkey Hvalue.
  split; [|exact (last_assignment_closed content key value Hne Hkey Hvalue)].
  pose proof (assignment_line_unbroken key value Hkey Hvalue) as Hline.
  pose proof (fun pre => assignment_after_lines key value pre Hne Hkey)
    as Hstep.
  assert (Hnonempty : key ++ lit "=" ++ value <> [])
    by (destruct key; [contradiction | discriminate]).
  set (line := key ++ lit "=" ++ value) in *. clearbody line.
  rewrite parse_tools_md_fold.
  destruct (splitlines_after_nl content line) as [pre ->].
  unfold splitlines at 1. rewrite splitlines_acc_line by exact Hline.
  cbn [rev app]. destruct line; [contradiction|]. apply Hstep.
Qed.

Lemma parse_tools_md_last_assignment_wins_witness :
  values_get (lit "AUTH_TOKEN")
    (_parse_tools_md
       (lit "# tools" ++ nl ++ lit "AUTH_TOKEN=old" ++ nl
        ++ lit "AUTH_TOKEN" ++ lit "=" ++ lit " new "))
  = Some (lit "new").
Proof.
  refine (proj1 (parse_tools_md_last_assignment_wins
                   (lit "# tools" ++ nl ++ lit "AUTH_TOKEN=old")
                   (lit "AUTH_TOKEN") (lit " new ") _ _ _));
    [discriminate | reflexivity | reflexivity].
Defined.

Lemma values_set_keys (key value : str) (values : list (str * str)) :
  map fst (values_set key value values)
  = if existsb (str_eqb key) (map fst values) then map fst values
    else map fst values ++ [key].
Proof.
  induction values as [|[k v] values IH]; cbn [values_set map existsb fst];
    [reflexivity|].
  destruct (str_eqb k key) eqn:E.
  - apply str_eqb_eq in E. subst k. rewrite str_eqb_refl. reflexivity.
  - assert (E' : str_eqb key k = false).
    { destruct (str_eqb key k) eqn:E'; [|reflexivity].
      apply str_eqb_eq in E'. subst k. rewrite str_eqb_refl in E.
      discriminate. }
    rewrite E'. cbn [orb map fst]. rewrite IH.
    destruct (existsb (str_eqb key) (map fst values)); reflexivity.
Qed.

Lemma values_set_entries (P : str * str -> Prop) (key value : str)
    (values : list (str * str)) :
  P (key, value) -> Forall P values ->
  Forall P (values_set key value values).
Proof.
  intros Hnew Hall. induction Hall as [|[k v] values Hx Hall IH];
    cbn [values_set].
  - constructor; [exact Hnew | constructor].
  - destruct (str_eqb k key) eqn:E.
    + apply str_eqb_eq in E. subst k. constructor; assumption.
    + constructor; assumption.
Qed.

Lemma regex_match_key (line key value : str) :
  _TOOLS_KV_RE_match line = Some (key, value) ->
  key <> [] /\ forallb is_key_char key = true
  /\ line = key ++ lit "=" ++ value.
Proof.
  unfold _TOOLS_KV_RE_match. destruct (span is_key_char line) as [a b] eqn:E.
  apply span_spec in E. destruct E as [-> Ha].
  destruct a as [|c a]; [discriminate|].
  destruct b as [|x b]; [discriminate|].
  destruct (Ascii.eqb_spec x "="%char) as [->|Hx].
  - intros H. injection H as <- <-. repeat split; [discriminate | exact Ha].
  - intros H. exfalso. revert H.
    destruct x as [[] [] [] [] [] [] [] []]; try discriminate.
    contradiction.
Qed.

(** X6. Every entry of the dict made by [_parse_tools_md] has a non-empty
    key of the characters A-Z, 0-9 and underscore and a value with no blanks
    at either end, and no key occurs twice - whatever the document. *)
Theorem parse_tools_md_entries_wellformed (content : str) :
  Forall wellformed_entry (_parse_tools_md content)
  /\ NoDup (map fst (_parse_tools_md content)).
Proof.
  rewrite parse_tools_md_fold.
  assert (H : forall lines acc,
    Forall wellformed_entry acc /\ NoDup (map fst acc) ->
    Forall wellformed_entry
      (fold_left
         (fun values raw =>
            let line := strip raw in
            if negb (nonempty line) || startswith (lit "#") line then values
            else
              match _TOOLS_KV_RE_match line with
              | None => values
              | Some (key, value) => values_set key (strip value) values
              end) lines acc)
    /\ NoDup
         (map fst
            (fold_left
               (fun values raw =>
                  let line := strip raw in
                  if negb (nonempty line) || startswith (lit "#") line
                  then values
                  else
                    match _TOOLS_KV_RE_match line with
                    | None => values
                    | Some (key, value) => values_set key (strip value) values
                    end) lines acc))).
  { induction lines as [|raw lines IH]; intros acc Hacc; [exact Hacc|].
    cbn [fold_left]. apply IH. cbv zeta.
    destruct (negb (nonempty (strip raw)) || startswith (lit "#") (strip raw));
      [exact Hacc|].
    destruct (_TOOLS_KV_RE_match (strip raw)) as [[key value]|] eqn:E;
      [|exact Hacc].
    destruct (regex_match_key _ _ _ E) as [Hne [Hkey _]].
    destruct Hacc as [Hall Hnd]. split.
    - apply values_set_entries; [|exact Hall].
      repeat split; [exact Hne | exact Hkey | apply strip_by_idem].
    - rewrite values_set_keys.
      destruct (existsb (str_eqb key) (map fst acc)) eqn:Ex; [exact Hnd|].
      apply NoDup_app; [exact Hnd | repeat constructor; intros [] | ].
      intros k Hk [->|[]].
      assert (existsb (str_eqb k) (map fst acc) = true).
      { apply existsb_exists. exists k. split;
          [exact Hk | apply str_eqb_refl]. }
      congruence. }
  apply H. split; constructor.
Qed.

(** ** Generated tokens *)

(** X7. A token made by [generate_agent_token] from 32 random bytes has 43
    characters, all of them letters, digits, hyphens or underscores; written
    into a TOOLS.md document as its last [AUTH_TOKEN=] line it is read back
    unchanged by the token reader of the sync. *)
Theorem generated_token_survives_tools_md (env : Env) (st : State)
    (content : str) :
  List.length (secrets_token_bytes env (tick (world st)) 32) = 32%nat ->
  exists st' token,
    generate_agent_token env st = (st', Val token)
    /\ List.length token = 43%nat
    /\ forallb is_urlsafe_char token = true
    /\ auth_token_of
         (Some (content ++ nl ++ lit "AUTH_TOKEN=" ++ token ++ nl))
       = Some token.
Proof.
  intros Hlen.
  exists (set_world st (mkWorld (clock (world st)) (S (tick (world st)))
                                (requests (world st)))),
         (_b64encode (secrets_token_bytes env (tick (world st)) 32)).
  split; [reflexivity|].
  pose proof (b64encode_urlsafe_chars
                (secrets_token_bytes env (tick (world st)) 32)) as Hchars.
  pose proof (b64encode_of_32_bytes _ Hlen) as Hl.
  set (token := _b64encode (secrets_token_bytes env (tick (world st)) 32)) in *.
  clearbody token. split; [exact Hl|]. split; [exact Hchars|].
  assert (Hplain : forall c, In c token -> is_plain_char c = true).
  { intros c Hc. apply urlsafe_char_plain.
    rewrite forallb_forall in Hchars. exact (Hchars c Hc). }
  assert (Hstrip : strip token = token).
  { apply strip_by_none. apply forallb_forall. intros c Hc.
    specialize (Hplain c Hc). unfold is_plain_char in Hplain.
    apply andb_true_iff in Hplain. exact (proj1 Hplain). }
  assert (Hget :
    values_get (lit "AUTH_TOKEN")
      (_parse_tools_md
         (content ++ nl ++ (lit "AUTH_TOKEN" ++ lit "=" ++ token) ++ nl))
    = Some (strip token)).
  { apply last_assignment_closed; [discriminate | reflexivity |].
    apply forallb_forall. intros c Hc. specialize (Hplain c Hc).
    unfold is_plain_char in Hplain. apply andb_true_iff in Hplain.
    exact (proj2 Hplain). }
  change (content ++ nl ++ lit "AUTH_TOKEN=" ++ token ++ nl)
    with (content ++ nl ++ (lit "AUTH_TOKEN" ++ lit "=" ++ token) ++ nl).
  unfold auth_token_of.
  destruct (content ++ nl ++ (lit "AUTH_TOKEN" ++ lit "=" ++ token) ++ nl)
    as [|c0 tools] eqn:E.
  { destruct content; discriminate. }
  rewrite Hget, Hstrip.
  destruct token as [|t0 token]; [discriminate|].
  rewrite Hstrip. reflexivity.
Qed.

Lemma generated_token_survives_tools_md_witness :
  exists st' token,
    generate_agent_token quiet_env idle_state = (st', Val token)
    /\ List.length token = 43%nat
    /\ forallb is_urlsafe_char token = true
    /\ auth_token_of
         (Some (lit "# tools" ++ nl ++ lit "AUTH_TOKEN=" ++ token ++ nl))
       = Some token.
Proof.
  apply (generated_token_survives_tools_md quiet_env idle_state
           (lit "# tools")).
  reflexivity.
Defined.

(** ** Session keys and gateway identities *)

Lemma slug_plain (value : str) :
  Forall (fun c => is_space c = false /\ is_linebreak c = false
                   /\ Ascii.eqb c ":" = false) (slug_of value).
Proof.
  destruct (slug_of_shaped value) as [Hchars _].
  apply Forall_impl with (2 := Hchars). intros c. apply slug_char_plain.
Qed.

Lemma built_key_segments (slug : str) :
  Forall (fun c => is_space c = false /\ is_linebreak c = false
                   /\ Ascii.eqb c ":" = false) slug ->
  let key := lit "agent:" ++ slug ++ lit ":main" in
  split ":" key = [lit "agent"; slug; lit "main"]
  /\ strip key = key
  /\ strip slug = slug
  /\ startswith (lit "agent:") key = true.
Proof.
  intros Hslug. cbv zeta. repeat split.
  - change (lit "agent:" ++ slug ++ lit ":main")
      with (lit "agent" ++ ":"%char :: (slug ++ ":"%char :: lit "main")).
    rewrite split_app_sep by (repeat constructor).
    rewrite split_app_sep.
    + reflexivity.
    + apply Forall_impl with (2 := Hslug). intros c [_ [_ H]]. exact H.
  - unfold strip.
    assert (Heq : lit "agent:" ++ slug ++ lit ":main"
                  = "a"%char :: (lit "gent:" ++ slug ++ lit ":mai")
                                ++ ["n"%char]).
    { change (lit "agent:" ++ slug ++ lit ":main")
        with ("a"%char :: lit "gent:" ++ slug ++ lit ":mai" ++ ["n"%char]).
      rewrite <- !app_assoc. reflexivity. }
    rewrite Heq, strip_by_kept_head by reflexivity.
    rewrite rstrip_by_keeps by reflexivity. reflexivity.
  - apply strip_by_none. apply forallb_forall. intros c Hc.
    rewrite Forall_forall in Hslug. destruct (Hslug c Hc) as [-> _].
    reflexivity.
Qed.

(** X8. The session key given to a new agent leads back to the agent's
    slug. For a name with at least one letter or digit,
    [_build_session_key] gives "agent:<slug>:main" without drawing a random
    identifier; [_agent_id_from_session_key] reads the slug out of that key;
    and [_gateway_agent_id] gives the slug for every agent that carries the
    key, whatever name the agent has by then. *)
Theorem session_key_round_trip (env : Env) (name : str) (st : State) :
  slug_of name <> [] ->
  let key := lit "agent:" ++ slug_of name ++ lit ":main" in
  _build_session_key env name st = (st, Val key)
  /\ _agent_id_from_session_key (Some key) = Some (slug_of name)
  /\ (forall agent st',
        openclaw_session_id agent = Some key ->
        _gateway_agent_id env agent st' = (st', Val (slug_of name))).
Proof.
  intros Hne. cbv zeta.
  destruct (built_key_segments (slug_of name) (slug_plain name))
    as [Hsplit [Hstrip [Hslug Hstart]]].
  assert (Hn : nonempty (slug_of name) = true)
    by (destruct (slug_of name); [contradiction | reflexivity]).
  repeat split.
  - unfold _build_session_key, _slugify, bind. rewrite Hn. reflexivity.
  - unfold _agent_id_from_session_key.
    change (opt_or (Some (lit "agent:" ++ slug_of name ++ lit ":main")) [])
      with (lit "agent:" ++ slug_of name ++ lit ":main").
    rewrite Hstrip, Hstart, Hsplit. cbn [nonempty negb List.length Nat.ltb
      Nat.leb SESSION_KEY_PARTS_MIN nth app lit list_ascii_of_string].
    rewrite Hslug, Hn. reflexivity.
  - intros agent st' Hkey. unfold _gateway_agent_id. rewrite Hkey.
    change (opt_or (Some (lit "agent:" ++ slug_of name ++ lit ":main")) [])
      with (lit "agent:" ++ slug_of name ++ lit ":main").
    rewrite Hstart, Hsplit. cbn [List.length Nat.leb SESSION_KEY_PARTS_MIN nth
      andb]. rewrite Hn. reflexivity.
Qed.

Lemma session_key_round_trip_witness :
  _build_session_key quiet_env (lit "Ada Lovelace!!") idle_state
  = (idle_state, Val (lit "agent:ada-lovelace:main"))
  /\ _agent_id_from_session_key (Some (lit "agent:ada-lovelace:main"))
     = Some (lit "ada-lovelace").
Proof.
  refine (let H := session_key_round_trip quiet_env (lit "Ada Lovelace!!")
                     idle_state _ in
          conj (proj1 H) (proj1 (proj2 H))).
  vm_compute. discriminate.
Defined.

Lemma stripped_text_clean (x : option json) (s : str) :
  stripped_text x = Some s -> s <> [] /\ strip s = s.
Proof.
  unfold stripped_text. destruct x as [[| | |t| |]|]; try discriminate.
  destruct (strip t) as [|c r] eqn:E; [discriminate|].
  intros H. injection H as <-. split; [discriminate|].
  rewrite <- E. apply strip_by_idem.
Qed.

Lemma first_some_found {A B : Type} (f : A -> option B) (l : list A) (y : B) :
  first_some f l = Some y -> exists x, In x l /\ f x = Some y.
Proof.
  induction l as [|x l IH]; cbn [first_some]; [discriminate|].
  destruct (f x) as [y'|] eqn:E.
  - intros H. injection H as <-. exists x. split; [left; reflexivity | exact E].
  - intros H. destruct (IH H) as [x' [Hin Hx']]. exists x'.
    split; [right; exact Hin | exact Hx'].
Qed.

Lemma from_list_clean (items : option json) (s : str) :
  _from_list items = Some s -> s <> [] /\ strip s = s.
Proof.
  unfold _from_list. destruct items as [[| | | |l|]|]; try discriminate.
  intros H. apply first_some_found in H. destruct H as [item [_ H]].
  destruct item as [| | |t|l'|fields]; try discriminate.
  - exact (stripped_text_clean _ _ H).
  - apply first_some_found in H. destruct H as [key [_ H]].
    exact (stripped_text_clean _ _ H).
Qed.

Lemma extract_agent_id_clean (payload : json) (s : str) :
  _extract_agent_id payload = Some s -> s <> [] /\ strip s = s.
Proof.
  unfold _extract_agent_id. destruct payload as [| | | |l|fields];
    try discriminate.
  - apply from_list_clean.
  - destruct (first_some _ _) as [raw|] eqn:E.
    + intros H. injection H as <-. apply first_some_found in E.
      destruct E as [key [_ E]]. exact (stripped_text_clean _ _ E).
    + intros H. apply first_some_found in H. destruct H as [key [_ H]].
      exact (from_list_clean _ _ H).
Qed.

Lemma agent_id_from_session_key_clean (key : option str) (s : str) :
  _agent_id_from_session_key key = Some s -> s <> [] /\ strip s = s.
Proof.
  unfold _agent_id_from_session_key.
  repeat match goal with
         | |- context [if ?b then None else _] => destruct b; [discriminate|]
         end.
  match goal with
  | |- context [strip ?seg] => destruct (strip seg) as [|c r] eqn:E
  end; [discriminate|].
  intros H. injection H as <-. split; [discriminate|].
  rewrite <- E. apply strip_by_idem.
Qed.

(** X9. What [_agent_id_from_session_key] reads from a session key. With
    the blanks around the key removed, the result is the second
    colon-delimited segment without its own blanks, provided the key starts
    with "agent:" and that segment is not blank; in every other case - no
    key, a blank key, another prefix, a blank segment - it is [None]. The
    segment count never decides: a key with the prefix always has two
    segments. An identifier that is returned is never empty and has no
    blanks at either end. *)
Theorem agent_id_from_session_key_spec (session_key : option str) :
  let value := strip (opt_or session_key []) in
  _agent_id_from_session_key session_key
  = (if startswith (lit "agent:") value
        && nonempty (strip (second_segment value))
     then Some (strip (second_segment value)) else None)
  /\ (forall agent_id,
        _agent_id_from_session_key session_key = Some agent_id ->
        agent_id <> [] /\ strip agent_id = agent_id).
Proof.
  cbv zeta. split; [|intros s; apply agent_id_from_session_key_clean].
  unfold _agent_id_from_session_key, second_segment.
  destruct (startswith (lit "agent:") (strip (opt_or session_key []))) eqn:Hs.
  - assert (Hlt : (List.length (split ":" (strip (opt_or session_key [])))
                   <? SESSION_KEY_PARTS_MIN)%nat = false).
    { pose proof (agent_prefix_has_two_segments Hs) as H.
      apply Nat.leb_le in H. apply Nat.ltb_ge. exact H. }
    rewrite Hlt.
    destruct (strip (opt_or session_key [])) as [|c r]; [discriminate|].
    reflexivity.
  - cbn [negb andb].
    destruct (negb (nonempty (strip (opt_or session_key [])))); reflexivity.
Qed.

(** X10. An agent id that [_extract_agent_id] reads from a gateway payload
    is never empty and has no blanks at either end. In a dict payload a
    usable [defaultId] is returned whatever else the payload lists; a
    payload that is neither a list nor a dict gives [None]. *)
Theorem extract_agent_id_clean_and_ordered :
  (forall payload agent_id,
      _extract_agent_id payload = Some agent_id ->
      agent_id <> [] /\ strip agent_id = agent_id)
  /\ (forall fields raw,
        dict_get (lit "defaultId") fields = Some (JStr raw) ->
        strip raw <> [] ->
        _extract_agent_id (JDict fields) = Some (strip raw))
  /\ (forall fields,
        (forall key, In key [lit "defaultId"; lit "default_id";
                             lit "defaultAgentId"; lit "default_agent_id"] ->
                     stripped_text (dict_get key fields) = None) ->
        _extract_agent_id (JDict fields)
        = first_some (fun key => _from_list (dict_get key fields))
                     [lit "agents"; lit "items"; lit "list"; lit "data"])
  /\ (forall payload,
        (forall items, payload <> JList items) ->
        (forall fields, payload <> JDict fields) ->
        _extract_agent_id payload = None).
Proof.
  split; [exact extract_agent_id_clean|]. split; [|split].
  - intros fields raw Hget Hne. unfold _extract_agent_id.
    cbn [first_some]. rewrite Hget. cbn [stripped_text].
    destruct (strip raw); [contradiction | reflexivity].
  - intros fields Hnone. unfold _extract_agent_id. cbn [first_some].
    rewrite !Hnone by (cbn; tauto). reflexivity.
  - intros payload Hl Hd. destruct payload; try reflexivity.
    + exfalso. exact (Hl _ eq_refl).
    + exfalso. exact (Hd _ eq_refl).
Qed.

(** ** How computations end *)

Lemma ensures_ret {A : Type} (F : exn -> Prop) (V : A -> Prop) (a : A) :
  V a -> ensures F V (ret a).
Proof. intros H st. exact H. Qed.

Lemma ensures_raise {A : Type} (F : exn -> Prop) (V : A -> Prop) (e : exn) :
  F e -> ensures F V (@raise A e).
Proof. intros H st. exact H. Qed.

Lemma ensures_bind {A B : Type} (F : exn -> Prop) (V : A -> Prop)
    (W : B -> Prop) (c : M A) (k : A -> M B) :
  ensures F V c -> (forall a, V a -> ensures F W (k a)) ->
  ensures F W (bind c k).
Proof.
  intros Hc Hk st. specialize (Hc st). unfold bind.
  destruct (c st) as [st' [a|e|]]; cbn [snd outcome_is] in *.
  - exact (Hk a Hc st').
  - exact Hc.
  - exact I.
Qed.

Lemma ensures_catch {A : Type} (F' F : exn -> Prop) (V : A -> Prop)
    (c : M A) (h : exn -> option (M A)) :
  ensures F' V c ->
  (forall e, F' e ->
     match h e with
     | Some handler => ensures F V handler
     | None => F e
     end) ->
  ensures F V (catch c h).
Proof.
  intros Hc Hh st. specialize (Hc st). unfold catch.
  destruct (c st) as [st' [a|e|]]; cbn [snd outcome_is] in *.
  - exact Hc.
  - specialize (Hh e Hc). destruct (h e) as [handler|].
    + exact (Hh st').
    + exact Hh.
  - exact I.
Qed.

Lemma ensures_weaken {A : Type} (F F' : exn -> Prop) (V V' : A -> Prop)
    (c : M A) :
  ensures F V c -> (forall e, F e -> F' e) -> (forall a, V a -> V' a) ->
  ensures F' V' c.
Proof.
  intros Hc HF HV st. specialize (Hc st).
  destruct (snd (c st)); cbn [outcome_is] in *; auto.
Qed.

Lemma ensures_any {A : Type} (c : M A) : ensures any_exn any_value c.
Proof. intros st. destruct (snd (c st)); exact I. Qed.

Lemma ensures_lift {A : Type} (F : exn -> Prop) (V : A -> Prop)
    (x : outcome A) :
  match x with Ret a => V a | Raise e => F e end -> ensures F V (lift x).
Proof. intros H st. destruct x; exact H. Qed.

Lemma ensures_perform_total {A : Type} (F : exn -> Prop) (op : Op A) :
  (forall w, exists a, snd (op w) = Ret a) ->
  ensures F any_value (perform op).
Proof.
  intros H st. unfold perform. destruct (H (world st)) as [a Ha].
  destruct (op (world st)) as [w [a'|e]]; cbn in *; [exact I | discriminate].
Qed.

(** The backoff driver lets no transient gateway error out: what it raises
    is its own timeout or an exception of the operation that is not a
    transient gateway error. *)
Lemma run_loop_raises (env : Env) {A : Type} (fuel : nat) (fn : Op A)
    (deadline_s : Q) :
  ensures (fun e => _is_transient_gateway_error e = false) any_value
          (run_loop env fuel fn deadline_s).
Proof.
  induction fuel as [|fuel IH]; intros st; [exact I|].
  rewrite run_loop_S. destruct (fn (world st)) as [w1 [v|exc]]; [exact I|].
  destruct exc as [m|m|m|m|m|m|m]; try reflexivity.
  destruct (negb (_is_transient_gateway_error (OpenClawGatewayError m))) eqn:E.
  - cbn [snd outcome_is]. apply negb_true_iff in E. exact E.
  - destruct (Qle_bool _ _); [reflexivity|]. apply IH.
Qed.

(** ** Backoff driver: how a run ends *)

Lemma backoff_retry_state (env : Env) (st : State) (w1 : World)
    (deadline_s : Q) :
  backoff (retry_state env st w1 deadline_s)
  = set_delay (backoff st) (next_delay_s (backoff st)).
Proof.
  unfold retry_state. destruct (Qeq_bool (_jitter (backoff st)) 0);
    reflexivity.
Qed.

Lemma run_loop_outcomes (env : Env) {A : Type} (fn : Op A) (deadline_s : Q)
    (fuel : nat) :
  forall st,
    same_config (backoff (fst (run_loop env fuel fn deadline_s st)))
                (backoff st)
    /\ match snd (run_loop env fuel fn deadline_s st) with
       | Val v =>
           _delay_s (backoff (fst (run_loop env fuel fn deadline_s st)))
           = _base_delay_s (backoff st)
           /\ exists w,
                fn w = (world (fst (run_loop env fuel fn deadline_s st)), Ret v)
       | Exn e =>
           _is_transient_gateway_error e = false
           /\ ((exists w,
                  fn w = (world (fst (run_loop env fuel fn deadline_s st)),
                          Raise e))
               \/ exists exc w,
                    e = TimeoutError (_gateway_timeout_message exc)
                    /\ _is_transient_gateway_error exc = true
                    /\ fn w = (world (fst (run_loop env fuel fn deadline_s st)),
                               Raise exc))
       | OutOfFuel => True
       end.
Proof.
  induction fuel as [|fuel IH]; intros st.
  - cbn. repeat split.
  - rewrite run_loop_S. destruct (fn (world st)) as [w1 [v|exc]] eqn:Hfn.
    + cbn. repeat split. exists (world st). exact Hfn.
    + assert (Hplain : forall e, _is_transient_gateway_error e = false ->
        fn (world st) = (w1, Raise e) ->
        same_config (backoff (fst (set_world st w1, @Exn A e))) (backoff st)
        /\ match snd (set_world st w1, @Exn A e) with
           | Val v => False
           | Exn e' =>
               _is_transient_gateway_error e' = false
               /\ ((exists w, fn w = (world (fst (set_world st w1, @Exn A e)),
                                      Raise e'))
                   \/ exists exc w,
                        e' = TimeoutError (_gateway_timeout_message exc)
                        /\ _is_transient_gateway_error exc = true
                        /\ fn w = (world (fst (set_world st w1, @Exn A e)),
                                   Raise exc))
           | OutOfFuel => True
           end).
      { intros e He Hw. cbn. repeat split; [exact He|].
        left. exists (world st). exact Hw. }
      destruct exc as [m|m|m|m|m|m|m];
        try (match type of Hfn with
             | _ = (_, Raise ?e) =>
                 destruct (Hplain e eq_refl Hfn) as [H1 H2]
             end; split; [exact H1 | exact H2]).
      destruct (negb (_is_transient_gateway_error (OpenClawGatewayError m)))
        eqn:E.
      * apply negb_true_iff in E.
        destruct (Hplain _ E Hfn) as [H1 H2]. split; [exact H1 | exact H2].
      * apply negb_false_iff in E.
        destruct (Qle_bool (deadline_s - clock w1) 0).
        -- cbn. repeat split. right.
           exists (OpenClawGatewayError m), (world st).
           repeat split; [exact E | exact Hfn].
        -- specialize (IH (retry_state env st w1 deadline_s)).
           rewrite backoff_retry_state in IH.
           destruct IH as [Hcfg Hres]. split.
           ++ destruct Hcfg as [H1 [H2 [H3 H4]]].
              repeat split; assumption.
           ++ exact Hres.
Qed.

(** X11. How [_GatewayBackoff.run] ends, for every operation and every
    environment. A value it returns is the value of its last attempt, and
    the delay is then back at the base delay. An exception it raises is
    never a transient gateway error: it is the exception of the last attempt
    when that is not a transient gateway error, or the driver's
    [TimeoutError] carrying the text of the transient error of the last
    attempt. Timeout, base delay, maximum delay and jitter are the same
    after the run as before. *)
Theorem backoff_run_outcomes (env : Env) (A : Type) (fuel : nat) (fn : Op A)
    (st : State) :
  same_config (backoff (fst (run env fuel fn st))) (backoff st)
  /\ (forall st' v,
        run env fuel fn st = (st', Val v) ->
        _delay_s (backoff st') = _base_delay_s (backoff st)
        /\ exists w, fn w = (world st', Ret v))
  /\ (forall st' e,
        run env fuel fn st = (st', Exn e) ->
        _is_transient_gateway_error e = false
        /\ ((exists w, fn w = (world st', Raise e))
            \/ exists exc w,
                 e = TimeoutError (_gateway_timeout_message exc)
                 /\ _is_transient_gateway_error exc = true
                 /\ fn w = (world st', Raise exc))).
Proof.
  rewrite run_unfold.
  pose proof (run_loop_outcomes env fn
                (clock (world st) + _timeout_s (backoff st)) fuel st)
    as [Hcfg Hres].
  split; [exact Hcfg|]. split.
  - intros st' v Hrun. rewrite Hrun in Hres. exact Hres.
  - intros st' e Hrun. rewrite Hrun in Hres. exact Hres.
Qed.

(** ** Agent resolver: gateway errors stay inside *)

Lemma auth_token_of_clean (tools : option str) (token : str) :
  auth_token_of tools = Some token -> token <> [] /\ strip token = token.
Proof.
  intros H. split; [exact (auth_token_of_nonempty tools token H)|].
  revert H. unfold auth_token_of.
  destruct tools as [[|c tools]|]; try discriminate.
  destruct (values_get _ _) as [[|c' t]|]; try discriminate.
  destruct (nonempty (strip (c' :: t))); [|discriminate].
  intros H. injection H as <-. apply strip_by_idem.
Qed.

Section ResolverOutcomes.

Variable env : Env.
Variable fuel : nat.
Variable config : GatewayClientConfig.
Variable with_backoff : bool.

Lemma get_agent_file_outcomes (gid name : str) :
  ensures (not_in is_gateway_error) any_value
          (_get_agent_file env fuel gid name config with_backoff).
Proof.
  unfold _get_agent_file.
  apply ensures_catch with (F' := any_exn); [apply ensures_any|].
  intros e _. destruct e; try reflexivity.
  apply ensures_ret. exact I.
Qed.

Lemma get_existing_auth_token_outcomes (gid : str) :
  ensures (not_in is_gateway_error)
          (fun token => forall t, token = Some t -> t <> [] /\ strip t = t)
          (_get_existing_auth_token env fuel gid config with_backoff).
Proof.
  unfold _get_existing_auth_token.
  eapply ensures_bind; [apply get_agent_file_outcomes|].
  intros tools _. apply ensures_ret. intros t Ht.
  exact (auth_token_of_clean tools t Ht).
Qed.

Lemma gateway_default_agent_id_outcomes (key : option str) :
  ensures (not_in is_gateway_error)
          (fun found => forall id, found = Some id -> id <> [] /\ strip id = id)
          (_gateway_default_agent_id env fuel config key with_backoff).
Proof.
  unfold _gateway_default_agent_id.
  eapply ensures_bind
    with (V := fun found =>
                 forall id, found = Some id -> id <> [] /\ strip id = id).
  - apply ensures_catch with (F' := any_exn).
    + eapply ensures_bind; [apply ensures_any|].
      intros payload _. apply ensures_ret.
      intros id. apply extract_agent_id_clean.
    + intros e _. destruct e; try reflexivity.
      apply ensures_ret. discriminate.
  - intros [agent_id|] Hfound; apply ensures_ret.
    + exact Hfound.
    + intros id. apply agent_id_from_session_key_clean.
Qed.

End ResolverOutcomes.

(** X12. The resolver keeps gateway errors to itself. [_get_agent_file],
    [_get_existing_auth_token] and [_gateway_default_agent_id] never raise
    [OpenClawGatewayError], with or without the backoff driver; a token or an
    agent id they return is never empty and has no blanks at either end.
    When the listing fails with a gateway error on a call made without the
    driver, [_gateway_default_agent_id] answers with what the fallback
    session key gives. *)
Theorem resolver_swallows_gateway_errors (env : Env) (fuel : nat)
    (config : GatewayClientConfig) (with_backoff : bool) (st : State) :
  (forall gid name st' e,
      _get_agent_file env fuel gid name config with_backoff st = (st', Exn e) ->
      is_gateway_error e = false)
  /\ (forall gid st' r,
        _get_existing_auth_token env fuel gid config with_backoff st
        = (st', r) ->
        match r with
        | Val (Some token) => token <> [] /\ strip token = token
        | Exn e => is_gateway_error e = false
        | _ => True
        end)
  /\ (forall key st' r,
        _gateway_default_agent_id env fuel config key with_backoff st
        = (st', r) ->
        match r with
        | Val (Some agent_id) => agent_id <> [] /\ strip agent_id = agent_id
        | Exn e => is_gateway_error e = false
        | _ => True
        end)
  /\ (forall key w1 msg,
        openclaw_call env (lit "agents.list") None config (world st)
        = (w1, Raise (OpenClawGatewayError msg)) ->
        _gateway_default_agent_id env fuel config key false st
        = (set_world st w1, Val (_agent_id_from_session_key key))).
Proof.
  split; [|split; [|split]].
  - intros gid name st' e H.
    pose proof (get_agent_file_outcomes env fuel config with_backoff gid name st)
      as Hout.
    rewrite H in Hout. exact Hout.
  - intros gid st' r H.
    pose proof (get_existing_auth_token_outcomes env fuel config with_backoff
                  gid st) as Hout.
    rewrite H in Hout. destruct r as [[t|]|e|]; cbn in Hout; auto.
  - intros key st' r H.
    pose proof (gateway_default_agent_id_outcomes env fuel config with_backoff
                  key st) as Hout.
    rewrite H in Hout. destruct r as [[t|]|e|]; cbn in Hout; auto.
  - intros key w1 msg H. unfold _gateway_default_agent_id, bind, catch, perform.
    rewrite H. reflexivity.
Qed.

(** ** New agents: the gateway session *)

(** X13. [_ensure_gateway_session] never raises [OpenClawGatewayError]: it
    returns the session key of the agent whether or not the gateway could be
    reached - with no error text when the call went through, and with the
    text of the gateway error when it did not. For a name with a letter or a
    digit the key is "agent:<slug>:main" and the gateway is asked exactly
    once, to patch this key with the name as label. *)
Theorem ensure_gateway_session_never_fails (env : Env)
    (default_config : GatewayClientConfig) (name : str) (st : State) :
  (forall st' e,
      _ensure_gateway_session env default_config name st = (st', Exn e) ->
      is_gateway_error e = false)
  /\ (slug_of name <> [] ->
      let key := lit "agent:" ++ slug_of name ++ lit ":main" in
      let request :=
        ReqCall (lit "sessions.patch")
                (Some (JDict [(lit "key", JStr key); (lit "label", JStr name)])) in
      exists st',
        requests (world st') = request :: requests (world st)
        /\ db st' = db st
        /\ match gateway_reply env (tick (world st)) default_config
                   (lit "sessions.patch")
                   (Some (JDict [(lit "key", JStr key);
                                 (lit "label", JStr name)])) with
           | (Ret _, _) =>
               _ensure_gateway_session env default_config name st
               = (st', Val (key, None))
           | (Raise (OpenClawGatewayError msg), _) =>
               _ensure_gateway_session env default_config name st
               = (st', Val (key, Some msg))
           | (Raise e, _) =>
               _ensure_gateway_session env default_config name st
               = (st', Exn e)
           end).
Proof.
  split.
  - intros st' e H.
    assert (Hout : ensures (not_in is_gateway_error) any_value
                     (_ensure_gateway_session env default_config name)).
    { unfold _ensure_gateway_session.
      eapply ensures_bind with (V := any_value).
      - unfold _build_session_key. eapply ensures_bind with (V := any_value).
        + unfold _slugify. destruct (nonempty (slug_of name)).
          * apply ensures_ret. exact I.
          * apply ensures_perform_total. intros w. eexists. reflexivity.
        + intros slug _. apply ensures_ret. exact I.
      - intros key _. apply ensures_catch with (F' := any_exn);
          [apply ensures_any|].
        intros e' _. destruct e'; try reflexivity. apply ensures_ret. exact I. }
    specialize (Hout st). rewrite H in Hout. exact Hout.
  - intros Hne. cbv zeta.
    assert (Hkey : _build_session_key env name st
                   = (st, Val (lit "agent:" ++ slug_of name ++ lit ":main"))).
    { assert (Hn : nonempty (slug_of name) = true)
        by (destruct (slug_of name); [contradiction | reflexivity]).
      unfold _build_session_key, _slugify, bind. rewrite Hn. reflexivity. }
    assert (Hrun : forall reply took,
      gateway_reply env (tick (world st)) default_config (lit "sessions.patch")
        (Some (JDict [(lit "key", JStr (lit "agent:" ++ slug_of name
                                        ++ lit ":main"));
                      (lit "label", JStr name)]))
      = (reply, took) ->
      _ensure_gateway_session env default_config name st
      = (set_world st
           (mkWorld (clock (world st) + took) (S (tick (world st)))
              (ReqCall (lit "sessions.patch")
                 (Some (JDict [(lit "key", JStr (lit "agent:" ++ slug_of name
                                                 ++ lit ":main"));
                               (lit "label", JStr name)]))
               :: requests (world st))),
         match reply with
         | Ret _ => Val (lit "agent:" ++ slug_of name ++ lit ":main", None)
         | Raise (OpenClawGatewayError msg) =>
             Val (lit "agent:" ++ slug_of name ++ lit ":main", Some msg)
         | Raise e => Exn e
         end)).
    { intros reply took E. unfold _ensure_gateway_session.
      unfold bind at 1. rewrite Hkey.
      unfold catch, bind, perform, openclaw_call. rewrite E.
      destruct reply as [payload|[]]; reflexivity. }
    destruct (gateway_reply env (tick (world st)) default_config
                (lit "sessions.patch") _) as [reply took] eqn:E.
    specialize (Hrun reply took eq_refl).
    eexists. split; [|split]; [| |destruct reply as [payload|[]]; exact Hrun];
      reflexivity.
Qed.

Lemma ensure_gateway_session_never_fails_witness :
  exists st',
    requests (world st')
    = ReqCall (lit "sessions.patch")
        (Some (JDict [(lit "key", JStr (lit "agent:ada:main"));
                      (lit "label", JStr (lit "Ada"))]))
      :: requests (world idle_state)
    /\ _ensure_gateway_session refusing_env example_config (lit "Ada") idle_state
       = (st', Val (lit "agent:ada:main",
                    Some (lit "[Errno 111] Connection refused"))).
Proof.
  destruct (proj2 (ensure_gateway_session_never_fails refusing_env
                     example_config (lit "Ada") idle_state))
    as [st' [Hreq [_ Hrun]]].
  - vm_compute. discriminate.
  - exists st'. split; [exact Hreq | exact Hrun].
Defined.

(** ** Re-keying *)

(** X14. Re-keying leaves the backend and the token in agreement. [rekey]
    always succeeds; the token it hands on verifies against the hash it has
    stored, so the drift check passes for the agent it returns; in the
    database the row of that agent - and no other row - is replaced, and
    only the hash and the update time of the agent differ from before. *)
Theorem rekey_stores_a_matching_hash
    (pbkdf2 : str -> bytes -> bytes -> Z -> bytes) (env : Env) (agent : Agent)
    (st : State) :
  exists st' agent' token h,
    rekey pbkdf2 env agent st = (st', Val (agent', token))
    /\ agent_token_hash agent' = Some h
    /\ verify_agent_token pbkdf2 token h = Ret true
    /\ token_drifted pbkdf2 agent' token st' = (st', Val false)
    /\ agents_tbl (db st')
       = map (fun x => if (agent_id x =? agent_id agent)%N then agent' else x)
             (agents_tbl (db st))
    /\ boards_tbl (db st') = boards_tbl (db st)
    /\ board_memory_tbl (db st') = board_memory_tbl (db st)
    /\ agent' = set_token_hash agent h (agent_updated_at agent').
Proof.
  set (token := _b64encode (secrets_token_bytes env (tick (world st)) 32)).
  set (salt := secrets_token_bytes env (S (tick (world st))) SALT_BYTES).
  set (h := lit "pbkdf2_sha256" ++ "$"%char
            :: (lit "200000" ++ "$"%char
            :: (_b64encode salt ++ "$"%char
            :: _b64encode (pbkdf2 (lit "sha256") (encode_utf8 token) salt
                             ITERATIONS)))).
  assert (Hv : verify_agent_token pbkdf2 token h = Ret true)
    by apply verify_formatted.
  eexists _, (set_token_hash agent h _), token, h.
  split; [reflexivity|]. split; [reflexivity|]. split; [exact Hv|].
  split; [|repeat split].
  unfold token_drifted, truthy_hash, truthy.
  cbn [agent_token_hash set_token_hash].
  change h with ("p"%char :: List.tl h) at 1.
  cbv iota. change ("p"%char :: List.tl h) with h.
  unfold bind, lift. rewrite Hv. reflexivity.
Qed.

(** ** Pause state: which boards can be reported *)

Lemma mem_uuid_in (x : UUID) (l : list UUID) :
  mem_uuid x l = true <-> In x l.
Proof.
  unfold mem_uuid. rewrite existsb_exists. split.
  - intros [y [Hy E]]. apply N.eqb_eq in E. subst y. exact Hy.
  - intros H. exists x. split; [exact H | apply N.eqb_refl].
Qed.

Lemma set_add_nodup (x : UUID) (s : list UUID) :
  NoDup s -> NoDup (set_add x s).
Proof.
  intros H. unfold set_add. destruct (mem_uuid x s) eqn:E; [exact H|].
  apply NoDup_app; [exact H | repeat constructor; intros [] |].
  intros y Hy [->|[]]. apply mem_uuid_in in Hy. congruence.
Qed.

Lemma paused_fold_nodup (l : list BoardMemory) (acc : list UUID) :
  NoDup acc ->
  NoDup
    (fold_left
       (fun paused row =>
          let cmd := lower (strip (opt_or (memory_content row) [])) in
          if str_eqb cmd (lit "/pause")
          then set_add (memory_board_id row) paused else paused) l acc).
Proof.
  revert acc. induction l as [|row l IH]; intros acc H; [exact H|].
  cbn [fold_left]. apply IH. cbv zeta.
  destruct (str_eqb _ _); [apply set_add_nodup|]; exact H.
Qed.

Lemma latest_commands_from_rows (rows : list BoardMemory)
    (board_ids : list UUID) (row : BoardMemory) :
  In row (latest_commands rows board_ids) ->
  In row rows /\ is_command_row board_ids row = true.
Proof.
  unfold latest_commands. intros H. apply distinct_on_board_in in H.
  apply (Permutation_in _ (Permutation_sym (order_rows_perm _))) in H.
  apply filter_In in H. exact H.
Qed.

(** X15. Which boards [_paused_board_ids] can report. A board is in the
    result only if it is among the boards asked about and has a chat row
    whose content, trimmed and lowercased, is "/pause"; no board is listed
    twice; and for an empty list of boards the result is empty whatever the
    board memory holds. *)
Theorem paused_boards_are_asked_and_commanded (rows : list BoardMemory)
    (board_ids : list UUID) :
  (forall b,
      mem_uuid b (paused_of rows board_ids) = true ->
      mem_uuid b board_ids = true
      /\ exists row,
           In row rows /\ memory_board_id row = b
           /\ memory_is_chat row = true
           /\ command_of row = lit "/pause")
  /\ NoDup (paused_of rows board_ids)
  /\ paused_of rows [] = [].
Proof.
  split; [|split; [|reflexivity]].
  - intros b H. unfold paused_of in H.
    destruct board_ids as [|b0 ids]; [discriminate|].
    rewrite paused_fold in H. cbn [mem_uuid existsb orb] in H.
    apply existsb_exists in H. destruct H as [row [Hin Hrow]].
    apply andb_true_iff in Hrow. destruct Hrow as [Hb Hpause].
    apply N.eqb_eq in Hb. subst b.
    apply latest_commands_from_rows in Hin. destruct Hin as [Hin Hcmd].
    unfold is_command_row in Hcmd.
    apply andb_true_iff in Hcmd. destruct Hcmd as [Hcmd Hcontent].
    apply andb_true_iff in Hcmd. destruct Hcmd as [Hmem Hchat].
    split; [exact Hmem|]. exists row. repeat split; try assumption.
    assert (Hc : mem_str (command_of row) commands = true).
    { unfold command_of. destruct (memory_content row) as [content|];
        [|discriminate].
      destruct content as [|c content]; [discriminate|]. exact Hcontent. }
    rewrite <- (command_read_by_loop row Hc).
    unfold reads_as_pause in Hpause. apply str_eqb_eq in Hpause. exact Hpause.
  - unfold paused_of. destruct board_ids; [constructor|].
    apply paused_fold_nodup. constructor.
Qed.

Lemma paused_boards_are_asked_and_commanded_witness :
  mem_uuid 5%N [5%N; 6%N] = true
  /\ exists row,
       In row [chat_row 5 " /Pause " 10; chat_row 7 "/pause" 20]
       /\ memory_board_id row = 5%N
       /\ memory_is_chat row = true
       /\ command_of row = lit "/pause".
Proof.
  apply (proj1 (paused_boards_are_asked_and_commanded
                  [chat_row 5 " /Pause " 10; chat_row 7 "/pause" 20]
                  [5%N; 6%N]) 5%N).
  reflexivity.
Defined.

(** ** Sync orchestrator: how a run ends and what it counts *)

Lemma a2b_loop_raises (s : str) :
  forall quad_pos leftchar pads written e,
    Base64.a2b_loop s quad_pos leftchar pads written = Raise e ->
    exists m, e = ValueError m.
Proof.
  induction s as [|c s IH]; intros quad_pos leftchar pads written e.
  - cbn [Base64.a2b_loop]. destruct quad_pos as [|[|n]]; [discriminate| |];
      intros H; injection H as <-; eexists; reflexivity.
  - cbn [Base64.a2b_loop].
    repeat match goal with
           | |- context [if ?b then _ else _] => destruct b
           | |- context [match Base64.a2b_char ?x with _ => _ end] =>
               destruct (Base64.a2b_char x)
           | |- context [match ?q with O => _ | S _ => _ end] =>
               is_var q; destruct q
           end;
      try discriminate; try (apply IH);
      unfold Base64.emit;
      match goal with
      | |- context [Base64.a2b_loop s ?q ?l ?p ?w] =>
          destruct (Base64.a2b_loop s q l p w) eqn:E; [discriminate|];
          intros H; injection H as <-; exact (IH _ _ _ _ _ E)
      end.
Qed.

Lemma b64decode_raises (value : str) (e : exn) :
  _b64decode value = Raise e -> exists m, e = ValueError m.
Proof.
  unfold _b64decode, Base64.urlsafe_b64decode, Base64.a2b_base64.
  destruct (forallb _ _).
  - apply a2b_loop_raises.
  - intros H. injection H as <-. eexists. reflexivity.
Qed.

(** What [verify_agent_token] raises is a [ValueError] or an
    [OverflowError]. *)
Lemma verify_raises_class (pbkdf2 : str -> bytes -> bytes -> Z -> bytes)
    (token stored_hash : str) (e : exn) :
  verify_agent_token pbkdf2 token stored_hash = Raise e ->
  exists m, e = ValueError m \/ e = OverflowError m.
Proof.
  unfold verify_agent_token.
  destruct (split "$" stored_hash) as [|a [|i [|s [|d [|x l]]]]];
    try discriminate.
  destruct (negb _); [discriminate|].
  destruct (Py.int i) as [n|]; [|discriminate].
  destruct (_b64decode s) as [salt|e1] eqn:Es; cbn [obind].
  2:{ intros H. injection H as <-. destruct (b64decode_raises _ _ Es) as [m ->].
      exists m. left. reflexivity. }
  destruct (_b64decode d) as [digest|e2] eqn:Ed; cbn [obind].
  2:{ intros H. injection H as <-. destruct (b64decode_raises _ _ Ed) as [m ->].
      exists m. left. reflexivity. }
  unfold pbkdf2_hmac. destruct (_ || _).
  { intros H. injection H as <-. eexists. right. reflexivity. }
  destruct (_ <? _)%Z.
  - intros H. injection H as <-. eexists. left. reflexivity.
  - destruct (_ <? _)%Z; [|discriminate].
    intros H. injection H as <-. eexists. right. reflexivity.
Qed.

Lemma ensures_state_only {A : Type} (F : exn -> Prop) (V : A -> Prop)
    (c : M A) :
  (forall st, exists st' a, c st = (st', Val a) /\ V a) -> ensures F V c.
Proof.
  intros H st. destruct (H st) as [st' [a [-> Ha]]]. exact Ha.
Qed.

Lemma grown_by_refl (r : GatewayTemplatesSyncResult) : grown_by 0 r r.
Proof.
  unfold grown_by. repeat split; try lia.
  exists []. rewrite app_nil_r. reflexivity.
Qed.

Lemma grown_by_error (n : nat) (r r' : GatewayTemplatesSyncResult)
    (e : GatewayTemplatesSyncError) :
  grown_by n r r' -> grown_by n r (add_error r' e).
Proof.
  unfold grown_by, counted. cbn [add_error agents_updated agents_skipped errors
    result_gateway_id result_include_main result_reset_sessions main_updated].
  intros [H1 [H2 [H3 [[new H4] H5]]]]. repeat split; try tauto.
  exists (new ++ [e]). rewrite H4, app_assoc. reflexivity.
Qed.

Lemma added_error_nonempty (r : GatewayTemplatesSyncResult)
    (e : GatewayTemplatesSyncError) :
  errors (add_error r e) <> [].
Proof. cbn [add_error errors]. destruct (errors r); discriminate. Qed.

Lemma grown_by_skipped (n : nat) (r r' : GatewayTemplatesSyncResult) :
  grown_by n r r' -> grown_by (S n) r (count_skipped r').
Proof.
  unfold grown_by, counted. cbn [count_skipped agents_updated agents_skipped
    errors result_gateway_id result_include_main result_reset_sessions
    main_updated].
  intros [H1 [H2 [H3 H4]]]. repeat split; try tauto; lia.
Qed.

Lemma grown_by_updated (n : nat) (r r' : GatewayTemplatesSyncResult) :
  grown_by n r r' -> grown_by (S n) r (count_updated r').
Proof.
  unfold grown_by, counted. cbn [count_updated agents_updated agents_skipped
    errors result_gateway_id result_include_main result_reset_sessions
    main_updated].
  intros [H1 [H2 [H3 H4]]]. repeat split; try tauto; lia.
Qed.

Lemma grown_by_trans (n m : nat) (a b c : GatewayTemplatesSyncResult) :
  grown_by n a b -> grown_by m b c -> grown_by (n + m) a c.
Proof.
  unfold grown_by.
  intros [H1 [H2 [H3 [[new1 H4] [H5 [H6 [H7 H8]]]]]]]
         [G1 [G2 [G3 [[new2 G4] [G5 [G6 [G7 G8]]]]]]].
  repeat split; try lia; try congruence.
  exists (new1 ++ new2). rewrite G4, H4, app_assoc. reflexivity.
Qed.

Lemma main_counted_refl (r : GatewayTemplatesSyncResult) : main_counted r r.
Proof.
  unfold main_counted. repeat split. exists []. rewrite app_nil_r.
  reflexivity.
Qed.

Lemma main_counted_error (r r' : GatewayTemplatesSyncResult)
    (e : GatewayTemplatesSyncError) :
  main_counted r r' -> main_counted r (add_error r' e).
Proof.
  unfold main_counted. cbn [add_error agents_updated agents_skipped errors
    result_gateway_id result_include_main result_reset_sessions].
  intros [H1 [H2 [[new H3] H4]]]. repeat split; try tauto.
  exists (new ++ [e]). rewrite H3, app_assoc. reflexivity.
Qed.

Lemma main_counted_set (r r' : GatewayTemplatesSyncResult) :
  main_counted r r' -> main_counted r (set_main_updated r').
Proof. unfold main_counted. cbn. tauto. Qed.

(** A step that only reads or writes the state and returns. *)
Ltac state_step :=
  apply ensures_state_only; intros ?; eexists _, _;
  split; [reflexivity | try exact I].

Lemma on_timeout_outcomes {A : Type} (V : A -> Prop) (c : M A) :
  ensures (not_in is_gateway_error) V c ->
  ensures handled_elsewhere
          (fun x => match x with inl _ => True | inr a => V a end)
          (on_timeout c).
Proof.
  intros H. unfold on_timeout.
  apply ensures_catch with (F' := not_in is_gateway_error).
  - eapply ensures_bind; [exact H|]. intros a Ha. apply ensures_ret. exact Ha.
  - intros e He. destruct e; try (split; [exact He | reflexivity]).
    apply ensures_ret. exact I.
Qed.

Section SyncOutcomes.

Variable pbkdf2 : str -> bytes -> bytes -> Z -> bytes.
Variable env : Env.
Variable fuel : nat.
Variable gateway : Gateway.
Variable user : option UUID.
Variables include_main reset_sessions rotate_tokens force_bootstrap : bool.
Variable config : GatewayClientConfig.

Lemma gateway_agent_id_outcomes (agent : Agent) :
  ensures handled_elsewhere any_value (_gateway_agent_id env agent).
Proof.
  unfold _gateway_agent_id, _slugify.
  destruct (_ && _ && _); [apply ensures_ret; exact I|].
  destruct (nonempty _); [apply ensures_ret; exact I|].
  apply ensures_perform_total. intros w. eexists. reflexivity.
Qed.

Lemma rekey_outcomes (agent : Agent) :
  ensures handled_elsewhere any_value (rekey pbkdf2 env agent).
Proof. state_step. Qed.

Lemma token_drifted_outcomes (agent : Agent) (token : str) :
  ensures handled_elsewhere any_value (token_drifted pbkdf2 agent token).
Proof.
  unfold token_drifted. destruct (truthy_hash agent) as [h|];
    [|apply ensures_ret; exact I].
  eapply ensures_bind with (V := any_value).
  - apply ensures_lift.
    destruct (verify_agent_token pbkdf2 token h) as [ok|e] eqn:E; [exact I|].
    destruct (verify_raises_class pbkdf2 token h e E) as [m [-> | ->]];
      split; reflexivity.
  - intros ok _. apply ensures_ret. exact I.
Qed.

Lemma fetch_outcomes (gid : str) :
  ensures handled_elsewhere any_value
    (on_timeout (_get_existing_auth_token env fuel gid config true)).
Proof.
  eapply ensures_weaken.
  - apply on_timeout_outcomes with (V := any_value).
    eapply ensures_weaken;
      [apply get_existing_auth_token_outcomes | auto | intros; exact I].
  - auto.
  - intros; exact I.
Qed.

Lemma sync_one_agent_outcomes (boards_by_id : list (UUID * Board))
    (paused : list UUID) (agent : Agent) (result : GatewayTemplatesSyncResult) :
  ensures handled_elsewhere (loop_counted 1 result)
    (sync_one_agent pbkdf2 env fuel gateway user reset_sessions rotate_tokens
       force_bootstrap config boards_by_id paused agent result).
Proof.
  unfold sync_one_agent.
  destruct (match agent_board_id agent with
            | Some b => boards_get b boards_by_id
            | None => None
            end) as [board|].
  2:{ apply ensures_ret. apply grown_by_error, grown_by_skipped, grown_by_refl. }
  destruct (mem_uuid (board_id board) paused).
  { apply ensures_ret. apply grown_by_skipped, grown_by_refl. }
  eapply ensures_bind; [apply gateway_agent_id_outcomes|]. intros gid _.
  eapply ensures_bind; [apply fetch_outcomes|]. intros [m|auth_token] _.
  { apply ensures_ret. split; [|apply added_error_nonempty].
    exists 0%nat. split; [lia|]. apply grown_by_error, grown_by_refl. }
  assert (Hrest : forall (agent' : Agent) (token' : str),
    ensures handled_elsewhere (loop_counted 1 result)
      (bind (token_drifted pbkdf2 agent' token')
         (fun drifted =>
            bind
              (if drifted then
                 if rotate_tokens then
                   bind (rekey pbkdf2 env agent')
                     (fun x => match x with
                               | (agent'', raw_token) =>
                                   ret (agent'', raw_token, result)
                               end)
                 else
                   ret (agent', token',
                        add_error result
                          (agent_error agent' (Some (board_id board))
                             (lit "Warning: AUTH_TOKEN in TOOLS.md does not match backend token hash (agent auth may be broken).")))
               else ret (agent', token', result))
              (fun x =>
                 match x with
                 | (agent'', auth_token', result') =>
                     catch
                       (bind
                          (_with_gateway_retry env fuel
                             (provision_agent env
                                (mkProvisionCall agent'' (Some board) gateway
                                   auth_token' user force_bootstrap
                                   reset_sessions)))
                          (fun _ => ret (Continue (count_updated result'))))
                       (fun exc =>
                          match exc with
                          | TimeoutError _ =>
                              Some (ret (Return
                                      (add_error (count_skipped result')
                                         (agent_error agent''
                                            (Some (board_id board))
                                            (str_of_exn exc)))))
                          | _ =>
                              if is_OSError exc || is_RuntimeError exc
                                 || is_ValueError exc
                              then
                                Some (ret (Continue
                                        (add_error (count_skipped result')
                                           (agent_error agent''
                                              (Some (board_id board))
                                              (lit "Failed to sync templates: "
                                               ++ str_of_exn exc)))))
                              else None
                          end)
                 end)))).
  { intros agent' token'.
    eapply ensures_bind; [apply token_drifted_outcomes|]. intros drifted _.
    eapply ensures_bind with (V := fun x => grown_by 0 result (snd x)).
    - destruct drifted; [destruct rotate_tokens|].
      + eapply ensures_bind; [apply rekey_outcomes|].
        intros [agent'' raw] _. apply ensures_ret. apply grown_by_refl.
      + apply ensures_ret. apply grown_by_error, grown_by_refl.
      + apply ensures_ret. apply grown_by_refl.
    - intros [[agent'' auth_token'] result'] Hres. cbn [snd] in Hres.
      apply ensures_catch with (F' := any_exn).
      + eapply ensures_bind; [apply ensures_any|]. intros _ _.
        apply ensures_ret. apply grown_by_updated. exact Hres.
      + intros e _. destruct e; cbn [is_OSError is_RuntimeError is_ValueError
          orb];
          try (apply ensures_ret; cbn [loop_counted];
               try (split; [exists 1%nat; split; [lia|]
                           |apply added_error_nonempty]);
               apply grown_by_error, grown_by_skipped; exact Hres);
          split; reflexivity. }
  destruct (truthy auth_token) as [t|]; [|destruct rotate_tokens].
  - destruct rotate_tokens;
      (eapply ensures_bind with (V := any_value);
       [apply ensures_ret; exact I|]; intros [agent' token'] _;
       apply Hrest).
  - eapply ensures_bind with (V := any_value); [apply rekey_outcomes|].
    intros [agent' token'] _. apply Hrest.
  - apply ensures_ret. apply grown_by_error, grown_by_skipped, grown_by_refl.
Qed.

Lemma sync_agents_outcomes (boards_by_id : list (UUID * Board))
    (paused : list UUID) (agents : list Agent) :
  forall result,
    ensures handled_elsewhere (loop_counted (List.length agents) result)
      (sync_agents pbkdf2 env fuel gateway user reset_sessions rotate_tokens
         force_bootstrap config boards_by_id paused agents result).
Proof.
  induction agents as [|agent rest IH]; intros result; cbn [sync_agents].
  - apply ensures_ret. apply grown_by_refl.
  - eapply ensures_bind; [apply sync_one_agent_outcomes|].
    intros [r'|r'] H1; cbn [loop_counted] in H1.
    + eapply ensures_weaken; [apply IH | auto |].
      intros [after|after]; cbn [loop_counted List.length].
      * intros H2. exact (grown_by_trans 1 _ _ _ _ H1 H2).
      * intros [[k [Hk H2]] Herr]. split; [|exact Herr].
        exists (S k). split; [lia|].
        exact (grown_by_trans 1 _ _ _ _ H1 H2).
    + apply ensures_ret. cbn [loop_counted List.length].
      destruct H1 as [[k [Hk H1]] Herr]. split; [|exact Herr].
      exists k. split; [lia | exact H1].
Qed.

Lemma sync_main_agent_outcomes (result : GatewayTemplatesSyncResult) :
  ensures handled_elsewhere (main_counted result)
    (sync_main_agent pbkdf2 env fuel gateway user reset_sessions rotate_tokens
       force_bootstrap config result).
Proof.
  unfold sync_main_agent.
  eapply ensures_bind with (V := any_value); [state_step|]. intros d _.
  destruct (agent_with_session_key d (main_session_key gateway))
    as [main_agent|].
  2:{ apply ensures_ret. apply main_counted_error, main_counted_refl. }
  eapply ensures_bind.
  { apply on_timeout_outcomes with (V := any_value).
    eapply ensures_weaken;
      [apply gateway_default_agent_id_outcomes | auto | intros; exact I]. }
  intros [m|resolved] _.
  { apply ensures_ret. apply main_counted_error, main_counted_refl. }
  destruct (truthy resolved) as [gid|].
  2:{ apply ensures_ret. apply main_counted_error, main_counted_refl. }
  eapply ensures_bind; [apply fetch_outcomes|]. intros [m|main_token] _.
  { apply ensures_ret. apply main_counted_error, main_counted_refl. }
  assert (Hrest : forall (agent' : Agent) (token' : str),
    ensures handled_elsewhere (main_counted result)
      (bind (token_drifted pbkdf2 agent' token')
         (fun drifted =>
            bind
              (if drifted then
                 if rotate_tokens then
                   bind (rekey pbkdf2 env agent')
                     (fun x => match x with
                               | (agent'', raw_token) =>
                                   ret (agent'', raw_token, result)
                               end)
                 else
                   ret (agent', token',
                        add_error result
                          (agent_error agent' None
                             (lit "Warning: AUTH_TOKEN in TOOLS.md does not match backend token hash (main agent auth may be broken).")))
               else ret (agent', token', result))
              (fun x =>
                 match x with
                 | (agent'', auth_token', result') =>
                     catch
                       (bind
                          (_with_gateway_retry env fuel
                             (provision_agent env
                                (mkProvisionCall agent'' None gateway
                                   auth_token' user force_bootstrap
                                   reset_sessions)))
                          (fun _ => ret (set_main_updated result')))
                       (fun exc =>
                          match exc with
                          | TimeoutError _ =>
                              Some (ret (add_error result'
                                           (agent_error agent'' None
                                              (str_of_exn exc))))
                          | _ =>
                              if is_OSError exc || is_RuntimeError exc
                                 || is_ValueError exc
                              then
                                Some (ret (add_error result'
                                             (agent_error agent'' None
                                                (lit "Failed to sync main agent templates: "
                                                 ++ str_of_exn exc))))
                              else None
                          end)
                 end)))).
  { intros agent' token'.
    eapply ensures_bind; [apply token_drifted_outcomes|]. intros drifted _.
    eapply ensures_bind with (V := fun x => main_counted result (snd x)).
    - destruct drifted; [destruct rotate_tokens|].
      + eapply ensures_bind; [apply rekey_outcomes|].
        intros [agent'' raw] _. apply ensures_ret. apply main_counted_refl.
      + apply ensures_ret. apply main_counted_error, main_counted_refl.
      + apply ensures_ret. apply main_counted_refl.
    - intros [[agent'' auth_token'] result'] Hres. cbn [snd] in Hres.
      apply ensures_catch with (F' := any_exn).
      + eapply ensures_bind; [apply ensures_any|]. intros _ _.
        apply ensures_ret. apply main_counted_set. exact Hres.
      + intros e _. destruct e; cbn [is_OSError is_RuntimeError is_ValueError
          orb];
          try (apply ensures_ret; apply main_counted_error; exact Hres);
          split; reflexivity. }
  destruct (truthy main_token) as [t|]; [|destruct rotate_tokens].
  - destruct rotate_tokens;
      (eapply ensures_bind with (V := any_value);
       [apply ensures_ret; exact I|]; intros [agent' token'] _;
       apply Hrest).
  - eapply ensures_bind with (V := any_value); [apply rekey_outcomes|].
    intros [agent' token'] _. apply Hrest.
  - apply ensures_ret. apply main_counted_error, main_counted_refl.
Qed.

Lemma probe_outcomes :
  ensures handled_elsewhere any_value (probe env fuel config).
Proof.
  unfold probe. apply ensures_catch with (F' := any_exn); [apply ensures_any|].
  intros e _. destruct e; try (split; reflexivity);
    apply ensures_ret; exact I.
Qed.

End SyncOutcomes.

Lemma boards_get_set (k k' : UUID) (b : Board) (d : list (UUID * Board)) :
  boards_get k' (boards_set k b d)
  = if (k =? k')%N then Some b else boards_get k' d.
Proof.
  induction d as [|[k0 b0] d IH]; cbn [boards_set boards_get].
  - reflexivity.
  - destruct (N.eqb_spec k0 k) as [->|Hk]; cbn [boards_get].
    + destruct (k =? k')%N; reflexivity.
    + rewrite IH. destruct (N.eqb_spec k0 k') as [->|Hk'].
      * destruct (N.eqb_spec k k') as [->|]; [contradiction | reflexivity].
      * reflexivity.
Qed.

Lemma boards_get_fold (boards : list Board) (k : UUID) :
  forall (acc : list (UUID * Board)) (b : Board),
    boards_get k (fold_left (fun acc b => boards_set (board_ident b) b acc)
                            boards acc) = Some b ->
    (In b boards /\ board_id b = k) \/ boards_get k acc = Some b.
Proof.
  induction boards as [|x boards IH]; intros acc b; cbn [fold_left].
  - intros H. right. exact H.
  - intros H. destruct (IH _ _ H) as [[Hin Hid] | Hacc].
    + left. split; [right; exact Hin | exact Hid].
    + rewrite boards_get_set in Hacc. unfold board_ident in Hacc.
      destruct (N.eqb_spec (board_id x) k) as [Hx|Hx].
      * injection Hacc as <-. left. split; [left; reflexivity | exact Hx].
      * right. exact Hacc.
Qed.

(** A board found under an id in [boards_by_id] is a board of the gateway
    with that id. *)
Lemma boards_by_id_of_sound (d : Database) (gateway : Gateway) (k : UUID)
    (b : Board) :
  boards_get k (boards_by_id_of d gateway) = Some b ->
  In b (boards_tbl d) /\ board_gateway_id b = Some (gateway_id gateway)
  /\ board_id b = k.
Proof.
  unfold boards_by_id_of. intros H.
  destruct (boards_get_fold _ _ _ _ H) as [[Hin Hid] | Hnil]; [|discriminate].
  unfold boards_of_gateway in Hin. apply filter_In in Hin.
  destruct Hin as [Hin Hgw]. split; [exact Hin|]. split; [|exact Hid].
  destruct (board_gateway_id b) as [g|]; [|discriminate].
  cbn [opt_uuid_eqb] in Hgw. apply N.eqb_eq in Hgw. subst g. reflexivity.
Qed.

(** X16. No gateway error and no timeout leaves [sync_gateway_templates]:
    whatever the gateway, the clock and the database do, an exception that
    reaches the caller is neither an [OpenClawGatewayError] nor a
    [TimeoutError] - those are turned into error entries of the result. (At
    the two provisioning calls this rests on [OpenClawGatewayError] being a
    [RuntimeError].) *)
Theorem sync_raises_no_gateway_error_or_timeout
    (pbkdf2 : str -> bytes -> bytes -> Z -> bytes) (env : Env) (fuel : nat)
    (gateway : Gateway) (user : option UUID)
    (include_main reset_sessions rotate_tokens force_bootstrap : bool)
    (board_id : option UUID) (st st' : State) (e : exn) :
  sync_gateway_templates pbkdf2 env fuel gateway user include_main
    reset_sessions rotate_tokens force_bootstrap board_id st = (st', Exn e) ->
  is_gateway_error e = false /\ is_timeout e = false.
Proof.
  destruct (truthy (gateway_url gateway)) as [url|] eqn:Hurl.
  2:{ unfold sync_gateway_templates. rewrite Hurl. discriminate. }
  rewrite (sync_gateway_templates_steps pbkdf2 env fuel gateway user
             include_main reset_sessions rotate_tokens force_bootstrap
             board_id url st Hurl).
  set (config := mkGatewayClientConfig url (gateway_token gateway)).
  pose proof (probe_outcomes env fuel config
                (set_backoff st (default_backoff 600))) as Hprobe.
  destruct (probe env fuel config (set_backoff st (default_backoff 600)))
    as [st2 [[message|]|e2|]]; cbn [snd outcome_is] in Hprobe;
    try discriminate.
  2:{ intros H. injection H as _ <-. exact Hprobe. }
  destruct (boards_in_scope (db st2) gateway board_id) as [boards_by_id|];
    [|discriminate].
  match goal with
  | |- context [sync_agents ?a ?b ?c ?d ?e ?f ?g ?h ?i ?j ?k ?l ?m ?n] =>
      pose proof (sync_agents_outcomes a b c d e f g h i j k l m n) as Hloop;
      destruct (sync_agents a b c d e f g h i j k l m n) as [st3 [[r|r]|e3|]]
  end; cbn [snd outcome_is] in Hloop; try discriminate.
  - destruct include_main; [|discriminate].
    intros H.
    pose proof (sync_main_agent_outcomes pbkdf2 env fuel gateway user
                  reset_sessions rotate_tokens force_bootstrap config r st3)
      as Hmain.
    rewrite H in Hmain. exact Hmain.
  - intros H. injection H as _ <-. exact Hloop.
Qed.

Lemma sync_raises_no_gateway_error_or_timeout_witness :
  is_gateway_error
    (ValueError (lit "Invalid base64-encoded string: number of data characters (1) cannot be 1 more than a multiple of 4"))
  = false
  /\ is_timeout
       (ValueError (lit "Invalid base64-encoded string: number of data characters (1) cannot be 1 more than a multiple of 4"))
     = false.
Proof.
  refine (sync_raises_no_gateway_error_or_timeout toy_pbkdf2
            (scripted_env (fun _ => (Ret tt, 0))) 3 example_gateway None false
            false false false None
            (set_db idle_state
               (example_db
                  [mkAgent 1%N (lit "Ada") (Some 10%N) None
                     (Some (lit "pbkdf2_sha256$1$a$bb")) 1%Z 0%Z]))
            _ _ _).
  vm_compute. reflexivity.
Defined.

(** X17. What the counters of a result add up to. Whenever
    [sync_gateway_templates] returns, the result carries the gateway id and
    the two flags it was called with, and [agents_updated + agents_skipped]
    is at most the number of agents on the boards in scope: no agent is
    counted twice. The sum equals that number whenever the main agent was
    updated, and whenever the result has no error entry - a run that
    stopped early always says why. *)
Theorem sync_counts_each_agent_once
    (pbkdf2 : str -> bytes -> bytes -> Z -> bytes) (env : Env) (fuel : nat)
    (gateway : Gateway) (user : option UUID)
    (include_main reset_sessions rotate_tokens force_bootstrap : bool)
    (board_id : option UUID) (st st' : State)
    (r : GatewayTemplatesSyncResult) :
  sync_gateway_templates pbkdf2 env fuel gateway user include_main
    reset_sessions rotate_tokens force_bootstrap board_id st = (st', Val r) ->
  let in_scope := List.length (agents_in_scope (db st) gateway board_id) in
  result_gateway_id r = gateway_id gateway
  /\ result_include_main r = include_main
  /\ result_reset_sessions r = reset_sessions
  /\ (counted r <= in_scope)%nat
  /\ (main_updated r = true -> include_main = true /\ counted r = in_scope)
  /\ (errors r = [] -> counted r = in_scope).
Proof.
  cbv zeta.
  destruct (truthy (gateway_url gateway)) as [url|] eqn:Hurl.
  2:{ unfold sync_gateway_templates. rewrite Hurl. intros H.
      injection H as _ <-. cbn. repeat split; try lia; discriminate. }
  rewrite (sync_gateway_templates_steps pbkdf2 env fuel gateway user
             include_main reset_sessions rotate_tokens force_bootstrap
             board_id url st Hurl).
  set (config := mkGatewayClientConfig url (gateway_token gateway)).
  pose proof (keeps_db_probe env fuel config
                (set_backoff st (default_backoff 600))) as Hdb.
  destruct (probe env fuel config (set_backoff st (default_backoff 600)))
    as [st2 [[message|]|e2|]]; try discriminate.
  { intros H. injection H as _ <-. cbn. repeat split; try lia; discriminate. }
  cbn [fst set_backoff db] in Hdb. unfold agents_in_scope. rewrite <- Hdb.
  destruct (boards_in_scope (db st2) gateway board_id) as [boards_by_id|].
  2:{ intros H. injection H as _ <-. cbn. repeat split; try lia;
        discriminate. }
  match goal with
  | |- context [sync_agents ?a ?b ?c ?d ?e ?f ?g ?h ?i ?j ?k ?l ?m ?n] =>
      pose proof (sync_agents_outcomes a b c d e f g h i j k l m n) as Hloop;
      destruct (sync_agents a b c d e f g h i j k l m n) as [st3 [[r1|r1]|e3|]]
  end; cbn [snd outcome_is loop_counted] in Hloop; try discriminate.
  - destruct Hloop as [Hc [_ [_ [[new Herr] [Hg [Hi [Hr Hm]]]]]]].
    unfold counted in Hc. cbn in Hc, Hg, Hi, Hr, Hm, Herr.
    destruct include_main.
    + intros H.
      pose proof (sync_main_agent_outcomes pbkdf2 env fuel gateway user
                    reset_sessions rotate_tokens force_bootstrap config r1 st3)
        as Hmain.
      rewrite H in Hmain. cbn [snd outcome_is] in Hmain.
      destruct Hmain as [Hu [Hs [_ [Hg' [Hi' Hr']]]]].
      unfold counted. rewrite Hu, Hs.
      repeat split; try congruence; lia.
    + intros H. injection H as _ <-. unfold counted.
      repeat split; try congruence; try lia.
  - destruct Hloop as [[k [Hk [Hc [_ [_ [_ [Hg [Hi [Hr Hm]]]]]]]]] Herr].
    unfold counted in Hc. cbn in Hc, Hg, Hi, Hr, Hm.
    intros H. injection H as _ <-. unfold counted.
    repeat split; try congruence; try lia.
Qed.

Lemma sync_counts_each_agent_once_witness :
  exists st' r,
    sync_gateway_templates toy_pbkdf2 (scripted_env fatal_for_agent_2) 3
      example_gateway None true false false false None
      (set_db idle_state
         (example_db [example_agent 1 "Ada"; example_agent 2 "Bob";
                      example_agent 3 "Carol"]))
    = (st', Val r)
    /\ (counted r <= 3)%nat
    /\ (main_updated r = true -> counted r = 3%nat).
Proof.
  eexists _, _.
  refine (let E := _ in
          let H := sync_counts_each_agent_once toy_pbkdf2
                     (scripted_env fatal_for_agent_2) 3 example_gateway None
                     true false false false None _ _ _ E in
          conj E (conj (proj1 (proj2 (proj2 (proj2 H))))
                       (fun Hm => proj2 (proj1 (proj2 (proj2 (proj2 (proj2 H))))
                                           Hm)))).
  vm_compute. reflexivity.
Defined.

(** X18. The three ways [sync_gateway_templates] stops before any agent is
    looked at. Without a gateway URL it returns at once, asking the gateway
    nothing. When the first reachability call fails with a gateway error
    that is not transient, it returns after that one call. When a board is
    asked for that is not a board of the gateway - no row of the boards
    table has that id and this gateway - it returns after the reachability
    probe. Each time the result has zero counters, [main_updated] false and
    exactly one error entry, which says what was wrong. *)
Theorem sync_stops_before_the_agents
    (pbkdf2 : str -> bytes -> bytes -> Z -> bytes) (env : Env) (fuel : nat)
    (gateway : Gateway) (user : option UUID)
    (include_main reset_sessions rotate_tokens force_bootstrap : bool)
    (board_id : option UUID) (st : State) :
  let result := initial_result gateway include_main reset_sessions in
  (truthy (gateway_url gateway) = None ->
   sync_gateway_templates pbkdf2 env fuel gateway user include_main
     reset_sessions rotate_tokens force_bootstrap board_id st
   = (st, Val (add_error result
                 (global_error
                    (lit "Gateway URL is not configured for this gateway.")))))
  /\ (forall url w1 msg,
        truthy (gateway_url gateway) = Some url ->
        openclaw_call env (lit "agents.list") None
          (mkGatewayClientConfig url (gateway_token gateway)) (world st)
        = (w1, Raise (OpenClawGatewayError msg)) ->
        _is_transient_gateway_error (OpenClawGatewayError msg) = false ->
        sync_gateway_templates pbkdf2 env (S fuel) gateway user include_main
          reset_sessions rotate_tokens force_bootstrap board_id st
        = (set_world (set_backoff st (default_backoff 600)) w1,
           Val (add_error result (global_error msg))))
  /\ (forall url wanted st2,
        truthy (gateway_url gateway) = Some url ->
        board_id = Some wanted ->
        probe env fuel (mkGatewayClientConfig url (gateway_token gateway))
              (set_backoff st (default_backoff 600))
        = (st2, Val None) ->
        (forall b, In b (boards_tbl (db st)) ->
                   board_gateway_id b = Some (gateway_id gateway) ->
                   board_ident b <> wanted) ->
        sync_gateway_templates pbkdf2 env fuel gateway user include_main
          reset_sessions rotate_tokens force_bootstrap board_id st
        = (st2,
           Val (add_error result
                  (mkSyncError None None (Some wanted)
                     (lit "Board does not belong to this gateway."))))
        /\ db st2 = db st).
Proof.
  cbv zeta. split; [|split].
  - intros Hurl. unfold sync_gateway_templates. rewrite Hurl. reflexivity.
  - intros url w1 msg Hurl Hcall Hfatal.
    rewrite (sync_gateway_templates_steps pbkdf2 env (S fuel) gateway user
               include_main reset_sessions rotate_tokens force_bootstrap
               board_id url st Hurl).
    unfold probe. unfold catch, bind.
    rewrite (run_first_fatal env fuel _ (set_backoff st (default_backoff 600))
               w1 msg Hcall Hfatal).
    reflexivity.
  - intros url wanted st2 Hurl -> Hprobe Hforeign.
    rewrite (sync_gateway_templates_steps pbkdf2 env fuel gateway user
               include_main reset_sessions rotate_tokens force_bootstrap
               (Some wanted) url st Hurl).
    pose proof (keeps_db_probe env fuel
                  (mkGatewayClientConfig url (gateway_token gateway))
                  (set_backoff st (default_backoff 600))) as Hdb.
    rewrite Hprobe in *. cbn [fst set_backoff db] in Hdb.
    split; [|exact Hdb].
    unfold boards_in_scope. rewrite Hdb.
    destruct (boards_get wanted (boards_by_id_of (db st) gateway))
      as [board|] eqn:Hget; [|reflexivity].
    apply boards_by_id_of_sound in Hget. destruct Hget as [Hin [Hgw Hid]].
    exfalso. exact (Hforeign board Hin Hgw Hid).
Qed.

Lemma sync_stops_before_the_agents_witness :
  sync_gateway_templates toy_pbkdf2 quiet_env 3
    (mkGateway 7%N None None (Some (lit "agent:main:main"))) None true false
    false false None idle_state
  = (idle_state,
     Val (add_error
            (initial_result
               (mkGateway 7%N None None (Some (lit "agent:main:main")))
               true false)
            (global_error
               (lit "Gateway URL is not configured for this gateway.")))).
Proof.
  apply (proj1 (sync_stops_before_the_agents toy_pbkdf2 quiet_env 3
                  (mkGateway 7%N None None (Some (lit "agent:main:main")))
                  None true false false false None idle_state)).
  reflexivity.
Defined.

(** ** Sync orchestrator: what is provisioned *)

Lemma provision_calls_app (a b : list GatewayRequest) :
  provision_calls (a ++ b) = provision_calls a ++ provision_calls b.
Proof. unfold provision_calls. apply flat_map_app. Qed.

Lemma po_state {A : Type} (ok : ProvisionCall -> Prop) (V : A -> Prop)
    (c : M A) :
  (forall st, exists st' a,
      c st = (st', Val a)
      /\ requests (world st') = requests (world st) /\ V a) ->
  provisions_only ok V c.
Proof.
  intros H st. destruct (H st) as [st' [a [-> [Hw Ha]]]]. cbn [fst snd].
  split; [|exact Ha]. exists []. rewrite Hw. split; [reflexivity|constructor].
Qed.

Lemma po_ret {A : Type} (ok : ProvisionCall -> Prop) (V : A -> Prop) (a : A) :
  V a -> provisions_only ok V (ret a).
Proof. intros H. apply po_state. intros st. exists st, a. auto. Qed.

Lemma po_bind {A B : Type} (ok : ProvisionCall -> Prop) (V : A -> Prop)
    (W : B -> Prop) (c : M A) (k : A -> M B) :
  provisions_only ok V c -> (forall a, V a -> provisions_only ok W (k a)) ->
  provisions_only ok W (bind c k).
Proof.
  intros Hc Hk st. destruct (Hc st) as [[new1 [H1 Hok1]] Hv]. unfold bind.
  destruct (c st) as [st1 [a|e|]]; cbn [fst snd] in *.
  - destruct (Hk a Hv st1) as [[new2 [H2 Hok2]] Hw]. split; [|exact Hw].
    exists (new2 ++ new1). rewrite H2, H1, app_assoc. split; [reflexivity|].
    rewrite provision_calls_app. apply Forall_app. split; assumption.
  - split; [|exact I]. exists new1. split; assumption.
  - split; [|exact I]. exists new1. split; assumption.
Qed.

Lemma po_catch {A : Type} (ok : ProvisionCall -> Prop) (V : A -> Prop)
    (c : M A) (h : exn -> option (M A)) :
  provisions_only ok V c ->
  (forall e handler, h e = Some handler -> provisions_only ok V handler) ->
  provisions_only ok V (catch c h).
Proof.
  intros Hc Hh st. destruct (Hc st) as [[new1 [H1 Hok1]] Hv]. unfold catch.
  destruct (c st) as [st1 [a|e|]]; cbn [fst snd] in *.
  - split; [|exact Hv]. exists new1. split; assumption.
  - destruct (h e) as [handler|] eqn:E.
    + destruct (Hh e handler E st1) as [[new2 [H2 Hok2]] Hw].
      split; [|exact Hw].
      exists (new2 ++ new1). rewrite H2, H1, app_assoc. split; [reflexivity|].
      rewrite provision_calls_app. apply Forall_app. split; assumption.
    + split; [|exact I]. exists new1. split; assumption.
  - split; [|exact I]. exists new1. split; assumption.
Qed.

Lemma po_weaken {A : Type} (ok ok' : ProvisionCall -> Prop) (V V' : A -> Prop)
    (c : M A) :
  provisions_only ok V c ->
  (forall call, ok call -> ok' call) -> (forall a, V a -> V' a) ->
  provisions_only ok' V' c.
Proof.
  intros Hc Hok HV st. destruct (Hc st) as [[new [H1 H2]] Hv]. split.
  - exists new. split; [exact H1|].
    apply Forall_impl with (2 := H2). exact Hok.
  - destruct (snd (c st)); auto.
Qed.

Lemma po_perform {A : Type} (ok : ProvisionCall -> Prop) (op : Op A) :
  op_requests ok op -> provisions_only ok any_value (perform op).
Proof.
  intros H st. unfold perform. destruct (H (world st)) as [new [H1 H2]].
  destruct (op (world st)) as [w [a|e]]; cbn [fst snd] in *;
    (split; [exists new; split; assumption | exact I]).
Qed.

Lemma requests_retry_state (env : Env) (st : State) (w1 : World)
    (deadline_s : Q) :
  requests (world (retry_state env st w1 deadline_s)) = requests w1.
Proof.
  unfold retry_state. destruct (Qeq_bool (_jitter (backoff st)) 0);
    reflexivity.
Qed.

Lemma po_run_loop (env : Env) {A : Type} (ok : ProvisionCall -> Prop)
    (fn : Op A) (deadline_s : Q) (fuel : nat) :
  op_requests ok fn ->
  provisions_only ok any_value (run_loop env fuel fn deadline_s).
Proof.
  intros Hfn. induction fuel as [|fuel IH]; intros st.
  - cbn. split; [|exact I]. exists []. split; [reflexivity|constructor].
  - rewrite run_loop_S. destruct (Hfn (world st)) as [new [H1 H2]].
    destruct (fn (world st)) as [w1 [v|exc]]; cbn [fst] in H1.
    + cbn. split; [|exact I]. exists new. split; assumption.
    + assert (Hplain : forall r : res A,
        (exists new0,
            requests (world (fst (set_world st w1, r)))
            = new0 ++ requests (world st)
            /\ Forall ok (provision_calls new0))
        /\ match snd (set_world st w1, r) with
           | Val _ => True
           | _ => True
           end).
      { intros r. cbn. split; [|destruct r; exact I].
        exists new. split; assumption. }
      destruct exc as [m|m|m|m|m|m|m];
        try (destruct (Hplain (Exn (TimeoutError m))) as [G _];
             split; [exact G | exact I]).
      destruct (negb (_is_transient_gateway_error (OpenClawGatewayError m))).
      * destruct (Hplain (Exn (OpenClawGatewayError m))) as [G _].
        split; [exact G | exact I].
      * destruct (Qle_bool (deadline_s - clock w1) 0).
        -- cbn. split; [|exact I]. exists new. split; assumption.
        -- destruct (IH (retry_state env st w1 deadline_s))
             as [[new2 [G1 G2]] _].
           rewrite requests_retry_state in G1. split.
           ++ exists (new2 ++ new). rewrite G1, H1, app_assoc.
              split; [reflexivity|]. rewrite provision_calls_app.
              apply Forall_app. split; assumption.
           ++ destruct (snd _); exact I.
Qed.

Lemma po_run (env : Env) {A : Type} (ok : ProvisionCall -> Prop) (fn : Op A)
    (fuel : nat) :
  op_requests ok fn -> provisions_only ok any_value (run env fuel fn).
Proof.
  intros Hfn st. rewrite run_unfold. apply po_run_loop. exact Hfn.
Qed.

Lemma op_requests_call (env : Env) (ok : ProvisionCall -> Prop) (method : str)
    (params : option json) (config : GatewayClientConfig) :
  op_requests ok (openclaw_call env method params config).
Proof.
  intros w. unfold openclaw_call.
  destruct (gateway_reply env (tick w) config method params) as [reply took].
  exists [ReqCall method params]. split; [reflexivity | constructor].
Qed.

Lemma op_requests_provision (env : Env) (ok : ProvisionCall -> Prop)
    (call : ProvisionCall) :
  ok call -> op_requests ok (provision_agent env call).
Proof.
  intros Hok w. unfold provision_agent.
  destruct (provision_reply env (tick w) call) as [reply took].
  exists [ReqProvision call]. split; [reflexivity|].
  constructor; [exact Hok | constructor].
Qed.

Lemma op_requests_none {A : Type} (ok : ProvisionCall -> Prop) (op : Op A) :
  (forall w, requests (fst (op w)) = requests w) -> op_requests ok op.
Proof.
  intros H w. exists []. split; [exact (H w) | constructor].
Qed.

Lemma same_identity_refl (a : Agent) : same_identity a a.
Proof. repeat split. Qed.

Lemma same_identity_trans (a b c : Agent) :
  same_identity a b -> same_identity b c -> same_identity a c.
Proof.
  unfold same_identity. intros [H1 [H2 [H3 [H4 H5]]]] [G1 [G2 [G3 [G4 G5]]]].
  repeat split; congruence.
Qed.

(** A step that asks the gateway nothing and returns. *)
Ltac silent_step :=
  apply po_state; intros ?; eexists _, _;
  split; [reflexivity | split; [reflexivity | try exact I]].

Section ScopeProperties.

Variable pbkdf2 : str -> bytes -> bytes -> Z -> bytes.
Variable env : Env.
Variable fuel : nat.
Variable gateway : Gateway.
Variable user : option UUID.
Variables include_main reset_sessions rotate_tokens force_bootstrap : bool.
Variable config : GatewayClientConfig.
Variable ok : ProvisionCall -> Prop.

Lemma po_gateway_agent_id (agent : Agent) :
  provisions_only ok any_value (_gateway_agent_id env agent).
Proof.
  unfold _gateway_agent_id, _slugify.
  destruct (_ && _ && _); [apply po_ret; exact I|].
  destruct (nonempty _); [apply po_ret; exact I|].
  apply po_perform. apply op_requests_none. reflexivity.
Qed.

Lemma po_get_agent_file (gid name : str) (with_backoff : bool) :
  provisions_only ok any_value
    (_get_agent_file env fuel gid name config with_backoff).
Proof.
  unfold _get_agent_file. apply po_catch.
  - eapply po_bind with (V := any_value).
    + destruct with_backoff;
        [apply po_run | apply po_perform]; apply op_requests_call.
    + intros payload _. apply po_ret. exact I.
  - intros e handler H. destruct e; try discriminate.
    injection H as <-. apply po_ret. exact I.
Qed.

Lemma po_on_timeout {A : Type} (c : M A) :
  provisions_only ok any_value c ->
  provisions_only ok any_value (on_timeout c).
Proof.
  intros H. unfold on_timeout. apply po_catch.
  - eapply po_bind; [exact H|]. intros a _. apply po_ret. exact I.
  - intros e handler E. destruct e; try discriminate.
    injection E as <-. apply po_ret. exact I.
Qed.

Lemma po_fetch (gid : str) :
  provisions_only ok any_value
    (on_timeout (_get_existing_auth_token env fuel gid config true)).
Proof.
  apply po_on_timeout. unfold _get_existing_auth_token.
  eapply po_bind; [apply po_get_agent_file|].
  intros tools _. apply po_ret. exact I.
Qed.

Lemma po_default_agent_id (key : option str) :
  provisions_only ok any_value
    (on_timeout (_gateway_default_agent_id env fuel config key true)).
Proof.
  apply po_on_timeout. unfold _gateway_default_agent_id.
  eapply po_bind with (V := any_value).
  - apply po_catch.
    + eapply po_bind with (V := any_value).
      * apply po_run. apply op_requests_call.
      * intros payload _. apply po_ret. exact I.
    + intros e handler H. destruct e; try discriminate.
      injection H as <-. apply po_ret. exact I.
  - intros [agent_id|] _; apply po_ret; exact I.
Qed.

Lemma po_rekey (agent : Agent) :
  provisions_only ok (fun x => same_identity agent (fst x))
                  (rekey pbkdf2 env agent).
Proof.
  apply po_state. intros st. eexists _, _.
  split; [reflexivity|]. split; [reflexivity|]. repeat split.
Qed.

Lemma po_token_drifted (agent : Agent) (token : str) :
  provisions_only ok any_value (token_drifted pbkdf2 agent token).
Proof.
  unfold token_drifted. destruct (truthy_hash agent) as [h|];
    [|apply po_ret; exact I].
  intros st. unfold bind, lift.
  destruct (verify_agent_token pbkdf2 token h) as [v|e]; cbn;
    (split; [exists []; split; [reflexivity | constructor] | exact I]).
Qed.

Lemma po_probe : provisions_only ok any_value (probe env fuel config).
Proof.
  unfold probe. apply po_catch.
  - eapply po_bind with (V := any_value).
    + apply po_run. apply op_requests_call.
    + intros _ _. apply po_ret. exact I.
  - intros e handler H. destruct e; try discriminate;
      injection H as <-; apply po_ret; exact I.
Qed.

End ScopeProperties.

Section ScopeOfSync.

Variable pbkdf2 : str -> bytes -> bytes -> Z -> bytes.
Variable env : Env.
Variable fuel : nat.
Variable gateway : Gateway.
Variable user : option UUID.
Variables include_main reset_sessions rotate_tokens force_bootstrap : bool.
Variable config : GatewayClientConfig.

Lemma sync_one_agent_provisions (boards_by_id : list (UUID * Board))
    (paused : list UUID) (agent : Agent) (result : GatewayTemplatesSyncResult) :
  provisions_only
    (call_in_loop gateway user reset_sessions force_bootstrap boards_by_id
                  paused [agent])
    any_value
    (sync_one_agent pbkdf2 env fuel gateway user reset_sessions rotate_tokens
       force_bootstrap config boards_by_id paused agent result).
Proof.
  unfold sync_one_agent.
  destruct (agent_board_id agent) as [b|] eqn:Hab;
    [|apply po_ret; exact I].
  destruct (boards_get b boards_by_id) as [board|] eqn:Hb;
    [|apply po_ret; exact I].
  destruct (mem_uuid (board_id board) paused) eqn:Hp;
    [apply po_ret; exact I|].
  eapply po_bind; [apply po_gateway_agent_id|]. intros gid _.
  eapply po_bind; [apply po_fetch|]. intros [m|auth_token] _;
    [apply po_ret; exact I|].
  assert (Hcall : forall agent' token',
    same_identity agent agent' ->
    call_in_loop gateway user reset_sessions force_bootstrap boards_by_id
      paused [agent]
      (mkProvisionCall agent' (Some board) gateway token' user force_bootstrap
         reset_sessions)).
  { intros agent' token' Hid. exists agent, b, board.
    repeat split; try assumption; try (left; reflexivity); apply Hid. }
  assert (Hrest : forall (agent' : Agent) (token' : str),
    same_identity agent agent' ->
    provisions_only
      (call_in_loop gateway user reset_sessions force_bootstrap boards_by_id
                    paused [agent])
      any_value
      (bind (token_drifted pbkdf2 agent' token')
         (fun drifted =>
            bind
              (if drifted then
                 if rotate_tokens then
                   bind (rekey pbkdf2 env agent')
                     (fun x => match x with
                               | (agent'', raw_token) =>
                                   ret (agent'', raw_token, result)
                               end)
                 else
                   ret (agent', token',
                        add_error result
                          (agent_error agent' (Some (board_id board))
                             (lit "Warning: AUTH_TOKEN in TOOLS.md does not match backend token hash (agent auth may be broken).")))
               else ret (agent', token', result))
              (fun x =>
                 match x with
                 | (agent'', auth_token', result') =>
                     catch
                       (bind
                          (_with_gateway_retry env fuel
                             (provision_agent env
                                (mkProvisionCall agent'' (Some board) gateway
                                   auth_token' user force_bootstrap
                                   reset_sessions)))
                          (fun _ => ret (Continue (count_updated result'))))
                       (fun exc =>
                          match exc with
                          | TimeoutError _ =>
                              Some (ret (Return
                                      (add_error (count_skipped result')
                                         (agent_error agent''
                                            (Some (board_id board))
                                            (str_of_exn exc)))))
                          | _ =>
                              if is_OSError exc || is_RuntimeError exc
                                 || is_ValueError exc
                              then
                                Some (ret (Continue
                                        (add_error (count_skipped result')
                                           (agent_error agent''
                                              (Some (board_id board))
                                              (lit "Failed to sync templates: "
                                               ++ str_of_exn exc)))))
                              else None
                          end)
                 end)))).
  { intros agent' token' Hid.
    eapply po_bind; [apply po_token_drifted|]. intros drifted _.
    eapply po_bind
      with (V := fun x => same_identity agent (fst (fst x))).
    - destruct drifted; [destruct rotate_tokens|].
      + eapply po_bind; [apply po_rekey|].
        intros [agent'' raw] Hid'. cbn [fst] in Hid'. apply po_ret.
        exact (same_identity_trans _ _ _ Hid Hid').
      + apply po_ret. exact Hid.
      + apply po_ret. exact Hid.
    - intros [[agent'' auth_token'] result'] Hid'. cbn [fst] in Hid'.
      apply po_catch.
      + eapply po_bind with (V := any_value).
        * unfold _with_gateway_retry. apply po_run.
          apply op_requests_provision. apply Hcall. exact Hid'.
        * intros _ _. apply po_ret. exact I.
      + intros e handler E.
        destruct e; cbn [is_OSError is_RuntimeError is_ValueError orb] in E;
          try discriminate; injection E as <-; apply po_ret; exact I. }
  destruct (truthy auth_token) as [t|]; [|destruct rotate_tokens].
  - destruct rotate_tokens;
      (eapply po_bind with (V := fun x => same_identity agent (fst x));
       [apply po_ret; apply same_identity_refl|];
       intros [agent' token'] Hid; apply Hrest; exact Hid).
  - eapply po_bind; [apply po_rekey|].
    intros [agent' token'] Hid. apply Hrest. exact Hid.
  - apply po_ret. exact I.
Qed.

Lemma call_in_loop_more (boards_by_id : list (UUID * Board))
    (paused : list UUID) (some all : list Agent) (call : ProvisionCall) :
  incl some all ->
  call_in_loop gateway user reset_sessions force_bootstrap boards_by_id paused
               some call ->
  call_in_loop gateway user reset_sessions force_bootstrap boards_by_id paused
               all call.
Proof.
  intros Hincl [agent [b [board [Hin H]]]]. exists agent, b, board.
  split; [apply Hincl; exact Hin | exact H].
Qed.

Lemma sync_agents_provisions (boards_by_id : list (UUID * Board))
    (paused : list UUID) (agents : list Agent) :
  forall result,
    provisions_only
      (call_in_loop gateway user reset_sessions force_bootstrap boards_by_id
                    paused agents)
      any_value
      (sync_agents pbkdf2 env fuel gateway user reset_sessions rotate_tokens
         force_bootstrap config boards_by_id paused agents result).
Proof.
  induction agents as [|agent rest IH]; intros result; cbn [sync_agents].
  - apply po_ret. exact I.
  - eapply po_bind with (V := any_value).
    + eapply po_weaken; [apply sync_one_agent_provisions | | auto].
      intros call. apply call_in_loop_more.
      intros x [<-|[]]. left. reflexivity.
    + intros [r'|r'] _.
      * eapply po_weaken; [apply IH | | auto].
        intros call. apply call_in_loop_more.
        intros x Hx. right. exact Hx.
      * apply po_ret. exact I.
Qed.

Lemma sync_main_agent_provisions (result : GatewayTemplatesSyncResult) :
  provisions_only (call_for_main gateway user reset_sessions force_bootstrap)
    any_value
    (sync_main_agent pbkdf2 env fuel gateway user reset_sessions rotate_tokens
       force_bootstrap config result).
Proof.
  unfold sync_main_agent.
  eapply po_bind with (V := any_value); [silent_step|]. intros d _.
  destruct (agent_with_session_key d (main_session_key gateway))
    as [main_agent|] eqn:Hfind; [|apply po_ret; exact I].
  assert (Hkey : opt_str_eqb (openclaw_session_id main_agent)
                             (main_session_key gateway) = true).
  { unfold agent_with_session_key in Hfind. apply find_some in Hfind.
    exact (proj2 Hfind). }
  eapply po_bind; [apply po_default_agent_id|]. intros [m|resolved] _;
    [apply po_ret; exact I|].
  destruct (truthy resolved) as [gid|]; [|apply po_ret; exact I].
  eapply po_bind; [apply po_fetch|]. intros [m|main_token] _;
    [apply po_ret; exact I|].
  assert (Hcall : forall agent' token',
    same_identity main_agent agent' ->
    call_for_main gateway user reset_sessions force_bootstrap
      (mkProvisionCall agent' None gateway token' user force_bootstrap
         reset_sessions)).
  { intros agent' token' [_ [_ [_ [Hs _]]]]. repeat split.
    cbn [pc_agent]. rewrite Hs. exact Hkey. }
  assert (Hrest : forall (agent' : Agent) (token' : str),
    same_identity main_agent agent' ->
    provisions_only (call_for_main gateway user reset_sessions force_bootstrap)
      any_value
      (bind (token_drifted pbkdf2 agent' token')
         (fun drifted =>
            bind
              (if drifted then
                 if rotate_tokens then
                   bind (rekey pbkdf2 env agent')
                     (fun x => match x with
                               | (agent'', raw_token) =>
                                   ret (agent'', raw_token, result)
                               end)
                 else
                   ret (agent', token',
                        add_error result
                          (agent_error agent' None
                             (lit "Warning: AUTH_TOKEN in TOOLS.md does not match backend token hash (main agent auth may be broken).")))
               else ret (agent', token', result))
              (fun x =>
                 match x with
                 | (agent'', auth_token', result') =>
                     catch
                       (bind
                          (_with_gateway_retry env fuel
                             (provision_agent env
                                (mkProvisionCall agent'' None gateway
                                   auth_token' user force_bootstrap
                                   reset_sessions)))
                          (fun _ => ret (set_main_updated result')))
                       (fun exc =>
                          match exc with
                          | TimeoutError _ =>
                              Some (ret (add_error result'
                                           (agent_error agent'' None
                                              (str_of_exn exc))))
                          | _ =>
                              if is_OSError exc || is_RuntimeError exc
                                 || is_ValueError exc
                              then
                                Some (ret (add_error result'
                                             (agent_error agent'' None
                                                (lit "Failed to sync main agent templates: "
                                                 ++ str_of_exn exc))))
                              else None
                          end)
                 end)))).
  { intros agent' token' Hid.
    eapply po_bind; [apply po_token_drifted|]. intros drifted _.
    eapply po_bind
      with (V := fun x => same_identity main_agent (fst (fst x))).
    - destruct drifted; [destruct rotate_tokens|].
      + eapply po_bind; [apply po_rekey|].
        intros [agent'' raw] Hid'. cbn [fst] in Hid'. apply po_ret.
        exact (same_identity_trans _ _ _ Hid Hid').
      + apply po_ret. exact Hid.
      + apply po_ret. exact Hid.
    - intros [[agent'' auth_token'] result'] Hid'. cbn [fst] in Hid'.
      apply po_catch.
      + eapply po_bind with (V := any_value).
        * unfold _with_gateway_retry. apply po_run.
          apply op_requests_provision. apply Hcall. exact Hid'.
        * intros _ _. apply po_ret. exact I.
      + intros e handler E.
        destruct e; cbn [is_OSError is_RuntimeError is_ValueError orb] in E;
          try discriminate; injection E as <-; apply po_ret; exact I. }
  destruct (truthy main_token) as [t|]; [|destruct rotate_tokens].
  - destruct rotate_tokens;
      (eapply po_bind with (V := fun x => same_identity main_agent (fst x));
       [apply po_ret; apply same_identity_refl|];
       intros [agent' token'] Hid; apply Hrest; exact Hid).
  - eapply po_bind; [apply po_rekey|].
    intros [agent' token'] Hid. apply Hrest. exact Hid.
  - apply po_ret. exact I.
Qed.

End ScopeOfSync.

Lemma call_in_loop_in_scope (gateway : Gateway) (user : option UUID)
    (include_main reset_sessions force_bootstrap : bool) (d : Database)
    (board_id : option UUID) (boards_by_id : list (UUID * Board))
    (call : ProvisionCall) :
  boards_in_scope d gateway board_id = Some boards_by_id ->
  call_in_loop gateway user reset_sessions force_bootstrap boards_by_id
    (paused_of (board_memory_tbl d) (boards_keys boards_by_id))
    (agents_on d boards_by_id) call ->
  call_in_scope gateway user include_main reset_sessions force_bootstrap d
    board_id call.
Proof.
  intros Hscope [agent [b [board [Hin [Hab [Hget [Hp [Hsync [Hboard Hid]]]]]]]]].
  assert (Hfacts : In board (boards_tbl d)
                   /\ board_gateway_id board = Some (gateway_id gateway)
                   /\ board_ident board = b
                   /\ (forall wanted, board_id = Some wanted ->
                                      board_ident board = wanted)).
  { unfold boards_in_scope in Hscope. destruct board_id as [wanted|].
    - destruct (boards_get wanted (boards_by_id_of d gateway)) as [board0|]
        eqn:Hw; [|discriminate].
      injection Hscope as <-. cbn [boards_get] in Hget.
      destruct (N.eqb_spec wanted b) as [->|]; [|discriminate].
      injection Hget as <-.
      destruct (boards_by_id_of_sound _ _ _ _ Hw) as [H1 [H2 H3]].
      repeat split; try assumption. intros w Hw'. injection Hw' as <-.
      exact H3.
    - injection Hscope as <-.
      destruct (boards_by_id_of_sound _ _ _ _ Hget) as [H1 [H2 H3]].
      repeat split; try assumption. discriminate. }
  destruct Hfacts as [H1 [H2 [H3 H4]]].
  split; [exact Hsync|]. rewrite Hboard. repeat split; try assumption.
  - exists agent. unfold agents_in_scope. rewrite Hscope.
    repeat split; try assumption; try apply Hid. rewrite H3. exact Hab.
  - intros boards_by_id' Hscope'. rewrite Hscope in Hscope'.
    injection Hscope' as <-. exact Hp.
Qed.

(** X19. What a sync provisions. [sync_gateway_templates] only ever adds to
    the requests made of the gateway, and every provisioning request it
    makes - each retry included - carries the gateway, the user and the two
    flags of the call and is of one of two kinds. Either it is for an agent
    in scope, unchanged but for its token hash and update time, on that
    agent's board, which is a board of this gateway, is the board asked for
    if one was, and is not shown as paused by the board memory. Or, only if
    the main agent is included, it carries no board and is for an agent
    whose session key is the gateway's main session key. *)
Theorem sync_provisions_only_in_scope
    (pbkdf2 : str -> bytes -> bytes -> Z -> bytes) (env : Env) (fuel : nat)
    (gateway : Gateway) (user : option UUID)
    (include_main reset_sessions rotate_tokens force_bootstrap : bool)
    (board_id : option UUID) (st : State) :
  exists new,
    requests (world (fst (sync_gateway_templates pbkdf2 env fuel gateway user
                            include_main reset_sessions rotate_tokens
                            force_bootstrap board_id st)))
    = new ++ requests (world st)
    /\ Forall (call_in_scope gateway user include_main reset_sessions
                 force_bootstrap (db st) board_id)
              (provision_calls new).
Proof.
  set (ok := call_in_scope gateway user include_main reset_sessions
               force_bootstrap (db st) board_id).
  destruct (truthy (gateway_url gateway)) as [url|] eqn:Hurl.
  2:{ unfold sync_gateway_templates. rewrite Hurl. exists [].
      split; [reflexivity | constructor]. }
  rewrite (sync_gateway_templates_steps pbkdf2 env fuel gateway user
             include_main reset_sessions rotate_tokens force_bootstrap
             board_id url st Hurl).
  set (config := mkGatewayClientConfig url (gateway_token gateway)).
  pose proof (keeps_db_probe env fuel config
                (set_backoff st (default_backoff 600))) as Hdb.
  destruct (po_probe env fuel config ok
              (set_backoff st (default_backoff 600))) as [[new1 [H1 Hok1]] _].
  destruct (probe env fuel config (set_backoff st (default_backoff 600)))
    as [st2 [[message|]|e2|]]; cbn [fst set_backoff db world] in *;
    try (exists new1; split; assumption).
  destruct (boards_in_scope (db st2) gateway board_id) as [boards_by_id|]
    eqn:Hscope; [|exists new1; split; assumption].
  rewrite Hdb in Hscope.
  pose proof (sync_agents_provisions pbkdf2 env fuel gateway user
                reset_sessions rotate_tokens force_bootstrap config
                boards_by_id
                (paused_of (board_memory_tbl (db st2)) (boards_keys boards_by_id))
                (agents_on (db st2) boards_by_id)
                (initial_result gateway include_main reset_sessions) st2)
    as [[new2 [H2 Hok2]] _].
  rewrite Hdb in Hok2.
  assert (Hok2' : Forall ok (provision_calls new2)).
  { apply Forall_impl with (2 := Hok2). intros call.
    apply call_in_loop_in_scope. exact Hscope. }
  assert (Hloop : Forall ok (provision_calls (new2 ++ new1))).
  { rewrite provision_calls_app. apply Forall_app. split; assumption. }
  destruct (sync_agents _ _ _ _ _ _ _ _ _ _ _ _ _ _) as [st3 [[r|r]|e3|]];
    cbn [fst] in *;
    try (exists (new2 ++ new1); rewrite H2, H1, app_assoc;
         split; [reflexivity | exact Hloop]).
  destruct include_main eqn:Hmain;
    [|exists (new2 ++ new1); cbn [fst]; rewrite H2, H1, app_assoc;
      split; [reflexivity | exact Hloop]].
  destruct (sync_main_agent_provisions pbkdf2 env fuel gateway user
              reset_sessions rotate_tokens force_bootstrap config r st3)
    as [[new3 [H3 Hok3]] _].
  exists (new3 ++ new2 ++ new1). rewrite H3, H2, H1, !app_assoc.
  split; [reflexivity|]. rewrite <- app_assoc, provision_calls_app.
  apply Forall_app. split; [|exact Hloop].
  apply Forall_impl with (2 := Hok3).
  intros call [Hsync [Hboard Hkey]]. split; [exact Hsync|].
  rewrite Hboard. split; [reflexivity | exact Hkey].
Qed.

(** ** Agent authentication *)

Lemma truthy_hash_in_query (d : Database) (a : Agent) (h : str) :
  In a (agents_tbl d) -> truthy_hash a = Some h ->
  In a (AgentAuth.agents_with_hash d).
Proof.
  intros Hin Hh. unfold AgentAuth.agents_with_hash. apply filter_In.
  split; [exact Hin|]. unfold truthy_hash, truthy in Hh.
  destruct (agent_token_hash a); [reflexivity | discriminate].
Qed.

Lemma first_verified_some (pbkdf2 : str -> bytes -> bytes -> Z -> bytes)
    (token : str) (agents : list Agent) (a : Agent) :
  AgentAuth.first_verified pbkdf2 token agents = Ret (Some a) ->
  In a agents /\ row_accepts pbkdf2 token a.
Proof.
  induction agents as [|x agents IH]; cbn [AgentAuth.first_verified];
    [discriminate|].
  destruct (truthy_hash x) as [h|] eqn:Hh.
  - destruct (verify_agent_token pbkdf2 token h) as [[|]|e] eqn:Hv;
      [| |discriminate].
    + intros H. injection H as <-. split; [left; reflexivity|].
      exists h. split; assumption.
    + intros H. destruct (IH H) as [Hin Hacc]. split; [right|]; assumption.
  - intros H. destruct (IH H) as [Hin Hacc]. split; [right|]; assumption.
Qed.

Lemma first_verified_none (pbkdf2 : str -> bytes -> bytes -> Z -> bytes)
    (token : str) (agents : list Agent) :
  AgentAuth.first_verified pbkdf2 token agents = Ret None ->
  forall a h, In a agents -> truthy_hash a = Some h ->
              verify_agent_token pbkdf2 token h = Ret false.
Proof.
  induction agents as [|x agents IH]; cbn [AgentAuth.first_verified];
    intros H a h Hin Hh; [destruct Hin|].
  destruct (truthy_hash x) as [hx|] eqn:Hx.
  - destruct (verify_agent_token pbkdf2 token hx) as [[|]|e] eqn:Hv;
      try discriminate.
    destruct Hin as [<-|Hin].
    + rewrite Hx in Hh. injection Hh as <-. exact Hv.
    + exact (IH H a h Hin Hh).
  - destruct Hin as [<-|Hin]; [congruence|]. exact (IH H a h Hin Hh).
Qed.

Lemma first_verified_raise (pbkdf2 : str -> bytes -> bytes -> Z -> bytes)
    (token : str) (agents : list Agent) (e : exn) :
  AgentAuth.first_verified pbkdf2 token agents = Raise e ->
  exists a, In a agents /\ row_breaks pbkdf2 token a e.
Proof.
  induction agents as [|x agents IH]; cbn [AgentAuth.first_verified];
    [discriminate|].
  destruct (truthy_hash x) as [h|] eqn:Hh.
  - destruct (verify_agent_token pbkdf2 token h) as [[|]|e'] eqn:Hv.
    + discriminate.
    + intros H. destruct (IH H) as [a [Hin Hb]]. exists a.
      split; [right|]; assumption.
    + intros H. injection H as <-. exists x. split; [left; reflexivity|].
      exists h. split; assumption.
  - intros H. destruct (IH H) as [a [Hin Hb]]. exists a.
    split; [right|]; assumption.
Qed.

(** X20. What [_find_agent_for_token] finds. An agent it returns is a row of
    the agents table with a non-empty stored hash against which the token
    verifies; it returns [None] only if the token verifies against no stored
    hash; and it raises only what [verify_agent_token] raised on the stored
    hash of some row. An agent without a stored hash, or with an empty one,
    is never returned. *)
Theorem find_agent_for_token_is_sound_and_complete
    (pbkdf2 : str -> bytes -> bytes -> Z -> bytes) (d : Database)
    (token : str) :
  (forall a,
      AgentAuth._find_agent_for_token pbkdf2 d token = Ret (Some a) ->
      In a (agents_tbl d)
      /\ exists h, agent_token_hash a = Some h /\ h <> []
                   /\ verify_agent_token pbkdf2 token h = Ret true)
  /\ (AgentAuth._find_agent_for_token pbkdf2 d token = Ret None ->
      forall a h, In a (agents_tbl d) -> agent_token_hash a = Some h ->
                  h <> [] ->
                  verify_agent_token pbkdf2 token h = Ret false)
  /\ (forall e,
        AgentAuth._find_agent_for_token pbkdf2 d token = Raise e ->
        exists a h, In a (agents_tbl d) /\ agent_token_hash a = Some h
                    /\ verify_agent_token pbkdf2 token h = Raise e).
Proof.
  unfold AgentAuth._find_agent_for_token. split; [|split].
  - intros a H. apply first_verified_some in H.
    destruct H as [Hin [h [Hh Hv]]].
    unfold AgentAuth.agents_with_hash in Hin. apply filter_In in Hin.
    split; [exact (proj1 Hin)|]. exists h.
    unfold truthy_hash, truthy in Hh.
    destruct (agent_token_hash a) as [[|c r]|]; try discriminate.
    injection Hh as <-. repeat split; [discriminate | exact Hv].
  - intros H a h Hin Hh Hne.
    assert (Ht : truthy_hash a = Some h).
    { unfold truthy_hash, truthy. rewrite Hh.
      destruct h; [contradiction | reflexivity]. }
    exact (first_verified_none pbkdf2 token _ H a h
             (truthy_hash_in_query d a h Hin Ht) Ht).
  - intros e H. apply first_verified_raise in H.
    destruct H as [a [Hin [h [Hh Hv]]]].
    unfold AgentAuth.agents_with_hash in Hin. apply filter_In in Hin.
    exists a, h. split; [exact (proj1 Hin)|].
    unfold truthy_hash, truthy in Hh.
    destruct (agent_token_hash a) as [[|c r]|]; try discriminate.
    injection Hh as <-. split; [reflexivity | exact Hv].
Qed.

(** X21. Authentication is sound at both dependencies. A context is handed
    out only for a non-empty token and only for a row of the agents table
    whose stored hash the token verifies against, always marked as actor
    type "agent". The optional dependency answers "no context" exactly when
    no token, or an empty one, was sent: a token that matches no agent gets
    the 401 of the required dependency, never an anonymous pass. Whenever a
    token is sent the two dependencies end the same way. *)
Theorem auth_context_is_sound
    (pbkdf2 : str -> bytes -> bytes -> Z -> bytes) (d : Database)
    (agent_token : option str) :
  (forall ctx,
      AgentAuth.get_agent_auth_context pbkdf2 agent_token d = Returned ctx
      \/ AgentAuth.get_agent_auth_context_optional pbkdf2 agent_token d
         = Returned (Some ctx) ->
      AgentAuth.actor_type ctx = lit "agent"
      /\ In (AgentAuth.agent ctx) (agents_tbl d)
      /\ exists token,
           agent_token = Some token /\ token <> []
           /\ row_accepts pbkdf2 token (AgentAuth.agent ctx))
  /\ (AgentAuth.get_agent_auth_context_optional pbkdf2 agent_token d
      = Returned None
      <-> truthy agent_token = None)
  /\ (truthy agent_token <> None ->
      AgentAuth.get_agent_auth_context_optional pbkdf2 agent_token d
      = match AgentAuth.get_agent_auth_context pbkdf2 agent_token d with
        | Returned ctx => Returned (Some ctx)
        | HTTPException status => HTTPException status
        | Uncaught e => Uncaught e
        end).
Proof.
  unfold AgentAuth.get_agent_auth_context,
    AgentAuth.get_agent_auth_context_optional.
  destruct (truthy agent_token) as [token|] eqn:Ht.
  - assert (Htoken : agent_token = Some token /\ token <> []).
    { unfold truthy in Ht. destruct agent_token as [[|c r]|]; try discriminate.
      injection Ht as <-. split; [reflexivity | discriminate]. }
    destruct (AgentAuth._find_agent_for_token pbkdf2 d token)
      as [[found|]|e] eqn:E; (split; [|split]);
      try (intros ctx [H | H]; discriminate);
      try (split; discriminate); try reflexivity.
    intros ctx Hctx.
    assert (Hfound : ctx = AgentAuth.mkAgentAuthContext (lit "agent") found)
      by (destruct Hctx as [H | H]; injection H as <-; reflexivity).
    subst ctx. cbn [AgentAuth.actor_type AgentAuth.agent].
    unfold AgentAuth._find_agent_for_token in E.
    apply first_verified_some in E. destruct E as [Hin Hacc].
    unfold AgentAuth.agents_with_hash in Hin. apply filter_In in Hin.
    split; [reflexivity|]. split; [exact (proj1 Hin)|].
    exists token. split; [exact (proj1 Htoken)|].
    split; [exact (proj2 Htoken) | exact Hacc].
  - split; [|split].
    + intros ctx [H | H]; discriminate.
    + split; reflexivity.
    + intros H. contradiction.
Qed.

(** The lookup when no stored hash makes verification raise. *)
Lemma first_verified_readable (pbkdf2 : str -> bytes -> bytes -> Z -> bytes)
    (token : str) (agents : list Agent) :
  (forall a h, In a agents -> truthy_hash a = Some h ->
               exists ok, verify_agent_token pbkdf2 token h = Ret ok) ->
  (exists a, In a agents /\ row_accepts pbkdf2 token a) ->
  exists found,
    AgentAuth.first_verified pbkdf2 token agents = Ret (Some found).
Proof.
  intros Hread [a [Hin Hacc]].
  destruct (AgentAuth.first_verified pbkdf2 token agents) as [[found|]|e]
    eqn:E.
  - exists found. reflexivity.
  - exfalso. destruct Hacc as [h [Hh Hv]].
    pose proof (first_verified_none pbkdf2 token agents E a h Hin Hh).
    congruence.
  - exfalso. apply first_verified_raise in E.
    destruct E as [b [Hb [h [Hh Hv]]]].
    destruct (Hread b h Hb Hh) as [ok Hok]. congruence.
Qed.

(** The lookup when no stored hash accepts the token and one makes
    verification raise. *)
Lemma first_verified_broken (pbkdf2 : str -> bytes -> bytes -> Z -> bytes)
    (token : str) (agents : list Agent) :
  (forall a, In a agents -> ~ row_accepts pbkdf2 token a) ->
  (exists a e, In a agents /\ row_breaks pbkdf2 token a e) ->
  exists e, AgentAuth.first_verified pbkdf2 token agents = Raise e.
Proof.
  intros Hnone [a [e [Hin [h [Hh Hv]]]]].
  destruct (AgentAuth.first_verified pbkdf2 token agents) as [[found|]|e']
    eqn:E.
  - exfalso. apply first_verified_some in E. destruct E as [Hf Hacc].
    exact (Hnone found Hf Hacc).
  - exfalso.
    pose proof (first_verified_none pbkdf2 token agents E a h Hin Hh).
    congruence.
  - exists e'. reflexivity.
Qed.

(** X22. One unreadable stored hash takes authentication down. If the stored
    hash of some agent makes [verify_agent_token] raise for a token, then
    every request with that token which no stored hash accepts ends in an
    uncaught exception instead of a 401 - in both dependencies and whatever
    the order of the rows. *)
Theorem unreadable_hash_breaks_authentication
    (pbkdf2 : str -> bytes -> bytes -> Z -> bytes) (d : Database)
    (token : str) (broken : Agent) (e : exn) :
  token <> [] ->
  In broken (agents_tbl d) ->
  row_breaks pbkdf2 token broken e ->
  (forall a, In a (agents_tbl d) -> ~ row_accepts pbkdf2 token a) ->
  exists e',
    AgentAuth._find_agent_for_token pbkdf2 d token = Raise e'
    /\ AgentAuth.get_agent_auth_context pbkdf2 (Some token) d = Uncaught e'
    /\ AgentAuth.get_agent_auth_context_optional pbkdf2 (Some token) d
       = Uncaught e'.
Proof.
  intros Hne Hin Hbreak Hnone.
  destruct (first_verified_broken pbkdf2 token (AgentAuth.agents_with_hash d))
    as [e' He'].
  - intros a Ha. apply Hnone. unfold AgentAuth.agents_with_hash in Ha.
    apply filter_In in Ha. exact (proj1 Ha).
  - exists broken, e. split; [|exact Hbreak].
    destruct Hbreak as [h [Hh _]]. exact (truthy_hash_in_query d _ h Hin Hh).
  - exists e'. unfold AgentAuth.get_agent_auth_context,
      AgentAuth.get_agent_auth_context_optional.
    assert (Ht : truthy (Some token) = Some token)
      by (destruct token; [contradiction | reflexivity]).
    rewrite Ht. unfold AgentAuth._find_agent_for_token in *. rewrite He'.
    repeat split.
Qed.

Lemma unreadable_hash_breaks_authentication_witness :
  exists e',
    AgentAuth._find_agent_for_token toy_pbkdf2
      (mkDatabase
         [mkAgent 1%N (lit "Ada") None None
            (Some (lit "pbkdf2_sha256$1$a$bb")) 0%Z 0%Z] [] [])
      (lit "any-token")
    = Raise e'
    /\ AgentAuth.get_agent_auth_context toy_pbkdf2 (Some (lit "any-token"))
         (mkDatabase
            [mkAgent 1%N (lit "Ada") None None
               (Some (lit "pbkdf2_sha256$1$a$bb")) 0%Z 0%Z] [] [])
       = Uncaught e'
    /\ AgentAuth.get_agent_auth_context_optional toy_pbkdf2
         (Some (lit "any-token"))
         (mkDatabase
            [mkAgent 1%N (lit "Ada") None None
               (Some (lit "pbkdf2_sha256$1$a$bb")) 0%Z 0%Z] [] [])
       = Uncaught e'.
Proof.
  apply (unreadable_hash_breaks_authentication toy_pbkdf2
           (mkDatabase
              [mkAgent 1%N (lit "Ada") None None
                 (Some (lit "pbkdf2_sha256$1$a$bb")) 0%Z 0%Z] [] [])
           (lit "any-token")
           (mkAgent 1%N (lit "Ada") None None
              (Some (lit "pbkdf2_sha256$1$a$bb")) 0%Z 0%Z)
           (ValueError (lit "Invalid base64-encoded string: number of data characters (1) cannot be 1 more than a multiple of 4"))).
  - discriminate.
  - left. reflexivity.
  - eexists. split; reflexivity.
  - intros a [<-|[]] [h [Hh Hv]]. vm_compute in Hh. injection Hh as <-.
    vm_compute in Hv. discriminate.
Defined.

(** ** Task notifications *)

Lemma iset_mem_in (x : Z) (s : Notify.iset) :
  Notify.iset_mem x s = true <-> In x s.
Proof.
  unfold Notify.iset_mem. rewrite existsb_exists. split.
  - intros [y [Hy E]]. apply Z.eqb_eq in E. subst y. exact Hy.
  - intros H. exists x. split; [exact H | apply Z.eqb_refl].
Qed.

Lemma iset_add_in (x y : Z) (s : Notify.iset) :
  In x (Notify.iset_add y s) <-> x = y \/ In x s.
Proof.
  unfold Notify.iset_add. destruct (Notify.iset_mem y s) eqn:E.
  - apply iset_mem_in in E. split; [intros H; right; exact H|].
    intros [->|H]; assumption.
  - rewrite in_app_iff. cbn [In]. split.
    + intros [H|[<-|[]]]; [right; exact H | left; reflexivity].
    + intros [->|H]; [right; left; reflexivity | left; exact H].
Qed.

Lemma iset_add_nodup (y : Z) (s : Notify.iset) :
  NoDup s -> NoDup (Notify.iset_add y s).
Proof.
  intros H. unfold Notify.iset_add. destruct (Notify.iset_mem y s) eqn:E;
    [exact H|].
  apply NoDup_app; [exact H | repeat constructor; intros [] |].
  intros x Hx [->|[]]. apply iset_mem_in in Hx. congruence.
Qed.

Lemma iset_discard_in (x a : Z) (s : Notify.iset) :
  In x (Notify.iset_discard a s) <-> In x s /\ x <> a.
Proof.
  unfold Notify.iset_discard. rewrite filter_In, negb_true_iff, Z.eqb_neq.
  reflexivity.
Qed.

Lemma iset_discard_nodup (a : Z) (s : Notify.iset) :
  NoDup s -> NoDup (Notify.iset_discard a s).
Proof. apply NoDup_filter. Qed.

Lemma iset_union_in (x : Z) (s t : Notify.iset) :
  In x (Notify.iset_union s t) <-> In x s \/ In x t.
Proof.
  unfold Notify.iset_union. revert s. induction t as [|y t IH]; intros s;
    cbn [fold_left In].
  - tauto.
  - rewrite IH, iset_add_in. split.
    + intros [[->|H]|H]; auto.
    + intros [H|[->|H]]; auto.
Qed.

Lemma iset_union_nodup (s t : Notify.iset) :
  NoDup s -> NoDup (Notify.iset_union s t).
Proof.
  unfold Notify.iset_union. revert s. induction t as [|y t IH]; intros s H;
    cbn [fold_left]; [exact H|].
  apply IH. apply iset_add_nodup. exact H.
Qed.

Lemma add_if_set_in (x : Z) (o : option Z) (s : Notify.iset) :
  In x (Notify.add_if_set o s) <-> (o = Some x /\ x <> 0%Z) \/ In x s.
Proof.
  unfold Notify.add_if_set, Notify.truthy_id. destruct o as [z|].
  - destruct (Z.eqb_spec z 0) as [->|Hz].
    + split; [intros H; right; exact H|].
      intros [[H Hx]|H]; [|exact H]. injection H as <-. contradiction.
    + rewrite iset_add_in. split.
      * intros [->|H]; [left; split; [reflexivity | exact Hz] | right; exact H].
      * intros [[H _]|H]; [left; injection H as <-; reflexivity | right; exact H].
  - split; [intros H; right; exact H|]. intros [[H _]|H];
      [discriminate | exact H].
Qed.

Lemma add_if_set_nodup (o : option Z) (s : Notify.iset) :
  NoDup s -> NoDup (Notify.add_if_set o s).
Proof.
  intros H. unfold Notify.add_if_set. destruct (Notify.truthy_id o);
    [apply iset_add_nodup|]; exact H.
Qed.

(** The managers of a project, as the table lists them. *)
Lemma project_pm_employee_ids_in (tables : Notify.Tables) (project_id x : Z) :
  In x (Notify._project_pm_employee_ids tables project_id) <->
  exists m, In m (Notify.project_members tables)
            /\ Notify.ProjectMember.project_id m = project_id
            /\ Notify.ProjectMember.employee_id m = x
            /\ mem_str (lower (opt_or (Notify.ProjectMember.role m) []))
                       Notify.pm_roles = true.
Proof.
  unfold Notify._project_pm_employee_ids.
  assert (H : forall members acc,
    In x (fold_left
            (fun pm_ids m =>
               let role := lower (opt_or (Notify.ProjectMember.role m) []) in
               if mem_str role Notify.pm_roles
               then Notify.iset_add (Notify.ProjectMember.employee_id m) pm_ids
               else pm_ids) members acc)
    <-> In x acc
        \/ exists m, In m members
             /\ Notify.ProjectMember.employee_id m = x
             /\ mem_str (lower (opt_or (Notify.ProjectMember.role m) []))
                        Notify.pm_roles = true).
  { induction members as [|m members IH]; intros acc; cbn [fold_left].
    - split; [intros H; left; exact H|]. intros [H|[m [[] _]]]. exact H.
    - rewrite IH. cbv zeta.
      destruct (mem_str _ Notify.pm_roles) eqn:E.
      + rewrite iset_add_in. split.
        * intros [[->|H]|[m' [Hin H]]].
          -- right. exists m. repeat split; [left; reflexivity | exact E].
          -- left. exact H.
          -- right. exists m'. split; [right; exact Hin | exact H].
        * intros [H|[m' [[<-|Hin] [Hx Hr]]]].
          -- left. right. exact H.
          -- left. left. symmetry. exact Hx.
          -- right. exists m'. repeat split; assumption.
      + split.
        * intros [H|[m' [Hin H]]]; [left; exact H|].
          right. exists m'. split; [right; exact Hin | exact H].
        * intros [H|[m' [[<-|Hin] [Hx Hr]]]]; [left; exact H | congruence |].
          right. exists m'. repeat split; assumption. }
  rewrite H. cbn [In]. split.
  - intros [[]|[m [Hin [Hx Hr]]]]. apply filter_In in Hin.
    destruct Hin as [Hin Hp]. apply Z.eqb_eq in Hp.
    exists m. repeat split; assumption.
  - intros [m [Hin [Hp [Hx Hr]]]]. right. exists m. repeat split; try assumption.
    apply filter_In. split; [exact Hin | apply Z.eqb_eq; exact Hp].
Qed.

Lemma project_pm_employee_ids_nodup (tables : Notify.Tables) (project_id : Z) :
  NoDup (Notify._project_pm_employee_ids tables project_id).
Proof.
  unfold Notify._project_pm_employee_ids.
  assert (H : forall members acc, NoDup acc ->
    NoDup (fold_left
             (fun pm_ids m =>
                let role := lower (opt_or (Notify.ProjectMember.role m) []) in
                if mem_str role Notify.pm_roles
                then Notify.iset_add (Notify.ProjectMember.employee_id m) pm_ids
                else pm_ids) members acc)).
  { induction members as [|m members IH]; intros acc Hacc; cbn [fold_left];
      [exact Hacc|].
    apply IH. cbv zeta. destruct (mem_str _ _);
      [apply iset_add_nodup|]; exact Hacc. }
  apply H. constructor.
Qed.

(** X23. Who is notified. Whatever the event, the recipients never include
    the actor, and for a new comment they never include its author either;
    every recipient is the assignee or the reviewer of the task or a manager
    of its project (a member whose role, in any case, is pm, product,
    product_manager or manager); nobody is listed twice; and an event that
    is none of the five known ones has no recipients. *)
Theorem recipients_exclude_actor_and_author (tables : Notify.Tables)
    (ctx : Notify.NotifyContext) :
  let recipients := Notify.resolve_recipients tables ctx in
  let t := Notify.task ctx in
  ~ In (Notify.actor_employee_id ctx) recipients
  /\ (forall c author,
        Notify.event ctx = lit "comment.created" ->
        Notify.comment ctx = Some c ->
        Notify.TaskComment.author_employee_id c = Some author ->
        author <> 0%Z ->
        ~ In author recipients)
  /\ (forall x,
        In x recipients ->
        Notify.Task.assignee_employee_id t = Some x
        \/ Notify.Task.reviewer_employee_id t = Some x
        \/ exists m,
             In m (Notify.project_members tables)
             /\ Notify.ProjectMember.project_id m = Notify.Task.project_id t
             /\ Notify.ProjectMember.employee_id m = x
             /\ mem_str (lower (opt_or (Notify.ProjectMember.role m) []))
                        Notify.pm_roles = true)
  /\ NoDup recipients
  /\ (~ In (Notify.event ctx)
         [lit "task.created"; lit "task.assigned"; lit "comment.created";
          lit "status.changed"; lit "task.updated"] ->
      recipients = []).
Proof.
  cbv zeta. unfold Notify.resolve_recipients.
  set (pms := Notify._project_pm_employee_ids tables
                (Notify.Task.project_id (Notify.task ctx))).
  assert (Hpm : forall x, In x pms ->
    exists m,
      In m (Notify.project_members tables)
      /\ Notify.ProjectMember.project_id m
         = Notify.Task.project_id (Notify.task ctx)
      /\ Notify.ProjectMember.employee_id m = x
      /\ mem_str (lower (opt_or (Notify.ProjectMember.role m) []))
                 Notify.pm_roles = true)
    by (intros x; apply project_pm_employee_ids_in).
  assert (Hnd : NoDup pms) by apply project_pm_employee_ids_nodup.
  clearbody pms.
  split; [|split; [|split; [|split]]].
  - rewrite iset_discard_in. tauto.
  - intros c author Hev Hc Ha Hnz. rewrite Hev, Hc. cbn [str_eqb].
    change (str_eqb (lit "comment.created") (lit "task.created")) with false.
    change (str_eqb (lit "comment.created") (lit "task.assigned")) with false.
    change (str_eqb (lit "comment.created") (lit "comment.created")) with true.
    cbv iota. unfold Notify.truthy_id. rewrite Ha.
    destruct (Z.eqb_spec author 0); [contradiction|].
    rewrite iset_discard_in, iset_discard_in.
    intros [[_ H] _]. apply H. reflexivity.
  - intros x Hx. apply iset_discard_in in Hx. destruct Hx as [Hx _].
    repeat match goal with
             | H : In _ (if ?b then _ else _) |- _ => destruct b
             | H : In _ (match ?c with _ => _ end) |- _ => destruct c
             | H : In _ (Notify.iset_discard _ _) |- _ =>
                 apply iset_discard_in in H; destruct H as [H _]
             | H : In _ (Notify.iset_union _ _) |- _ =>
                 apply iset_union_in in H; destruct H as [H|H]
             | H : In _ (Notify.add_if_set _ _) |- _ =>
                 apply add_if_set_in in H; destruct H as [[H _]|H]
             | H : In _ [] |- _ => destruct H
             end;
      auto.
  - apply iset_discard_nodup.
    repeat match goal with
           | |- NoDup (if ?b then _ else _) => destruct b
           | |- NoDup (match ?c with _ => _ end) => destruct c
           | |- NoDup (Notify.iset_discard _ _) => apply iset_discard_nodup
           | |- NoDup (Notify.iset_union _ _) => apply iset_union_nodup
           | |- NoDup (Notify.add_if_set _ _) => apply add_if_set_nodup
           | |- NoDup [] => constructor
           end.
  - intros Hev. cbn [In] in Hev.
    repeat match goal with
           | |- context [str_eqb (Notify.event ctx) ?l] =>
               let E := fresh "E" in
               destruct (str_eqb (Notify.event ctx) l) eqn:E;
               [apply str_eqb_eq in E; exfalso; apply Hev; rewrite E; tauto|]
           end.
    reflexivity.
Qed.

Lemma shorten_length (limit : nat) (s : str) :
  (3 <= limit)%nat -> (List.length (Notify.shorten limit s) <= limit)%nat.
Proof.
  intros H. unfold Notify.shorten. destruct (Nat.ltb_spec limit (List.length s)).
  - rewrite length_app, length_firstn. cbn [List.length lit
      list_ascii_of_string]. lia.
  - assumption.
Qed.

Lemma shorten_chars (limit : nat) (s : str) (c : ascii) :
  In c (Notify.shorten limit s) -> In c s \/ c = "."%char.
Proof.
  unfold Notify.shorten. destruct (limit <? List.length s)%nat.
  - rewrite in_app_iff. intros [H|H].
    + left. rewrite <- (firstn_skipn (limit - 3) s). apply in_or_app.
      left. exact H.
    + right. cbn in H. intuition congruence.
  - intros H. left. exact H.
Qed.

Lemma newlines_to_blanks_clean (s : str) :
  ~ In (chr 10) (Notify.newlines_to_blanks s).
Proof.
  unfold Notify.newlines_to_blanks. intros H. apply in_map_iff in H.
  destruct H as [c [Hc _]]. destruct (Ascii.eqb c (chr 10)) eqn:E.
  - discriminate.
  - rewrite Hc in E. discriminate.
Qed.

Lemma shorten_within (limit : nat) (s : str) :
  (List.length s <= limit)%nat -> Notify.shorten limit s = s.
Proof.
  intros H. unfold Notify.shorten.
  destruct (Nat.ltb_spec limit (List.length s)); [lia | reflexivity].
Qed.

Lemma shorten_beyond (limit : nat) (s : str) :
  (3 <= limit)%nat -> (limit < List.length s)%nat ->
  Notify.shorten limit s = firstn (limit - 3) s ++ lit "..."
  /\ List.length (Notify.shorten limit s) = limit.
Proof.
  intros H3 H. unfold Notify.shorten.
  destruct (Nat.ltb_spec limit (List.length s)); [|lia].
  split; [reflexivity|].
  rewrite length_app, length_firstn.
  cbn [List.length lit list_ascii_of_string]. lia.
Qed.

(** X24. What a notification quotes. In a "comment.created" message the
    line "Comment: " carries the body of the comment without the whitespace
    around it and with every line feed replaced by a blank - in full if that
    has at most 180 characters, and else its first 177 characters followed
    by "..." - so the quotation never has more than 180 characters and never
    a line feed; without a comment, or with an empty body, the message has
    no such line. The message that sends an agent to a created or assigned
    task is the message for the same task without description, followed by
    nothing if the description is blank, and else by a "Description:" block
    with the description without the whitespace around it, in full up to
    500 characters and else cut to 497 characters and "...": the quotation
    is never empty and never longer than 500 characters. *)
Theorem notification_excerpts_are_bounded (ctx : Notify.NotifyContext)
    (recipient : Notify.Employee.t) :
  let t := Notify.task ctx in
  (Notify.event ctx = lit "comment.created" ->
   (forall c body,
       Notify.comment ctx = Some c ->
       Notify.TaskComment.body c = Some body -> body <> [] ->
       let text :=
         map (fun ch => if Ascii.eqb ch (chr 10) then " "%char else ch)
             (strip body) in
       exists quoted,
         Notify.build_message ctx recipient
         = lit "New comment on " ++ Notify.base_of t ++ lit "." ++ nl
           ++ lit "Comment: " ++ quoted ++ nl
           ++ lit "Work ONE task only; reply/update in Mission Control."
         /\ (List.length quoted <= 180)%nat
         /\ ~ In (chr 10) quoted
         /\ ((List.length text <= 180)%nat -> quoted = text)
         /\ ((180 < List.length text)%nat ->
             quoted = firstn 177 text ++ lit "..."
             /\ List.length quoted = 180%nat))
   /\ (Notify.comment ctx = None
       \/ (exists c, Notify.comment ctx = Some c
                     /\ truthy (Notify.TaskComment.body c) = None) ->
       Notify.build_message ctx recipient
       = lit "New comment on " ++ Notify.base_of t ++ lit "." ++ nl
         ++ lit "Work ONE task only; reply/update in Mission Control."))
  /\ (Notify.event ctx = lit "task.created"
      \/ Notify.event ctx = lit "task.assigned" ->
      Notify.Employee.employee_type recipient = lit "agent" ->
      let bare :=
        Notify.mkNotifyContext (Notify.event ctx)
          (Notify.actor_employee_id ctx)
          (Notify.Task.mk (Notify.Task.id t) (Notify.Task.title t) None
             (Notify.Task.status t) (Notify.Task.project_id t)
             (Notify.Task.assignee_employee_id t)
             (Notify.Task.reviewer_employee_id t))
          (Notify.comment ctx) in
      let desc := strip (opt_or (Notify.Task.description t) []) in
      exists block,
        Notify.build_message ctx recipient
        = Notify.build_message bare recipient ++ block
        /\ (desc = [] -> block = [])
        /\ (desc <> [] ->
            exists quoted,
              block = nl ++ nl ++ lit "Description:" ++ nl ++ quoted
              /\ (0 < List.length quoted <= 500)%nat
              /\ ((List.length desc <= 500)%nat -> quoted = desc)
              /\ ((500 < List.length desc)%nat ->
                  quoted = firstn 497 desc ++ lit "..."
                  /\ List.length quoted = 500%nat))).
Proof.
  cbv zeta. split.
  - intros Hev.
    assert (Hmsg :
      Notify.build_message ctx recipient
      = lit "New comment on " ++ Notify.base_of (Notify.task ctx) ++ lit "."
        ++ Notify.snippet_of ctx ++ nl
        ++ lit "Work ONE task only; reply/update in Mission Control.").
    { unfold Notify.build_message. rewrite Hev. reflexivity. }
    split.
    + intros c body Hc Hbody Hne.
      assert (Ht : truthy (Notify.TaskComment.body c) = Some body).
      { rewrite Hbody. destruct body; [contradiction | reflexivity]. }
      exists (Notify.shorten 180 (Notify.newlines_to_blanks (strip body))).
      split.
      { rewrite Hmsg. unfold Notify.snippet_of. rewrite Hc, Ht.
        rewrite <- !app_assoc. reflexivity. }
      split; [apply shorten_length; lia|]. split.
      { intros H. apply shorten_chars in H. destruct H as [H|H].
        - exact (newlines_to_blanks_clean _ H).
        - discriminate. }
      split.
      * intros Hlen. apply shorten_within. exact Hlen.
      * intros Hlen. apply shorten_beyond; [lia | exact Hlen].
    + intros Hnone. rewrite Hmsg. unfold Notify.snippet_of.
      destruct Hnone as [-> | [c [-> ->]]]; reflexivity.
  - intros Hev Htype.
    assert (Hbranch :
      (str_eqb (Notify.event ctx) (lit "task.created")
       || str_eqb (Notify.event ctx) (lit "task.assigned"))
      && str_eqb (Notify.Employee.employee_type recipient) (lit "agent")
      = true).
    { rewrite Htype. destruct Hev as [-> | ->]; reflexivity. }
    exists (Notify.desc_block_of (Notify.task ctx)). split.
    + unfold Notify.build_message.
      cbn [Notify.event Notify.task Notify.Task.id Notify.Task.title].
      rewrite Hbranch.
      change (Notify.desc_block_of
                (Notify.Task.mk (Notify.Task.id (Notify.task ctx))
                   (Notify.Task.title (Notify.task ctx)) None
                   (Notify.Task.status (Notify.task ctx))
                   (Notify.Task.project_id (Notify.task ctx))
                   (Notify.Task.assignee_employee_id (Notify.task ctx))
                   (Notify.Task.reviewer_employee_id (Notify.task ctx))))
        with (@nil ascii).
      unfold Notify.base_of. cbn [Notify.Task.id Notify.Task.title].
      rewrite app_nil_r, <- !app_assoc. reflexivity.
    + unfold Notify.desc_block_of.
      set (desc := strip (opt_or (Notify.Task.description (Notify.task ctx)) [])).
      split.
      * intros ->. reflexivity.
      * intros Hne.
        assert (Hshort : Notify.shorten 500 desc <> []).
        { unfold Notify.shorten. destruct (500 <? List.length desc)%nat.
          - destruct (firstn (500 - 3) desc); discriminate.
          - exact Hne. }
        destruct (Notify.shorten 500 desc) as [|ch quoted] eqn:E;
          [contradiction|].
        cbn [nonempty]. exists (ch :: quoted).
        split; [reflexivity|]. rewrite <- E. split.
        { split.
          - rewrite E. cbn [List.length]. lia.
          - apply shorten_length. lia. }
        split.
        -- intros Hlen. apply shorten_within. exact Hlen.
        -- intros Hlen. apply shorten_beyond; [lia | exact Hlen].
Qed.

(** ** Sending the notifications *)

Lemma actor_not_recipient (tables : Notify.Tables)
    (ctx : Notify.NotifyContext) :
  ~ In (Notify.actor_employee_id ctx) (Notify.resolve_recipients tables ctx).
Proof.
  unfold Notify.resolve_recipients. rewrite iset_discard_in. tauto.
Qed.

Lemma insert_sorted_in (x y : Z) (l : list Z) :
  In x (Notify.insert_sorted y l) <-> x = y \/ In x l.
Proof.
  induction l as [|z l IH]; cbn [Notify.insert_sorted In].
  - split; intros [G|[]]; left; congruence.
  - destruct (Z.ltb_spec y z) as [Hlt|Hge].
    + cbn [In]. split; intros [G|G]; auto.
    + destruct (Z.eqb_spec y z) as [->|Hne].
      * cbn [In]. split; [intros G; right; exact G|].
        intros [->|G]; [left; reflexivity | exact G].
      * cbn [In]. rewrite IH. split.
        -- intros [G|[G|G]]; auto.
        -- intros [G|[G|G]]; auto.
Qed.

Lemma sorted_ids_in (x : Z) (l : list Z) :
  In x (Notify.sorted_ids (map Some l)) <-> In x l.
Proof.
  unfold Notify.sorted_ids.
  assert (H : forall acc,
    In x (fold_left (fun acc i => match i with
                                  | Some z => Notify.insert_sorted z acc
                                  | None => acc
                                  end) (map Some l) acc)
    <-> In x acc \/ In x l).
  { induction l as [|y l IH]; intros acc; cbn [map fold_left In].
    - tauto.
    - rewrite IH, insert_sorted_in. split.
      + intros [[->|G]|G]; auto.
      + intros [G|[->|G]]; auto. }
  rewrite H. cbn [In]. tauto.
Qed.

Lemma employees_with_session_keys_in (tables : Notify.Tables) (ids : list Z)
    (e : Notify.Employee.t) :
  In e (Notify._employees_with_session_keys tables (map Some ids)) <->
  In e (Notify.employees tables)
  /\ (exists z, Notify.Employee.id e = Some z /\ In z ids)
  /\ Notify.attr_enabled e = true
  /\ exists sk, truthy (Notify.Employee.openclaw_session_key e) = Some sk.
Proof.
  unfold Notify._employees_with_session_keys.
  assert (Hmem : forall z, Notify.iset_mem z (Notify.sorted_ids (map Some ids))
                           = true <-> In z ids).
  { intros z. rewrite iset_mem_in. apply sorted_ids_in. }
  destruct (Notify.sorted_ids (map Some ids)) as [|i0 rest] eqn:E.
  - cbn [In]. split; [intros []|].
    intros [_ [[z [_ Hz]] _]]. apply Hmem in Hz. discriminate.
  - rewrite !filter_In, andb_true_iff. split.
    + intros [[Hin Hid] [Hen Hkey]]. split; [exact Hin|]. split; [|split].
      * destruct (Notify.Employee.id e) as [z|]; [|discriminate].
        exists z. split; [reflexivity | apply Hmem; exact Hid].
      * exact Hen.
      * destruct (truthy _) as [sk|]; [exists sk; reflexivity | discriminate].
    + intros [Hin [[z [Hid Hz]] [Hen [sk Hsk]]]]. repeat split; try assumption.
      * rewrite Hid. apply Hmem. exact Hz.
      * rewrite Hsk. reflexivity.
Qed.

Lemma notify_each_log (client : Notify.Client) (ctx : Notify.NotifyContext)
    (recipients : list Notify.Employee.t) :
  (forall e, In e recipients ->
     exists sk, truthy (Notify.Employee.openclaw_session_key e) = Some sk) ->
  forall made,
    Notify.notify_each client ctx recipients made
    = (made ++ map (notification_for ctx) recipients, Ret tt).
Proof.
  induction recipients as [|e rest IH]; intros Hkeys made;
    cbn [Notify.notify_each map].
  - rewrite app_nil_r. reflexivity.
  - destruct (Hkeys e (or_introl eq_refl)) as [sk Hsk]. rewrite Hsk.
    assert (Hnote : Notify.sessions_send sk (Notify.build_message ctx e)
                    = notification_for ctx e).
    { unfold notification_for. unfold truthy in Hsk.
      destruct (Notify.Employee.openclaw_session_key e) as [[|c r]|];
        try discriminate. injection Hsk as <-. reflexivity. }
    unfold Notify.tools_invoke. rewrite Hnote.
    assert (Hrest : Notify.notify_each client ctx rest
                      (made ++ [notification_for ctx e])
                    = (made ++ notification_for ctx e
                            :: map (notification_for ctx) rest, Ret tt)).
    { rewrite IH by (intros e' He'; apply Hkeys; right; exact He').
      rewrite <- app_assoc. reflexivity. }
    destruct (client (List.length made) (notification_for ctx e));
      exact Hrest.
Qed.

(** X25. Notifications are best effort and reach each recipient once. With
    a client, [notify_openclaw] invokes "sessions_send" once for every
    employee who is a recipient of the event, has notifications enabled and
    has a session key - in table order, whatever the client answers or
    raises on any of the calls - and returns without raising; without a
    client it invokes nothing. None of the employees notified is the actor
    of the event. *)
Theorem notify_openclaw_is_best_effort (client : Notify.Client)
    (tables : Notify.Tables) (ctx : Notify.NotifyContext)
    (made : list Notify.Invocation) :
  let notified :=
    Notify._employees_with_session_keys tables
      (map Some (Notify.resolve_recipients tables ctx)) in
  Notify.notify_openclaw (Some client) tables ctx made
  = (made ++ map (notification_for ctx) notified, Ret tt)
  /\ Notify.notify_openclaw None tables ctx made = (made, Ret tt)
  /\ (forall e,
        In e notified <->
        In e (Notify.employees tables)
        /\ (exists z, Notify.Employee.id e = Some z
                      /\ In z (Notify.resolve_recipients tables ctx))
        /\ Notify.attr_enabled e = true
        /\ exists sk, truthy (Notify.Employee.openclaw_session_key e) = Some sk)
  /\ (forall e,
        In e notified ->
        Notify.Employee.id e <> Some (Notify.actor_employee_id ctx)).
Proof.
  cbv zeta. split; [|split; [reflexivity|split]].
  - unfold Notify.notify_openclaw.
    destruct (Notify._employees_with_session_keys tables
                (map Some (Notify.resolve_recipients tables ctx)))
      as [|e0 rest] eqn:E.
    + rewrite app_nil_r. reflexivity.
    + apply notify_each_log. intros e He. rewrite <- E in He.
      apply employees_with_session_keys_in in He. tauto.
  - intros e. apply employees_with_session_keys_in.
  - intros e He Hid. apply employees_with_session_keys_in in He.
    destruct He as [_ [[z [Hz Hin]] _]]. rewrite Hid in Hz.
    injection Hz as <-.
    exact (actor_not_recipient tables ctx Hin).
Qed.

(** ** Re-keying and authentication together *)

Lemma rekey_result (pbkdf2 : str -> bytes -> bytes -> Z -> bytes) (env : Env)
    (agent : Agent) (st : State) :
  exists st' h now,
    let token := _b64encode (secrets_token_bytes env (tick (world st)) 32) in
    rekey pbkdf2 env agent st = (st', Val (set_token_hash agent h now, token))
    /\ h <> []
    /\ verify_agent_token pbkdf2 token h = Ret true
    /\ agents_tbl (db st')
       = map (fun x => if (agent_id x =? agent_id agent)%N
                       then set_token_hash agent h now else x)
             (agents_tbl (db st)).
Proof.
  eexists _, _, _. cbv zeta. split; [reflexivity|]. split; [discriminate|].
  split; [apply verify_formatted | reflexivity].
Qed.

(** X26. After re-keying, the new token authenticates. If the agent has a
    row in the agents table, the random source delivers its 32 bytes and
    the stored hashes of the other rows are readable, then a request that
    presents the token returned by [rekey] is authenticated against the
    database that [rekey] leaves: the agent found is the re-keyed agent or
    another row whose stored hash accepts the same token. *)
Theorem rekeyed_agent_can_authenticate
    (pbkdf2 : str -> bytes -> bytes -> Z -> bytes) (env : Env) (agent : Agent)
    (st : State) :
  In agent (agents_tbl (db st)) ->
  List.length (secrets_token_bytes env (tick (world st)) 32) = 32%nat ->
  (forall a h, In a (agents_tbl (db st)) -> agent_id a <> agent_id agent ->
               truthy_hash a = Some h -> hash_is_readable pbkdf2 h) ->
  exists st' agent' token found,
    rekey pbkdf2 env agent st = (st', Val (agent', token))
    /\ AgentAuth.get_agent_auth_context pbkdf2 (Some token) (db st')
       = Returned (AgentAuth.mkAgentAuthContext (lit "agent") found)
    /\ row_accepts pbkdf2 token found
    /\ (found = agent'
        \/ (In found (agents_tbl (db st))
            /\ agent_id found <> agent_id agent)).
Proof.
  intros Hin Hlen Hread.
  destruct (rekey_result pbkdf2 env agent st) as [st' [h [now H]]].
  cbv zeta in H. destruct H as [Hrun [Hne [Hv Htbl]]].
  set (token := _b64encode (secrets_token_bytes env (tick (world st)) 32)) in *.
  set (agent' := set_token_hash agent h now) in *.
  assert (Htoken : token <> []).
  { pose proof (b64encode_of_32_bytes _ Hlen) as Hl. fold token in Hl.
    destruct token; discriminate. }
  assert (Hh : truthy_hash agent' = Some h).
  { unfold truthy_hash, truthy. cbn. destruct h; [contradiction|reflexivity]. }
  assert (Hrows : forall x, In x (agents_tbl (db st')) ->
            x = agent'
            \/ (In x (agents_tbl (db st)) /\ agent_id x <> agent_id agent)).
  { intros x Hx. rewrite Htbl in Hx. apply in_map_iff in Hx.
    destruct Hx as [y [Hy Hyin]].
    destruct (N.eqb_spec (agent_id y) (agent_id agent)) as [E|E].
    - left. symmetry. exact Hy.
    - right. subst x. split; assumption. }
  assert (Hnew : In agent' (agents_tbl (db st'))).
  { rewrite Htbl. apply in_map_iff. exists agent. split; [|exact Hin].
    rewrite N.eqb_refl. reflexivity. }
  destruct (first_verified_readable pbkdf2 token
              (AgentAuth.agents_with_hash (db st'))) as [found Hfound].
  - intros a ha Ha Hha. unfold AgentAuth.agents_with_hash in Ha.
    apply filter_In in Ha. destruct (Hrows a (proj1 Ha)) as [->|[Hold Hid]].
    + rewrite Hh in Hha. injection Hha as <-. exists true. exact Hv.
    + exact (Hread a ha Hold Hid Hha token).
  - exists agent'. split.
    + exact (truthy_hash_in_query (db st') agent' h Hnew Hh).
    + exists h. split; assumption.
  - exists st', agent', token, found. split; [exact Hrun|].
    pose proof (first_verified_some pbkdf2 token _ found Hfound)
      as [Hfin Hacc].
    split; [|split; [exact Hacc|]].
    + unfold AgentAuth.get_agent_auth_context.
      assert (Ht : truthy (Some token) = Some token)
        by (destruct token; [contradiction | reflexivity]).
      rewrite Ht. unfold AgentAuth._find_agent_for_token. rewrite Hfound.
      reflexivity.
    + unfold AgentAuth.agents_with_hash in Hfin. apply filter_In in Hfin.
      exact (Hrows found (proj1 Hfin)).
Qed.

Lemma rekeyed_agent_can_authenticate_witness :
  exists st' agent' token found,
    rekey toy_pbkdf2 quiet_env (example_agent 1 "Ada")
      (set_db idle_state (example_db [example_agent 1 "Ada"]))
    = (st', Val (agent', token))
    /\ AgentAuth.get_agent_auth_context toy_pbkdf2 (Some token) (db st')
       = Returned (AgentAuth.mkAgentAuthContext (lit "agent") found)
    /\ row_accepts toy_pbkdf2 token found
    /\ (found = agent'
        \/ (In found (agents_tbl
                        (db (set_db idle_state
                               (example_db [example_agent 1 "Ada"]))))
            /\ agent_id found <> agent_id (example_agent 1 "Ada"))).
Proof.
  apply (rekeyed_agent_can_authenticate toy_pbkdf2 quiet_env
           (example_agent 1 "Ada")
           (set_db idle_state (example_db [example_agent 1 "Ada"]))).
  - left. reflexivity.
  - reflexivity.
  - intros a h [<-|[<-|[]]] Hid Hh.
    + contradiction.
    + discriminate.
Defined.

(** ** Schema migration *)

Lemma filter_keeps_all {A : Type} (p : A -> bool) (l : list A) :
  (forall x, In x l -> p x = true) -> filter p l = l.
Proof.
  induction l as [|x l IH]; intros H; cbn [filter]; [reflexivity|].
  rewrite (H x (or_introl eq_refl)), IH; [reflexivity|].
  intros y Hy. apply H. right. exact Hy.
Qed.

Lemma existsb_false_forall {A : Type} (p : A -> bool) (l : list A) :
  existsb p l = false -> forall x, In x l -> p x = false.
Proof.
  intros H x Hx. destruct (p x) eqn:E; [|reflexivity].
  assert (existsb p l = true) by (apply existsb_exists; exists x; auto).
  congruence.
Qed.

Section MigrationProperties.

Import Migration.

Let agents := lit "agents".
Let hash_column := lit "agent_token_hash".
Let hash_index := lit "ix_agents_agent_token_hash".

(** X27. The migration can be undone. On a schema that has the agents
    table without the column [agent_token_hash], no index of the name
    [ix_agents_agent_token_hash] and no index of that table on such a
    column, [upgrade] succeeds and adds the nullable column and the
    non-unique index, and [downgrade] applied to the result gives back the
    schema exactly. Neither step can be repeated: [upgrade] on the upgraded
    schema and [downgrade] on the original one are refused. *)
Theorem migration_round_trip (s : Schema) :
  has_table s agents = true ->
  has_column s agents hash_column = false ->
  has_index s hash_index = false ->
  (forall i, In i (indexes s) -> index_table i = agents ->
             mem_str hash_column (index_columns i) = false) ->
  exists upgraded,
    upgrade s = Ret upgraded
    /\ has_column upgraded agents hash_column = true
    /\ In (mkIndex hash_index agents [hash_column] false) (indexes upgraded)
    /\ downgrade upgraded = Ret s
    /\ (exists e, upgrade upgraded = Raise e)
    /\ (exists e, downgrade s = Raise e).
Proof.
  intros Htable Hcolumn Hindex Hfree.
  set (added := mkSchema
         (map (fun t => if str_eqb (table_name t) agents
                        then mkTable (table_name t)
                               (table_columns t
                                ++ [mkColumn hash_column (lit "AutoString")
                                      true])
                        else t) (tables s))
         (indexes s)).
  assert (Hadd : add_column agents
                   (mkColumn hash_column (lit "AutoString") true) s
                 = Ret added).
  { unfold add_column. rewrite Htable. cbn [negb column_name].
    rewrite Hcolumn. reflexivity. }
  assert (Hhas : has_column added agents hash_column = true).
  { unfold has_table in Htable. apply existsb_exists in Htable.
    destruct Htable as [t [Hin Hname]].
    unfold has_column, added. cbn [tables]. apply existsb_exists.
    exists (mkTable (table_name t)
              (table_columns t
               ++ [mkColumn hash_column (lit "AutoString") true])).
    split.
    - apply in_map_iff. exists t. rewrite Hname. split; [reflexivity|exact Hin].
    - cbn [table_name table_columns]. rewrite Hname. cbn [andb].
      rewrite existsb_app. apply orb_true_iff. right. reflexivity. }
  set (upgraded := mkSchema (tables added)
         (indexes s ++ [mkIndex hash_index agents [hash_column] false])).
  assert (Hup : upgrade s = Ret upgraded).
  { unfold upgrade. fold agents hash_column hash_index. rewrite Hadd.
    cbn [obind]. unfold create_index, f.
    replace (has_index added hash_index) with false
      by (symmetry; exact Hindex).
    cbn [forallb]. rewrite Hhas. reflexivity. }
  assert (Hix : has_index upgraded hash_index = true).
  { unfold has_index, upgraded. cbn [indexes]. rewrite existsb_app.
    apply orb_true_iff. right. reflexivity. }
  exists upgraded. split; [exact Hup|]. split; [exact Hhas|]. split.
  { unfold upgraded. cbn [indexes]. apply in_or_app. right. left.
    reflexivity. }
  split; [|split].
  - unfold downgrade, f. fold agents hash_column hash_index.
    unfold drop_index. rewrite Hix. cbn [negb obind].
    assert (Hfilter :
      filter (fun i => negb (str_eqb (index_name i) hash_index))
             (indexes upgraded) = indexes s).
    { unfold upgraded. cbn [indexes]. rewrite filter_app. cbn [filter].
      change (str_eqb (index_name (mkIndex hash_index agents [hash_column]
                                     false)) hash_index) with true.
      cbn [negb]. rewrite app_nil_r. apply filter_keeps_all.
      intros i Hi. unfold has_index in Hindex.
      rewrite (existsb_false_forall _ _ Hindex i Hi). reflexivity. }
    rewrite Hfilter. unfold drop_column.
    change (has_column (mkSchema (tables upgraded) (indexes s)) agents
              hash_column)
      with (has_column added agents hash_column).
    rewrite Hhas. cbn [negb tables indexes]. f_equal.
    destruct s as [tbls idxs]. cbn [tables indexes] in *. f_equal.
    + unfold upgraded, added. cbn [tables]. rewrite map_map.
      rewrite <- (map_id tbls) at 2. apply map_ext_in. intros t Ht.
      destruct (str_eqb (table_name t) agents) eqn:E.
      * cbn [table_name table_columns]. rewrite E.
        rewrite filter_app. cbn [filter column_name].
        change (str_eqb hash_column hash_column) with true. cbn [negb].
        rewrite app_nil_r.
        unfold has_column in Hcolumn. cbn [tables] in Hcolumn.
        pose proof (existsb_false_forall _ _ Hcolumn t Ht) as Hno.
        cbn beta in Hno. rewrite E in Hno. cbn [andb] in Hno.
        rewrite filter_keeps_all.
        -- destruct t. reflexivity.
        -- intros c Hc. rewrite (existsb_false_forall _ _ Hno c Hc).
           reflexivity.
      * rewrite E. reflexivity.
    + apply filter_keeps_all. intros i Hi.
      destruct (str_eqb (index_table i) agents) eqn:E; [|reflexivity].
      apply str_eqb_eq in E. rewrite (Hfree i Hi E). reflexivity.
  - unfold upgrade. fold agents hash_column. unfold add_column.
    change (has_table upgraded agents) with (has_table added agents).
    destruct (has_table added agents); cbn [negb].
    + cbn [column_name].
      change (has_column upgraded agents hash_column)
        with (has_column added agents hash_column).
      rewrite Hhas. eexists. reflexivity.
    + eexists. reflexivity.
  - unfold downgrade, f. fold hash_index agents. unfold drop_index.
    rewrite Hindex. eexists. reflexivity.
Qed.

End MigrationProperties.

Lemma migration_round_trip_witness :
  exists upgraded,
    Migration.upgrade
      (Migration.mkSchema
         [Migration.mkTable (lit "agents")
            [Migration.mkColumn (lit "id") (lit "Uuid") false;
             Migration.mkColumn (lit "name") (lit "AutoString") false]]
         [])
    = Ret upgraded
    /\ Migration.downgrade upgraded
       = Ret (Migration.mkSchema
                [Migration.mkTable (lit "agents")
                   [Migration.mkColumn (lit "id") (lit "Uuid") false;
                    Migration.mkColumn (lit "name") (lit "AutoString") false]]
                []).
Proof.
  destruct (migration_round_trip
              (Migration.mkSchema
                 [Migration.mkTable (lit "agents")
                    [Migration.mkColumn (lit "id") (lit "Uuid") false;
                     Migration.mkColumn (lit "name") (lit "AutoString") false]]
                 []))
    as [upgraded [Hup [_ [_ [Hdown _]]]]];
    [reflexivity | reflexivity | reflexivity | intros i [] |].
  exists upgraded. split; assumption.
Defined.

(** ** Provisioning message: the identity it announces *)

(** X28. The identity a provisioning message announces. For an agent whose
    name has a letter or a digit, [build_provisioning_message] draws nothing
    from the random source and names the slug of the name both as the agent
    id and as the last segment of the workspace path; the same slug is what
    [_gateway_agent_id] later gives for the agent, if the agent has no
    session key or the key "agent:<slug>:main". For a name without letters
    and digits the message takes two random identifiers, the first for the
    agent id and the second for the workspace path. *)
Theorem provisioning_message_identity (env : Env) (settings : Settings)
    (agent : Agent) (st : State) :
  let name := agent_name agent in
  let root := rstrip_char "/" (configured_root settings) in
  let rest :=
    message_steps settings ++ lit "Files:"
    ++ concat (map (fun name =>
                      _render_file_block name
                        (templates_get (_read_templates env) name))
                   TEMPLATE_FILES) in
  (slug_of name <> [] ->
   build_provisioning_message env settings agent st
   = (st,
      Val (message_head agent (slug_of name)
           ++ (lit "Workspace path: " ++ root ++ lit "/" ++ slug_of name ++ nl)
           ++ rest))
   /\ (openclaw_session_id agent = None
       \/ openclaw_session_id agent
          = Some (lit "agent:" ++ slug_of name ++ lit ":main") ->
       _gateway_agent_id env agent st = (st, Val (slug_of name))))
  /\ (slug_of name = [] ->
      build_provisioning_message env settings agent st
      = (set_world st (mkWorld (clock (world st)) (S (S (tick (world st))))
                               (requests (world st))),
         Val (message_head agent (uuid4_hex env (tick (world st)))
              ++ (lit "Workspace path: " ++ root ++ lit "/"
                  ++ uuid4_hex env (S (tick (world st))) ++ nl)
              ++ rest))).
Proof.
  cbv zeta. split.
  - intros Hne.
    assert (Hn : nonempty (slug_of (agent_name agent)) = true)
      by (destruct (slug_of (agent_name agent)); [contradiction|reflexivity]).
    split.
    + unfold build_provisioning_message, _workspace_path, _slugify, bind, ret.
      rewrite Hn. unfold message_head, message_steps, configured_root.
      f_equal. f_equal. repeat rewrite <- app_assoc. reflexivity.
    + intros [Hkey|Hkey].
      * unfold _gateway_agent_id, _slugify. rewrite Hkey, Hn. reflexivity.
      * destruct (built_key_segments (slug_of (agent_name agent))
                    (slug_plain (agent_name agent)))
          as [Hsplit [_ [_ Hstart]]].
        unfold _gateway_agent_id. rewrite Hkey.
        change (opt_or (Some (lit "agent:" ++ slug_of (agent_name agent)
                              ++ lit ":main")) [])
          with (lit "agent:" ++ slug_of (agent_name agent) ++ lit ":main").
        rewrite Hstart, Hsplit.
        cbn [List.length Nat.leb SESSION_KEY_PARTS_MIN nth andb].
        rewrite Hn. reflexivity.
  - intros Hnil.
    unfold build_provisioning_message, _workspace_path, _slugify, bind, ret,
      perform, uuid4.
    rewrite Hnil. cbn [nonempty world set_world tick clock requests db backoff
      slept deadline_hits].
    unfold message_head, message_steps, configured_root, set_world.
    cbn [world tick clock requests db backoff slept deadline_hits].
    f_equal. f_equal. repeat rewrite <- app_assoc. reflexivity.
Qed.

Lemma provisioning_message_identity_witness :
  _gateway_agent_id quiet_env (example_agent 1 "Ada Lovelace!!") idle_state
  = (idle_state, Val (lit "ada-lovelace")).
Proof.
  refine (proj2 (proj1 (provisioning_message_identity quiet_env
                          (mkSettings [] [] (lit "agent:main:main"))
                          (example_agent 1 "Ada Lovelace!!") idle_state) _)
                (or_introl eq_refl)).
  vm_compute. discriminate.
Defined.

(** ** Slugs are fixed points *)

Lemma lower_slug_char (c : ascii) :
  is_slug_char c = true \/ c = "-"%char -> lower_char c = c.
Proof. intros [H | ->]; [|reflexivity]. revert H. ascii_cases c. Qed.

Lemma collapse_runs_fixed (s : str) :
  Forall (fun c => is_slug_char c = true \/ c = "-"%char) s ->
  contains (lit "--") s = false ->
  forall in_run,
    (in_run = true -> startswith (lit "-") s = false) ->
    collapse_runs in_run s = s.
Proof.
  induction s as [|c s IH]; intros Hall Hdouble in_run Hrun; [reflexivity|].
  inversion Hall as [|c' s' Hc Hs]; subst.
  rewrite double_hyphen_cons in Hdouble. apply orb_false_iff in Hdouble.
  destruct Hdouble as [Hpair Hrest]. cbn [collapse_runs].
  destruct (is_slug_char c) eqn:E.
  - f_equal. apply IH; [exact Hs | exact Hrest | discriminate].
  - destruct Hc as [Hc | ->]; [discriminate|].
    destruct in_run.
    + specialize (Hrun eq_refl). rewrite starts_hyphen_cons in Hrun.
      discriminate.
    + f_equal. apply IH; [exact Hs | exact Hrest |].
      intros _. exact Hpair.
Qed.

(** X29. A slug is its own slug. Whatever the text, slugifying the result
    of [_slugify]'s pattern once more changes nothing - the slug has only
    the characters a-z, 0-9 and single inner hyphens - so an agent named by
    its slug keeps its gateway identity, session key and workspace path. *)
Theorem slug_is_a_fixed_point (env : Env) (value : str) (st : State) :
  slug_of (slug_of value) = slug_of value
  /\ slug_shaped (slug_of value)
  /\ _slugify env (slug_of value) st
     = (if nonempty (slug_of value) then (st, Val (slug_of value))
        else perform (uuid4 env) st)
  /\ _build_session_key env (slug_of value) st
     = _build_session_key env value st.
Proof.
  assert (Hfix : slug_of (slug_of value) = slug_of value).
  { destruct (slug_of_shaped value) as [Hchars [Hstart [Hend Hdouble]]].
    set (s := slug_of value) in *. unfold slug_of at 1.
    assert (Hlower : lower s = s).
    { unfold lower. rewrite <- (map_id s) at 2. apply map_ext_in.
      intros c Hc. rewrite Forall_forall in Hchars.
      exact (lower_slug_char c (Hchars c Hc)). }
    rewrite Hlower, (collapse_runs_fixed s Hchars Hdouble false)
      by discriminate.
    unfold strip_char. apply strip_by_clean.
    - intros c r Hs. rewrite Hs, starts_hyphen_cons in Hstart. exact Hstart.
    - intros front z Hs. destruct (Ascii.eqb_spec "-"%char z) as [<-|Hz];
        [|reflexivity].
      exfalso. exact (Hend front Hs). }
  split; [exact Hfix|]. split; [apply slug_of_shaped|]. split.
  - unfold _slugify. rewrite Hfix. destruct (nonempty (slug_of value));
      reflexivity.
  - unfold _build_session_key, _slugify. rewrite Hfix. reflexivity.
Qed.
